(** * The audit collector of openGauss: pipe framing, index table, retention,
      query and delete.

    A shallow embedding of [src/gausskernel/process/postmaster/pgaudit.cpp].
    Integers of the C code are [Z]; the wrap-around of the unsigned types is
    written out.  Memory (the read buffer, a record, a file, a struct as it
    is written to disk) is a [list Z] of bytes in host order, which is taken
    to be little-endian, with the field offsets of the LP64 ABI. *)

From stdpp Require Import base list gmap numbers strings pretty.
From Stdlib Require Import ZArith Lia.

Local Open Scope Z_scope.

(** ** Bytes and memory images *)

Module Mem.

Abbreviation bytes := (list Z).

Definition byte_of (v : Z) (i : nat) : Z :=
  Z.land (Z.shiftr v (8 * Z.of_nat i)) 255.

(** The [n] bytes of the two's complement image of [v], lowest first. *)
Definition le_bytes (n : nat) (v : Z) : bytes := map (byte_of v) (seq 0 n).

Fixpoint le_value (bs : bytes) : Z :=
  match bs with
  | [] => 0
  | b :: r => b + 256 * le_value r
  end.

Definition le_signed (bs : bytes) : Z :=
  let v := le_value bs in
  let w := 8 * Z.of_nat (length bs) in
  if v <? 2 ^ (w - 1) then v else v - 2 ^ w.

Definition wrap (w : Z) (v : Z) : Z := v mod 2 ^ w.
Definition u16 := wrap 16.
Definition u32 := wrap 32.
Definition u64 := wrap 64.

(** The value a 32-bit two's complement [int] holds after a wrap. *)
Definition i32 (v : Z) : Z :=
  let u := wrap 32 v in if u <? 2 ^ 31 then u else u - 2 ^ 32.

(** [read off n m]: the [n] bytes of [m] from offset [off] (fewer when [m]
    ends before). *)
Definition read (off n : nat) (m : bytes) : bytes := take n (drop off m).

(** [write off bs m]: [memcpy] of [bs] to offset [off] of the region [m].
    The region keeps its length: a store past its end is outside the
    model (undefined in C) and is dropped. *)
Definition write (off : nat) (bs : bytes) (m : bytes) : bytes :=
  take off m ++ take (length m - off) bs ++ drop (off + length bs) m.

Definition read_u16 (off : nat) (m : bytes) : Z := le_value (read off 2 m).
Definition read_u32 (off : nat) (m : bytes) : Z := le_value (read off 4 m).
Definition read_u64 (off : nat) (m : bytes) : Z := le_value (read off 8 m).
Definition read_i64 (off : nat) (m : bytes) : Z := le_signed (read off 8 m).

Definition of_string (s : string) : bytes :=
  map (fun a => Z.of_nat (Ascii.nat_of_ascii a)) (String.list_ascii_of_string s).

End Mem.

Import Mem.

(** ** Layout constants *)

Module Layout.

(** [sizeof(PipeProtoHeader)] and [offsetof(PipeProtoHeader, data)]:
    nuls at 0, len at 2, pid (8 bytes) at 8, is_last at 16, data at 17. *)
Definition sizeof_PipeProtoHeader : Z := 24.
Definition PIPE_HEADER_SIZE : Z := 17.

(** [AuditMsgHdr]: signature at 0, version at 2, fields at 4, flags at 6,
    time at 8, size at 16; four bytes of padding end the struct. *)
Definition sizeof_AuditMsgHdr : Z := 24.
Definition off_version : nat := 2.
Definition off_fields : nat := 4.
Definition off_flags : nat := 6.
Definition off_time : nat := 8.
Definition off_size : nat := 16.

(** [AuditData]: header, then type at 24 and result at 28;
    [AUDIT_HEADER_SIZE = offsetof(AuditData, varstr)]. *)
Definition off_type : nat := 24.
Definition off_result : nat := 28.
Definition AUDIT_HEADER_SIZE : Z := 32.

(** [AuditIndexTable]: maxnum, begidx, curidx, count (4 bytes each), then
    last_audit_time at 16; [indextbl_header_size = offsetof(.., data)].
    [AuditIndexItem]: ctime at 0, filenum at 8, filesize at 12. *)
Definition indextbl_header_size : Z := 24.
Definition sizeof_AuditIndexItem : Z := 16.

End Layout.

Import Layout.

Definition NBUFFER_LISTS : Z := 256.
Definition SPACE_INTERVAL_SIZE : Z := 10 * 1024 * 1024.
Definition SPACE_MAXIMUM_SIZE : Z := 1024 * 1024 * 1024 * 1024.
Definition AUDIT_TUPLE_NORMAL : Z := 1.
Definition AUDIT_TUPLE_DEAD : Z := 2.
Definition PGAUDIT_QUERY_COLS : Z := 13.
Definition SECS_PER_DAY : Z := 86400.
Definition SECS_PER_MINUTE : Z := 60.

(** Values of the enumerations the collector itself reports with. *)
Definition AUDIT_INTERNAL_EVENT : Z := 34.
Definition AUDIT_OK : Z := 1.

(** ** Description tables *)

Definition AuditTypeDescs : list string :=
  [ "unknown"; "login_success"; "login_failed"; "user_logout"; "system_start";
    "system_stop"; "system_recover"; "system_switch"; "lock_user";
    "unlock_user"; "grant_role"; "revoke_role"; "user_violation";
    "ddl_database"; "ddl_directory"; "ddl_tablespace"; "ddl_schema";
    "ddl_user"; "ddl_table"; "ddl_index"; "ddl_view"; "ddl_trigger";
    "ddl_function"; "ddl_resourcepool"; "ddl_workload";
    "ddl_serverforhadoop"; "ddl_datasource"; "ddl_nodegroup";
    "ddl_rowlevelsecurity"; "ddl_synonym"; "ddl_type"; "ddl_textsearch";
    "dml_action"; "dml_action_select"; "internal_event"; "function_exec";
    "copy_to"; "copy_from"; "set_parameter" ]%string.

Definition AuditTypeNum : Z := Z.of_nat (length AuditTypeDescs).

Definition AuditResultDescs : list string := [ "unknown"; "ok"; "failed" ]%string.

Definition AuditResultNum : Z := Z.of_nat (length AuditResultDescs).

(** The subscript the macro [AuditTypeDesc] uses. *)
Definition AuditTypeDesc_index (type : Z) : Z :=
  if (0 <? type) && (type <? AuditTypeNum) then type else 0.

Definition AuditResultDesc_index (type : Z) : Z :=
  if (0 <? type) && (type <? AuditResultNum) then type else 0.

(** The macros themselves; [None] would be a read outside the table. *)
Definition AuditTypeDesc (type : Z) : option string :=
  AuditTypeDescs !! Z.to_nat (AuditTypeDesc_index type).

Definition AuditResultDesc (type : Z) : option string :=
  AuditResultDescs !! Z.to_nat (AuditResultDesc_index type).

(** ** The chunk protocol, writer side *)

Record PipeProtoChunk := mkChunk {
  p_nuls0 : Z;
  p_nuls1 : Z;
  p_len : Z;
  p_pid : Z;
  p_is_last : Z;
  p_data : bytes
}.

Definition char_t : Z := 116.
Definition char_f : Z := 102.

Section Pipe.

(** [PIPE_BUF] of <limits.h>, when the platform defines it. *)
Variable PIPE_BUF : option Z.

Definition PIPE_CHUNK_SIZE : Z :=
  match PIPE_BUF with
  | Some b => if 65536 <? b then 65536 else b
  | None => 512
  end.

Definition PIPE_MAX_PAYLOAD : Z := PIPE_CHUNK_SIZE - PIPE_HEADER_SIZE.

Definition READ_BUF_SIZE : Z := 2 * PIPE_CHUNK_SIZE.

(** The loop of [write_pipe_chunks]; the result lists the chunks handed to
    [write], one call each.  [data] is what is left to send, [len] its
    length.  The loop has no bound of its own when [PIPE_MAX_PAYLOAD] is
    not positive: the fuel then runs out. *)
Fixpoint write_pipe_chunks_loop (fuel : nat) (MyProcPid : Z) (data : bytes)
    : option (list PipeProtoChunk) :=
  let len := Z.of_nat (length data) in
  if PIPE_MAX_PAYLOAD <? len then
    match fuel with
    | O => None
    | S fuel' =>
        let p := mkChunk 0 0 (u16 PIPE_MAX_PAYLOAD) MyProcPid char_f
                   (take (Z.to_nat PIPE_MAX_PAYLOAD) data) in
        rest ← write_pipe_chunks_loop fuel' MyProcPid
                 (drop (Z.to_nat PIPE_MAX_PAYLOAD) data);
        Some (p :: rest)
    end
  else
    Some [ mkChunk 0 0 (u16 len) MyProcPid char_t data ].

Definition write_pipe_chunks (MyProcPid : Z) (data : bytes)
    : option (list PipeProtoChunk) :=
  write_pipe_chunks_loop (length data) MyProcPid data.

End Pipe.

(** ** The audit index table *)

Record AuditIndexItem := mkItem {
  ctime : Z;      (* pg_time_t: negative when the clock went back *)
  filenum : Z;    (* uint32 *)
  filesize : Z    (* uint32 *)
}.

Definition zero_item : AuditIndexItem := mkItem 0 0 0.

Record AuditIndexTable := mkTbl {
  maxnum : Z;
  begidx : Z;
  curidx : Z;
  count : Z;
  last_audit_time : Z;
  data : list AuditIndexItem
}.

(** [indextbl->data + index].  An index outside the array is undefined in C;
    here it reads the zero item and a store through it is dropped. *)
Definition item_at (t : AuditIndexTable) (index : Z) : AuditIndexItem :=
  default zero_item (data t !! Z.to_nat index).

Definition set_item (index : Z) (it : AuditIndexItem) (t : AuditIndexTable)
    : AuditIndexTable :=
  mkTbl (maxnum t) (begidx t) (curidx t) (count t) (last_audit_time t)
        (<[Z.to_nat index := it]> (data t)).

Definition set_begidx (v : Z) (t : AuditIndexTable) : AuditIndexTable :=
  mkTbl (maxnum t) v (curidx t) (count t) (last_audit_time t) (data t).

Definition set_curidx (v : Z) (t : AuditIndexTable) : AuditIndexTable :=
  mkTbl (maxnum t) (begidx t) v (count t) (last_audit_time t) (data t).

Definition set_count (v : Z) (t : AuditIndexTable) : AuditIndexTable :=
  mkTbl (maxnum t) (begidx t) (curidx t) v (last_audit_time t) (data t).

Definition set_last_audit_time (v : Z) (t : AuditIndexTable) : AuditIndexTable :=
  mkTbl (maxnum t) (begidx t) (curidx t) (count t) v (data t).

Definition set_ctime (v : Z) (it : AuditIndexItem) : AuditIndexItem :=
  mkItem v (filenum it) (filesize it).

Definition set_filenum (v : Z) (it : AuditIndexItem) : AuditIndexItem :=
  mkItem (ctime it) v (filesize it).

Definition set_filesize (v : Z) (it : AuditIndexItem) : AuditIndexItem :=
  mkItem (ctime it) (filenum it) v.

(** The macro [AUDIT_COUNT], in uint32 arithmetic. *)
Definition AUDIT_COUNT (t : AuditIndexTable) : Z :=
  if begidx t <=? curidx t
  then u32 (curidx t - begidx t + 1)
  else u32 (curidx t + maxnum t + 1 - begidx t).

(** [(index + 1) % maxnum] on uint32. *)
Definition next_index (t : AuditIndexTable) (index : Z) : Z :=
  u32 (index + 1) mod maxnum t.

(** The image of the table that [fwrite] puts in [index_table]. *)
Definition encode_item (it : AuditIndexItem) : bytes :=
  le_bytes 8 (ctime it) ++ le_bytes 4 (filenum it) ++ le_bytes 4 (filesize it).

Definition encode_indextbl (t : AuditIndexTable) : bytes :=
  le_bytes 4 (maxnum t) ++ le_bytes 4 (begidx t) ++ le_bytes 4 (curidx t) ++
  le_bytes 4 (count t) ++ le_bytes 8 (last_audit_time t) ++
  concat (map encode_item (resize (Z.to_nat (maxnum t)) zero_item (data t))).

Definition decode_item (b : bytes) : AuditIndexItem :=
  mkItem (read_i64 0 b) (read_u32 8 b) (read_u32 12 b).

Fixpoint decode_items (n : nat) (b : bytes) : list AuditIndexItem :=
  match n with
  | O => []
  | S n' => decode_item (take 16 b) :: decode_items n' (drop 16 b)
  end.

(** ** Files *)

(** The audit directory.  A name [<filenum>_adt] leads to an inode; an open
    handle keeps its inode when the name is unlinked. *)
Record Disk := mkDisk {
  dir : gmap Z nat;
  inodes : list bytes;
  index_file : option bytes
}.

Definition file_content (d : Disk) (fnum : Z) : option bytes :=
  ino ← dir d !! fnum; inodes d !! ino.

Definition inode_content (d : Disk) (ino : nat) : bytes :=
  default [] (inodes d !! ino).

Definition disk_append (ino : nat) (b : bytes) (d : Disk) : Disk :=
  mkDisk (dir d) (alter (fun c => c ++ b) ino (inodes d)) (index_file d).

Definition disk_store (fnum : Z) (c : bytes) (d : Disk) : Disk :=
  match dir d !! fnum with
  | Some ino => mkDisk (dir d) (<[ino := c]> (inodes d)) (index_file d)
  | None => d
  end.

Definition disk_unlink (fnum : Z) (d : Disk) : Disk :=
  mkDisk (delete fnum (dir d)) (inodes d) (index_file d).

Definition disk_create (fnum : Z) (d : Disk) : Disk :=
  mkDisk (<[fnum := length (inodes d)]> (dir d)) (inodes d ++ [[]]) (index_file d).

Definition disk_set_index (c : option bytes) (d : Disk) : Disk :=
  mkDisk (dir d) (inodes d) c.

(** ** Configuration, environment and the collector's state *)

Record Config := mkConfig {
  Audit_enabled : bool;
  Audit_RotationAge : Z;
  Audit_RotationSize : Z;
  Audit_SpaceLimit : Z;
  Audit_RemainThreshold : Z;
  Audit_RemainAge : Z;
  Audit_CleanupPolicy : Z
}.

(** What [audit_report] reads of [u_sess->proc_cxt.MyProcPort] and the
    session, already formatted. *)
Record ProcPort := mkPort {
  pp_userid : bytes;
  pp_username : bytes;
  pp_dbname : bytes;
  pp_appname : bytes;
  pp_remotehost : bytes;
  pp_threadid : bytes;
  pp_localport : bytes;
  pp_remoteport : bytes
}.

Record Env := mkEnv {
  cfg : Config;
  now : nat -> Z;                 (* the successive results of time(NULL) *)
  gmtoff : Z -> Z;                (* tm_gmtoff of pg_localtime *)
  ha_pending : bool;              (* HaShmData says PENDING_MODE *)
  am_auditor : bool;              (* t_thrd.role == AUDIT *)
  auditpipe_done : bool;
  MyProcPid : Z;
  MyProcPort : option ProcPort;
  PGXCNodeName : option bytes;
  type_enabled : Z -> bool;       (* the category switch of audit_report *)
  fopen_errno : Z -> option Z;    (* errno when fopen of <filenum>_adt fails *)
  unlink_fails : Z -> bool;
  indexfile_open_fails : bool;
  adata_padding : Z               (* what the padding of the local adata holds *)
}.

Inductive Level := DEBUG1 | LOG | WARNING | FATAL.

Inductive Event :=
  | Ereport (lvl : Level) (msg : string) (args : list Z)
  | Chmod (fnum : Z).

Record save_buffer := mkSave {
  sb_pid : Z;
  sb_data : bytes
}.

Record World := mkWorld {
  audit_indextbl : option AuditIndexTable;
  sysauditFile : option nat;
  pgaudit_totalspace : Z;         (* uint64 *)
  space_beyond_size : Z;          (* uint64 *)
  next_rotation_time : Z;
  rotation_requested : bool;
  rotation_disabled : bool;
  buffer_lists : gmap Z (list save_buffer);
  pipe_out : list PipeProtoChunk;
  disk : Disk;
  tick : nat;
  trace : list Event
}.

Definition with_indextbl (v : option AuditIndexTable) (w : World) : World :=
  mkWorld v (sysauditFile w) (pgaudit_totalspace w) (space_beyond_size w)
    (next_rotation_time w) (rotation_requested w) (rotation_disabled w)
    (buffer_lists w) (pipe_out w) (disk w) (tick w) (trace w).

Definition with_sysauditFile (v : option nat) (w : World) : World :=
  mkWorld (audit_indextbl w) v (pgaudit_totalspace w) (space_beyond_size w)
    (next_rotation_time w) (rotation_requested w) (rotation_disabled w)
    (buffer_lists w) (pipe_out w) (disk w) (tick w) (trace w).

Definition with_totalspace (v : Z) (w : World) : World :=
  mkWorld (audit_indextbl w) (sysauditFile w) v (space_beyond_size w)
    (next_rotation_time w) (rotation_requested w) (rotation_disabled w)
    (buffer_lists w) (pipe_out w) (disk w) (tick w) (trace w).

Definition with_space_beyond (v : Z) (w : World) : World :=
  mkWorld (audit_indextbl w) (sysauditFile w) (pgaudit_totalspace w) v
    (next_rotation_time w) (rotation_requested w) (rotation_disabled w)
    (buffer_lists w) (pipe_out w) (disk w) (tick w) (trace w).

Definition with_next_rotation_time (v : Z) (w : World) : World :=
  mkWorld (audit_indextbl w) (sysauditFile w) (pgaudit_totalspace w)
    (space_beyond_size w) v (rotation_requested w) (rotation_disabled w)
    (buffer_lists w) (pipe_out w) (disk w) (tick w) (trace w).

Definition with_rotation_requested (v : bool) (w : World) : World :=
  mkWorld (audit_indextbl w) (sysauditFile w) (pgaudit_totalspace w)
    (space_beyond_size w) (next_rotation_time w) v (rotation_disabled w)
    (buffer_lists w) (pipe_out w) (disk w) (tick w) (trace w).

Definition with_rotation_disabled (v : bool) (w : World) : World :=
  mkWorld (audit_indextbl w) (sysauditFile w) (pgaudit_totalspace w)
    (space_beyond_size w) (next_rotation_time w) (rotation_requested w) v
    (buffer_lists w) (pipe_out w) (disk w) (tick w) (trace w).

Definition with_buffer_lists (v : gmap Z (list save_buffer)) (w : World) : World :=
  mkWorld (audit_indextbl w) (sysauditFile w) (pgaudit_totalspace w)
    (space_beyond_size w) (next_rotation_time w) (rotation_requested w)
    (rotation_disabled w) v (pipe_out w) (disk w) (tick w) (trace w).

Definition with_pipe_out (v : list PipeProtoChunk) (w : World) : World :=
  mkWorld (audit_indextbl w) (sysauditFile w) (pgaudit_totalspace w)
    (space_beyond_size w) (next_rotation_time w) (rotation_requested w)
    (rotation_disabled w) (buffer_lists w) v (disk w) (tick w) (trace w).

Definition with_disk (v : Disk) (w : World) : World :=
  mkWorld (audit_indextbl w) (sysauditFile w) (pgaudit_totalspace w)
    (space_beyond_size w) (next_rotation_time w) (rotation_requested w)
    (rotation_disabled w) (buffer_lists w) (pipe_out w) v (tick w) (trace w).

Definition with_tick (v : nat) (w : World) : World :=
  mkWorld (audit_indextbl w) (sysauditFile w) (pgaudit_totalspace w)
    (space_beyond_size w) (next_rotation_time w) (rotation_requested w)
    (rotation_disabled w) (buffer_lists w) (pipe_out w) (disk w) v (trace w).

Definition ereport (lvl : Level) (msg : string) (args : list Z) (w : World) : World :=
  mkWorld (audit_indextbl w) (sysauditFile w) (pgaudit_totalspace w)
    (space_beyond_size w) (next_rotation_time w) (rotation_requested w)
    (rotation_disabled w) (buffer_lists w) (pipe_out w) (disk w) (tick w)
    (trace w ++ [Ereport lvl msg args]).

Definition emit (e : Event) (w : World) : World :=
  mkWorld (audit_indextbl w) (sysauditFile w) (pgaudit_totalspace w)
    (space_beyond_size w) (next_rotation_time w) (rotation_requested w)
    (rotation_disabled w) (buffer_lists w) (pipe_out w) (disk w) (tick w)
    (trace w ++ [e]).

(** [time(NULL)]: the next reading of the clock. *)
Definition time_NULL (env : Env) (w : World) : Z * World :=
  (now env (tick w), with_tick (S (tick w)) w).

(** [ftell] on the open audit file, which is written in append mode. *)
Definition ftell (w : World) (ino : nat) : Z :=
  Z.of_nat (length (inode_content (disk w) ino)).

(** ** The index file *)

Inductive FileMode := PG_BINARY_W | PG_BINARY_A.

(** [pgaudit_update_indexfile]: the whole table is written, in one piece. *)
Definition pgaudit_update_indexfile (env : Env) (mode : FileMode)
    (allow_errors : bool) (w : World) : World :=
  if indexfile_open_fails env then
    ereport (if allow_errors then LOG else FATAL)
      "could not open audit index table file" [] w
  else
    let old := match mode with
               | PG_BINARY_W => []
               | PG_BINARY_A => default [] (index_file (disk w))
               end in
    let new := match audit_indextbl w with
               | Some t => encode_indextbl t
               | None => []
               end in
    with_disk (disk_set_index (Some (old ++ new)) (disk w)) w.

(** [pgaudit_read_indexfile]: the table a directory's [index_table] holds.
    A file shorter than the table header leaves the table absent; slots the
    file does not reach stay zero ([palloc0]). *)
Definition pgaudit_read_indexfile (open_fails : bool) (d : Disk)
    : option AuditIndexTable :=
  match index_file d with
  | None => None
  | Some c =>
      if open_fails then None
      else if Z.of_nat (length c) <? indextbl_header_size then None
      else
        let n := read_u32 0 c in
        let body := resize (Z.to_nat (n * sizeof_AuditIndexItem)) 0
                      (drop (Z.to_nat indextbl_header_size) c) in
        Some (mkTbl n (read_u32 4 c) (read_u32 8 c) (read_u32 12 c)
                (read_i64 16 c) (decode_items (Z.to_nat n) body))
  end.

(** ** Records and the write path *)

(** [appendStringField]; [None] is the NULL pointer. *)
Definition appendStringField (str : bytes) (s : option bytes) : bytes :=
  match s with
  | None => str ++ le_bytes 4 0
  | Some s => str ++ le_bytes 4 (Z.of_nat (length s) + 1) ++ s ++ [0]
  end.

(** The fixed part [audit_report] starts a record with: signature 'A' 'U',
    version 0, [PGAUDIT_QUERY_COLS] fields, live, time and size still zero,
    then type and result.  Nothing sets the four bytes of padding that
    follow [size] in the local struct: [padding] is what they hold. *)
Definition audit_header (padding type result : Z) : bytes :=
  [65; 85] ++ le_bytes 2 0 ++ le_bytes 2 PGAUDIT_QUERY_COLS ++
  le_bytes 2 AUDIT_TUPLE_NORMAL ++ le_bytes 8 0 ++ le_bytes 4 0 ++
  le_bytes 4 padding ++ le_bytes 4 type ++ le_bytes 4 result.

Definition unknown_str : bytes := of_string "[unknown]".

Definition or_unknown (s : bytes) : bytes :=
  match s with [] => unknown_str | _ => s end.

Definition nonempty (s : bytes) : option bytes :=
  match s with [] => None | _ => Some s end.

(** The buffer [audit_report] builds for one event. *)
Definition audit_record (env : Env) (type result : Z)
    (object_name detail_info : option bytes) : bytes :=
  let buf := audit_header (adata_padding env) type result in
  let buf :=
    match MyProcPort env with
    | Some p =>
        let buf := appendStringField buf (Some (pp_userid p)) in
        let buf := appendStringField buf (Some (or_unknown (pp_username p))) in
        let buf := appendStringField buf (Some (or_unknown (pp_dbname p))) in
        let appname := or_unknown (pp_appname p) in
        let remotehost := or_unknown (pp_remotehost p) in
        buf ++ le_bytes 4 (Z.of_nat (length appname) + Z.of_nat (length remotehost) + 2)
            ++ appname ++ [64] ++ remotehost ++ [0]
    | None =>
        buf ++ le_bytes 4 0 ++ le_bytes 4 0 ++ le_bytes 4 0 ++ le_bytes 4 0
    end in
  let threadid := match MyProcPort env with Some p => pp_threadid p | None => [] end in
  let localport := match MyProcPort env with Some p => pp_localport p | None => [] end in
  let remoteport := match MyProcPort env with Some p => pp_remoteport p | None => [] end in
  let buf := appendStringField buf object_name in
  let buf := appendStringField buf detail_info in
  let buf := appendStringField buf (PGXCNodeName env) in
  let buf := appendStringField buf (nonempty threadid) in
  let buf := appendStringField buf (nonempty localport) in
  appendStringField buf (nonempty remoteport).

(** Whether [audit_report] lets the category through: an internal event
    always, the unknown type never, any other one by its configuration
    switch. *)
Definition report_gate (env : Env) (type : Z) : bool :=
  if type =? AUDIT_INTERNAL_EVENT then true
  else if (type <=? 0) || (AuditTypeNum <=? type) then false
  else type_enabled env type.

(** How a turn of a loop body ends. *)
Inductive LoopExit (A : Type) :=
  | Break (a : A)
  | Continue (a : A).
Arguments Break {A} a.
Arguments Continue {A} a.

Section Collector.

Variable PIPE_BUF : option Z.

(** [audit_report], given the routine that writes to the audit file. *)
Definition audit_report_with
    (write_file : bytes -> Z -> World -> option (bytes * World))
    (env : Env) (type result : Z) (object_name detail_info : option bytes)
    (w : World) : option World :=
  if negb (Audit_enabled (cfg env)) || ha_pending env then Some w
  else if negb (report_gate env type) then
    Some (if (type <=? 0) || (AuditTypeNum <=? type)
          then ereport WARNING "unknown audit type, discard it." [] w
          else w)
  else
    let buf := audit_record env type result object_name detail_info in
    if auditpipe_done env && negb (am_auditor env) then
      chunks ← write_pipe_chunks PIPE_BUF (MyProcPid env) buf;
      Some (with_pipe_out (pipe_out w ++ chunks) w)
    else if am_auditor env then
      r ← write_file buf (Z.of_nat (length buf)) w;
      Some r.2
    else
      Some (match detail_info with
            | Some _ => ereport LOG "discard audit data: %s" [] w
            | None => w
            end).

(** The time and the size [pgaudit_write_file] stores into the buffer it
    is given, at the offsets of the record header, before it writes. *)
Definition stamp (curtime count : Z) (buffer : bytes) : bytes :=
  Mem.write off_size (le_bytes 4 count)
    (Mem.write off_time (le_bytes 8 curtime) buffer).

(** The slot of the open file once the clock has been seen to go back. *)
Definition mark_rewind (it : AuditIndexItem) : AuditIndexItem :=
  if 0 <? ctime it then set_ctime (ctime it * -1) it else it.

(** [pgaudit_write_file (buffer, count)].  [buffer] is the memory from the
    pointer on; it is returned as the stores left it.  Writes to the file
    succeed.  The fuel bounds the chain of reports a clock that keeps
    going back sets off. *)
Fixpoint pgaudit_write_file (fuel : nat) (env : Env) (buffer : bytes)
    (count : Z) (w : World) : option (bytes * World) :=
  match sysauditFile w with
  | None => Some (buffer, w)
  | Some fh =>
      let '(curtime, w) := time_NULL env w in
      let buffer := stamp curtime count buffer in
      w ← match audit_indextbl w with
          | None => Some w
          | Some t =>
              if curtime <? last_audit_time t then
                match fuel with
                | O => None
                | S fuel' =>
                    let t := set_item (curidx t) (mark_rewind (item_at t (curidx t))) t in
                    let t := set_last_audit_time curtime t in
                    let w := with_indextbl (Some t) w in
                    let w := pgaudit_update_indexfile env PG_BINARY_W true w in
                    w ← audit_report_with (pgaudit_write_file fuel' env) env
                          AUDIT_INTERNAL_EVENT AUDIT_OK
                          (Some (of_string "time"))
                          (Some (of_string "system time changed.")) w;
                    Some (with_indextbl
                            (set_last_audit_time curtime <$> audit_indextbl w) w)
                end
              else Some (with_indextbl (Some (set_last_audit_time curtime t)) w)
          end;
      Some (buffer,
            with_disk (disk_append fh (take (Z.to_nat count) buffer) (disk w)) w)
  end.

Definition audit_report (fuel : nat) (env : Env) (type result : Z)
    (object_name detail_info : option bytes) (w : World) : option World :=
  audit_report_with (pgaudit_write_file fuel env) env type result
    object_name detail_info w.

(** ** Opening, closing and rotating the audit file *)

Definition ENOENT : Z := 2.
Definition ENFILE : Z := 23.
Definition EMFILE : Z := 24.

(** [auditfile_open (timestamp, "a", allow_errors)]: the handle, or the
    errno the caller finds when [fopen] has failed.  For a name that was on
    disk this is the errno of [fopen].  For a name that was not, [chmod] is
    still called, fails on the name that is not there, and leaves its own
    errno, ENOENT, in place of the one of [fopen]. *)
Definition auditfile_open (env : Env) (timestamp : Z) (allow_errors : bool)
    (w : World) : (Z + nat) * World :=
  let fnum := match audit_indextbl w with
              | Some t => filenum (item_at t (curidx t))
              | None => 0
              end in
  let exist := bool_decide (is_Some (dir (disk w) !! fnum)) in
  match fopen_errno env fnum with
  | None =>
      let w := if exist then w else with_disk (disk_create fnum (disk w)) w in
      let fh := default O (dir (disk w) !! fnum) in
      let w :=
        match audit_indextbl w with
        | Some t =>
            let t := if exist then t
                     else set_item (curidx t) (set_ctime timestamp (item_at t (curidx t))) t in
            let t := set_count (AUDIT_COUNT t) t in
            pgaudit_update_indexfile env PG_BINARY_W true (with_indextbl (Some t) w)
        | None => w
        end in
      let w := if exist then w else emit (Chmod fnum) w in
      (inr fh, w)
  | Some errno =>
      let w := ereport (if allow_errors then LOG else FATAL)
                 "could not open audit file" [fnum] w in
      if exist then (inl errno, w)
      else
        (inl ENOENT,
         ereport (if allow_errors then LOG else FATAL)
           "could not chmod audit file" [fnum] w)
  end.

Definition auditfile_close (w : World) : World :=
  match sysauditFile w with
  | None => w
  | Some fh =>
      let w :=
        match audit_indextbl w with
        | Some t =>
            let item := set_filesize (u32 (ftell w fh)) (item_at t (curidx t)) in
            let t := set_item (curidx t) item t in
            let fnum := u32 (filenum item + 1) in
            let w := with_totalspace (u64 (pgaudit_totalspace w + filesize item)) w in
            let t := set_curidx (next_index t (curidx t)) t in
            let t := set_item (curidx t) (set_filenum fnum (item_at t (curidx t))) t in
            with_indextbl (Some t) w
        | None => w
        end in
      with_sysauditFile None w
  end.

(** [set_next_rotation_time].  [rotinterval] is an [int]: the product with
    [SECS_PER_MINUTE] is kept to 32 bits, as the compiled code leaves it
    (the overflow itself is undefined in C).  [%] truncates, hence [Z.rem];
    a remainder by an interval that has wrapped to zero is outside the
    model. *)
Definition set_next_rotation_time (env : Env) (w : World) : World :=
  if Audit_RotationAge (cfg env) <=? 0 then w
  else
    let rotinterval := i32 (Audit_RotationAge (cfg env) * SECS_PER_MINUTE) in
    let '(now, w) := time_NULL env w in
    let off := gmtoff env now in
    let now := now + off in
    let now := now - Z.rem now rotinterval in
    let now := now + rotinterval in
    let now := now - off in
    with_next_rotation_time now w.

Definition auditfile_rotate (fuel : nat) (env : Env)
    (time_based_rotation size_based_rotation : bool) (w : World)
    : option World :=
  let w := with_rotation_requested false w in
  let '(fntime, w) :=
    if time_based_rotation then (next_rotation_time w, w)
    else time_NULL env w in
  if time_based_rotation || size_based_rotation then
    let w := auditfile_close w in
    match auditfile_open env fntime true w with
    | (inl errno, w) =>
        Some (if negb (errno =? ENFILE) && negb (errno =? EMFILE)
              then with_rotation_disabled true
                     (ereport LOG "disabling automatic rotation (use SIGHUP to re-enable)" [] w)
              else w)
    | (inr fh, w) =>
        let w := with_sysauditFile (Some fh) w in
        w ← audit_report fuel env AUDIT_INTERNAL_EVENT AUDIT_OK
              (Some (of_string "file"))
              (Some (of_string "create a new audit file")) w;
        Some (set_next_rotation_time env w)
    end
  else Some (set_next_rotation_time env w).

(** ** Retention *)

(** [(int64)Audit_RemainAge * SECS_PER_DAY]. *)
Definition remain_time (env : Env) : Z := Audit_RemainAge (cfg env) * SECS_PER_DAY.

(** [(uint64)(Audit_SpaceLimit * 1024L)]. *)
Definition space_limit (env : Env) : Z := u64 (Audit_SpaceLimit (cfg env) * 1024).

(** The condition of the [while] of [pgaudit_cleanup]. *)
Definition cleanup_cond (env : Env) (filesize : Z) (w : World)
    (t : AuditIndexTable) : bool :=
  (space_limit env <=? u64 (pgaudit_totalspace w + filesize)) ||
  (u32 (Audit_RemainThreshold (cfg env)) <? count t).

(** The guard of the time-priority branch. *)
Definition cleanup_time_priority (env : Env) (filesize : Z) (w : World)
    (t : AuditIndexTable) : bool :=
  (count t <=? u32 (Audit_RemainThreshold (cfg env))) &&
  (Audit_CleanupPolicy (cfg env) =? 0) &&
  negb (remain_time env =? 0) &&
  (u64 (pgaudit_totalspace w + filesize) <=? SPACE_MAXIMUM_SIZE).

(** The test that ends the loop inside that branch:
    [remain_time >= last_audit_time - item->ctime ||
     (next && remain_time > last_audit_time - next->ctime)]. *)
Definition cleanup_keep (env : Env) (t : AuditIndexTable) (index : Z) : bool :=
  let item := item_at t index in
  let next := item_at t (next_index t index) in
  (last_audit_time t - ctime item <=? remain_time env) ||
  (last_audit_time t - ctime next <? remain_time env).

(** The warning of the time-priority branch, once per 10 MB beyond the
    limit. *)
Definition cleanup_warn_beyond (env : Env) (filesize : Z) (w : World) : World :=
  if space_beyond_size w <=?
     u64 (pgaudit_totalspace w + filesize - Audit_SpaceLimit (cfg env) * 1024)
  then
    with_space_beyond (u64 (space_beyond_size w + SPACE_INTERVAL_SIZE))
      (ereport WARNING
         "audit file total space(%lld B) exceed guc parameter(audit_space_limit: %d KB) about %d MB"
         [u64 (pgaudit_totalspace w + filesize); Audit_SpaceLimit (cfg env);
          space_beyond_size w / (1024 * 1024)] w)
  else w.

(** The warnings that go with a removal. *)
Definition cleanup_warn_removed (env : Env) (filesize : Z) (item : AuditIndexItem)
    (t : AuditIndexTable) (w : World) : World :=
  let total := u64 (pgaudit_totalspace w + filesize) in
  let over := space_limit env <=? total in
  let w :=
    if (negb (Audit_CleanupPolicy (cfg env) =? 0) || (remain_time env =? 0)) && over
    then ereport WARNING
           "audit file total space(%lld B) exceed guc parameter(audit_space_limit: %d KB)"
           [total; Audit_SpaceLimit (cfg env)] w
    else if (Audit_CleanupPolicy (cfg env) =? 0) && negb (remain_time env =? 0) && over
    then ereport WARNING
           "Based on time-priority policy, the oldest audit file is beyond %d days or audit file total space(%lld B) exceed guc parameter(audit_space_limit: %d KB)"
           [Audit_RemainAge (cfg env); total; Audit_SpaceLimit (cfg env)] w
    else w in
  let w :=
    if u32 (Audit_RemainThreshold (cfg env)) <? count t
    then ereport WARNING
           "audit file total count(%u) exceed guc parameter(audit_file_remain_threshold: %d)"
           [count t; Audit_RemainThreshold (cfg env)] w
    else w in
  ereport WARNING "remove an audit file(number: %u)" [filenum item] w.

Definition removed_message (item : AuditIndexItem) : bytes :=
  of_string ("remove an audit file(number: " ++ pretty (filenum item) ++ ")").

(** The bookkeeping of a removal: space, count, [begidx], the slot zeroed,
    the index file rewritten. *)
Definition cleanup_forget (env : Env) (index : Z) (item : AuditIndexItem)
    (t : AuditIndexTable) (w : World) : World :=
  let w := with_totalspace (u64 (pgaudit_totalspace w - filesize item)) w in
  let t := if 0 <? count t then set_count (u32 (count t - 1)) t else t in
  let t := set_begidx (next_index t index) t in
  let t := set_item index zero_item t in
  pgaudit_update_indexfile env PG_BINARY_W true (with_indextbl (Some t) w).

(** One turn of the loop body, entered with the loop condition true. *)
Definition cleanup_body (fuel : nat) (env : Env) (filesize : Z) (index : Z)
    (t : AuditIndexTable) (w : World) : option (LoopExit World) :=
  let item := item_at t index in
  let tp := cleanup_time_priority env filesize w t in
  let w := if tp then cleanup_warn_beyond env filesize w else w in
  if tp && cleanup_keep env t index then Some (Break w)
  else if bool_decide (is_Some (dir (disk w) !! filenum item)) &&
          unlink_fails env (filenum item)
  then Some (Break (ereport WARNING "could not remove audit file" [] w))
  else
    let w := with_disk (disk_unlink (filenum item) (disk w)) w in
    let w := cleanup_warn_removed env filesize item t w in
    let w := cleanup_forget env index item t w in
    w ← audit_report fuel env AUDIT_INTERNAL_EVENT AUDIT_OK
          (Some (of_string "file")) (Some (removed_message item)) w;
    match audit_indextbl w with
    | Some t => if index =? curidx t then Some (Break w) else Some (Continue w)
    | None => Some (Break w)
    end.

Fixpoint cleanup_loop (fuel : nat) (env : Env) (filesize : Z) (index : Z)
    (w : World) : option World :=
  match audit_indextbl w with
  | None => Some w
  | Some t =>
      if cleanup_cond env filesize w t then
        match fuel with
        | O => None
        | S fuel' =>
            r ← cleanup_body fuel' env filesize index t w;
            match r with
            | Break w => Some w
            | Continue w =>
                cleanup_loop fuel' env filesize
                  (match audit_indextbl w with Some t => begidx t | None => 0 end) w
            end
        end
      else Some w
  end.

Definition pgaudit_cleanup (fuel : nat) (env : Env) (w : World) : option World :=
  match audit_indextbl w with
  | None => Some w
  | Some t =>
      let filesize := match sysauditFile w with
                      | Some fh => ftell w fh
                      | None => 0
                      end in
      cleanup_loop fuel env filesize (begidx t) w
  end.

(** ** The chunk protocol, reader side *)

Definition byte_at (m : bytes) (i : nat) : Z := default 0 (m !! i).

(** The test on the header copied from [cursor]. *)
Definition valid_chunk_header (m : bytes) (cursor : nat) : bool :=
  let len := read_u16 (cursor + 2) m in
  let pid := read_u64 (cursor + 8) m in
  let is_last := byte_at m (cursor + 16) in
  (byte_at m cursor =? 0) && (byte_at m (cursor + 1) =? 0) &&
  (0 <? len) && (len <=? PIPE_MAX_PAYLOAD PIPE_BUF) && negb (pid =? 0) &&
  ((is_last =? char_t) || (is_last =? char_f)).

(** The walk over one list of buffers: the slot of [pid], and the first
    unused slot met before it. *)
Fixpoint find_slot (pid : Z) (l : list save_buffer) (i : nat)
    (free_slot : option nat) : option nat * option nat :=
  match l with
  | [] => (None, free_slot)
  | buf :: rest =>
      if sb_pid buf =? pid then (Some i, free_slot)
      else find_slot pid rest (S i)
             (match free_slot with
              | None => if sb_pid buf =? 0 then Some i else None
              | Some _ => free_slot
              end)
  end.

(** Bytes before the next zero byte, among those that are left. *)
Fixpoint scan_to_nul (m : bytes) : nat :=
  match m with
  | [] => O
  | b :: rest => if b =? 0 then O else S (scan_to_nul rest)
  end.

(** The length of a piece of non-protocol data: the scan starts at the
    second byte and stops at a zero byte or at the end of the data. *)
Definition nonprotocol_len (m : bytes) (cursor count : nat) : nat :=
  S (scan_to_nul (Mem.read (S cursor) (count - 1) m)).

(** The loop of [process_pipe_input]: [m] is [auditbuffer], [cursor] the
    offset reached, [count] the bytes left from there. *)
Fixpoint process_pipe_loop (steps fuel : nat) (env : Env) (m : bytes)
    (cursor count : nat) (w : World) : option (bytes * nat * nat * World) :=
  if Z.of_nat count <? sizeof_PipeProtoHeader then Some (m, cursor, count, w)
  else
    match steps with
    | O => None
    | S steps' =>
        if valid_chunk_header m cursor then
          let len := Z.to_nat (read_u16 (cursor + 2) m) in
          let pid := read_u64 (cursor + 8) m in
          let is_last := byte_at m (cursor + 16) in
          let chunklen := (Z.to_nat PIPE_HEADER_SIZE + len)%nat in
          if (count <? chunklen)%nat then Some (m, cursor, count, w)
          else
            let key := pid mod NBUFFER_LISTS in
            let buffer_list := default [] (buffer_lists w !! key) in
            let payload := Mem.read (cursor + Z.to_nat PIPE_HEADER_SIZE) len m in
            r ←
              (if is_last =? char_f then
                 let buffer_list :=
                   match find_slot pid buffer_list O None with
                   | (Some i, _) =>
                       alter (fun b => mkSave (sb_pid b) (sb_data b ++ payload)) i buffer_list
                   | (None, Some j) => <[j := mkSave pid payload]> buffer_list
                   | (None, None) => buffer_list ++ [mkSave pid payload]
                   end in
                 Some (m, with_buffer_lists (<[key := buffer_list]> (buffer_lists w)) w)
               else
                 match find_slot pid buffer_list O None with
                 | (Some i, _) =>
                     let str := default [] (sb_data <$> buffer_list !! i) ++ payload in
                     r ← pgaudit_write_file fuel env str (Z.of_nat (length str)) w;
                     let buffer_list := <[i := mkSave 0 []]> buffer_list in
                     Some (m, with_buffer_lists
                                (<[key := buffer_list]> (buffer_lists r.2)) r.2)
                 | (None, _) =>
                     let at_data := (cursor + Z.to_nat PIPE_HEADER_SIZE)%nat in
                     r ← pgaudit_write_file fuel env (drop at_data m) (Z.of_nat len) w;
                     Some (take at_data m ++ r.1, r.2)
                 end);
            process_pipe_loop steps' fuel env r.1 (cursor + chunklen) (count - chunklen) r.2
        else
          let chunklen := nonprotocol_len m cursor count in
          r ← pgaudit_write_file fuel env (drop cursor m) (Z.of_nat chunklen) w;
          process_pipe_loop steps' fuel env (take cursor m ++ r.1)
            (cursor + chunklen) (count - chunklen) r.2
    end.

(** [process_pipe_input (auditbuffer, &bytes_in_auditbuffer)]: the buffer
    and the number of bytes in it, before and after. *)
Definition process_pipe_input (fuel : nat) (env : Env) (auditbuffer : bytes)
    (bytes_in_auditbuffer : nat) (w : World) : option (bytes * nat * World) :=
  r ← process_pipe_loop bytes_in_auditbuffer fuel env auditbuffer O
        bytes_in_auditbuffer w;
  let '(m, cursor, count, w) := r in
  let m := if (0 <? count)%nat && negb (cursor =? 0)%nat
           then Mem.write O (Mem.read cursor count m) m
           else m in
  Some (m, count, w).

End Collector.

(** ** Scanning an audit file *)

(** How a call ends: with a value, by [ereport(ERROR)], by running into
    behaviour C leaves undefined, or by running out of fuel. *)
Inductive Outcome (A : Type) :=
  | Done (a : A)
  | Raised (msg : string)
  | Undefined
  | OutOfFuel.
Arguments Done {A} a.
Arguments Raised {A} msg.
Arguments Undefined {A}.
Arguments OutOfFuel {A}.

(** The fields of an [AuditMsgHdr], read from its image. *)
Definition hdr_version (h : bytes) : Z := read_u16 off_version h.
Definition hdr_fields (h : bytes) : Z := read_u16 off_fields h.
Definition hdr_flags (h : bytes) : Z := read_u16 off_flags h.
Definition hdr_time (h : bytes) : Z := read_i64 off_time h.
Definition hdr_size (h : bytes) : Z := read_u32 off_size h.

(** The test both scans make on a header they have read. *)
Definition header_ok (h : bytes) : bool :=
  (byte_at h 0 =? 65) && (byte_at h 1 =? 85) && (hdr_version h =? 0) &&
  (hdr_fields h =? PGAUDIT_QUERY_COLS).

(** [header.flags = AUDIT_TUPLE_DEAD]. *)
Definition set_dead (h : bytes) : bytes :=
  Mem.write off_flags (le_bytes 2 AUDIT_TUPLE_DEAD) h.

(** [write] to a file at offset [pos]: the bytes there are replaced, and the
    file grows when the bytes reach past its end. *)
Definition file_write (pos : nat) (bs : bytes) (c : bytes) : bytes :=
  resize pos 0 c ++ bs ++ drop (pos + length bs) c.

Inductive FieldPtr :=
  | FieldUndefined
  | FieldNull
  | FieldAt (off : nat).

(** The loop of [pgaudit_string_field]: [k] fields are still to be skipped,
    [field] is the offset of the next length word in the record and
    [datalen] the uint32 count of bytes the record is believed to have from
    there.  A length word outside the record is a read outside the
    allocation. *)
Fixpoint string_field_loop (k : nat) (adata : bytes) (field : nat) (datalen : Z)
    : FieldPtr :=
  if (length adata <? field + 4)%nat then FieldUndefined
  else
    let size := read_u32 field adata in
    let datalen := u32 (datalen - 4) in
    if datalen <? size then FieldNull
    else
      let field := (field + 4)%nat in
      match k with
      | O => if size =? 0 then FieldNull else FieldAt field
      | S k' => string_field_loop k' adata (field + Z.to_nat size)%nat (u32 (datalen - size))
      end.

Definition pgaudit_string_field (adata : bytes) (num : nat) : FieldPtr :=
  string_field_loop num adata (Z.to_nat AUDIT_HEADER_SIZE)
    (u32 (hdr_size adata - AUDIT_HEADER_SIZE)).

(** The C string at an offset of the record, when it ends inside it. *)
Fixpoint cstring (m : bytes) : option bytes :=
  match m with
  | [] => None
  | b :: rest => if b =? 0 then Some [] else (b ::.) <$> cstring rest
  end.

(** [CStringGetTextDatum(field ? field : "null")]. *)
Definition field_text (adata : bytes) (num : nat) : option bytes :=
  match pgaudit_string_field adata num with
  | FieldUndefined => None
  | FieldNull => Some (of_string "null")
  | FieldAt off => cstring (drop off adata)
  end.

Record Row := mkRow {
  r_time : Z;
  r_type : string;
  r_result : string;
  r_fields : list bytes
}.

Definition AUDIT_REMOTEPORT_INFO : nat := 9.

Section Scan.

(** [time_t_to_timestamptz] of the timestamp module. *)
Variable time_t_to_timestamptz : Z -> Z.

(** The largest request [palloc] accepts; a larger one raises an error. *)
Variable MaxAllocSize : Z.

(** The condition under which a scan acts on a record. *)
Definition selected (begtime endtime : Z) (h : bytes) : bool :=
  let datetime := time_t_to_timestamptz (hdr_time h) in
  (begtime <=? datetime) && (datetime <? endtime) &&
  (hdr_flags h =? AUDIT_TUPLE_NORMAL).

(** The row [pgaudit_query_file] stores for a record: the time, the two
    descriptions and the ten string fields.  [None] when building it
    reads outside the record or outside a description table. *)
Definition make_row (adata : bytes) : option Row :=
  if (length adata <? Z.to_nat AUDIT_HEADER_SIZE)%nat then None
  else
    type ← AuditTypeDesc (read_u32 off_type adata);
    result ← AuditResultDesc (read_u32 off_result adata);
    fields ← mapM (field_text adata) (seq 0 (S AUDIT_REMOTEPORT_INFO));
    Some (mkRow (time_t_to_timestamptz (hdr_time adata)) type result fields).

(** The loop of [pgaudit_query_file] over the content [c] of the file,
    from offset [pos]; [rows] is what the tuple store holds so far. *)
Fixpoint query_loop (steps : nat) (begtime endtime : Z) (c : bytes) (pos : nat)
    (rows : list Row) : Outcome (list Row) :=
  match steps with
  | O => OutOfFuel
  | S steps' =>
      let header := Mem.read pos (Z.to_nat sizeof_AuditMsgHdr) c in
      if (length header <? Z.to_nat sizeof_AuditMsgHdr)%nat then Done rows
      else if negb (header_ok header) then Done rows
      else
        let size := hdr_size header in
        if MaxAllocSize <? size then Raised "invalid memory alloc request size"
        else if size <? sizeof_AuditMsgHdr then Raised "memcpy_s"
        else
          let adata := Mem.read pos (Z.to_nat size) c in
          if (size =? sizeof_AuditMsgHdr) || (length adata <? Z.to_nat size)%nat
          then Done rows
          else if selected begtime endtime header then
            match make_row adata with
            | Some row =>
                query_loop steps' begtime endtime c (pos + Z.to_nat size) (rows ++ [row])
            | None => Undefined
            end
          else query_loop steps' begtime endtime c (pos + Z.to_nat size) rows
  end.

Definition scan_file (begtime endtime : Z) (c : bytes) (rows : list Row)
    : Outcome (list Row) :=
  query_loop (S (length c)) begtime endtime c O rows.

(** [pgaudit_query_file] on the file a directory has under [fnum]. *)
Definition pgaudit_query_file (d : Disk) (fnum : Z) (begtime endtime : Z)
    (rows : list Row) : Outcome (list Row) :=
  match file_content d fnum with
  | None => Done rows
  | Some c => scan_file begtime endtime c rows
  end.

(** The loop of [pgaudit_delete_file]: [c] is the file, [pos] the offset
    of the descriptor and [header] the local struct, which a short [read]
    fills only in part. *)
Fixpoint delete_loop (fuel : nat) (begtime endtime : Z) (c : bytes) (pos : Z)
    (header : bytes) : option bytes :=
  match fuel with
  | O => None
  | S fuel' =>
      let nread := Z.min sizeof_AuditMsgHdr (Z.of_nat (length c) - pos) in
      if nread <=? 0 then Some c
      else
        let header := Mem.write O (Mem.read (Z.to_nat pos) (Z.to_nat nread) c) header in
        let pos := pos + nread in
        if negb (header_ok header) then Some c
        else
          let hit := selected begtime endtime header in
          let header := if hit then set_dead header else header in
          if hit && (pos - sizeof_AuditMsgHdr <? 0) then Some c
          else
            let c := if hit
                     then file_write (Z.to_nat (pos - sizeof_AuditMsgHdr)) header c
                     else c in
            let pos := pos + (hdr_size header - sizeof_AuditMsgHdr) in
            if pos <? 0 then Some c
            else delete_loop fuel' begtime endtime c pos header
  end.

(** [pgaudit_delete_file]; [header0] is what the local header holds
    before the first [read]. *)
Definition pgaudit_delete_file (fuel : nat) (header0 : bytes) (d : Disk)
    (fnum : Z) (begtime endtime : Z) : option Disk :=
  match file_content d fnum with
  | None => Some d
  | Some c =>
      c ← delete_loop fuel begtime endtime c 0
            (resize (Z.to_nat sizeof_AuditMsgHdr) 0 header0);
      Some (disk_store fnum c d)
  end.

(** ** The public entry points *)

Definition pgaudit_check_system (begtime endtime : Z) (index : Z)
    (t : AuditIndexTable) : bool :=
  let item := item_at t index in
  if 0 <? ctime item then
    let curr_filetime := time_t_to_timestamptz (ctime item) in
    if index =? curidx t then
      (curr_filetime <=? begtime) || (curr_filetime <=? endtime)
    else
      let item := item_at t (next_index t index) in
      if 0 <? ctime item then
        let next_filetime := time_t_to_timestamptz (ctime item) in
        let curr_filetime := if begtime <? curr_filetime then curr_filetime else begtime in
        let next_filetime := if next_filetime <? endtime then next_filetime else endtime in
        curr_filetime <=? next_filetime
      else (curr_filetime <=? begtime) || (curr_filetime <=? endtime)
  else true.

(** What the caller of an entry point brings. *)
Record CallCtx := mkCtx {
  has_auditadmin_privilege : bool;
  rsinfo_is_set : bool;
  materialize_allowed : bool;
  result_is_composite : bool;
  natts : Z
}.

(** The walk of [pg_query_audit] over the slots, from [index] to
    [curidx]; [opened] lists the files handed to [pgaudit_query_file]. *)
Fixpoint query_slots (fuel : nat) (d : Disk) (t : AuditIndexTable)
    (begtime endtime : Z) (index : Z) (rows : list Row) (opened : list Z)
    : Outcome (list Row * list Z) :=
  match fuel with
  | O => OutOfFuel
  | S fuel' =>
      let fnum := filenum (item_at t index) in
      let r := if pgaudit_check_system begtime endtime index t
               then (pgaudit_query_file d fnum begtime endtime rows, opened ++ [fnum])
               else (Done rows, opened) in
      match r with
      | (Done rows, opened) =>
          if index =? curidx t then Done (rows, opened)
          else query_slots fuel' d t begtime endtime (next_index t index) rows opened
      | (Raised msg, _) => Raised msg
      | (Undefined, _) => Undefined
      | (OutOfFuel, _) => OutOfFuel
      end
  end.

(** [pg_query_audit (begtime, endtime)] on the directory [d] the call
    names: the rows of the result and the audit files it opened. *)
Definition pg_query_audit (fuel : nat) (ctx : CallCtx) (open_fails : bool)
    (d : Disk) (begtime endtime : Z) : Outcome (list Row * list Z) :=
  if negb (has_auditadmin_privilege ctx) then Raised "permission denied to query audit"
  else if negb (rsinfo_is_set ctx) then
    Raised "set-valued function called in context that cannot accept a set"
  else if negb (materialize_allowed ctx) then
    Raised "materialize mode required, but it is not allowed in this context"
  else if negb (result_is_composite ctx) then Raised "return type must be a row type"
  else if negb (natts ctx =? PGAUDIT_QUERY_COLS) then
    Raised "attribute count of the return row type not matched"
  else
    match pgaudit_read_indexfile open_fails d with
    | Some t =>
        if (begtime <? endtime) && (0 <? count t)
        then query_slots fuel d t begtime endtime (begidx t) [] []
        else Done ([], [])
    | None => Done ([], [])
    end.

Fixpoint delete_slots (fuel : nat) (header0 : bytes) (d : Disk)
    (t : AuditIndexTable) (begtime endtime : Z) (index : Z) (opened : list Z)
    : Outcome (Disk * list Z) :=
  match fuel with
  | O => OutOfFuel
  | S fuel' =>
      let fnum := filenum (item_at t index) in
      let r := if pgaudit_check_system begtime endtime index t
               then (pgaudit_delete_file fuel' header0 d fnum begtime endtime,
                     opened ++ [fnum])
               else (Some d, opened) in
      match r with
      | (Some d, opened) =>
          if index =? curidx t then Done (d, opened)
          else delete_slots fuel' header0 d t begtime endtime (next_index t index) opened
      | (None, _) => OutOfFuel
      end
  end.

(** [pg_delete_audit (begtime, endtime)]: the directory afterwards and the
    audit files it opened. *)
Definition pg_delete_audit (fuel : nat) (header0 : bytes) (ctx : CallCtx)
    (open_fails : bool) (d : Disk) (begtime endtime : Z)
    : Outcome (Disk * list Z) :=
  if negb (has_auditadmin_privilege ctx) then Raised "permission denied to delete audit"
  else
    match pgaudit_read_indexfile open_fails d with
    | Some t =>
        if (begtime <? endtime) && (0 <? count t)
        then delete_slots fuel header0 d t begtime endtime (begidx t) []
        else Done (d, [])
    | None => Done (d, [])
    end.

End Scan.

(** ** Well-formed records *)

Section Records.

Variable time_t_to_timestamptz : Z -> Z.
Variable MaxAllocSize : Z.

(** A record as §3 of the specification has it and as the scans rely on
    it: the signature, version 0, thirteen fields, a size that is the
    length of the record, room for type and result, and a string table
    whose first ten fields lie inside the record. *)
Definition record_wf (r : bytes) : bool :=
  header_ok r &&
  (hdr_size r =? Z.of_nat (length r)) &&
  (AUDIT_HEADER_SIZE <=? Z.of_nat (length r)) &&
  (Z.of_nat (length r) <=? MaxAllocSize) &&
  forallb (fun num => bool_decide (is_Some (field_text r num)))
    (seq 0 (S AUDIT_REMOTEPORT_INFO)).

(** A frame for the delete scan: any header whose size field gives the
    length of the frame. *)
Definition frame_wf (r : bytes) : bool :=
  (sizeof_AuditMsgHdr <=? Z.of_nat (length r)) &&
  (hdr_size r =? Z.of_nat (length r)).

(** What [pgaudit_delete_file] leaves of a frame it acts on. *)
Definition tombstone (begtime endtime : Z) (r : bytes) : bytes :=
  if selected time_t_to_timestamptz begtime endtime r then set_dead r else r.

(** The frames of a file after the delete scan, which stops at the first
    header it does not accept. *)
Fixpoint tombstone_frames (begtime endtime : Z) (frames : list bytes)
    : list bytes :=
  match frames with
  | [] => []
  | r :: rest =>
      if header_ok r
      then tombstone begtime endtime r :: tombstone_frames begtime endtime rest
      else r :: rest
  end.

End Records.

(** * Properties *)

(** ** The writer's chunks *)

Section PipeFacts.

Variable PIPE_BUF : option Z.

Lemma PIPE_CHUNK_SIZE_le : PIPE_CHUNK_SIZE PIPE_BUF <= 65536.
Proof.
  unfold PIPE_CHUNK_SIZE. destruct PIPE_BUF as [b|]; [|lia].
  destruct (65536 <? b) eqn:E; lia.
Qed.

Lemma u16_small v : 0 <= v < 65536 -> u16 v = v.
Proof. intros H. unfold u16, wrap. apply Z.mod_small. lia. Qed.

(** What the loop hands to [write] for [data], when a chunk has room for
    payload: all chunks but the last are full and marked 'f', the last is
    marked 't', and the payloads put end to end give [data] back. *)
Lemma write_pipe_chunks_loop_spec pid :
  PIPE_HEADER_SIZE < PIPE_CHUNK_SIZE PIPE_BUF ->
  forall fuel data,
    (0 < length data <= fuel)%nat ->
    exists chunks,
      write_pipe_chunks_loop PIPE_BUF fuel pid data = Some chunks /\
      Z.of_nat (length chunks) =
        (Z.of_nat (length data) + PIPE_MAX_PAYLOAD PIPE_BUF - 1) / PIPE_MAX_PAYLOAD PIPE_BUF /\
      concat (map p_data chunks) = data /\
      (forall i c, chunks !! i = Some c -> (S i < length chunks)%nat ->
         p_is_last c = char_f /\ p_len c = PIPE_MAX_PAYLOAD PIPE_BUF /\
         Z.of_nat (length (p_data c)) = PIPE_MAX_PAYLOAD PIPE_BUF) /\
      (exists c, last chunks = Some c /\ p_is_last c = char_t /\
         p_len c = Z.of_nat (length (p_data c))).
Proof.
  intros Hbig. pose proof PIPE_CHUNK_SIZE_le as Hle.
  set (M := PIPE_MAX_PAYLOAD PIPE_BUF).
  assert (HM : 0 < M < 65536) by (unfold M, PIPE_MAX_PAYLOAD, PIPE_HEADER_SIZE in *; lia).
  induction fuel as [|fuel IH]; intros data [Hpos Hfuel]; [lia|].
  cbn [write_pipe_chunks_loop]. fold M.
  destruct (M <? Z.of_nat (length data)) eqn:E.
  - apply Z.ltb_lt in E.
    destruct (IH (drop (Z.to_nat M) data)) as (rest & Hr & Hn & Hcat & Hmid & c & Hlast & Hc).
    { rewrite length_drop. lia. }
    rewrite Hr. cbn. eexists. split; [reflexivity|].
    assert (Hlt : length (take (Z.to_nat M) data) = Z.to_nat M)
      by (rewrite length_take; lia).
    repeat split.
    + cbn [length]. rewrite Nat2Z.inj_succ, Hn, length_drop.
      replace (Z.of_nat (length data) + M - 1)
        with (Z.of_nat (length data - Z.to_nat M) + M - 1 + 1 * M) by lia.
      rewrite Z.div_add by lia. lia.
    + cbn. rewrite Hcat. apply take_drop.
    + destruct i as [|i]; cbn in H; [inversion H; subst c0; reflexivity|].
      apply (Hmid i c0 H). cbn in H0. lia.
    + destruct i as [|i]; cbn in H; [inversion H; subst c0; cbn; apply u16_small; lia|].
      apply (Hmid i c0 H). cbn in H0. lia.
    + destruct i as [|i]; cbn in H; [inversion H; subst c0; cbn; lia|].
      apply (Hmid i c0 H). cbn in H0. lia.
    + exists c. rewrite last_cons, Hlast. auto.
  - apply Z.ltb_ge in E. eexists. split; [reflexivity|]. repeat split.
    + cbn [length].
      replace (Z.of_nat (length data) + M - 1)
        with (Z.of_nat (length data) - 1 + 1 * M) by lia.
      rewrite Z.div_add by lia. rewrite Z.div_small by lia. lia.
    + cbn. apply app_nil_r.
    + cbn in H0. lia.
    + cbn in H0. lia.
    + cbn in H0. lia.
    + eexists. split; [reflexivity|]. cbn. split; [reflexivity|].
      apply u16_small. lia.
Qed.

(** C7. A payload of [L > 0] bytes leaves [write_pipe_chunks] as
    [ceil (L / PIPE_MAX_PAYLOAD)] chunks whose payloads, in order, make up
    the payload again; every chunk but the last has [is_last = 'f'] and
    carries [PIPE_MAX_PAYLOAD] bytes, and the last has [is_last = 't']. *)
Theorem write_pipe_chunks_ceil (pid : Z) (data : bytes) :
  PIPE_HEADER_SIZE < PIPE_CHUNK_SIZE PIPE_BUF ->
  (0 < length data)%nat ->
  exists chunks,
    write_pipe_chunks PIPE_BUF pid data = Some chunks /\
    Z.of_nat (length chunks) =
      (Z.of_nat (length data) + PIPE_MAX_PAYLOAD PIPE_BUF - 1) / PIPE_MAX_PAYLOAD PIPE_BUF /\
    concat (map p_data chunks) = data /\
    (forall i c, chunks !! i = Some c -> (S i < length chunks)%nat ->
       p_is_last c = char_f /\ p_len c = PIPE_MAX_PAYLOAD PIPE_BUF /\
       Z.of_nat (length (p_data c)) = PIPE_MAX_PAYLOAD PIPE_BUF) /\
    (exists c, last chunks = Some c /\ p_is_last c = char_t /\
       p_len c = Z.of_nat (length (p_data c))).
Proof.
  intros Hbig Hpos. apply write_pipe_chunks_loop_spec; [exact Hbig | lia].
Qed.

End PipeFacts.

(** ** Scanning well-formed files *)

(** ** Reading through a prefix *)

Lemma read_app_l off n (r rest : bytes) :
  (off + n <= length r)%nat -> Mem.read off n (r ++ rest) = Mem.read off n r.
Proof.
  intros H. unfold Mem.read. rewrite drop_app_le by lia.
  apply take_app_le. rewrite length_drop. lia.
Qed.

Lemma read_take off n k (r : bytes) :
  (off + n <= k)%nat -> Mem.read off n (take k r) = Mem.read off n r.
Proof.
  intros H. unfold Mem.read. rewrite skipn_firstn_comm, take_take.
  f_equal. lia.
Qed.

Lemma read_at_frame (pre r rest : bytes) n :
  (n <= length r)%nat -> Mem.read (length pre) n (pre ++ r ++ rest) = take n r.
Proof.
  intros H. unfold Mem.read. rewrite drop_app_length. apply take_app_le. lia.
Qed.

Lemma byte_at_take k (r : bytes) i : (i < k)%nat -> byte_at (take k r) i = byte_at r i.
Proof. intros H. unfold byte_at. by rewrite lookup_take_lt. Qed.

Lemma header_ok_take (r : bytes) : header_ok (take 24 r) = header_ok r.
Proof.
  unfold header_ok, hdr_version, hdr_fields, read_u16, off_version, off_fields.
  rewrite !byte_at_take by lia. rewrite !read_take by lia. reflexivity.
Qed.

Lemma hdr_size_take (r : bytes) : hdr_size (take 24 r) = hdr_size r.
Proof. unfold hdr_size, read_u32, off_size. by rewrite read_take by lia. Qed.

Lemma hdr_time_take (r : bytes) : hdr_time (take 24 r) = hdr_time r.
Proof.
  unfold hdr_time, read_i64, off_time, le_signed.
  rewrite read_take by lia. reflexivity.
Qed.

Lemma hdr_flags_take (r : bytes) : hdr_flags (take 24 r) = hdr_flags r.
Proof. unfold hdr_flags, read_u16, off_flags. by rewrite read_take by lia. Qed.

Lemma selected_take conv b e (r : bytes) :
  selected conv b e (take 24 r) = selected conv b e r.
Proof. unfold selected. by rewrite hdr_time_take, hdr_flags_take. Qed.

Section ScanFacts.
Variable conv : Z -> Z.
Variable MaxAllocSize : Z.

Lemma AuditTypeDesc_in_bounds type :
  (Z.to_nat (AuditTypeDesc_index type) < length AuditTypeDescs)%nat.
Proof.
  unfold AuditTypeDesc_index.
  destruct ((0 <? type) && (type <? AuditTypeNum)) eqn:E.
  - apply andb_prop in E as [E1 E2]. apply Z.ltb_lt in E1, E2.
    unfold AuditTypeNum in E2. lia.
  - cbn. lia.
Qed.

Lemma AuditResultDesc_in_bounds type :
  (Z.to_nat (AuditResultDesc_index type) < length AuditResultDescs)%nat.
Proof.
  unfold AuditResultDesc_index.
  destruct ((0 <? type) && (type <? AuditResultNum)) eqn:E.
  - apply andb_prop in E as [E1 E2]. apply Z.ltb_lt in E1, E2.
    unfold AuditResultNum in E2. lia.
  - cbn. lia.
Qed.

Lemma record_wf_inv r :
  record_wf MaxAllocSize r = true ->
  header_ok r = true /\ hdr_size r = Z.of_nat (length r) /\
  32 <= Z.of_nat (length r) <= MaxAllocSize /\
  Forall (fun n => is_Some (field_text r n)) (seq 0 (S AUDIT_REMOTEPORT_INFO)).
Proof.
  unfold record_wf. intros H.
  apply andb_prop in H as [H H4]. apply andb_prop in H as [H H3].
  apply andb_prop in H as [H H2]. apply andb_prop in H as [H H1].
  apply Z.eqb_eq in H1. apply Z.leb_le in H2, H3.
  unfold AUDIT_HEADER_SIZE in H2. repeat split; try done.
  rewrite forallb_forall in H4. apply Forall_forall. intros n Hn.
  apply list_elem_of_In in Hn. apply H4 in Hn. by apply bool_decide_eq_true in Hn.
Qed.

Lemma record_wf_row r :
  record_wf MaxAllocSize r = true -> is_Some (make_row conv r).
Proof.
  intros H. apply record_wf_inv in H as (_ & _ & [H1 _] & Hall).
  unfold make_row.
  destruct (length r <? Z.to_nat AUDIT_HEADER_SIZE)%nat eqn:E.
  { apply Nat.ltb_lt in E. unfold AUDIT_HEADER_SIZE in E. lia. }
  destruct (lookup_lt_is_Some_2 AuditTypeDescs _ (AuditTypeDesc_in_bounds (read_u32 off_type r))) as [s Hs].
  destruct (lookup_lt_is_Some_2 AuditResultDescs _ (AuditResultDesc_in_bounds (read_u32 off_result r))) as [s' Hs'].
  unfold AuditTypeDesc, AuditResultDesc. rewrite Hs, Hs'. cbn [mbind option_bind].
  assert (Hf : is_Some (mapM (field_text r) (seq 0 (S AUDIT_REMOTEPORT_INFO)))).
  { clear -Hall. induction Hall as [|n l [b Hb] _ [k Hk]].
    - by eexists.
    - exists (b :: k). apply mapM_Some. constructor; [done|]. by apply mapM_Some. }
  destruct Hf as [fs Hfs]. rewrite Hfs. by eexists.
Qed.

Lemma query_loop_records begtime endtime records :
  Forall (fun r => record_wf MaxAllocSize r = true) records ->
  forall steps pre rows0,
    (length records < steps)%nat ->
    exists rows,
      mapM (make_row conv) (List.filter (selected conv begtime endtime) records) = Some rows /\
      query_loop conv MaxAllocSize steps begtime endtime (pre ++ concat records)
        (length pre) rows0 = Done (rows0 ++ rows).
Proof.
  induction 1 as [|r records Hr _ IH]; intros steps pre rows0 Hsteps.
  - exists []. split; [done|]. destruct steps; [cbn in Hsteps; lia|].
    cbn [concat query_loop]. rewrite app_nil_r.
    unfold Mem.read. rewrite drop_all. cbn. by rewrite app_nil_r.
  - destruct steps as [|steps]; [cbn in Hsteps; lia|].
    pose proof (record_wf_row r Hr) as [row Hrow].
    apply record_wf_inv in Hr as (Hr & H2 & [H1 H0] & _).
    cbn [concat query_loop]. unfold sizeof_AuditMsgHdr.
    change (Z.to_nat 24) with 24%nat.
    rewrite read_at_frame by lia.
    rewrite length_take_le by lia. rewrite Nat.ltb_irrefl.
    rewrite header_ok_take, Hr. cbn [negb].
    rewrite hdr_size_take, H2.
    destruct (MaxAllocSize <? Z.of_nat (length r)) eqn:E1; [apply Z.ltb_lt in E1; lia|].
    destruct (Z.of_nat (length r) <? 24) eqn:E2; [apply Z.ltb_lt in E2; lia|].
    rewrite Nat2Z.id.
    rewrite read_at_frame by lia. rewrite firstn_all.
    destruct (Z.of_nat (length r) =? 24) eqn:E3; [apply Z.eqb_eq in E3; lia|].
    rewrite Nat.ltb_irrefl. cbn [orb].
    rewrite selected_take.
    replace (pre ++ r ++ concat records) with ((pre ++ r) ++ concat records)
      by (by rewrite <- app_assoc).
    replace (length pre + length r)%nat with (length (pre ++ r))
      by (by rewrite length_app).
    cbn [List.filter].
    destruct (selected conv begtime endtime r) eqn:Esel.
    + rewrite Hrow.
      destruct (IH steps (pre ++ r) (rows0 ++ [row])) as (rows & Hm & Hq); [cbn in Hsteps; lia|].
      exists (row :: rows). split.
      * apply mapM_Some. constructor; [done|]. by apply mapM_Some.
      * rewrite Hq. by rewrite <- app_assoc.
    + apply IH. cbn in Hsteps. lia.
Qed.
End ScanFacts.

(** ** Tombstones *)

Lemma write_length off bs (m : bytes) : length (Mem.write off bs m) = length m.
Proof.
  unfold Mem.write. rewrite !length_app, !length_take, length_drop. lia.
Qed.

Lemma set_dead_length (h : bytes) : length (set_dead h) = length h.
Proof. apply write_length. Qed.

Ltac split_header r H :=
  do 24 (destruct r as [|? r]; [cbn in H; lia|]).

Lemma set_dead_header_ok (r : bytes) :
  (24 <= length r)%nat -> header_ok (set_dead r) = header_ok r.
Proof. intros H. split_header r H. reflexivity. Qed.

Lemma set_dead_hdr_size (r : bytes) :
  (24 <= length r)%nat -> hdr_size (set_dead r) = hdr_size r.
Proof. intros H. split_header r H. reflexivity. Qed.

Lemma set_dead_hdr_flags (r : bytes) :
  (24 <= length r)%nat -> hdr_flags (set_dead r) = AUDIT_TUPLE_DEAD.
Proof. intros H. split_header r H. reflexivity. Qed.

Lemma set_dead_split (r : bytes) :
  (24 <= length r)%nat -> set_dead r = set_dead (take 24 r) ++ drop 24 r.
Proof. intros H. split_header r H. reflexivity. Qed.

Lemma write_whole (bs m : bytes) : length bs = length m -> Mem.write O bs m = bs.
Proof.
  intros H. unfold Mem.write. rewrite Nat.sub_0_r, Nat.add_0_l, take_0.
  cbn [app]. rewrite take_ge by lia. rewrite H, drop_all. apply app_nil_r.
Qed.

Lemma file_write_frame (pre r rest : bytes) (h' : bytes) :
  (length h' <= length r)%nat ->
  file_write (length pre) h' (pre ++ r ++ rest) =
  pre ++ (h' ++ drop (length h') r) ++ rest.
Proof.
  intros H. unfold file_write.
  rewrite resize_app_le by lia. rewrite resize_all.
  rewrite drop_app_add' by lia. rewrite drop_app_le by lia.
  by rewrite <- !app_assoc.
Qed.

Section DeleteFacts.
Variable conv : Z -> Z.

Lemma set_dead_not_selected b e (r : bytes) :
  (24 <= length r)%nat -> selected conv b e (set_dead r) = false.
Proof.
  intros H. unfold selected. rewrite set_dead_hdr_flags by done.
  apply andb_false_r.
Qed.

Lemma frame_wf_inv (r : bytes) :
  frame_wf r = true -> (24 <= length r)%nat /\ hdr_size r = Z.of_nat (length r).
Proof.
  unfold frame_wf, sizeof_AuditMsgHdr. intros H. apply andb_prop in H as [H1 H2].
  apply Z.leb_le in H1. apply Z.eqb_eq in H2. split; [lia|done].
Qed.

Lemma tombstone_length b e (r : bytes) : length (tombstone conv b e r) = length r.
Proof. unfold tombstone. destruct (selected _ _ _ _); [apply set_dead_length|done]. Qed.

Lemma tombstone_frame_wf b e (r : bytes) :
  frame_wf r = true -> frame_wf (tombstone conv b e r) = true.
Proof.
  intros H. pose proof (frame_wf_inv r H) as [H1 H2].
  unfold tombstone. destruct (selected _ _ _ _); [|done].
  unfold frame_wf. rewrite set_dead_length, set_dead_hdr_size by done.
  exact H.
Qed.

Lemma tombstone_header_ok b e (r : bytes) :
  (24 <= length r)%nat -> header_ok (tombstone conv b e r) = header_ok r.
Proof.
  intros H. unfold tombstone. destruct (selected _ _ _ _); [|done].
  by apply set_dead_header_ok.
Qed.

Lemma tombstone_idemp b e (r : bytes) :
  (24 <= length r)%nat ->
  tombstone conv b e (tombstone conv b e r) = tombstone conv b e r.
Proof.
  intros H. unfold tombstone at 2 3. destruct (selected conv b e r) eqn:E.
  - unfold tombstone. by rewrite set_dead_not_selected.
  - unfold tombstone. by rewrite E.
Qed.

Lemma tombstone_frames_wf b e frames :
  Forall (fun r => frame_wf r = true) frames ->
  Forall (fun r => frame_wf r = true) (tombstone_frames conv b e frames).
Proof.
  induction 1 as [|r frames Hr Hall IH]; [constructor|].
  cbn. destruct (header_ok r); constructor; auto using tombstone_frame_wf.
Qed.

Lemma tombstone_frames_idemp b e frames :
  Forall (fun r => frame_wf r = true) frames ->
  tombstone_frames conv b e (tombstone_frames conv b e frames) =
  tombstone_frames conv b e frames.
Proof.
  induction 1 as [|r frames Hr Hall IH]; [done|].
  apply frame_wf_inv in Hr as [Hr _].
  cbn. destruct (header_ok r) eqn:E.
  - cbn. rewrite tombstone_header_ok, E by done.
    by rewrite tombstone_idemp, IH.
  - cbn. by rewrite E.
Qed.

Lemma tombstone_frames_length b e frames :
  length (concat (tombstone_frames conv b e frames)) = length (concat frames).
Proof.
  induction frames as [|r frames IH]; [done|].
  cbn. destruct (header_ok r); [|done].
  cbn. rewrite !length_app, IH, tombstone_length. done.
Qed.

Lemma tombstone_frames_count b e frames :
  length (tombstone_frames conv b e frames) = length frames.
Proof.
  induction frames as [|r frames IH]; [done|].
  cbn. destruct (header_ok r); [|done]. cbn. by rewrite IH.
Qed.

(** The delete scan on a file made of frames. *)
Lemma delete_loop_frames b e frames :
  Forall (fun r => frame_wf r = true) frames ->
  forall fuel pre header,
    length header = 24%nat ->
    (length frames < fuel)%nat ->
    delete_loop conv fuel b e (pre ++ concat frames) (Z.of_nat (length pre)) header
    = Some (pre ++ concat (tombstone_frames conv b e frames)).
Proof.
  induction 1 as [|r frames Hr _ IH]; intros fuel pre header Hh Hfuel.
  - destruct fuel; [cbn in Hfuel; lia|]. cbn [concat delete_loop tombstone_frames].
    rewrite app_nil_r. unfold sizeof_AuditMsgHdr.
    replace (24 `min` (Z.of_nat (length pre) - Z.of_nat (length pre))) with 0 by lia.
    reflexivity.
  - destruct fuel as [|fuel]; [cbn in Hfuel; lia|].
    apply frame_wf_inv in Hr as [Hlen Hsize].
    cbn [concat delete_loop tombstone_frames]. unfold sizeof_AuditMsgHdr.
    rewrite length_app, (length_app r).
    replace (24 `min` (Z.of_nat (length pre + (length r + length (concat frames))) - Z.of_nat (length pre)))
      with 24 by lia.
    cbn [Z.leb Z.compare]. rewrite Nat2Z.id. change (Z.to_nat 24) with 24%nat.
    rewrite read_at_frame by lia.
    rewrite write_whole by (rewrite length_take_le by lia; lia).
    rewrite header_ok_take.
    destruct (header_ok r) eqn:Eok; cbn [negb]; [|reflexivity].
    rewrite selected_take.
    replace (Z.of_nat (length pre) + 24 - 24) with (Z.of_nat (length pre)) by lia.
    rewrite Nat2Z.id.
    replace (Z.of_nat (length pre) <? 0) with false by (symmetry; apply Z.ltb_ge; lia).
    rewrite andb_false_r.
    unfold tombstone.
    destruct (selected conv b e r) eqn:Esel.
    + assert (Hd : length (set_dead (take 24 r)) = 24%nat)
        by (rewrite set_dead_length, length_take_le by lia; done).
      rewrite file_write_frame by lia. rewrite Hd.
      rewrite <- set_dead_split by done.
      rewrite set_dead_hdr_size by (rewrite length_take_le by lia; lia).
      rewrite hdr_size_take, Hsize.
      replace (Z.of_nat (length pre) + 24 + (Z.of_nat (length r) - 24))
        with (Z.of_nat (length (pre ++ set_dead r)))
        by (rewrite length_app, set_dead_length; lia).
      replace (Z.of_nat (length (pre ++ set_dead r)) <? 0) with false
        by (symmetry; apply Z.ltb_ge; lia).
      rewrite app_assoc. rewrite IH.
      * by rewrite <- app_assoc.
      * rewrite set_dead_length, length_take_le by lia. done.
      * cbn in Hfuel. lia.
    + rewrite hdr_size_take, Hsize.
      replace (Z.of_nat (length pre) + 24 + (Z.of_nat (length r) - 24))
        with (Z.of_nat (length (pre ++ r)))
        by (rewrite length_app; lia).
      replace (Z.of_nat (length (pre ++ r)) <? 0) with false
        by (symmetry; apply Z.ltb_ge; lia).
      rewrite app_assoc. rewrite IH.
      * by rewrite <- app_assoc.
      * rewrite length_take_le by lia. done.
      * cbn in Hfuel. lia.
Qed.

(** The delete scan never changes the length of a file, whatever the
    file holds. *)
Lemma delete_loop_length b e :
  forall fuel c pos header c',
    0 <= pos -> length header = 24%nat ->
    delete_loop conv fuel b e c pos header = Some c' ->
    length c' = length c.
Proof.
  induction fuel as [|fuel IH]; intros c pos header c' Hpos Hh; [done|].
  cbn [delete_loop]. unfold sizeof_AuditMsgHdr.
  set (nread := 24 `min` (Z.of_nat (length c) - pos)).
  destruct (nread <=? 0) eqn:E0; [by intros [= <-]|].
  apply Z.leb_gt in E0.
  set (h1 := Mem.write O _ header).
  assert (Hh1 : length h1 = 24%nat) by (unfold h1; by rewrite write_length).
  destruct (header_ok h1); cbn [negb]; [|by intros [= <-]].
  destruct (selected conv b e h1) eqn:Esel; cbn [andb].
  - destruct (pos + nread - 24 <? 0) eqn:E1; [by intros [= <-]|].
    apply Z.ltb_ge in E1.
    set (c1 := file_write _ _ c).
    assert (Hc1 : length c1 = length c).
    { unfold c1, file_write. rewrite !length_app, length_resize, length_drop, set_dead_length, Hh1.
      unfold nread in *. lia. }
    destruct (_ <? 0) eqn:E2; [intros [= <-]; done|].
    apply Z.ltb_ge in E2. intros H. apply IH in H; [lia|lia|].
    by rewrite set_dead_length.
  - destruct (_ <? 0) eqn:E2; [intros [= <-]; done|].
    apply Z.ltb_ge in E2. intros H. apply IH in H; [lia|lia|done].
Qed.
End DeleteFacts.

(** ** Query, delete and the entry points *)

Lemma file_content_store (d : Disk) fnum (c0 c : bytes) :
  file_content d fnum = Some c0 -> file_content (disk_store fnum c d) fnum = Some c.
Proof.
  unfold file_content, disk_store. intros H.
  destruct (dir d !! fnum) as [ino|] eqn:E; [|done]. cbn in H |- *.
  rewrite E. cbn. apply list_lookup_insert_eq. by eapply lookup_lt_Some.
Qed.

Lemma disk_store_twice (d : Disk) fnum (c : bytes) :
  disk_store fnum c (disk_store fnum c d) = disk_store fnum c d.
Proof.
  unfold disk_store. destruct (dir d !! fnum) as [ino|] eqn:E; cbn; rewrite E; [|done].
  cbn. by rewrite list_insert_insert_eq.
Qed.

Section ScanTheorems.
Variable conv : Z -> Z.
Variable MaxAllocSize : Z.

Lemma scan_file_records begtime endtime records :
  Forall (fun r => record_wf MaxAllocSize r = true) records ->
  exists rows,
    mapM (make_row conv) (List.filter (selected conv begtime endtime) records) = Some rows /\
    scan_file conv MaxAllocSize begtime endtime (concat records) [] = Done rows.
Proof.
  intros Hwf. unfold scan_file.
  destruct (query_loop_records conv MaxAllocSize begtime endtime records Hwf
              (S (length (concat records))) [] []) as (rows & Hm & Hq).
  - clear -Hwf. induction Hwf as [|r records Hr _ IH]; cbn; [lia|].
    apply record_wf_inv in Hr as (_ & _ & [H _] & _). rewrite length_app. lia.
  - exists rows. split; [done|]. exact Hq.
Qed.

Lemma make_row_descs (r : bytes) row :
  make_row conv r = Some row ->
  AuditTypeDesc (read_u32 off_type r) = Some (r_type row) /\
  AuditResultDesc (read_u32 off_result r) = Some (r_result row).
Proof.
  unfold make_row. destruct (_ <? _)%nat; [done|].
  generalize (mapM (field_text r) (seq 0 (S AUDIT_REMOTEPORT_INFO))). intros fs.
  destruct (AuditTypeDesc _) as [ty|]; [|done].
  destruct (AuditResultDesc _) as [re|]; [|done].
  destruct fs as [fs|]; [|done]. cbn. by intros [= <-].
Qed.

Lemma AuditTypeDesc_unknown v :
  ~ (0 < v < AuditTypeNum) -> AuditTypeDesc v = Some "unknown"%string.
Proof.
  intros H. unfold AuditTypeDesc, AuditTypeDesc_index.
  destruct ((0 <? v) && (v <? AuditTypeNum)) eqn:E; [|reflexivity].
  apply andb_prop in E as [E1 E2]. apply Z.ltb_lt in E1, E2. lia.
Qed.

Lemma AuditResultDesc_unknown v :
  ~ (0 < v < AuditResultNum) -> AuditResultDesc v = Some "unknown"%string.
Proof.
  intros H. unfold AuditResultDesc, AuditResultDesc_index.
  destruct ((0 <? v) && (v <? AuditResultNum)) eqn:E; [|reflexivity].
  apply andb_prop in E as [E1 E2]. apply Z.ltb_lt in E1, E2. lia.
Qed.

(** C10. Unknown enumeration values never abort a query.  The subscript
    the description macros use is always inside the table, whatever the
    value; and the scan of a file of well-formed records still stores a
    row for every selected record, with the description "unknown" where
    the record's type or result is outside the known range. *)
Theorem unknown_enum_row (d : Disk) (fnum : Z) (records : list bytes)
    (begtime endtime : Z) :
  file_content d fnum = Some (concat records) ->
  Forall (fun r => record_wf MaxAllocSize r = true) records ->
  (forall v : Z,
     (Z.to_nat (AuditTypeDesc_index v) < length AuditTypeDescs)%nat /\
     (Z.to_nat (AuditResultDesc_index v) < length AuditResultDescs)%nat) /\
  exists rows,
    pgaudit_query_file conv MaxAllocSize d fnum begtime endtime [] = Done rows /\
    Forall2
      (fun r row =>
         (~ (0 < read_u32 off_type r < AuditTypeNum) -> r_type row = "unknown"%string) /\
         (~ (0 < read_u32 off_result r < AuditResultNum) -> r_result row = "unknown"%string))
      (List.filter (selected conv begtime endtime) records) rows.
Proof.
  intros Hc Hwf. split.
  - intros v. split; [apply AuditTypeDesc_in_bounds | apply AuditResultDesc_in_bounds].
  - destruct (scan_file_records begtime endtime records Hwf) as (rows & Hm & Hs).
    exists rows. unfold pgaudit_query_file. rewrite Hc. split; [exact Hs|].
    apply mapM_Some in Hm. eapply Forall2_impl; [exact Hm|].
    intros r row Hrow. apply make_row_descs in Hrow as [Ht Hr]. split; intros Hout.
    + rewrite AuditTypeDesc_unknown in Ht by done. congruence.
    + rewrite AuditResultDesc_unknown in Hr by done. congruence.
Qed.

(** X29. On a file that is a sequence of frames, each as long as its size
    field says, [pgaudit_delete_file] ends and leaves the frames of
    [tombstone_frames]: a frame as it was, or, for a frame the range
    selects, with [AUDIT_TUPLE_DEAD] stored in the two bytes of its flags
    and no other byte changed.  A second delete over the same range leaves
    this file as it is.  No delete of any file, whatever it holds, changes
    its length. *)
Theorem tombstone_idempotent (d : Disk) (fnum : Z) (frames : list bytes)
    (begtime endtime : Z) (header0 header1 : bytes) (fuel : nat) :
  file_content d fnum = Some (concat frames) ->
  Forall (fun r => frame_wf r = true) frames ->
  (length frames < fuel)%nat ->
  let frames' := tombstone_frames conv begtime endtime frames in
  let d' := disk_store fnum (concat frames') d in
  pgaudit_delete_file conv fuel header0 d fnum begtime endtime = Some d' /\
  pgaudit_delete_file conv fuel header1 d' fnum begtime endtime = Some d' /\
  file_content d' fnum = Some (concat frames') /\
  Forall2 (fun r r' =>
             r' = r \/
             (selected conv begtime endtime r = true /\
              r' = take 6 r ++ le_bytes 2 AUDIT_TUPLE_DEAD ++ drop 8 r))
    frames frames' /\
  (forall (d0 d1 : Disk) (f : Z) (c : bytes) (n : nat) (h : bytes),
     file_content d0 f = Some c ->
     pgaudit_delete_file conv n h d0 f begtime endtime = Some d1 ->
     length <$> file_content d1 f = Some (length c)).
Proof.
  intros Hc Hwf Hfuel frames' d'.
  pose proof (delete_loop_frames conv begtime endtime frames Hwf fuel []
                (resize 24 0 header0) (length_resize _ _ _) Hfuel) as H1.
  pose proof (tombstone_frames_wf conv begtime endtime frames Hwf) as Hwf'.
  pose proof (delete_loop_frames conv begtime endtime _ Hwf' fuel []
                (resize 24 0 header1) (length_resize _ _ _)) as H2.
  rewrite tombstone_frames_count in H2. specialize (H2 Hfuel).
  rewrite tombstone_frames_idemp in H2 by done.
  cbn [app length] in H1, H2. change (Z.of_nat 0) with 0 in H1, H2.
  assert (Hc' : file_content d' fnum = Some (concat frames'))
    by apply (file_content_store d fnum _ _ Hc).
  split; [|split; [|split; [|split]]].
  - unfold pgaudit_delete_file. rewrite Hc.
    change (Z.to_nat sizeof_AuditMsgHdr) with 24%nat. by rewrite H1.
  - unfold pgaudit_delete_file. rewrite Hc'.
    change (Z.to_nat sizeof_AuditMsgHdr) with 24%nat.
    fold frames' in H2. rewrite H2. cbn [mbind option_bind].
    unfold d'. by rewrite disk_store_twice.
  - exact Hc'.
  - unfold frames'. clear -Hwf.
    induction Hwf as [|r frames Hr _ IH]; [constructor|].
    cbn [tombstone_frames]. destruct (header_ok r).
    + constructor; [|exact IH]. unfold tombstone.
      destruct (selected conv begtime endtime r) eqn:Esel; [right|by left].
      split; [done|]. apply frame_wf_inv in Hr as [Hlen _].
      split_header r Hlen. reflexivity.
    + apply Forall2_same_length_lookup_2; [done|]. intros i x y Hx Hy. left. congruence.
  - clear. intros d0 d1 f c n h Hf. unfold pgaudit_delete_file. rewrite Hf.
    destruct (delete_loop _ _ _ _ _ _ _) as [c'|] eqn:E; [|done].
    cbn. intros [= <-]. rewrite (file_content_store d0 f _ _ Hf). cbn.
    f_equal. eapply delete_loop_length; [| |exact E]; [lia|apply length_resize].
Qed.

(** C9. An empty range is a no-op.  With [begtime >= endtime],
    [pg_query_audit] returns no row and opens no audit file, and
    [pg_delete_audit] leaves the directory as it is and opens no audit
    file; both do so whenever the checks on the caller pass. *)
Theorem empty_range_noop (fuel : nat) (header0 : bytes) (ctx : CallCtx)
    (open_fails : bool) (d : Disk) (begtime endtime : Z) :
  endtime <= begtime ->
  (forall r, pg_query_audit conv MaxAllocSize fuel ctx open_fails d begtime endtime = Done r ->
             r = ([], [])) /\
  (has_auditadmin_privilege ctx = true -> rsinfo_is_set ctx = true ->
   materialize_allowed ctx = true -> result_is_composite ctx = true ->
   natts ctx = PGAUDIT_QUERY_COLS ->
   pg_query_audit conv MaxAllocSize fuel ctx open_fails d begtime endtime = Done ([], [])) /\
  (forall r, pg_delete_audit conv fuel header0 ctx open_fails d begtime endtime = Done r ->
             r = (d, [])) /\
  (has_auditadmin_privilege ctx = true ->
   pg_delete_audit conv fuel header0 ctx open_fails d begtime endtime = Done (d, [])).
Proof.
  intros Hle.
  assert (E : (begtime <? endtime) = false) by (apply Z.ltb_ge; lia).
  unfold pg_query_audit, pg_delete_audit. rewrite E. cbn [andb].
  repeat split.
  - intros r. repeat (destruct (negb _); [done|]).
    destruct (pgaudit_read_indexfile _ _); by intros [= <-].
  - intros -> -> -> -> ->. cbn. by destruct (pgaudit_read_indexfile _ _).
  - intros r. destruct (negb _); [done|].
    destruct (pgaudit_read_indexfile _ _); by intros [= <-].
  - intros ->. cbn. by destruct (pgaudit_read_indexfile _ _).
Qed.
End ScanTheorems.

(** ** The collector's table and file *)

Lemma item_at_set_item_eq index it t :
  (Z.to_nat index < length (data t))%nat -> item_at (set_item index it t) index = it.
Proof.
  intros H. unfold item_at, set_item. cbn [data].
  by rewrite list_lookup_insert_eq.
Qed.

Lemma item_at_set_item_ne index index' it t :
  Z.to_nat index <> Z.to_nat index' ->
  item_at (set_item index it t) index' = item_at t index'.
Proof.
  intros H. unfold item_at, set_item. cbn [data].
  by rewrite list_lookup_insert_ne.
Qed.

Lemma next_index_bound t index :
  0 < maxnum t -> 0 <= next_index t index < maxnum t.
Proof. intros H. unfold next_index. apply Z.mod_pos_bound. lia. Qed.

Lemma stamp_length curtime count (buffer : bytes) :
  length (stamp curtime count buffer) = length buffer.
Proof. unfold stamp. by rewrite !write_length. Qed.

Lemma inode_content_append (d : Disk) fh (b : bytes) :
  is_Some (inodes d !! fh) ->
  inode_content (disk_append fh b d) fh = inode_content d fh ++ b.
Proof.
  intros [c Hc]. unfold inode_content, disk_append. cbn [inodes].
  rewrite list_lookup_alter_eq, Hc. reflexivity.
Qed.

Section CollectorFacts.
Variable PIPE_BUF : option Z.
Local Arguments stamp : simpl never.

(** The state a write leaves when the clock has not gone back. *)
Definition write_plain (env : Env) (fh : nat) (buffer : bytes) (count : Z)
    (w : World) : bytes * World :=
  let curtime := now env (tick w) in
  let buffer := stamp curtime count buffer in
  (buffer,
   with_disk (disk_append fh (take (Z.to_nat count) buffer) (disk w))
     (with_indextbl (set_last_audit_time curtime <$> audit_indextbl w)
        (with_tick (S (tick w)) w))).

(** No table, or a table whose last audit time the clock has reached. *)
Definition steady (env : Env) (w : World) : Prop :=
  forall t, audit_indextbl w = Some t -> last_audit_time t <= now env (tick w).

Lemma pgaudit_write_file_plain fuel env fh buffer count w :
  sysauditFile w = Some fh -> steady env w ->
  pgaudit_write_file PIPE_BUF fuel env buffer count w =
  Some (write_plain env fh buffer count w).
Proof.
  intros Hfh Hst. unfold steady in Hst. unfold write_plain.
  destruct w as [tbl fh' ts sb nrt rr rd bl po dk tk tr].
  cbn [sysauditFile audit_indextbl tick disk] in *. subst fh'.
  destruct fuel; cbn [pgaudit_write_file sysauditFile time_NULL tick with_tick audit_indextbl];
    (destruct tbl as [t|];
     [ specialize (Hst t eq_refl);
       replace (now env tk <? last_audit_time t) with false
         by (symmetry; apply Z.ltb_ge; lia) | ];
     reflexivity).
Qed.

(** What [audit_report] of an internal event leaves in the collector when
    the clock has not gone back. *)
Definition report_plain (env : Env) (result : Z) (object_name detail_info : option bytes)
    (w : World) : World :=
  if negb (Audit_enabled (cfg env)) || ha_pending env then w
  else
    match sysauditFile w with
    | None => w
    | Some fh =>
        let buf := audit_record env AUDIT_INTERNAL_EVENT result object_name detail_info in
        (write_plain env fh buf (Z.of_nat (length buf)) w).2
    end.

Lemma audit_report_plain fuel env result object_name detail_info w :
  am_auditor env = true -> steady env w ->
  audit_report PIPE_BUF fuel env AUDIT_INTERNAL_EVENT result object_name detail_info w =
  Some (report_plain env result object_name detail_info w).
Proof.
  intros Ham Hst. unfold audit_report, audit_report_with, report_plain.
  destruct (negb (Audit_enabled (cfg env)) || ha_pending env); [done|].
  change (report_gate env AUDIT_INTERNAL_EVENT) with true. cbn [negb].
  rewrite Ham. rewrite andb_false_r.
  destruct (sysauditFile w) as [fh|] eqn:Efh.
  - rewrite (pgaudit_write_file_plain fuel env fh) by done. reflexivity.
  - destruct fuel; cbn [pgaudit_write_file]; rewrite Efh; reflexivity.
Qed.

Lemma report_plain_dir env result o dt w :
  dir (disk (report_plain env result o dt w)) = dir (disk w).
Proof.
  unfold report_plain. destruct (_ || _); [done|].
  destruct (sysauditFile w); done.
Qed.

Lemma report_plain_indextbl env result o dt w :
  audit_indextbl (report_plain env result o dt w) = audit_indextbl w \/
  audit_indextbl (report_plain env result o dt w) =
    set_last_audit_time (now env (tick w)) <$> audit_indextbl w.
Proof.
  unfold report_plain. destruct (_ || _); [by left|].
  destruct (sysauditFile w); [by right|by left].
Qed.

Lemma report_plain_index_file env result o dt w :
  index_file (disk (report_plain env result o dt w)) = index_file (disk w).
Proof.
  unfold report_plain. destruct (_ || _); [done|].
  destruct (sysauditFile w); done.
Qed.
End CollectorFacts.

(** ** A clock that goes back *)

Section Rewind.
Variable PIPE_BUF : option Z.
Local Arguments stamp : simpl never.
Local Arguments audit_record : simpl never.
Local Arguments encode_indextbl : simpl never.

(** The record the collector writes about a clock that went back. *)
Definition time_changed_record (env : Env) : bytes :=
  audit_record env AUDIT_INTERNAL_EVENT AUDIT_OK
    (Some (of_string "time")) (Some (of_string "system time changed.")).

(** The write path when the clock has gone back. *)
Lemma write_file_rewind (fuel : nat) (env : Env) (w : World)
    (t : AuditIndexTable) (fh : nat) (buffer : bytes) (count : Z) :
  audit_indextbl w = Some t ->
  sysauditFile w = Some fh ->
  is_Some (inodes (disk w) !! fh) ->
  (Z.to_nat (curidx t) < length (data t))%nat ->
  am_auditor env = true ->
  indexfile_open_fails env = false ->
  now env (tick w) < last_audit_time t ->
  now env (tick w) <= now env (S (tick w)) ->
  (0 < fuel)%nat ->
  let curtime := now env (tick w) in
  let cur := item_at t (curidx t) in
  let marked := set_last_audit_time curtime (set_item (curidx t) (mark_rewind cur) t) in
  let rec := time_changed_record env in
  let report :=
    if Audit_enabled (cfg env) && negb (ha_pending env)
    then stamp (now env (S (tick w))) (Z.of_nat (length rec)) rec
    else [] in
  exists w',
    pgaudit_write_file PIPE_BUF fuel env buffer count w =
      Some (stamp curtime count buffer, w') /\
    audit_indextbl w' = Some marked /\
    ctime (item_at marked (curidx t)) = (if 0 <? ctime cur then - ctime cur else ctime cur) /\
    index_file (disk w') = Some (encode_indextbl marked) /\
    inode_content (disk w') fh =
      inode_content (disk w) fh ++ report ++
      take (Z.to_nat count) (stamp curtime count buffer).
Proof.
  intros Ht Hfh Hino Hcur Ham Hidx Hback Hfwd Hfuel.
  destruct fuel as [|fuel]; [lia|].
  destruct w as [tbl fh' ts sb nrt rr rd bl po dk tk tr].
  cbn [sysauditFile audit_indextbl tick disk] in *. subst fh' tbl.
  cbn zeta.
  cbn [pgaudit_write_file sysauditFile time_NULL tick with_tick audit_indextbl].
  replace (now env tk <? last_audit_time t) with true
    by (symmetry; apply Z.ltb_lt; lia).
  match goal with
  | |- context [audit_report_with PIPE_BUF (pgaudit_write_file PIPE_BUF fuel env) env ?a ?b ?c ?d ?w] =>
      change (audit_report_with PIPE_BUF (pgaudit_write_file PIPE_BUF fuel env) env a b c d w)
        with (audit_report PIPE_BUF fuel env a b c d w);
      rewrite (audit_report_plain PIPE_BUF fuel env b c d w Ham)
  end.
  2:{ unfold steady, pgaudit_update_indexfile. rewrite Hidx. cbn.
      intros t' [= <-]. cbn. lia. }
  cbn [mbind option_bind].
  eexists. split; [reflexivity|].
  unfold report_plain, pgaudit_update_indexfile. rewrite Hidx.
  fold (time_changed_record env).
  destruct (Audit_enabled (cfg env)), (ha_pending env); cbn -[time_changed_record].
  all: repeat split.
  all: try (change (item_at (set_last_audit_time ?v ?x) ?i) with (item_at x i);
            rewrite item_at_set_item_eq by done; unfold mark_rewind;
            destruct (0 <? ctime (item_at t (curidx t))); cbn; lia).
  all: try (rewrite inode_content_append by done; reflexivity).
  rewrite !inode_content_append.
  - rewrite <- app_assoc. rewrite Nat2Z.id. rewrite take_ge by (rewrite stamp_length; lia).
    reflexivity.
  - cbn. exact Hino.
  - cbn. destruct Hino as [c Hc]. rewrite list_lookup_alter_eq, Hc. by eexists.
Qed.

(** C8, as amended.  When the time stamped on an append is less than the
    table's [last_audit_time], the write path makes the [ctime] of the
    current slot negative if it was positive and leaves a [ctime] that is
    already zero or negative as it is, sets [last_audit_time] to the
    stamped time, rewrites the index file with that table and, when
    auditing is enabled and the node is not pending, puts an
    internal-event record "system time changed." in the file ahead of the
    record being appended, which it then writes as usual. *)
Theorem rewind_marks_file (fuel : nat) (env : Env) (w : World)
    (t : AuditIndexTable) (fh : nat) (buffer : bytes) (count : Z) :
  audit_indextbl w = Some t ->
  sysauditFile w = Some fh ->
  is_Some (inodes (disk w) !! fh) ->
  (Z.to_nat (curidx t) < length (data t))%nat ->
  am_auditor env = true ->
  indexfile_open_fails env = false ->
  now env (tick w) < last_audit_time t ->
  now env (tick w) <= now env (S (tick w)) ->
  (0 < fuel)%nat ->
  let curtime := now env (tick w) in
  let cur := item_at t (curidx t) in
  let marked := set_last_audit_time curtime (set_item (curidx t) (mark_rewind cur) t) in
  let rec := time_changed_record env in
  let report :=
    if Audit_enabled (cfg env) && negb (ha_pending env)
    then stamp (now env (S (tick w))) (Z.of_nat (length rec)) rec
    else [] in
  exists w',
    pgaudit_write_file PIPE_BUF fuel env buffer count w =
      Some (stamp curtime count buffer, w') /\
    audit_indextbl w' = Some marked /\
    ctime (item_at marked (curidx t)) = (if 0 <? ctime cur then - ctime cur else ctime cur) /\
    index_file (disk w') = Some (encode_indextbl marked) /\
    inode_content (disk w') fh =
      inode_content (disk w) fh ++ report ++
      take (Z.to_nat count) (stamp curtime count buffer).
Proof. exact (write_file_rewind fuel env w t fh buffer count). Qed.
End Rewind.

(** ** Rotation *)

Section Rotation.
Variable PIPE_BUF : option Z.
Local Arguments stamp : simpl never.
Local Arguments audit_record : simpl never.
Local Arguments encode_indextbl : simpl never.
Local Arguments AUDIT_COUNT : simpl never.
Local Arguments next_index : simpl never.
Local Arguments u32 : simpl never.
Local Arguments u64 : simpl never.

Ltac simpl_world :=
  cbn [audit_indextbl sysauditFile pgaudit_totalspace space_beyond_size
       next_rotation_time rotation_requested rotation_disabled buffer_lists
       pipe_out disk tick trace with_indextbl with_sysauditFile with_totalspace
       with_space_beyond with_next_rotation_time with_rotation_requested
       with_rotation_disabled with_buffer_lists with_pipe_out with_disk
       with_tick ereport emit].


(** Closing the open file and opening the next one, new on disk. *)
Lemma rotate_fresh (fuel : nat) (env : Env) (w : World) (t : AuditIndexTable)
    (fh : nat) (fntime : Z) :
  audit_indextbl w = Some t ->
  sysauditFile w = Some fh ->
  0 < maxnum t ->
  Z.of_nat (length (data t)) = maxnum t ->
  fopen_errno env (u32 (filenum (item_at t (curidx t)) + 1)) = None ->
  dir (disk w) !! u32 (filenum (item_at t (curidx t)) + 1) = None ->
  am_auditor env = true ->
  indexfile_open_fails env = false ->
  last_audit_time t <= now env (tick w) ->
  let slot := next_index t (curidx t) in
  exists w' t' t_disk,
    (let w := auditfile_close w in
     match auditfile_open env fntime true w with
     | (inl errno, w) =>
         Some (if negb (errno =? ENFILE) && negb (errno =? EMFILE)
               then with_rotation_disabled true
                      (ereport LOG "disabling automatic rotation (use SIGHUP to re-enable)" [] w)
               else w)
     | (inr fh, w) =>
         let w := with_sysauditFile (Some fh) w in
         w ← audit_report PIPE_BUF fuel env AUDIT_INTERNAL_EVENT AUDIT_OK
               (Some (of_string "file"))
               (Some (of_string "create a new audit file")) w;
         Some (set_next_rotation_time env w)
     end) = Some w' /\
    audit_indextbl w' = Some t' /\
    curidx t' = slot /\
    ctime (item_at t' slot) = fntime /\
    filenum (item_at t' slot) = u32 (filenum (item_at t (curidx t)) + 1) /\
    index_file (disk w') = Some (encode_indextbl t_disk) /\
    curidx t_disk = slot /\
    ctime (item_at t_disk slot) = fntime.
Proof.
  intros Ht Hfh Hmax Hlen Hopen Hnew Ham Hidx Hclock.
  pose proof (next_index_bound t (curidx t) Hmax) as Hslot.
  assert (Hslot' : (Z.to_nat (next_index t (curidx t)) < length (data t))%nat) by lia.
  destruct w as [tbl fh' ts sb nrt rr rd bl po dk tk tr].
  cbn [sysauditFile audit_indextbl tick disk next_rotation_time] in *. subst fh' tbl.
  cbn zeta.
  unfold auditfile_close, auditfile_open.
  cbn [sysauditFile audit_indextbl with_totalspace with_indextbl with_sysauditFile disk
       pgaudit_totalspace].
  set (size := u32 (ftell _ fh)).
  set (item := set_filesize size (item_at t (curidx t))).
  change (filenum item) with (filenum (item_at t (curidx t))).
  set (fnum := u32 (filenum (item_at t (curidx t)) + 1)) in *.
  set (t1 := set_item (curidx t) item t).
  change (curidx t1) with (curidx t).
  change (next_index t1 (curidx t)) with (next_index t (curidx t)).
  set (slot := next_index t (curidx t)) in *.
  change (curidx (set_curidx slot t1)) with slot.
  set (t2 := set_item slot _ (set_curidx slot t1)).
  change (curidx t2) with slot.
  assert (Hlen2 : length (data t2) = length (data t)).
  { unfold t2, t1. cbn [data set_item set_curidx]. by rewrite !length_insert. }
  assert (Hf : filenum (item_at t2 slot) = fnum).
  { unfold t2. rewrite item_at_set_item_eq; [done|]. cbn [data set_curidx set_item t1].
    rewrite length_insert. done. }
  rewrite Hf, Hopen.
  rewrite bool_decide_eq_false_2 by (rewrite Hnew; apply is_Some_None).
  simpl_world. change (curidx t2) with slot.
  set (t3 := set_count _ (set_item slot (set_ctime fntime (item_at t2 slot)) t2)).
  unfold pgaudit_update_indexfile at 1. rewrite Hidx.
  simpl_world.
  match goal with
  | |- context [audit_report PIPE_BUF fuel env ?a ?b ?c ?d ?w] =>
      rewrite (audit_report_plain PIPE_BUF fuel env b c d w Ham)
  end.
  2:{ unfold steady. cbn. intros t' [= <-]. cbn. exact Hclock. }
  cbn [mbind option_bind].
  match goal with
  | |- context [report_plain ?e ?r ?o ?dt ?w] =>
      pose proof (report_plain_indextbl e r o dt w) as Htbl;
      pose proof (report_plain_index_file e r o dt w) as Hif;
      set (wr := report_plain e r o dt w) in *
  end.
  cbn [audit_indextbl disk index_file disk_set_index with_sysauditFile with_disk emit
       with_indextbl fmap option_fmap option_map] in Htbl, Hif.
  assert (Hnext : forall x, audit_indextbl (set_next_rotation_time env x) = audit_indextbl x /\
                            disk (set_next_rotation_time env x) = disk x).
  { intros x. unfold set_next_rotation_time.
    destruct (_ <=? 0); [done|]. cbn. done. }
  destruct (Hnext wr) as [Hn1 Hn2].
  assert (Hd : curidx t3 = slot /\ ctime (item_at t3 slot) = fntime /\
               filenum (item_at t3 slot) = fnum).
  { unfold t3. split; [done|].
    change (item_at (set_count ?c ?x) ?i) with (item_at x i).
    rewrite item_at_set_item_eq by (rewrite Hlen2; done).
    cbn. split; [done|]. exact Hf. }
  destruct Hd as (Hd1 & Hd2 & Hd3).
  destruct Htbl as [Htbl|Htbl].
  - exists (set_next_rotation_time env wr), t3, t3.
    rewrite Hn1, Hn2, Hif, Htbl. done.
  - eexists (set_next_rotation_time env wr), _, t3.
    rewrite Hn1, Hn2, Hif, Htbl. repeat split; try done.
Qed.

(** C6, as amended.  Rotation name stability.  A rotation that creates the
    new file, under a name that was not on disk, while the clock is not
    seen to have gone back behind [last_audit_time], gives the new slot,
    in the table and in the index file, the planned [next_rotation_time]
    as [ctime] when it is time based, however late it is served, and the
    reading of the clock only when it is not time based. *)
Theorem rotation_name_stability (fuel : nat) (env : Env) (w : World)
    (t : AuditIndexTable) (fh : nat) (time_based_rotation size_based_rotation : bool) :
  audit_indextbl w = Some t ->
  sysauditFile w = Some fh ->
  0 < maxnum t ->
  Z.of_nat (length (data t)) = maxnum t ->
  time_based_rotation || size_based_rotation = true ->
  fopen_errno env (u32 (filenum (item_at t (curidx t)) + 1)) = None ->
  dir (disk w) !! u32 (filenum (item_at t (curidx t)) + 1) = None ->
  am_auditor env = true ->
  indexfile_open_fails env = false ->
  last_audit_time t <= now env (if time_based_rotation then tick w else S (tick w)) ->
  let planned := if time_based_rotation then next_rotation_time w else now env (tick w) in
  let slot := next_index t (curidx t) in
  exists w' t' t_disk,
    auditfile_rotate PIPE_BUF fuel env time_based_rotation size_based_rotation w = Some w' /\
    audit_indextbl w' = Some t' /\
    curidx t' = slot /\
    ctime (item_at t' slot) = planned /\
    filenum (item_at t' slot) = u32 (filenum (item_at t (curidx t)) + 1) /\
    index_file (disk w') = Some (encode_indextbl t_disk) /\
    curidx t_disk = slot /\
    ctime (item_at t_disk slot) = planned.
Proof.
  intros Ht Hfh Hmax Hlen Hrot Hopen Hnew Ham Hidx Hclock.
  unfold auditfile_rotate. rewrite Hrot.
  destruct time_based_rotation; cbn [time_NULL] in *.
  - apply (rotate_fresh fuel env (with_rotation_requested false w) t fh); done.
  - apply (rotate_fresh fuel env
             (with_tick (S (tick (with_rotation_requested false w)))
                (with_rotation_requested false w)) t fh); done.
Qed.
End Rotation.

(** ** Retention under time priority *)

Section Retention.
Variable PIPE_BUF : option Z.
Local Arguments stamp : simpl never.
Local Arguments audit_record : simpl never.
Local Arguments encode_indextbl : simpl never.
Local Arguments next_index : simpl never.
Local Arguments u32 : simpl never.
Local Arguments u64 : simpl never.

Lemma cleanup_warn_beyond_same env filesize w :
  disk (cleanup_warn_beyond env filesize w) = disk w /\
  audit_indextbl (cleanup_warn_beyond env filesize w) = audit_indextbl w /\
  tick (cleanup_warn_beyond env filesize w) = tick w.
Proof. unfold cleanup_warn_beyond. destruct (_ <=? _); done. Qed.

Lemma cleanup_warn_removed_same env filesize item t w :
  disk (cleanup_warn_removed env filesize item t w) = disk w /\
  audit_indextbl (cleanup_warn_removed env filesize item t w) = audit_indextbl w /\
  tick (cleanup_warn_removed env filesize item t w) = tick w.
Proof.
  unfold cleanup_warn_removed.
  repeat match goal with |- context [if ?b then _ else _] => destruct b end; done.
Qed.

Lemma pgaudit_update_indexfile_same env mode allow w :
  dir (disk (pgaudit_update_indexfile env mode allow w)) = dir (disk w) /\
  audit_indextbl (pgaudit_update_indexfile env mode allow w) = audit_indextbl w /\
  tick (pgaudit_update_indexfile env mode allow w) = tick w.
Proof. unfold pgaudit_update_indexfile. destruct (indexfile_open_fails env); done. Qed.

Lemma remain_time_nonzero env :
  0 < Audit_RemainAge (cfg env) -> (remain_time env =? 0) = false.
Proof. intros H. apply Z.eqb_neq. unfold remain_time, SECS_PER_DAY. lia. Qed.

(** C2, as amended.  Under time priority ([CleanupPolicy = 0]) with
    [RemainAge > 0], a total at or below the 1 TiB ceiling and a count
    within [RemainThreshold], a turn of the retention loop stops and keeps
    the oldest file exactly when
    [last_audit_time - victim.ctime <= RemainAge * 86400] holds for the
    victim slot or [last_audit_time - next.ctime < RemainAge * 86400]
    holds for the next one; the victim is removed only when both fail. *)
Theorem cleanup_time_priority_rule (fuel : nat) (env : Env) (w : World)
    (t : AuditIndexTable) (filesize index : Z) :
  audit_indextbl w = Some t ->
  cleanup_cond env filesize w t = true ->
  Audit_CleanupPolicy (cfg env) = 0 ->
  0 < Audit_RemainAge (cfg env) ->
  u64 (pgaudit_totalspace w + filesize) <= SPACE_MAXIMUM_SIZE ->
  count t <= u32 (Audit_RemainThreshold (cfg env)) ->
  am_auditor env = true ->
  last_audit_time t <= now env (tick w) ->
  unlink_fails env (filenum (item_at t index)) = false ->
  let victim := item_at t index in
  let next := item_at t (next_index t index) in
  let age_limit := Audit_RemainAge (cfg env) * SECS_PER_DAY in
  let keep := last_audit_time t - ctime victim <= age_limit \/
              last_audit_time t - ctime next < age_limit in
  (keep ->
   exists w', cleanup_body PIPE_BUF fuel env filesize index t w = Some (Break w') /\
              disk w' = disk w /\ audit_indextbl w' = Some t) /\
  (~ keep ->
   exists r w' t',
     cleanup_body PIPE_BUF fuel env filesize index t w = Some r /\
     (r = Break w' \/ r = Continue w') /\
     dir (disk w') !! filenum victim = None /\
     audit_indextbl w' = Some t' /\
     begidx t' = next_index t index /\
     count t' = (if 0 <? count t then u32 (count t - 1) else count t)).
Proof.
  intros Ht Hcond Hpol Hage Hmax Hcount Ham Hclock Hunlink victim next age_limit keep.
  assert (Htp : cleanup_time_priority env filesize w t = true).
  { unfold cleanup_time_priority. rewrite Hpol, remain_time_nonzero by done.
    cbn [Z.eqb negb]. rewrite !andb_true_r.
    apply andb_true_intro. split; apply Z.leb_le; lia. }
  assert (Hkeep : cleanup_keep env t index = true <-> keep).
  { unfold cleanup_keep, keep, remain_time. fold victim next age_limit.
    rewrite orb_true_iff, Z.leb_le, Z.ltb_lt. reflexivity. }
  pose proof (cleanup_warn_beyond_same env filesize w) as (Hb1 & Hb2 & Hb3).
  unfold cleanup_body. rewrite Htp. cbn [andb]. split.
  - intros Hk. apply Hkeep in Hk. rewrite Hk.
    eexists. split; [reflexivity|]. rewrite Hb1, Hb2. done.
  - intros Hk. destruct (cleanup_keep env t index) eqn:E; [exfalso; apply Hk, Hkeep; done|].
    rewrite Hunlink, andb_false_r. fold victim.
    set (w1 := cleanup_warn_beyond env filesize w) in *.
    set (w2 := with_disk (disk_unlink (filenum victim) (disk w1)) w1).
    pose proof (cleanup_warn_removed_same env filesize victim t w2) as (Hr1 & Hr2 & Hr3).
    set (w3 := cleanup_warn_removed env filesize victim t w2) in *.
    unfold cleanup_forget.
    match goal with
    | |- context [pgaudit_update_indexfile env PG_BINARY_W true ?x] =>
        pose proof (pgaudit_update_indexfile_same env PG_BINARY_W true x) as (Hu1 & Hu2 & Hu3);
        set (w4 := pgaudit_update_indexfile env PG_BINARY_W true x) in *
    end.
    cbn [disk audit_indextbl tick with_indextbl with_totalspace] in Hu1, Hu2, Hu3.
    rewrite (audit_report_plain PIPE_BUF fuel env _ _ _ w4 Ham).
    2:{ unfold steady. rewrite Hu2, Hu3, Hr3. intros t' [= <-].
        unfold w2. cbn [tick with_disk]. rewrite Hb3.
        destruct (0 <? count t); cbn; exact Hclock. }
    cbn [mbind option_bind].
    match goal with
    | |- context [report_plain ?e ?r ?o ?dt ?x] =>
        pose proof (report_plain_indextbl e r o dt x) as Htbl;
        pose proof (report_plain_dir e r o dt x) as Hdir;
        set (w5 := report_plain e r o dt x) in *
    end.
    rewrite Hu2 in Htbl. rewrite Hu1, Hr1 in Hdir.
    unfold w2 in Hdir. cbn [disk with_disk disk_unlink dir] in Hdir.
    assert (Hgone : dir (disk w5) !! filenum victim = None)
      by (rewrite Hdir; apply lookup_delete_eq).
    destruct Htbl as [Htbl|Htbl]; rewrite Htbl; cbn [fmap option_fmap option_map].
    + match goal with |- context [if ?b then _ else _] => destruct b end;
        eexists _, w5, _; (split; [reflexivity|]); (split; [by auto|]);
        (split; [exact Hgone|]); (split; [exact Htbl|]);
        destruct (0 <? count t); done.
    + match goal with |- context [if ?b then _ else _] => destruct b end;
        eexists _, w5, _; (split; [reflexivity|]); (split; [by auto|]);
        (split; [exact Hgone|]); (split; [exact Htbl|]);
        destruct (0 <? count t); done.
Qed.
End Retention.


(** * Instances *)

(** The conversion of the timestamp module when timestamps are 64-bit
    integers: microseconds since 2000-01-01. *)
Definition sample_conv (t : Z) : Z := (t - 946684800) * 1000000.

Definition sample_MaxAllocSize : Z := 1073741823.

Definition sample_cfg : Config :=
  mkConfig true 60 10240 1024 2 1 1.

(** A collector whose clock reads 1000, 1001, ... *)
Definition sample_env : Env :=
  mkEnv sample_cfg (fun n => 1000 + Z.of_nat n) (fun _ => 0) false true true 77
    None (Some (of_string "dn1")) (fun _ => true) (fun _ => None) (fun _ => false) false 0.

(** The same with time priority and one day of retention. *)
Definition time_priority_env : Env :=
  mkEnv (mkConfig true 60 10240 1 5 1 0) (fun n => 200000 + Z.of_nat n) (fun _ => 0)
    false true true 77 None (Some (of_string "dn1")) (fun _ => true) (fun _ => None)
    (fun _ => false) false 0.

(** A clock that has gone back to 500. *)
Definition rewound_env : Env :=
  mkEnv sample_cfg (fun n => 500 + Z.of_nat n) (fun _ => 0) false true true 77
    None (Some (of_string "dn1")) (fun _ => true) (fun _ => None) (fun _ => false) false 0.

Definition record_a : bytes :=
  let r := audit_record sample_env AUDIT_INTERNAL_EVENT AUDIT_OK
             (Some (of_string "file")) (Some (of_string "hello")) in
  stamp 1000 (Z.of_nat (length r)) r.

(** A record whose type and result are outside the enumerations. *)
Definition record_b : bytes :=
  let r := audit_record sample_env 99 7
             (Some (of_string "file")) (Some (of_string "world")) in
  stamp 2000 (Z.of_nat (length r)) r.

Definition one_file_tbl : AuditIndexTable :=
  mkTbl 3 0 0 1 900 [mkItem 800 5 0; zero_item; zero_item].

Definition sample_disk : Disk :=
  mkDisk {[ 5 := O ]} [record_a ++ record_b] (Some (encode_indextbl one_file_tbl)).

Definition sample_ctx : CallCtx := mkCtx true true true true 13.

Definition one_file_world (content : bytes) : World :=
  mkWorld (Some one_file_tbl) (Some O) 0 0 3600 false false ∅ []
    (mkDisk {[ 5 := O ]} [content] None) 0 [].

Lemma write_pipe_chunks_ceil_witness :
  PIPE_HEADER_SIZE < PIPE_CHUNK_SIZE (Some 512) /\
  (0 < length (replicate 1200 65))%nat /\
  exists chunks,
    write_pipe_chunks (Some 512) 77 (replicate 1200 65) = Some chunks /\
    Z.of_nat (length chunks) =
      (Z.of_nat (length (replicate 1200 65)) + PIPE_MAX_PAYLOAD (Some 512) - 1)
      / PIPE_MAX_PAYLOAD (Some 512) /\
    concat (map p_data chunks) = replicate 1200 65 /\
    (forall i c, chunks !! i = Some c -> (S i < length chunks)%nat ->
       p_is_last c = char_f /\ p_len c = PIPE_MAX_PAYLOAD (Some 512) /\
       Z.of_nat (length (p_data c)) = PIPE_MAX_PAYLOAD (Some 512)) /\
    (exists c, last chunks = Some c /\ p_is_last c = char_t /\
       p_len c = Z.of_nat (length (p_data c))).
Proof.
  assert (H1 : PIPE_HEADER_SIZE < PIPE_CHUNK_SIZE (Some 512)) by (vm_compute; reflexivity).
  assert (H2 : (0 < length (replicate 1200 65))%nat) by (rewrite length_replicate; lia).
  exact (conj H1 (conj H2 (write_pipe_chunks_ceil (Some 512) 77 (replicate 1200 65) H1 H2))).
Defined.

Lemma unknown_enum_row_witness :
  file_content sample_disk 5 = Some (concat [record_a; record_b]) /\
  Forall (fun r => record_wf sample_MaxAllocSize r = true) [record_a; record_b] /\
  (forall v : Z,
     (Z.to_nat (AuditTypeDesc_index v) < length AuditTypeDescs)%nat /\
     (Z.to_nat (AuditResultDesc_index v) < length AuditResultDescs)%nat) /\
  exists rows,
    pgaudit_query_file sample_conv sample_MaxAllocSize sample_disk 5
      (sample_conv 0) (sample_conv 5000) [] = Done rows /\
    Forall2
      (fun r row =>
         (~ (0 < read_u32 off_type r < AuditTypeNum) -> r_type row = "unknown"%string) /\
         (~ (0 < read_u32 off_result r < AuditResultNum) -> r_result row = "unknown"%string))
      (List.filter (selected sample_conv (sample_conv 0) (sample_conv 5000))
         [record_a; record_b]) rows.
Proof.
  assert (H1 : file_content sample_disk 5 = Some (concat [record_a; record_b]))
    by (vm_compute; reflexivity).
  assert (H2 : Forall (fun r => record_wf sample_MaxAllocSize r = true) [record_a; record_b])
    by (constructor; [vm_compute; reflexivity|constructor; [vm_compute; reflexivity|constructor]]).
  exact (conj H1 (conj H2
           (unknown_enum_row sample_conv sample_MaxAllocSize sample_disk 5
              [record_a; record_b] (sample_conv 0) (sample_conv 5000) H1 H2))).
Defined.

Lemma tombstone_idempotent_witness :
  file_content sample_disk 5 = Some (concat [record_a; record_b]) /\
  Forall (fun r => frame_wf r = true) [record_a; record_b] /\
  (length [record_a; record_b] < 3)%nat /\
  let frames' := tombstone_frames sample_conv (sample_conv 0) (sample_conv 1500)
                   [record_a; record_b] in
  let d' := disk_store 5 (concat frames') sample_disk in
  pgaudit_delete_file sample_conv 3 [] sample_disk 5 (sample_conv 0) (sample_conv 1500) = Some d' /\
  pgaudit_delete_file sample_conv 3 [9; 9] d' 5 (sample_conv 0) (sample_conv 1500) = Some d' /\
  file_content d' 5 = Some (concat frames') /\
  Forall2 (fun r r' =>
             r' = r \/
             (selected sample_conv (sample_conv 0) (sample_conv 1500) r = true /\
              r' = take 6 r ++ le_bytes 2 AUDIT_TUPLE_DEAD ++ drop 8 r))
    [record_a; record_b] frames' /\
  (forall (d0 d1 : Disk) (f : Z) (c : bytes) (n : nat) (h : bytes),
     file_content d0 f = Some c ->
     pgaudit_delete_file sample_conv n h d0 f (sample_conv 0) (sample_conv 1500) = Some d1 ->
     length <$> file_content d1 f = Some (length c)).
Proof.
  assert (H1 : file_content sample_disk 5 = Some (concat [record_a; record_b]))
    by (vm_compute; reflexivity).
  assert (H2 : Forall (fun r => frame_wf r = true) [record_a; record_b])
    by (constructor; [vm_compute; reflexivity|constructor; [vm_compute; reflexivity|constructor]]).
  assert (H3 : (length [record_a; record_b] < 3)%nat) by (cbn; lia).
  exact (conj H1 (conj H2 (conj H3
           (tombstone_idempotent sample_conv sample_disk 5 [record_a; record_b]
              (sample_conv 0) (sample_conv 1500) [] [9; 9] 3 H1 H2 H3)))).
Defined.

(** ** A file that ends inside a header *)

(** The conversion as a build with 64-bit integer timestamps computes it:
    the product wraps. *)
Definition wrapping_conv (t : Z) : Z :=
  let u := wrap 64 ((t - 946684800) * 1000000) in
  if u <? 2 ^ 63 then u else u - 2 ^ 64.

(** A file whose last record was cut after the first sixteen bytes of its
    header. *)
Definition cut_disk : Disk :=
  mkDisk {[ 5 := O ]} [record_a ++ take 16 record_b]
    (Some (encode_indextbl one_file_tbl)).

(** A file that ends with the first eight bytes of a header, twice: what
    two writes of a record that each stopped after eight bytes leave. *)
Definition torn_tail : bytes := take 8 record_b ++ take 8 record_b.

Definition torn_disk : Disk :=
  mkDisk {[ 5 := O ]} [record_a ++ torn_tail] (Some (encode_indextbl one_file_tbl)).

(** C4. A delete on a file that ends inside a header.  [read] returns the
    bytes that are left, fewer than a header, and the scan goes on with a
    header whose other bytes are those of the record before.  On a file
    whose last record was cut after sixteen bytes, a delete over a range
    that holds the time of the cut record and not that of the record
    before writes twenty-four bytes that end where the file ends: the last
    eight bytes of the record before, which the range does not select, are
    replaced.  On a file that ends with the start of a header twice, over
    the range of all timestamps, the second delete changes eight bytes the
    first one left: tombstoning is not idempotent there. *)
Theorem delete_short_read :
  (selected sample_conv (sample_conv 1500) (sample_conv 5000) record_a = false /\
   pg_delete_audit sample_conv 4 [] sample_ctx false cut_disk
     (sample_conv 1500) (sample_conv 5000) =
   Done (disk_store 5
           (take 79 record_a ++
            [65; 85; 0; 0; 13; 0; 2; 0] ++
            le_bytes 8 2000 ++ le_bytes 4 87 ++ le_bytes 4 0) cut_disk, [5])) /\
  (let once := disk_store 5
                 (set_dead (take 79 record_a) ++
                  [65; 85; 0; 0; 13; 0; 2; 0] ++
                  [65; 85; 0; 0; 13; 0; 1; 0] ++ le_bytes 4 87 ++ le_bytes 4 0)
                 torn_disk in
   let twice := disk_store 5
                  (set_dead (take 79 record_a) ++
                   [65; 85; 0; 0; 13; 0; 2; 0] ++
                   [87; 0; 0; 0; 0; 0; 0; 0] ++ le_bytes 4 87 ++ le_bytes 4 0)
                  torn_disk in
   pg_delete_audit wrapping_conv 4 [] sample_ctx false torn_disk (- 2 ^ 63) (2 ^ 63 - 1) =
     Done (once, [5]) /\
   pg_delete_audit wrapping_conv 4 [] sample_ctx false once (- 2 ^ 63) (2 ^ 63 - 1) =
     Done (twice, [5]) /\
   file_content twice 5 <> file_content once 5).
Proof.
  split; [split|split; [|split]].
  - vm_compute. reflexivity.
  - vm_compute. reflexivity.
  - vm_compute. reflexivity.
  - vm_compute. reflexivity.
  - vm_compute. discriminate.
Qed.

Lemma empty_range_noop_witness :
  sample_conv 1500 <= sample_conv 1500 /\
  (forall r, pg_query_audit sample_conv sample_MaxAllocSize 4 sample_ctx false sample_disk
               (sample_conv 1500) (sample_conv 1500) = Done r -> r = ([], [])) /\
  (has_auditadmin_privilege sample_ctx = true -> rsinfo_is_set sample_ctx = true ->
   materialize_allowed sample_ctx = true -> result_is_composite sample_ctx = true ->
   natts sample_ctx = PGAUDIT_QUERY_COLS ->
   pg_query_audit sample_conv sample_MaxAllocSize 4 sample_ctx false sample_disk
     (sample_conv 1500) (sample_conv 1500) = Done ([], [])) /\
  (forall r, pg_delete_audit sample_conv 4 [] sample_ctx false sample_disk
               (sample_conv 1500) (sample_conv 1500) = Done r -> r = (sample_disk, [])) /\
  (has_auditadmin_privilege sample_ctx = true ->
   pg_delete_audit sample_conv 4 [] sample_ctx false sample_disk
     (sample_conv 1500) (sample_conv 1500) = Done (sample_disk, [])).
Proof.
  assert (H1 : sample_conv 1500 <= sample_conv 1500) by lia.
  exact (conj H1 (empty_range_noop sample_conv sample_MaxAllocSize 4 [] sample_ctx false
                    sample_disk (sample_conv 1500) (sample_conv 1500) H1)).
Defined.

(** A rotation served a hundred seconds late. *)
Definition late_env : Env :=
  mkEnv sample_cfg (fun n => 3700 + Z.of_nat n) (fun _ => 0) false true true 77
    None (Some (of_string "dn1")) (fun _ => true) (fun _ => None) (fun _ => false) false 0.

Lemma rotation_name_stability_witness :
  audit_indextbl (one_file_world record_a) = Some one_file_tbl /\
  sysauditFile (one_file_world record_a) = Some O /\
  0 < maxnum one_file_tbl /\
  Z.of_nat (length (data one_file_tbl)) = maxnum one_file_tbl /\
  true || false = true /\
  fopen_errno late_env (u32 (filenum (item_at one_file_tbl (curidx one_file_tbl)) + 1)) = None /\
  dir (disk (one_file_world record_a))
    !! u32 (filenum (item_at one_file_tbl (curidx one_file_tbl)) + 1) = None /\
  am_auditor late_env = true /\
  indexfile_open_fails late_env = false /\
  last_audit_time one_file_tbl <= now late_env (tick (one_file_world record_a)) /\
  exists w' t' t_disk,
    auditfile_rotate (Some 512) 1 late_env true false (one_file_world record_a) = Some w' /\
    audit_indextbl w' = Some t' /\
    curidx t' = next_index one_file_tbl (curidx one_file_tbl) /\
    ctime (item_at t' (next_index one_file_tbl (curidx one_file_tbl))) =
      next_rotation_time (one_file_world record_a) /\
    filenum (item_at t' (next_index one_file_tbl (curidx one_file_tbl))) =
      u32 (filenum (item_at one_file_tbl (curidx one_file_tbl)) + 1) /\
    index_file (disk w') = Some (encode_indextbl t_disk) /\
    curidx t_disk = next_index one_file_tbl (curidx one_file_tbl) /\
    ctime (item_at t_disk (next_index one_file_tbl (curidx one_file_tbl))) =
      next_rotation_time (one_file_world record_a).
Proof.
  assert (H1 : audit_indextbl (one_file_world record_a) = Some one_file_tbl) by reflexivity.
  assert (H2 : sysauditFile (one_file_world record_a) = Some O) by reflexivity.
  assert (H3 : 0 < maxnum one_file_tbl) by (vm_compute; reflexivity).
  assert (H4 : Z.of_nat (length (data one_file_tbl)) = maxnum one_file_tbl) by reflexivity.
  assert (H5 : true || false = true) by reflexivity.
  assert (H6 : fopen_errno late_env
                 (u32 (filenum (item_at one_file_tbl (curidx one_file_tbl)) + 1)) = None)
    by reflexivity.
  assert (H7 : dir (disk (one_file_world record_a))
                 !! u32 (filenum (item_at one_file_tbl (curidx one_file_tbl)) + 1) = None)
    by (vm_compute; reflexivity).
  assert (H8 : am_auditor late_env = true) by reflexivity.
  assert (H9 : indexfile_open_fails late_env = false) by reflexivity.
  assert (H10 : last_audit_time one_file_tbl <= now late_env (tick (one_file_world record_a)))
    by (vm_compute; discriminate).
  exact (conj H1 (conj H2 (conj H3 (conj H4 (conj H5 (conj H6 (conj H7 (conj H8 (conj H9 (conj H10
           (rotation_name_stability (Some 512) 1 late_env (one_file_world record_a)
              one_file_tbl O true false H1 H2 H3 H4 H5 H6 H7 H8 H9 H10))))))))))).
Defined.

(** A collector whose directory already has a file under the next
    number. *)
Definition occupied_world : World :=
  mkWorld (Some one_file_tbl) (Some O) 0 0 3600 false false ∅ []
    (mkDisk {[ 5 := O; 6 := 1%nat ]} [record_a; record_b] None) 0 [].

(** A collector whose last write was stamped 5000, before the clock was
    set back. *)
Definition stepped_back_world : World :=
  mkWorld (Some (set_last_audit_time 5000 one_file_tbl)) (Some O) 0 0 3600 false false ∅ []
    (mkDisk {[ 5 := O ]} [record_a] None) 0 [].

(** C6, the claim as it was stated, fails here.  Both rotations are time
    based, planned for 3600 and served at 3700.  In the first the name of
    the new file is on disk already: [auditfile_open] sets [ctime] only
    for a name that was not there, and the new slot keeps the 0 it held.
    In the second the table has seen a later time than the clock now
    reads: the report of the new file goes through the write path, which
    makes the [ctime] of the new slot negative. *)
Lemma rotation_keeps_or_negates_ctime :
  (next_rotation_time occupied_world = 3600 /\
   exists w' t' t_disk,
     auditfile_rotate (Some 512) 1 late_env true false occupied_world = Some w' /\
     audit_indextbl w' = Some t' /\
     pgaudit_read_indexfile false (disk w') = Some t_disk /\
     curidx t' = next_index one_file_tbl (curidx one_file_tbl) /\
     curidx t_disk = curidx t' /\
     filenum (item_at t' (curidx t')) = 6 /\
     ctime (item_at t' (curidx t')) = 0 /\
     ctime (item_at t_disk (curidx t')) = 0) /\
  (next_rotation_time stepped_back_world = 3600 /\
   exists w' t' t_disk,
     auditfile_rotate (Some 512) 2 late_env true false stepped_back_world = Some w' /\
     audit_indextbl w' = Some t' /\
     pgaudit_read_indexfile false (disk w') = Some t_disk /\
     curidx t' = next_index one_file_tbl (curidx one_file_tbl) /\
     curidx t_disk = curidx t' /\
     filenum (item_at t' (curidx t')) = 6 /\
     ctime (item_at t' (curidx t')) = -3600 /\
     ctime (item_at t_disk (curidx t')) = -3600).
Proof.
  split; (split; [reflexivity|]).
  - eexists _, _, _. split; [vm_compute; reflexivity|].
    repeat (split; [vm_compute; reflexivity|]). vm_compute. reflexivity.
  - eexists _, _, _. split; [vm_compute; reflexivity|].
    repeat (split; [vm_compute; reflexivity|]). vm_compute. reflexivity.
Qed.

(** Three files, the oldest written more than a day ago, the next one
    within the day; the total is over the space limit. *)
Definition three_file_tbl : AuditIndexTable :=
  mkTbl 6 0 2 3 200000
    [mkItem 100000 1 600; mkItem 150000 2 600; mkItem 190000 3 0;
     zero_item; zero_item; zero_item].

Definition three_file_world : World :=
  mkWorld (Some three_file_tbl) (Some 2%nat) 1200 0 0 false false ∅ []
    (mkDisk {[ 1 := 0%nat; 2 := 1%nat; 3 := 2%nat ]}
       [replicate 600 0; replicate 600 0; replicate 100 0] None) 0 [].

Lemma cleanup_time_priority_rule_witness :
  audit_indextbl three_file_world = Some three_file_tbl /\
  cleanup_cond time_priority_env 100 three_file_world three_file_tbl = true /\
  Audit_CleanupPolicy (cfg time_priority_env) = 0 /\
  0 < Audit_RemainAge (cfg time_priority_env) /\
  u64 (pgaudit_totalspace three_file_world + 100) <= SPACE_MAXIMUM_SIZE /\
  count three_file_tbl <= u32 (Audit_RemainThreshold (cfg time_priority_env)) /\
  am_auditor time_priority_env = true /\
  last_audit_time three_file_tbl <= now time_priority_env (tick three_file_world) /\
  unlink_fails time_priority_env (filenum (item_at three_file_tbl 0)) = false /\
  ((last_audit_time three_file_tbl - ctime (item_at three_file_tbl 0)
      <= Audit_RemainAge (cfg time_priority_env) * SECS_PER_DAY \/
    last_audit_time three_file_tbl - ctime (item_at three_file_tbl (next_index three_file_tbl 0))
      < Audit_RemainAge (cfg time_priority_env) * SECS_PER_DAY ->
    exists w', cleanup_body (Some 512) 1 time_priority_env 100 0 three_file_tbl three_file_world
                 = Some (Break w') /\
               disk w' = disk three_file_world /\ audit_indextbl w' = Some three_file_tbl) /\
   (~ (last_audit_time three_file_tbl - ctime (item_at three_file_tbl 0)
         <= Audit_RemainAge (cfg time_priority_env) * SECS_PER_DAY \/
       last_audit_time three_file_tbl - ctime (item_at three_file_tbl (next_index three_file_tbl 0))
         < Audit_RemainAge (cfg time_priority_env) * SECS_PER_DAY) ->
    exists r w' t',
      cleanup_body (Some 512) 1 time_priority_env 100 0 three_file_tbl three_file_world = Some r /\
      (r = Break w' \/ r = Continue w') /\
      dir (disk w') !! filenum (item_at three_file_tbl 0) = None /\
      audit_indextbl w' = Some t' /\
      begidx t' = next_index three_file_tbl 0 /\
      count t' = (if 0 <? count three_file_tbl then u32 (count three_file_tbl - 1)
                  else count three_file_tbl))).
Proof.
  assert (H1 : audit_indextbl three_file_world = Some three_file_tbl) by reflexivity.
  assert (H2 : cleanup_cond time_priority_env 100 three_file_world three_file_tbl = true)
    by (vm_compute; reflexivity).
  assert (H3 : Audit_CleanupPolicy (cfg time_priority_env) = 0) by reflexivity.
  assert (H4 : 0 < Audit_RemainAge (cfg time_priority_env)) by (vm_compute; reflexivity).
  assert (H5 : u64 (pgaudit_totalspace three_file_world + 100) <= SPACE_MAXIMUM_SIZE)
    by (vm_compute; discriminate).
  assert (H6 : count three_file_tbl <= u32 (Audit_RemainThreshold (cfg time_priority_env)))
    by (vm_compute; discriminate).
  assert (H7 : am_auditor time_priority_env = true) by reflexivity.
  assert (H8 : last_audit_time three_file_tbl <= now time_priority_env (tick three_file_world))
    by (vm_compute; discriminate).
  assert (H9 : unlink_fails time_priority_env (filenum (item_at three_file_tbl 0)) = false)
    by reflexivity.
  exact (conj H1 (conj H2 (conj H3 (conj H4 (conj H5 (conj H6 (conj H7 (conj H8 (conj H9
           (cleanup_time_priority_rule (Some 512) 1 time_priority_env three_file_world
              three_file_tbl 100 0 H1 H2 H3 H4 H5 H6 H7 H8 H9)))))))))).
Defined.

(** C2, the claim as it was stated, fails here: the oldest file is older
    than [RemainAge], so the claim has it removed; the next file is not, and
    the retention pass stops and keeps the oldest file. *)
Lemma cleanup_keeps_old_victim :
  Audit_CleanupPolicy (cfg time_priority_env) = 0 /\
  0 < Audit_RemainAge (cfg time_priority_env) /\
  u64 (pgaudit_totalspace three_file_world + 100) <= SPACE_MAXIMUM_SIZE /\
  count three_file_tbl <= u32 (Audit_RemainThreshold (cfg time_priority_env)) /\
  cleanup_cond time_priority_env 100 three_file_world three_file_tbl = true /\
  ~ (last_audit_time three_file_tbl - ctime (item_at three_file_tbl (begidx three_file_tbl))
       < Audit_RemainAge (cfg time_priority_env) * SECS_PER_DAY) /\
  exists w',
    pgaudit_cleanup (Some 512) 4 time_priority_env three_file_world = Some w' /\
    audit_indextbl w' = Some three_file_tbl /\
    disk w' = disk three_file_world /\
    file_content (disk w') (filenum (item_at three_file_tbl (begidx three_file_tbl)))
      = Some (replicate 600 0).
Proof.
  split; [reflexivity|]. split; [vm_compute; reflexivity|].
  split; [vm_compute; discriminate|]. split; [vm_compute; discriminate|].
  split; [vm_compute; reflexivity|]. split; [vm_compute; discriminate|].
  eexists. split; [vm_compute; reflexivity|]. repeat split.
Qed.

Lemma rewind_marks_file_witness :
  audit_indextbl (one_file_world record_a) = Some one_file_tbl /\
  sysauditFile (one_file_world record_a) = Some O /\
  is_Some (inodes (disk (one_file_world record_a)) !! O) /\
  (Z.to_nat (curidx one_file_tbl) < length (data one_file_tbl))%nat /\
  am_auditor rewound_env = true /\
  indexfile_open_fails rewound_env = false /\
  now rewound_env (tick (one_file_world record_a)) < last_audit_time one_file_tbl /\
  now rewound_env (tick (one_file_world record_a))
    <= now rewound_env (S (tick (one_file_world record_a))) /\
  (0 < 2)%nat /\
  exists w',
    pgaudit_write_file (Some 512) 2 rewound_env record_b (Z.of_nat (length record_b))
      (one_file_world record_a) =
      Some (stamp (now rewound_env (tick (one_file_world record_a)))
              (Z.of_nat (length record_b)) record_b, w') /\
    audit_indextbl w' =
      Some (set_last_audit_time (now rewound_env (tick (one_file_world record_a)))
              (set_item (curidx one_file_tbl)
                 (mark_rewind (item_at one_file_tbl (curidx one_file_tbl))) one_file_tbl)) /\
    ctime (item_at
             (set_last_audit_time (now rewound_env (tick (one_file_world record_a)))
                (set_item (curidx one_file_tbl)
                   (mark_rewind (item_at one_file_tbl (curidx one_file_tbl))) one_file_tbl))
             (curidx one_file_tbl)) =
      (if 0 <? ctime (item_at one_file_tbl (curidx one_file_tbl))
       then - ctime (item_at one_file_tbl (curidx one_file_tbl))
       else ctime (item_at one_file_tbl (curidx one_file_tbl))) /\
    index_file (disk w') =
      Some (encode_indextbl
              (set_last_audit_time (now rewound_env (tick (one_file_world record_a)))
                 (set_item (curidx one_file_tbl)
                    (mark_rewind (item_at one_file_tbl (curidx one_file_tbl))) one_file_tbl))) /\
    inode_content (disk w') O =
      inode_content (disk (one_file_world record_a)) O ++
      (if Audit_enabled (cfg rewound_env) && negb (ha_pending rewound_env)
       then stamp (now rewound_env (S (tick (one_file_world record_a))))
              (Z.of_nat (length (time_changed_record rewound_env)))
              (time_changed_record rewound_env)
       else []) ++
      take (Z.to_nat (Z.of_nat (length record_b)))
        (stamp (now rewound_env (tick (one_file_world record_a)))
           (Z.of_nat (length record_b)) record_b).
Proof.
  assert (H1 : audit_indextbl (one_file_world record_a) = Some one_file_tbl) by reflexivity.
  assert (H2 : sysauditFile (one_file_world record_a) = Some O) by reflexivity.
  assert (H3 : is_Some (inodes (disk (one_file_world record_a)) !! O))
    by (eexists; reflexivity).
  assert (H4 : (Z.to_nat (curidx one_file_tbl) < length (data one_file_tbl))%nat)
    by (vm_compute; lia).
  assert (H5 : am_auditor rewound_env = true) by reflexivity.
  assert (H6 : indexfile_open_fails rewound_env = false) by reflexivity.
  assert (H7 : now rewound_env (tick (one_file_world record_a)) < last_audit_time one_file_tbl)
    by (vm_compute; reflexivity).
  assert (H8 : now rewound_env (tick (one_file_world record_a))
               <= now rewound_env (S (tick (one_file_world record_a))))
    by (vm_compute; discriminate).
  assert (H9 : (0 < 2)%nat) by lia.
  exact (conj H1 (conj H2 (conj H3 (conj H4 (conj H5 (conj H6 (conj H7 (conj H8 (conj H9
           (rewind_marks_file (Some 512) 2 rewound_env (one_file_world record_a)
              one_file_tbl O record_b (Z.of_nat (length record_b))
              H1 H2 H3 H4 H5 H6 H7 H8 H9)))))))))).
Defined.

(** A file over which the clock has gone back once already. *)
Definition marked_tbl : AuditIndexTable :=
  mkTbl 3 0 0 1 900 [mkItem (-800) 5 0; zero_item; zero_item].

Definition marked_world : World :=
  mkWorld (Some marked_tbl) (Some O) 0 0 3600 false false ∅ []
    (mkDisk {[ 5 := O ]} [record_a] None) 0 [].

(** C8, the claim as it was stated, fails here: the stamped time, 500, is
    less than [last_audit_time], 900, and the [ctime] of the current slot,
    -800, is not negated: it stays -800. *)
Lemma rewind_keeps_negative_ctime :
  now rewound_env (tick marked_world) < last_audit_time marked_tbl /\
  ctime (item_at marked_tbl (curidx marked_tbl)) = -800 /\
  exists buffer w' t',
    pgaudit_write_file (Some 512) 2 rewound_env record_b (Z.of_nat (length record_b))
      marked_world = Some (buffer, w') /\
    audit_indextbl w' = Some t' /\
    ctime (item_at t' (curidx marked_tbl)) = -800 /\
    ctime (item_at t' (curidx marked_tbl)) <> - ctime (item_at marked_tbl (curidx marked_tbl)).
Proof.
  split; [vm_compute; reflexivity|]. split; [reflexivity|].
  eexists _, _, _. split; [vm_compute; reflexivity|].
  split; [reflexivity|]. split; [reflexivity|]. vm_compute. discriminate.
Qed.

(** The collector at shutdown, space priority, a budget of 1024 KB: the
    one file there is, the open one, has reached the budget. *)
Definition full_file_world : World :=
  one_file_world (replicate (Z.to_nat 1048576) 0).

(** With the open file as the only one, and as large as the space limit,
    the retention pass takes the slot at [curidx] as its victim. *)
Lemma cleanup_evicts_open_file_of_size (content : bytes) :
  1048576 <= Z.of_nat (length content) < 2 ^ 64 ->
  exists w' t',
    pgaudit_cleanup (Some 512) 3 sample_env (one_file_world content) = Some w' /\
    audit_indextbl w' = Some t' /\
    sysauditFile w' = Some O /\
    dir (disk w') !! filenum (item_at one_file_tbl (curidx one_file_tbl)) = None /\
    curidx t' = curidx one_file_tbl /\
    item_at t' (curidx t') = zero_item /\
    begidx t' = 1 /\
    count t' = 0 /\
    AUDIT_COUNT t' = 3.
Proof.
  intros Hlen.
  unfold pgaudit_cleanup, one_file_world.
  cbn [audit_indextbl sysauditFile begidx one_file_tbl].
  unfold ftell, inode_content. cbn [disk inodes lookup list_lookup default from_option id].
  cbn [cleanup_loop audit_indextbl].
  assert (Hcond : cleanup_cond sample_env (Z.of_nat (length content))
                    (mkWorld (Some one_file_tbl) (Some O) 0 0 3600 false false ∅ []
                       (mkDisk {[ 5 := O ]} [content] None) 0 []) one_file_tbl = true).
  { unfold cleanup_cond. cbn [pgaudit_totalspace]. apply orb_true_intro. left.
    apply Z.leb_le. rewrite Z.add_0_l. unfold u64, wrap. rewrite Z.mod_small by lia.
    change (space_limit sample_env) with 1048576. lia. }
  rewrite Hcond.
  unfold cleanup_body.
  change (cleanup_time_priority sample_env (Z.of_nat (length content))
            (mkWorld (Some one_file_tbl) (Some O) 0 0 3600 false false ∅ []
               (mkDisk {[ 5 := O ]} [content] None) 0 []) one_file_tbl)
    with ((true && false) && negb (remain_time sample_env =? 0) &&
          (u64 (0 + Z.of_nat (length content)) <=? SPACE_MAXIMUM_SIZE)).
  cbn [andb].
  change (unlink_fails sample_env (filenum (item_at one_file_tbl 0))) with false.
  rewrite andb_false_r.
  unfold cleanup_warn_removed.
  change (Audit_CleanupPolicy (cfg sample_env) =? 0) with false.
  cbn [negb orb andb].
  replace (space_limit sample_env <=? u64 (pgaudit_totalspace
             (with_disk _ _) + Z.of_nat (length content))) with true.
  2:{ symmetry. apply Z.leb_le. cbn [pgaudit_totalspace with_disk]. rewrite Z.add_0_l.
      unfold u64, wrap. rewrite Z.mod_small by lia.
      change (space_limit sample_env) with 1048576. lia. }
  change (u32 (Audit_RemainThreshold (cfg sample_env)) <? count one_file_tbl) with false.
  cbv iota. cbn [pgaudit_totalspace with_disk].
  replace (u64 (0 + Z.of_nat (length content))) with (Z.of_nat (length content))
    by (rewrite Z.add_0_l; unfold u64, wrap; rewrite Z.mod_small by lia; reflexivity).
  generalize (Z.of_nat (length content)). intros size.
  eexists _, _. split; [vm_compute; reflexivity|].
  repeat split.
Qed.

(** C1. The retention pass removes the open file.  With the open file the
    only one and as large as the space limit, the slot at [curidx] is the
    victim: its file is unlinked while the handle stays open, the slot
    is zeroed, and the table is left with [count = 0] and [begidx] past
    [curidx], which is not what [AUDIT_COUNT] gives. *)
Lemma cleanup_evicts_open_file :
  begidx one_file_tbl = curidx one_file_tbl /\
  sysauditFile full_file_world = Some O /\
  dir (disk full_file_world) !! filenum (item_at one_file_tbl (curidx one_file_tbl)) = Some O /\
  exists w' t',
    pgaudit_cleanup (Some 512) 3 sample_env full_file_world = Some w' /\
    audit_indextbl w' = Some t' /\
    sysauditFile w' = Some O /\
    dir (disk w') !! filenum (item_at one_file_tbl (curidx one_file_tbl)) = None /\
    curidx t' = curidx one_file_tbl /\
    item_at t' (curidx t') = zero_item /\
    begidx t' = 1 /\
    count t' = 0 /\
    AUDIT_COUNT t' = 3.
Proof.
  split; [reflexivity|]. split; [reflexivity|]. split; [reflexivity|].
  apply cleanup_evicts_open_file_of_size.
  rewrite length_replicate. lia.
Qed.

(** Thirty bytes of non-protocol data, then a zero byte. *)
Definition stray_segment : bytes := replicate 30 120.

Definition stray_buffer : bytes := resize 1025 0 (stray_segment ++ [0]).

(** C3. The bytes of a non-protocol segment do not reach the file as they
    came: the time and the size are stored over bytes 8 to 19 first. *)
Lemma passthrough_is_stamped :
  valid_chunk_header (Some 512) stray_buffer O = false /\
  nonprotocol_len stray_buffer O 31 = 30%nat /\
  exists m n w' persisted,
    process_pipe_input (Some 512) 1 sample_env stray_buffer 31 (one_file_world []) =
      Some (m, n, w') /\
    file_content (disk w') 5 = Some persisted /\
    length persisted = length stray_segment /\
    persisted = stamp 1000 30 stray_segment /\
    persisted <> stray_segment.
Proof.
  split; [vm_compute; reflexivity|]. split; [vm_compute; reflexivity|].
  eexists _, _, _, _. split; [vm_compute; reflexivity|].
  split; [vm_compute; reflexivity|].
  split; [reflexivity|]. split; [vm_compute; reflexivity|].
  vm_compute. discriminate.
Qed.


(** * Further properties of the collector and of the query engine *)

(** * Byte images *)

Lemma byte_of_range v i : 0 <= byte_of v i < 256.
Proof.
  unfold byte_of. change 255 with (Z.ones 8). rewrite Z.land_ones by lia.
  apply Z.mod_pos_bound. lia.
Qed.

Lemma le_value_map_byte_of v n k :
  le_value (map (byte_of v) (seq k n)) = (v / 2 ^ (8 * Z.of_nat k)) mod 2 ^ (8 * Z.of_nat n).
Proof.
  revert k. induction n as [|n IH]; intros k.
  - cbn. rewrite Z.mod_1_r. reflexivity.
  - cbn [seq map le_value]. rewrite IH.
    unfold byte_of. change 255 with (Z.ones 8). rewrite Z.land_ones, Z.shiftr_div_pow2 by lia.
    replace (8 * Z.of_nat (S k)) with (8 * Z.of_nat k + 8) by lia.
    replace (8 * Z.of_nat (S n)) with (8 + 8 * Z.of_nat n) by lia.
    rewrite !Z.pow_add_r by lia.
    rewrite <- Z.div_div by lia.
    set (x := v / 2 ^ (8 * Z.of_nat k)).
    rewrite (Z.rem_mul_r x (2 ^ 8) (2 ^ (8 * Z.of_nat n))) by lia.
    reflexivity.
Qed.

Lemma le_value_le_bytes n v : le_value (le_bytes n v) = v mod 2 ^ (8 * Z.of_nat n).
Proof. unfold le_bytes. rewrite le_value_map_byte_of. rewrite Z.mul_0_r, Z.pow_0_r, Z.div_1_r. reflexivity. Qed.

Lemma length_le_bytes n v : length (le_bytes n v) = n.
Proof. unfold le_bytes. rewrite length_map, length_seq. reflexivity. Qed.

Lemma le_signed_le_bytes n v :
  (0 < n)%nat ->
  - 2 ^ (8 * Z.of_nat n - 1) <= v < 2 ^ (8 * Z.of_nat n - 1) ->
  le_signed (le_bytes n v) = v.
Proof.
  intros Hn Hv. unfold le_signed. rewrite le_value_le_bytes, length_le_bytes.
  set (w := 8 * Z.of_nat n) in *.
  assert (Hw : 2 ^ w = 2 * 2 ^ (w - 1)).
  { replace w with (1 + (w - 1)) at 1 by lia. rewrite Z.pow_add_r by lia. reflexivity. }
  assert (0 < 2 ^ (w - 1)) by (apply Z.pow_pos_nonneg; lia).
  destruct (Z.ltb_spec (v mod 2 ^ w) (2 ^ (w - 1))) as [Hlt|Hge].
  - destruct (Z.lt_ge_cases v 0).
    + rewrite <- (Z.mod_add v 1 (2 ^ w)) in Hlt by lia.
      rewrite Z.mod_small in Hlt by lia. lia.
    + apply Z.mod_small. lia.
  - destruct (Z.lt_ge_cases v 0).
    + rewrite <- (Z.mod_add v 1 (2 ^ w)) by lia.
      rewrite Z.mod_small by lia. lia.
    + rewrite Z.mod_small in Hge by lia. lia.
Qed.

(** * The index file read back *)

(** The values a table holds fit the C types of its fields, and the array
    has [maxnum] slots. *)
Definition item_in_range (it : AuditIndexItem) : Prop :=
  - 2 ^ 63 <= ctime it < 2 ^ 63 /\ 0 <= filenum it < 2 ^ 32 /\ 0 <= filesize it < 2 ^ 32.

Definition indextbl_in_range (t : AuditIndexTable) : Prop :=
  0 <= maxnum t < 2 ^ 32 /\ 0 <= begidx t < 2 ^ 32 /\ 0 <= curidx t < 2 ^ 32 /\
  0 <= count t < 2 ^ 32 /\ - 2 ^ 63 <= last_audit_time t < 2 ^ 63 /\
  length (data t) = Z.to_nat (maxnum t) /\
  Forall item_in_range (data t).

Lemma read_le_bytes_head n v (rest : bytes) : Mem.read 0 n (le_bytes n v ++ rest) = le_bytes n v.
Proof.
  unfold Mem.read. rewrite drop_0, take_app_length'; [done|]. symmetry. apply length_le_bytes.
Qed.

Lemma read_skip (pre rest : bytes) off n :
  length pre = off -> Mem.read off n (pre ++ rest) = Mem.read 0 n rest.
Proof. intros <-. unfold Mem.read. rewrite drop_app_length, drop_0. done. Qed.

Lemma u32_roundtrip v (rest : bytes) :
  0 <= v < 2 ^ 32 -> le_value (Mem.read 0 4 (le_bytes 4 v ++ rest)) = v.
Proof.
  intros H. rewrite read_le_bytes_head, le_value_le_bytes. apply Z.mod_small.
  change (2 ^ (8 * Z.of_nat 4)) with (2 ^ 32). lia.
Qed.

Lemma i64_roundtrip v (rest : bytes) :
  - 2 ^ 63 <= v < 2 ^ 63 -> le_signed (Mem.read 0 8 (le_bytes 8 v ++ rest)) = v.
Proof.
  intros H. rewrite read_le_bytes_head. apply le_signed_le_bytes; [lia|].
  change (8 * Z.of_nat 8 - 1) with 63. lia.
Qed.

Lemma length_encode_item it : length (encode_item it) = 16%nat.
Proof. unfold encode_item. rewrite !length_app, !length_le_bytes. done. Qed.

Lemma decode_encode_item it :
  item_in_range it -> decode_item (encode_item it) = it.
Proof.
  intros (Hc & Hn & Hs). destruct it as [c n s]. cbn [ctime filenum filesize] in *.
  unfold decode_item, encode_item, read_i64, read_u32. f_equal.
  - apply i64_roundtrip. done.
  - rewrite (read_skip (le_bytes 8 c)) by apply length_le_bytes.
    apply u32_roundtrip. done.
  - rewrite (app_assoc (le_bytes 8 c)).
    rewrite (read_skip (le_bytes 8 c ++ le_bytes 4 n)) by (rewrite length_app, !length_le_bytes; done).
    cbn [filesize]. rewrite <- (app_nil_r (le_bytes 4 s)). apply u32_roundtrip. done.
Qed.

Lemma decode_items_encode items :
  Forall item_in_range items ->
  decode_items (length items) (concat (map encode_item items)) = items.
Proof.
  induction 1 as [|it items Hit _ IH]; [done|].
  cbn [length map concat decode_items].
  rewrite take_app_length', drop_app_length' by (symmetry; apply length_encode_item).
  rewrite decode_encode_item, IH; done.
Qed.

Lemma length_concat_encode items :
  length (concat (map encode_item items)) = (16 * length items)%nat.
Proof.
  induction items as [|it items IH]; [done|].
  cbn [map concat length]. rewrite length_app, length_encode_item, IH. lia.
Qed.

Lemma read_indexfile_encode (d : Disk) (t : AuditIndexTable) :
  indextbl_in_range t ->
  index_file d = Some (encode_indextbl t) ->
  pgaudit_read_indexfile false d = Some t.
Proof.
  intros (Hm & Hb & Hc & Hn & Hl & Hlen & Hitems) Hfile.
  unfold pgaudit_read_indexfile. rewrite Hfile.
  unfold encode_indextbl.
  rewrite resize_all_alt by done.
  set (body := concat (map encode_item (data t))).
  assert (Hhdr : forall rest : bytes,
            length (le_bytes 4 (maxnum t) ++ le_bytes 4 (begidx t) ++ le_bytes 4 (curidx t) ++
                    le_bytes 4 (count t) ++ le_bytes 8 (last_audit_time t) ++ rest)
            = (24 + length rest)%nat).
  { intros rest. rewrite !length_app, !length_le_bytes. lia. }
  rewrite Hhdr.
  destruct (Z.ltb_spec (Z.of_nat (24 + length body)) indextbl_header_size) as [Hlt|_];
    [unfold indextbl_header_size in Hlt; lia|].
  unfold read_u32, read_i64.
  rewrite u32_roundtrip by done.
  rewrite (read_skip (le_bytes 4 (maxnum t))) by apply length_le_bytes.
  rewrite u32_roundtrip by done.
  rewrite (app_assoc (le_bytes 4 (maxnum t))).
  rewrite (read_skip (le_bytes 4 (maxnum t) ++ le_bytes 4 (begidx t)))
    by (rewrite length_app, !length_le_bytes; done).
  rewrite u32_roundtrip by done.
  rewrite (app_assoc (_ ++ _)).
  rewrite (read_skip ((le_bytes 4 (maxnum t) ++ le_bytes 4 (begidx t)) ++ le_bytes 4 (curidx t)))
    by (rewrite !length_app, !length_le_bytes; done).
  rewrite u32_roundtrip by done.
  rewrite (app_assoc (_ ++ _)).
  rewrite (read_skip (((le_bytes 4 (maxnum t) ++ le_bytes 4 (begidx t)) ++ le_bytes 4 (curidx t))
                      ++ le_bytes 4 (count t)))
    by (rewrite !length_app, !length_le_bytes; done).
  rewrite i64_roundtrip by done.
  rewrite (app_assoc (_ ++ _)).
  rewrite drop_app_length'
    by (rewrite !length_app, !length_le_bytes; done).
  rewrite resize_all_alt.
  2:{ unfold body. rewrite length_concat_encode, Hlen. unfold sizeof_AuditIndexItem. lia. }
  unfold body. rewrite <- Hlen, decode_items_encode by done.
  destruct t; done.
Qed.

(** X1. What [pgaudit_update_indexfile] writes, [pgaudit_read_indexfile]
    reads back. *)
Theorem indexfile_roundtrip (env : Env) (allow_errors : bool) (w : World)
    (t : AuditIndexTable) :
  audit_indextbl w = Some t ->
  indextbl_in_range t ->
  indexfile_open_fails env = false ->
  pgaudit_read_indexfile false
    (disk (pgaudit_update_indexfile env PG_BINARY_W allow_errors w)) = Some t.
Proof.
  intros Ht Hr Hopen. apply read_indexfile_encode; [done|].
  unfold pgaudit_update_indexfile. rewrite Hopen, Ht. done.
Qed.

(** * Records read back *)

(** The string fields of a record, in the order [audit_report] appends
    them. *)
Definition record_fields (env : Env) (object_name detail_info : option bytes)
    : list (option bytes) :=
  match MyProcPort env with
  | Some p =>
      [ Some (pp_userid p); Some (or_unknown (pp_username p));
        Some (or_unknown (pp_dbname p));
        Some (or_unknown (pp_appname p) ++ [64] ++ or_unknown (pp_remotehost p)) ]
  | None => [ None; None; None; None ]
  end ++
  [ object_name; detail_info; PGXCNodeName env;
    nonempty (match MyProcPort env with Some p => pp_threadid p | None => [] end);
    nonempty (match MyProcPort env with Some p => pp_localport p | None => [] end);
    nonempty (match MyProcPort env with Some p => pp_remoteport p | None => [] end) ].

(** A C string: no zero byte inside, and bytes that are bytes. *)
Definition c_string (s : bytes) : Prop := Forall (fun b => 0 < b < 256) s.

Definition c_field (f : option bytes) : Prop :=
  match f with Some s => c_string s | None => True end.

Lemma appendStringField_app (str : bytes) f :
  appendStringField str f = str ++ appendStringField [] f.
Proof. destruct f; cbn; done. Qed.

Lemma fold_appendStringField fields : forall (str : bytes),
  fold_left appendStringField fields str =
  str ++ concat (map (appendStringField []) fields).
Proof.
  induction fields as [|f fields IH]; intros str; cbn [fold_left map concat].
  - by rewrite app_nil_r.
  - rewrite IH, (appendStringField_app str), <- app_assoc. done.
Qed.

Lemma audit_record_fields env type result o d :
  audit_record env type result o d =
  audit_header (adata_padding env) type result ++
  concat (map (appendStringField []) (record_fields env o d)).
Proof.
  rewrite <- fold_appendStringField.
  unfold audit_record, record_fields. destruct (MyProcPort env) as [p|]; cbn [app fold_left].
  - unfold appendStringField at 4. cbn [appendStringField].
    rewrite !length_app. cbn [length].
    replace (Z.of_nat (length (or_unknown (pp_appname p)) + S (length (or_unknown (pp_remotehost p)))) + 1)
      with (Z.of_nat (length (or_unknown (pp_appname p))) +
            Z.of_nat (length (or_unknown (pp_remotehost p))) + 2) by lia.
    rewrite <- !app_assoc. done.
  - cbn [appendStringField]. rewrite <- !app_assoc. done.
Qed.

Lemma cstring_app (s rest : bytes) :
  c_string s -> cstring (s ++ 0 :: rest) = Some s.
Proof.
  induction 1 as [|b s Hb _ IH]; cbn [app cstring].
  - done.
  - destruct (Z.eqb_spec b 0); [lia|]. rewrite IH. done.
Qed.

Lemma length_appendStringField f :
  length (appendStringField [] f) =
  match f with Some s => (4 + length s + 1)%nat | None => 4%nat end.
Proof.
  destruct f; cbn [appendStringField app]; rewrite ?length_app, length_le_bytes; cbn; lia.
Qed.

(** What the reader makes of the pointer [pgaudit_string_field] returns. *)
Definition text_at (adata : bytes) (p : FieldPtr) : option bytes :=
  match p with
  | FieldUndefined => None
  | FieldNull => Some (of_string "null")
  | FieldAt off => cstring (drop off adata)
  end.

Lemma field_text_text_at adata num :
  field_text adata num = text_at adata (pgaudit_string_field adata num).
Proof. done. Qed.

Lemma string_field_loop_fields (fields : list (option bytes)) :
  forall (k : nat) (pre rest : bytes),
    Forall c_field fields ->
    (k < length fields)%nat ->
    Z.of_nat (length (concat (map (appendStringField []) fields)) + length rest) < 2 ^ 32 ->
    text_at (pre ++ concat (map (appendStringField []) fields) ++ rest)
      (string_field_loop k (pre ++ concat (map (appendStringField []) fields) ++ rest)
         (length pre)
         (Z.of_nat (length (concat (map (appendStringField []) fields)) + length rest)))
    = Some (default (of_string "null") (default None (fields !! k))).
Proof.
  induction fields as [|f fields IH]; intros k pre rest Hc Hk Hlen; [cbn in Hk; lia|].
  apply Forall_cons in Hc as [Hf Hc].
  cbn [map concat] in *. rewrite length_app in Hlen.
  set (tail := concat (map (appendStringField []) fields)) in *.
  set (size := match f with Some s => Z.of_nat (length s) + 1 | None => 0 end).
  assert (Henc : exists body, appendStringField [] f = le_bytes 4 size ++ body /\
                              Z.of_nat (length body) = size /\
                              match f with Some s => body = s ++ [0] | None => body = [] end).
  { destruct f as [s|]; cbn [appendStringField app].
    - exists (s ++ [0]). rewrite length_app. cbn. split; [done|]. split; [lia|done].
    - exists []. rewrite app_nil_r. done. }
  destruct Henc as (body & Henc & Hbody & Hshape).
  rewrite Henc in *. rewrite !length_app, length_le_bytes in Hlen.
  assert (Hsz : 0 <= size < 2 ^ 32) by lia.
  destruct k as [|k]; cbn [string_field_loop].
  - rewrite !length_app, length_le_bytes.
    destruct (Nat.ltb_spec (length pre + (4 + length body + length tail + length rest))
                (length pre + 4)) as [Hbad|_]; [lia|].
    unfold read_u32. rewrite <- !app_assoc.
    rewrite (read_skip pre) by done. rewrite u32_roundtrip by done.
    unfold u32, wrap.
    rewrite Z.mod_small by lia.
    destruct (Z.ltb_spec (Z.of_nat (4 + length body + length tail + length rest) - 4) size);
      [lia|].
    cbn [lookup list_lookup default].
    destruct f as [s|]; subst body.
    + destruct (Z.eqb_spec size 0); [unfold size in *; lia|].
      cbn [text_at default].
      rewrite (app_assoc pre), drop_app_length'
        by (rewrite length_app, length_le_bytes; done).
      rewrite <- app_assoc. cbn [app]. apply cstring_app. done.
    + done.
  - rewrite !length_app, length_le_bytes.
    destruct (Nat.ltb_spec (length pre + (4 + length body + length tail + length rest))
                (length pre + 4)) as [Hbad|_]; [lia|].
    unfold read_u32. rewrite <- !app_assoc.
    rewrite (read_skip pre) by done. rewrite u32_roundtrip by done.
    unfold u32, wrap.
    rewrite (Z.mod_small (_ - 4)) by lia.
    destruct (Z.ltb_spec (Z.of_nat (4 + length body + length tail + length rest) - 4) size);
      [lia|].
    rewrite Z.mod_small by lia.
    cbn [lookup list_lookup].
    cbn in Hk.
    specialize (IH k (pre ++ le_bytes 4 size ++ body) rest Hc ltac:(lia) ltac:(fold tail; lia)).
    fold tail in IH.
    rewrite <- !app_assoc in IH.
    replace (length (pre ++ le_bytes 4 size ++ body))
      with (length pre + 4 + Z.to_nat size)%nat in IH
      by (rewrite !length_app, length_le_bytes; lia).
    replace (Z.of_nat (4 + length body + length tail + length rest) - 4 - size)
      with (Z.of_nat (length tail + length rest)) by lia.
    exact IH.
Qed.

Lemma write_at (pre old rest bs : bytes) off :
  length pre = off -> length old = length bs ->
  Mem.write off bs (pre ++ old ++ rest) = pre ++ bs ++ rest.
Proof.
  intros <- Hlen. unfold Mem.write.
  rewrite take_app_length. f_equal.
  rewrite !length_app.
  rewrite take_ge by lia. f_equal.
  rewrite <- drop_drop, drop_app_length, <- Hlen, drop_app_length. done.
Qed.

(** The fixed part of a record once [pgaudit_write_file] has stored the
    time and the size in it. *)
Definition stamped_header (curtime count padding type result : Z) : bytes :=
  ([65; 85] ++ le_bytes 2 0 ++ le_bytes 2 PGAUDIT_QUERY_COLS ++ le_bytes 2 AUDIT_TUPLE_NORMAL) ++
  le_bytes 8 curtime ++ le_bytes 4 count ++ le_bytes 4 padding ++ le_bytes 4 type ++ le_bytes 4 result.

Lemma stamp_audit_header curtime count padding type result (rest : bytes) :
  stamp curtime count (audit_header padding type result ++ rest) =
  stamped_header curtime count padding type result ++ rest.
Proof.
  unfold stamp, audit_header, stamped_header.
  set (pre := [65; 85] ++ le_bytes 2 0 ++ le_bytes 2 PGAUDIT_QUERY_COLS ++ le_bytes 2 AUDIT_TUPLE_NORMAL).
  set (tl := le_bytes 4 padding ++ le_bytes 4 type ++ le_bytes 4 result).
  replace (([65; 85] ++ le_bytes 2 0 ++ le_bytes 2 PGAUDIT_QUERY_COLS ++
            le_bytes 2 AUDIT_TUPLE_NORMAL ++ le_bytes 8 0 ++ le_bytes 4 0 ++ tl) ++ rest)
    with (pre ++ le_bytes 8 0 ++ (le_bytes 4 0 ++ tl ++ rest)).
  2:{ unfold pre. rewrite <- !app_assoc. done. }
  rewrite (write_at pre (le_bytes 8 0) _ (le_bytes 8 curtime) off_time)
    by (rewrite ?length_le_bytes; reflexivity).
  replace (pre ++ le_bytes 8 curtime ++ le_bytes 4 0 ++ tl ++ rest)
    with ((pre ++ le_bytes 8 curtime) ++ le_bytes 4 0 ++ (tl ++ rest)).
  2:{ rewrite <- !app_assoc. done. }
  rewrite (write_at (pre ++ le_bytes 8 curtime) (le_bytes 4 0) _ (le_bytes 4 count) off_size)
    by (rewrite ?length_app, ?length_le_bytes; reflexivity).
  rewrite <- !app_assoc. done.
Qed.

Lemma length_stamped_header curtime count padding type result :
  length (stamped_header curtime count padding type result) = 32%nat.
Proof. unfold stamped_header. rewrite !length_app, !length_le_bytes. done. Qed.

Section StampedHeader.
Variables (curtime count padding type result : Z) (rest : bytes).
Let r := stamped_header curtime count padding type result ++ rest.
Let p8 : bytes :=
  [65; 85] ++ le_bytes 2 0 ++ le_bytes 2 PGAUDIT_QUERY_COLS ++ le_bytes 2 AUDIT_TUPLE_NORMAL.

Lemma stamped_header_ok : header_ok r = true.
Proof. done. Qed.

Lemma stamped_hdr_flags : hdr_flags r = AUDIT_TUPLE_NORMAL.
Proof. done. Qed.

Lemma stamped_hdr_time : - 2 ^ 63 <= curtime < 2 ^ 63 -> hdr_time r = curtime.
Proof.
  intros H. unfold hdr_time, read_i64.
  replace r with (p8 ++ le_bytes 8 curtime ++
                  (le_bytes 4 count ++ le_bytes 4 padding ++ le_bytes 4 type ++ le_bytes 4 result ++ rest))
    by (unfold r, stamped_header, p8; rewrite <- !app_assoc; reflexivity).
  rewrite read_skip by reflexivity. apply i64_roundtrip. done.
Qed.

Lemma stamped_hdr_size : 0 <= count < 2 ^ 32 -> hdr_size r = count.
Proof.
  intros H. unfold hdr_size, read_u32.
  replace r with ((p8 ++ le_bytes 8 curtime) ++ le_bytes 4 count ++
                  (le_bytes 4 padding ++ le_bytes 4 type ++ le_bytes 4 result ++ rest))
    by (unfold r, stamped_header, p8; rewrite <- !app_assoc; reflexivity).
  rewrite read_skip by reflexivity. apply u32_roundtrip. done.
Qed.

Lemma stamped_type : 0 <= type < 2 ^ 32 -> read_u32 off_type r = type.
Proof.
  intros H. unfold read_u32.
  replace r with ((p8 ++ le_bytes 8 curtime ++ le_bytes 4 count ++ le_bytes 4 padding) ++
                  le_bytes 4 type ++ (le_bytes 4 result ++ rest))
    by (unfold r, stamped_header, p8; rewrite <- !app_assoc; reflexivity).
  rewrite read_skip by reflexivity. apply u32_roundtrip. done.
Qed.

Lemma stamped_result : 0 <= result < 2 ^ 32 -> read_u32 off_result r = result.
Proof.
  intros H. unfold read_u32.
  replace r with ((p8 ++ le_bytes 8 curtime ++ le_bytes 4 count ++ le_bytes 4 padding ++
                   le_bytes 4 type) ++ le_bytes 4 result ++ rest)
    by (unfold r, stamped_header, p8; rewrite <- !app_assoc; reflexivity).
  rewrite read_skip by reflexivity. apply u32_roundtrip. done.
Qed.

End StampedHeader.

(** The record as it reaches the file: what [audit_report] builds, with
    the time and the size [pgaudit_write_file] stores in it. *)
Definition reported_record (env : Env) (type result : Z)
    (object_name detail_info : option bytes) (curtime : Z) : bytes :=
  let buf := audit_record env type result object_name detail_info in
  stamp curtime (Z.of_nat (length buf)) buf.

Definition null_text : bytes := of_string "null".

Lemma length_record_fields env o d : length (record_fields env o d) = 10%nat.
Proof. unfold record_fields. destruct (MyProcPort env); done. Qed.

Section ReportedRecord.
Variable conv : Z -> Z.
Variable MaxAllocSize : Z.
Variables (env : Env) (type result : Z) (object_name detail_info : option bytes).
Variable curtime : Z.

Let buf := audit_record env type result object_name detail_info.
Let r := reported_record env type result object_name detail_info curtime.
Let fields := record_fields env object_name detail_info.

Hypothesis fields_ok : Forall c_field fields.
Hypothesis size_ok : Z.of_nat (length buf) < 2 ^ 32.
Hypothesis time_ok : - 2 ^ 63 <= curtime < 2 ^ 63.

Lemma reported_record_shape :
  r = stamped_header curtime (Z.of_nat (length buf)) (adata_padding env) type result ++
      concat (map (appendStringField []) fields).
Proof.
  unfold r, reported_record. fold buf. unfold buf at 2.
  rewrite audit_record_fields. apply stamp_audit_header.
Qed.

Lemma reported_record_length : length r = length buf.
Proof. unfold r, reported_record. apply stamp_length. Qed.

Lemma reported_record_field (k : nat) :
  (k < 10)%nat ->
  field_text r k = Some (default null_text (default None (fields !! k))).
Proof.
  intros Hk. rewrite field_text_text_at. unfold pgaudit_string_field.
  assert (Hlen : length buf = (32 + length (concat (map (appendStringField []) fields)))%nat).
  { unfold buf. rewrite audit_record_fields, length_app. done. }
  pose proof reported_record_shape as Hshape.
  assert (Hsize : hdr_size r = Z.of_nat (length buf))
    by (rewrite Hshape; apply stamped_hdr_size; lia).
  assert (Hk' : (k < length fields)%nat)
    by (unfold fields; rewrite length_record_fields; done).
  pose proof (string_field_loop_fields fields k
                (stamped_header curtime (Z.of_nat (length buf)) (adata_padding env) type result) []
                fields_ok Hk' ltac:(cbn [length]; lia)) as H.
  rewrite app_nil_r, <- Hshape, length_stamped_header in H.
  cbn [length] in H. rewrite Nat.add_0_r in H.
  rewrite Hsize.
  replace (u32 (Z.of_nat (length buf) - AUDIT_HEADER_SIZE))
    with (Z.of_nat (length (concat (map (appendStringField []) fields)))).
  2:{ unfold u32, wrap, AUDIT_HEADER_SIZE. rewrite Z.mod_small; lia. }
  exact H.
Qed.

Lemma reported_record_texts :
  mapM (field_text r) (seq 0 (S AUDIT_REMOTEPORT_INFO)) =
  Some (map (default null_text) fields).
Proof.
  apply mapM_Some. apply Forall2_same_length_lookup_2.
  - rewrite length_seq, length_map. unfold fields. rewrite length_record_fields. done.
  - intros i k y Hk Hy. apply lookup_seq in Hk as [-> Hi]. change (0 + i)%nat with i.
    rewrite list_lookup_fmap in Hy.
    rewrite reported_record_field by exact Hi.
    destruct (fields !! i) as [f|]; [|discriminate].
    injection Hy as <-. reflexivity.
Qed.

Lemma reported_record_wf :
  Z.of_nat (length buf) <= MaxAllocSize ->
  record_wf MaxAllocSize r = true.
Proof.
  intros Hmax. unfold record_wf.
  pose proof reported_record_shape as Hshape.
  assert (H32 : (32 <= length buf)%nat).
  { unfold buf. rewrite audit_record_fields, length_app. cbn. lia. }
  rewrite reported_record_length.
  assert (Hsize : hdr_size r = Z.of_nat (length buf))
    by (rewrite Hshape; apply stamped_hdr_size; lia).
  assert (Hok : header_ok r = true) by (rewrite Hshape; apply stamped_header_ok).
  rewrite Hok, Hsize, Z.eqb_refl. cbn [andb].
  destruct (Z.leb_spec AUDIT_HEADER_SIZE (Z.of_nat (length buf)));
    [|unfold AUDIT_HEADER_SIZE in *; lia].
  destruct (Z.leb_spec (Z.of_nat (length buf)) MaxAllocSize); [|lia].
  cbn [andb]. apply forallb_forall. intros k Hk.
  apply bool_decide_eq_true_2. apply in_seq in Hk.
  rewrite reported_record_field by (unfold AUDIT_REMOTEPORT_INFO in Hk; lia). done.
Qed.

End ReportedRecord.

(** The record read back: its header, and the row made of it. *)
Lemma reported_record_facts (conv : Z -> Z) (MaxAllocSize : Z) (env : Env)
    (type result : Z) (object_name detail_info : option bytes) (curtime : Z) :
  Forall c_field (record_fields env object_name detail_info) ->
  Z.of_nat (length (audit_record env type result object_name detail_info)) < 2 ^ 32 ->
  Z.of_nat (length (audit_record env type result object_name detail_info)) <= MaxAllocSize ->
  - 2 ^ 63 <= curtime < 2 ^ 63 ->
  0 <= type < 2 ^ 32 ->
  0 <= result < 2 ^ 32 ->
  let r := reported_record env type result object_name detail_info curtime in
  record_wf MaxAllocSize r = true /\
  hdr_time r = curtime /\
  hdr_flags r = AUDIT_TUPLE_NORMAL /\
  exists ty res,
    AuditTypeDesc type = Some ty /\ AuditResultDesc result = Some res /\
    make_row conv r =
      Some (mkRow (conv curtime) ty res
              (map (default null_text) (record_fields env object_name detail_info))).
Proof.
  intros Hf Hsz Hmax Ht Hty Hres r.
  pose proof (reported_record_shape env type result object_name detail_info curtime) as Hshape.
  fold r in Hshape.
  assert (Htime : hdr_time r = curtime) by (rewrite Hshape; apply stamped_hdr_time; done).
  assert (Htype : read_u32 off_type r = type) by (rewrite Hshape; apply stamped_type; done).
  assert (Hresult : read_u32 off_result r = result)
    by (rewrite Hshape; apply stamped_result; done).
  split; [apply reported_record_wf; done|].
  split; [done|].
  split; [rewrite Hshape; apply stamped_hdr_flags|].
  destruct (lookup_lt_is_Some_2 _ _ (AuditTypeDesc_in_bounds type)) as [ty Hty'].
  destruct (lookup_lt_is_Some_2 _ _ (AuditResultDesc_in_bounds result)) as [res Hres'].
  exists ty, res. split; [done|]. split; [done|].
  unfold make_row.
  assert (H32 : (32 <= length r)%nat).
  { unfold r. rewrite reported_record_length, audit_record_fields, length_app. cbn. lia. }
  destruct (Nat.ltb_spec (length r) (Z.to_nat AUDIT_HEADER_SIZE));
    [unfold AUDIT_HEADER_SIZE in *; lia|].
  rewrite Htype, Hresult, Htime.
  unfold AuditTypeDesc in Hty' |- *. unfold AuditResultDesc in Hres' |- *.
  rewrite Hty', Hres'. cbn [mbind option_bind].
  unfold r. rewrite reported_record_texts by done. done.
Qed.

(** X2. A record [audit_report] builds and [pgaudit_write_file] stamps is
    one the query engine accepts, and its row gives back the time, the
    descriptions of type and result, and the ten strings. *)
Theorem reported_record_row (conv : Z -> Z) (MaxAllocSize : Z) (env : Env)
    (type result : Z) (object_name detail_info : option bytes) (curtime : Z) :
  Forall c_field (record_fields env object_name detail_info) ->
  Z.of_nat (length (audit_record env type result object_name detail_info)) < 2 ^ 32 ->
  Z.of_nat (length (audit_record env type result object_name detail_info)) <= MaxAllocSize ->
  - 2 ^ 63 <= curtime < 2 ^ 63 ->
  0 <= type < 2 ^ 32 ->
  0 <= result < 2 ^ 32 ->
  let r := reported_record env type result object_name detail_info curtime in
  record_wf MaxAllocSize r = true /\
  hdr_time r = curtime /\
  hdr_flags r = AUDIT_TUPLE_NORMAL /\
  exists ty res,
    AuditTypeDesc type = Some ty /\ AuditResultDesc result = Some res /\
    make_row conv r =
      Some (mkRow (conv curtime) ty res
              (map (default null_text) (record_fields env object_name detail_info))).
Proof.
  intros Hf Hsz Hmax Ht Hty Hres.
  exact (reported_record_facts conv MaxAllocSize env type result object_name detail_info
           curtime Hf Hsz Hmax Ht Hty Hres).
Qed.


(** * A report, then a query *)

Section ReportQuery.
Variable PIPE_BUF : option Z.
Variable conv : Z -> Z.
Variable MaxAllocSize : Z.
Local Arguments stamp : simpl never.
Local Arguments audit_record : simpl never.

(** [audit_report] in the collector itself, of an event that passes the
    checks, with a clock that has not gone back. *)
Lemma audit_report_written fuel env type result o d w fh :
  Audit_enabled (cfg env) = true -> ha_pending env = false ->
  report_gate env type = true ->
  am_auditor env = true ->
  sysauditFile w = Some fh ->
  steady env w ->
  audit_report PIPE_BUF fuel env type result o d w =
  Some (write_plain env fh (audit_record env type result o d)
          (Z.of_nat (length (audit_record env type result o d))) w).2.
Proof.
  intros Hen Hpend Hgate Ham Hfh Hsteady.
  unfold audit_report, audit_report_with.
  rewrite Hen, Hpend, Hgate, Ham. cbn [negb orb andb].
  rewrite andb_false_r.
  rewrite (pgaudit_write_file_plain PIPE_BUF fuel env fh) by done.
  done.
Qed.

Lemma Forall2_make_row_app records rows r row :
  mapM (make_row conv) records = Some rows ->
  make_row conv r = Some row ->
  mapM (make_row conv) (records ++ [r]) = Some (rows ++ [row]).
Proof.
  rewrite !mapM_Some. intros H1 H2. apply Forall2_app; [done|].
  constructor; [done|constructor].
Qed.

(** X3. An event the collector reports is what a query returns next: the
    record goes to the end of the open file, and a scan of the file gives
    the rows it gave before, followed by the row of the new record when
    its time is in the range asked for. *)
Theorem report_then_query (fuel : nat) (env : Env) (w : World) (fh : nat) (fnum : Z)
    (records : list bytes) (type result : Z) (object_name detail_info : option bytes)
    (begtime endtime : Z) :
  Audit_enabled (cfg env) = true -> ha_pending env = false ->
  report_gate env type = true ->
  am_auditor env = true ->
  sysauditFile w = Some fh ->
  dir (disk w) !! fnum = Some fh ->
  inodes (disk w) !! fh = Some (concat records) ->
  Forall (fun r => record_wf MaxAllocSize r = true) records ->
  steady env w ->
  Forall c_field (record_fields env object_name detail_info) ->
  Z.of_nat (length (audit_record env type result object_name detail_info)) < 2 ^ 32 ->
  Z.of_nat (length (audit_record env type result object_name detail_info)) <= MaxAllocSize ->
  - 2 ^ 63 <= now env (tick w) < 2 ^ 63 ->
  0 <= type < 2 ^ 32 ->
  0 <= result < 2 ^ 32 ->
  let curtime := now env (tick w) in
  let r := reported_record env type result object_name detail_info curtime in
  exists w' rows ty res,
    audit_report PIPE_BUF fuel env type result object_name detail_info w = Some w' /\
    file_content (disk w') fnum = Some (concat records ++ r) /\
    pgaudit_query_file conv MaxAllocSize (disk w) fnum begtime endtime [] = Done rows /\
    AuditTypeDesc type = Some ty /\ AuditResultDesc result = Some res /\
    pgaudit_query_file conv MaxAllocSize (disk w') fnum begtime endtime [] =
      Done (rows ++
            if (begtime <=? conv curtime) && (conv curtime <? endtime)
            then [mkRow (conv curtime) ty res
                    (map (default null_text) (record_fields env object_name detail_info))]
            else []).
Proof.
  intros Hen Hpend Hgate Ham Hfh Hdir Hino Hwf Hsteady Hf Hsz Hmax Ht Hty Hres curtime r.
  destruct (reported_record_facts conv MaxAllocSize env type result object_name detail_info
              curtime Hf Hsz Hmax Ht Hty Hres) as (Hrwf & Htime & Hflags & ty & res & Hd1 & Hd2 & Hrow).
  fold r in Hrwf, Htime, Hflags, Hrow.
  destruct (scan_file_records conv MaxAllocSize begtime endtime records Hwf)
    as (rows & Hrows & Hscan).
  assert (Hwf' : Forall (fun r => record_wf MaxAllocSize r = true) (records ++ [r]))
    by (apply Forall_app; split; [done|constructor; [done|constructor]]).
  destruct (scan_file_records conv MaxAllocSize begtime endtime _ Hwf')
    as (rows' & Hrows' & Hscan').
  rewrite (audit_report_written fuel env type result object_name detail_info w fh) by done.
  set (buf := audit_record env type result object_name detail_info) in *.
  assert (Hcontent : file_content
            (disk (write_plain env fh buf (Z.of_nat (length buf)) w).2) fnum
          = Some (concat records ++ r)).
  { unfold write_plain, file_content. cbn [snd disk with_disk with_indextbl with_tick
      disk_append dir inodes]. rewrite Hdir. cbn [mbind option_bind].
    rewrite list_lookup_alter, Hino. cbn [fmap option_fmap option_map].
    rewrite decide_True by done. f_equal. f_equal.
    rewrite Nat2Z.id. rewrite take_ge by (rewrite stamp_length; done). done. }
  exists (write_plain env fh buf (Z.of_nat (length buf)) w).2, rows, ty, res.
  split; [done|]. split; [exact Hcontent|].
  assert (Hold : file_content (disk w) fnum = Some (concat records))
    by (unfold file_content; rewrite Hdir; exact Hino).
  split; [unfold pgaudit_query_file; rewrite Hold; exact Hscan|].
  split; [done|]. split; [done|].
  unfold pgaudit_query_file. rewrite Hcontent.
  replace (concat records ++ r) with (concat (records ++ [r]))
    by (rewrite concat_app; cbn; rewrite app_nil_r; done).
  rewrite Hscan'. f_equal.
  rewrite List.filter_app in Hrows'. cbn [List.filter] in Hrows'.
  assert (Hsel : selected conv begtime endtime r =
                 (begtime <=? conv curtime) && (conv curtime <? endtime)).
  { unfold selected. rewrite Htime, Hflags. rewrite Z.eqb_refl, andb_true_r. done. }
  rewrite Hsel in Hrows'.
  destruct ((begtime <=? conv curtime) && (conv curtime <? endtime)).
  - rewrite (Forall2_make_row_app _ rows r _ Hrows Hrow) in Hrows'. congruence.
  - rewrite app_nil_r in Hrows' |- *. congruence.
Qed.

End ReportQuery.


(** * A delete, then a query *)

Lemma set_dead_hdr_time (r : bytes) :
  (24 <= length r)%nat -> hdr_time (set_dead r) = hdr_time r.
Proof. intros H. split_header r H. reflexivity. Qed.

Lemma set_dead_drop (r : bytes) (n : nat) :
  (24 <= length r)%nat -> (24 <= n)%nat -> drop n (set_dead r) = drop n r.
Proof.
  intros H Hn. rewrite set_dead_split by done.
  rewrite drop_app_ge by (rewrite set_dead_length, length_take; lia).
  rewrite set_dead_length, length_take_le by lia.
  rewrite drop_drop. f_equal. lia.
Qed.

Lemma read_from_drop (r r' : bytes) (k off n : nat) :
  drop k r = drop k r' -> (k <= off)%nat -> Mem.read off n r = Mem.read off n r'.
Proof.
  intros H Hoff. unfold Mem.read.
  replace off with (k + (off - k))%nat by lia.
  rewrite <- !drop_drop, H. done.
Qed.

Lemma string_field_loop_drop (r r' : bytes) (base : nat) :
  length r = length r' -> drop base r = drop base r' ->
  forall k field datalen,
    (base <= field)%nat ->
    string_field_loop k r field datalen = string_field_loop k r' field datalen.
Proof.
  intros Hlen Hdrop. induction k as [|k IH]; intros field datalen Hf; cbn [string_field_loop];
    rewrite Hlen; unfold read_u32; rewrite (read_from_drop r r' base) by done.
  - done.
  - destruct (_ <? _)%nat; [done|]. destruct (_ <? _); [done|]. apply IH. lia.
Qed.

Lemma string_field_loop_at (r : bytes) k : forall field datalen off,
  string_field_loop k r field datalen = FieldAt off -> (field + 4 <= off)%nat.
Proof.
  induction k as [|k IH]; intros field datalen off; cbn [string_field_loop];
    repeat (destruct (_ <? _)%nat; [done|]); repeat (destruct (_ <? _); [done|]).
  - destruct (_ =? _); [done|]. intros [= <-]. lia.
  - intros E. apply IH in E. lia.
Qed.

Lemma field_text_set_dead (r : bytes) (num : nat) :
  (32 <= length r)%nat -> field_text (set_dead r) num = field_text r num.
Proof.
  intros H. unfold field_text, pgaudit_string_field.
  rewrite set_dead_hdr_size by lia.
  rewrite (string_field_loop_drop (set_dead r) r 32)
    by (try apply set_dead_length; try (apply set_dead_drop; lia); done).
  destruct (string_field_loop _ _ _ _) as [| |off] eqn:E; try done.
  apply string_field_loop_at in E. unfold AUDIT_HEADER_SIZE in E.
  rewrite set_dead_drop by lia. done.
Qed.

Section DeleteQuery.
Variable conv : Z -> Z.
Variable MaxAllocSize : Z.

Lemma make_row_set_dead (r : bytes) :
  (32 <= length r)%nat -> make_row conv (set_dead r) = make_row conv r.
Proof.
  intros H. unfold make_row. rewrite set_dead_length, set_dead_hdr_time by lia.
  unfold read_u32.
  rewrite !(read_from_drop (set_dead r) r 24)
    by first [apply set_dead_drop; lia | unfold off_type, off_result; lia].
  destruct (_ <? _)%nat; [done|].
  destruct (AuditTypeDesc _); [|done]. destruct (AuditResultDesc _); [|done].
  cbn [mbind option_bind].
  replace (mapM (field_text (set_dead r)) (seq 0 (S AUDIT_REMOTEPORT_INFO)))
    with (mapM (field_text r) (seq 0 (S AUDIT_REMOTEPORT_INFO))); [done|].
  generalize (seq 0 (S AUDIT_REMOTEPORT_INFO)). intros l.
  induction l as [|n l IH]; [done|]. cbn [mapM]. rewrite field_text_set_dead, IH by done. done.
Qed.

Lemma record_wf_set_dead (r : bytes) :
  record_wf MaxAllocSize r = true -> record_wf MaxAllocSize (set_dead r) = true.
Proof.
  intros H. pose proof (record_wf_inv MaxAllocSize r H) as (H1 & H2 & [H3 H4] & H5).
  unfold record_wf in *.
  rewrite set_dead_length, set_dead_header_ok, set_dead_hdr_size by lia.
  replace (forallb (fun num => bool_decide (is_Some (field_text (set_dead r) num)))
             (seq 0 (S AUDIT_REMOTEPORT_INFO)))
    with (forallb (fun num => bool_decide (is_Some (field_text r num)))
             (seq 0 (S AUDIT_REMOTEPORT_INFO))); [done|].
  generalize (seq 0 (S AUDIT_REMOTEPORT_INFO)). intros l.
  induction l as [|n l IH]; [done|]. cbn [forallb].
  rewrite field_text_set_dead, IH by lia. done.
Qed.

Lemma record_wf_frame_wf (r : bytes) :
  record_wf MaxAllocSize r = true -> frame_wf r = true /\ header_ok r = true /\ (32 <= length r)%nat.
Proof.
  intros H. apply record_wf_inv in H as (H1 & H2 & [H3 H4] & _).
  unfold frame_wf. rewrite H2, Z.eqb_refl, andb_true_r. split; [|split; [done|lia]].
  apply Z.leb_le. unfold sizeof_AuditMsgHdr. lia.
Qed.

Lemma tombstone_frames_records b e records :
  Forall (fun r => record_wf MaxAllocSize r = true) records ->
  tombstone_frames conv b e records = map (tombstone conv b e) records.
Proof.
  induction 1 as [|r records Hr _ IH]; [done|].
  cbn [tombstone_frames map]. apply record_wf_frame_wf in Hr as (_ & -> & _).
  rewrite IH. done.
Qed.

Lemma tombstone_record_wf b e (r : bytes) :
  record_wf MaxAllocSize r = true -> record_wf MaxAllocSize (tombstone conv b e r) = true.
Proof.
  intros H. unfold tombstone. destruct (selected conv b e r); [|done].
  apply record_wf_set_dead. done.
Qed.

Lemma selected_tombstone b e b' e' (r : bytes) :
  (24 <= length r)%nat ->
  selected conv b' e' (tombstone conv b e r) =
  selected conv b' e' r && negb (selected conv b e r).
Proof.
  intros H. unfold tombstone. destruct (selected conv b e r) eqn:E; cbn [negb].
  - rewrite set_dead_not_selected by done. rewrite andb_false_r. done.
  - rewrite andb_true_r. done.
Qed.

Lemma make_row_tombstone b e (r : bytes) :
  (32 <= length r)%nat -> make_row conv (tombstone conv b e r) = make_row conv r.
Proof.
  intros H. unfold tombstone. destruct (selected conv b e r); [|done].
  apply make_row_set_dead. done.
Qed.

(** X4. After [pgaudit_delete_file] has gone over a file for the range
    [begtime, endtime), a scan of the file for any range gives the rows of
    the records that are in that range, live, and were not in the range
    deleted; for the range deleted itself it gives no row. *)
Theorem delete_then_query (d : Disk) (fnum : Z) (records : list bytes)
    (begtime endtime begtime' endtime' : Z) (fuel : nat) (header0 : bytes) :
  file_content d fnum = Some (concat records) ->
  Forall (fun r => record_wf MaxAllocSize r = true) records ->
  (length records < fuel)%nat ->
  exists d' rows,
    pgaudit_delete_file conv fuel header0 d fnum begtime endtime = Some d' /\
    pgaudit_query_file conv MaxAllocSize d' fnum begtime' endtime' [] = Done rows /\
    Forall2 (fun r row => make_row conv r = Some row)
      (List.filter (fun r => selected conv begtime' endtime' r &&
                             negb (selected conv begtime endtime r)) records) rows /\
    pgaudit_query_file conv MaxAllocSize d' fnum begtime endtime [] = Done [].
Proof.
  intros Hfile Hwf Hfuel.
  assert (Hframes : Forall (fun r => frame_wf r = true) records).
  { eapply Forall_impl; [exact Hwf|]. intros r Hr. by apply record_wf_frame_wf in Hr as [? _]. }
  pose proof (delete_loop_frames conv begtime endtime records Hframes fuel []
                (resize (Z.to_nat sizeof_AuditMsgHdr) 0 header0)
                ltac:(by rewrite length_resize) Hfuel) as Hdel.
  cbn [app length] in Hdel. change (Z.of_nat 0) with 0 in Hdel.
  rewrite tombstone_frames_records in Hdel by done.
  set (records' := map (tombstone conv begtime endtime) records) in *.
  assert (Hwf' : Forall (fun r => record_wf MaxAllocSize r = true) records').
  { unfold records'. apply Forall_fmap. eapply Forall_impl; [exact Hwf|].
    intros r Hr. cbn. by apply tombstone_record_wf. }
  assert (Hcontent : file_content (disk_store fnum (concat records') d) fnum
                     = Some (concat records'))
    by (eapply file_content_store; exact Hfile).
  assert (Hquery : forall b' e', exists rows,
             pgaudit_query_file conv MaxAllocSize (disk_store fnum (concat records') d)
               fnum b' e' [] = Done rows /\
             Forall2 (fun r row => make_row conv r = Some row)
               (List.filter (fun r => selected conv b' e' r &&
                                      negb (selected conv begtime endtime r)) records) rows).
  { intros b' e'.
    destruct (scan_file_records conv MaxAllocSize b' e' records' Hwf') as (rows & Hrows & Hscan).
    exists rows. split; [unfold pgaudit_query_file; rewrite Hcontent; exact Hscan|].
    apply mapM_Some in Hrows. clear -Hrows Hwf. unfold records' in Hrows.
    revert rows Hrows. induction Hwf as [|r records Hr _ IH]; intros rows Hrows.
    - cbn in *. done.
    - apply record_wf_frame_wf in Hr as (_ & _ & Hlen).
      cbn [map List.filter] in Hrows |- *.
      rewrite selected_tombstone in Hrows by lia.
      destruct (selected conv b' e' r && negb (selected conv begtime endtime r)).
      + inversion Hrows as [|? row ? rows0 Hrow Hrest]; subst.
        constructor; [|by apply IH]. rewrite make_row_tombstone in Hrow by done. done.
      + by apply IH. }
  destruct (Hquery begtime' endtime') as (rows & Hq & Hrows).
  destruct (Hquery begtime endtime) as (rows0 & Hq0 & Hrows0).
  exists (disk_store fnum (concat records') d), rows.
  split; [unfold pgaudit_delete_file; rewrite Hfile, Hdel; done|].
  split; [done|]. split; [done|].
  rewrite Hq0. f_equal.
  assert (Hnil : List.filter (fun r => selected conv begtime endtime r &&
                                negb (selected conv begtime endtime r)) records = []).
  { clear. induction records as [|r l IH]; [done|]. cbn [List.filter].
    rewrite andb_negb_r. done. }
  rewrite Hnil in Hrows0. by inversion Hrows0.
Qed.

End DeleteQuery.


(** * The next rotation time *)

(** X5. As long as the rotation interval in seconds fits in an [int]
    (an age of at most 35791394 minutes), [set_next_rotation_time] plans the
    rotation strictly after the reading of the clock, at a time that is a
    multiple of the rotation interval in local time, and no further away
    than one interval when the local time is not negative. *)
Theorem next_rotation_time_aligned (env : Env) (w : World) :
  0 < Audit_RotationAge (cfg env) ->
  Audit_RotationAge (cfg env) * SECS_PER_MINUTE < 2 ^ 31 ->
  let rotinterval := Audit_RotationAge (cfg env) * SECS_PER_MINUTE in
  let t := now env (tick w) in
  let off := gmtoff env t in
  let next := next_rotation_time (set_next_rotation_time env w) in
  t < next /\
  Z.rem (next + off) rotinterval = 0 /\
  (0 <= t + off -> next <= t + rotinterval) /\
  tick (set_next_rotation_time env w) = S (tick w).
Proof.
  intros Hage Hint. cbv zeta.
  unfold set_next_rotation_time.
  destruct (Z.leb_spec (Audit_RotationAge (cfg env)) 0) as [|_]; [lia|].
  assert (Hi32 : i32 (Audit_RotationAge (cfg env) * SECS_PER_MINUTE) =
                 Audit_RotationAge (cfg env) * SECS_PER_MINUTE).
  { unfold i32, wrap. unfold SECS_PER_MINUTE in *.
    rewrite Z.mod_small by lia.
    destruct (Z.ltb_spec (Audit_RotationAge (cfg env) * 60) (2 ^ 31)); [done|lia]. }
  rewrite Hi32. clear Hint Hi32.
  cbn [time_NULL next_rotation_time with_next_rotation_time with_tick tick].
  generalize (now env (tick w)). intros t.
  generalize (gmtoff env t). intros off.
  assert (Hr : 0 < Audit_RotationAge (cfg env) * SECS_PER_MINUTE)
    by (unfold SECS_PER_MINUTE; lia).
  revert Hr. generalize (Audit_RotationAge (cfg env) * SECS_PER_MINUTE). intros r Hr.
  remember (t + off) as x eqn:Hx.
  pose proof (Z.quot_rem' x r) as Hq.
  assert (Hb : - r < Z.rem x r < r).
  { destruct (Z.le_gt_cases 0 x) as [H0|H0].
    - pose proof (Z.rem_bound_pos x r H0 Hr). lia.
    - pose proof (Z.rem_bound_pos (- x) r ltac:(lia) Hr) as Hn.
      rewrite Z.rem_opp_l in Hn by lia. lia. }
  split; [lia|]. split.
  - replace (x - Z.rem x r + r - off + off) with ((x ÷ r + 1) * r) by lia.
    apply Z.rem_mul. lia.
  - split; [|done]. intros Hx0.
    pose proof (Z.rem_bound_pos x r Hx0 Hr). lia.
Qed.

(** * Which files a scan opens *)

(** X6. [pgaudit_check_system] never passes over a file that can hold a
    record of the range: if a time lies between the creation of the file and
    the creation of the next one, and its timestamp is in the range asked
    for, the file is scanned. *)
Theorem check_system_complete (conv : Z -> Z) (t : AuditIndexTable)
    (index begtime endtime tm : Z) :
  (forall a b, a <= b -> conv a <= conv b) ->
  begtime <= conv tm < endtime ->
  ctime (item_at t index) <= tm ->
  (index <> curidx t -> 0 < ctime (item_at t (next_index t index)) ->
   tm <= ctime (item_at t (next_index t index))) ->
  pgaudit_check_system conv begtime endtime index t = true.
Proof.
  intros Hmono Hrange Hcur Hnext. unfold pgaudit_check_system.
  destruct (Z.ltb_spec 0 (ctime (item_at t index))) as [Hpos|]; [|done].
  pose proof (Hmono _ _ Hcur) as Hc.
  destruct (Z.eqb_spec index (curidx t)) as [|Hne].
  - apply orb_true_intro. right. apply Z.leb_le. lia.
  - destruct (Z.ltb_spec 0 (ctime (item_at t (next_index t index)))) as [Hn|].
    + pose proof (Hmono _ _ (Hnext Hne Hn)) as Hn'.
      apply Z.leb_le.
      destruct (Z.ltb_spec begtime (conv (ctime (item_at t index))));
        destruct (Z.ltb_spec (conv (ctime (item_at t (next_index t index)))) endtime); lia.
    + apply orb_true_intro. right. apply Z.leb_le. lia.
Qed.

(** * A rotation that cannot open the new file *)

Section RotationFailure.
Variable PIPE_BUF : option Z.
Local Arguments next_index : simpl never.
Local Arguments u32 : simpl never.
Local Arguments u64 : simpl never.

Ltac world_fields :=
  cbn [audit_indextbl sysauditFile pgaudit_totalspace space_beyond_size
       next_rotation_time rotation_requested rotation_disabled buffer_lists
       pipe_out disk tick trace with_indextbl with_sysauditFile with_totalspace
       with_space_beyond with_next_rotation_time with_rotation_requested
       with_rotation_disabled with_buffer_lists with_pipe_out with_disk
       with_tick ereport emit].

(** X8. When [fopen] fails in a rotation, the old file has been closed
    already: the collector is left with no open file, the table has moved on
    to the next slot, the next rotation time is not advanced, and what is
    written next is dropped.  Rotation stays enabled only when the name of
    the new file was already on disk and the error is ENFILE or EMFILE; for
    a name that was not there the failed [chmod] leaves ENOENT, and rotation
    is disabled whatever the error of [fopen] was. *)
Theorem rotate_open_failure (fuel : nat) (env : Env) (w : World)
    (t : AuditIndexTable) (fh : nat) (time_based_rotation size_based_rotation : bool)
    (errno : Z) :
  audit_indextbl w = Some t ->
  sysauditFile w = Some fh ->
  0 < maxnum t ->
  Z.of_nat (length (data t)) = maxnum t ->
  0 <= curidx t < maxnum t ->
  time_based_rotation || size_based_rotation = true ->
  fopen_errno env (u32 (filenum (item_at t (curidx t)) + 1)) = Some errno ->
  exists w' t',
    auditfile_rotate PIPE_BUF fuel env time_based_rotation size_based_rotation w = Some w' /\
    sysauditFile w' = None /\
    audit_indextbl w' = Some t' /\
    curidx t' = next_index t (curidx t) /\
    filesize (item_at t' (curidx t)) = u32 (ftell w fh) /\
    next_rotation_time w' = next_rotation_time w /\
    rotation_disabled w' =
      (if bool_decide (is_Some (dir (disk w) !! u32 (filenum (item_at t (curidx t)) + 1)))
          && ((errno =? ENFILE) || (errno =? EMFILE))
       then rotation_disabled w else true) /\
    (forall fuel' buffer count,
       pgaudit_write_file PIPE_BUF fuel' env buffer count w' = Some (buffer, w')).
Proof.
  intros Ht Hfh Hmax Hlen Hcur Hrot Hopen.
  pose proof (next_index_bound t (curidx t) Hmax) as Hslot.
  destruct w as [tbl fh' ts sb nrt rr rd bl po dk tk tr].
  cbn [sysauditFile audit_indextbl] in Ht, Hfh. subst tbl fh'.
  unfold auditfile_rotate. rewrite Hrot.
  assert (Hgen : forall tk',
    let w0 := mkWorld (Some t) (Some fh) ts sb nrt false rd bl po dk tk' tr in
    exists w' t',
      (let w := auditfile_close w0 in
       match auditfile_open env (if time_based_rotation then nrt else now env tk) true w with
       | (inl errno, w) =>
           Some (if negb (errno =? ENFILE) && negb (errno =? EMFILE)
                 then with_rotation_disabled true
                        (ereport LOG "disabling automatic rotation (use SIGHUP to re-enable)" [] w)
                 else w)
       | (inr fh, w) =>
           let w := with_sysauditFile (Some fh) w in
           w ← audit_report PIPE_BUF fuel env AUDIT_INTERNAL_EVENT AUDIT_OK
                 (Some (of_string "file"))
                 (Some (of_string "create a new audit file")) w;
           Some (set_next_rotation_time env w)
       end) = Some w' /\
      sysauditFile w' = None /\
      audit_indextbl w' = Some t' /\
      curidx t' = next_index t (curidx t) /\
      filesize (item_at t' (curidx t)) = u32 (Z.of_nat (length (inode_content dk fh))) /\
      next_rotation_time w' = nrt /\
      rotation_disabled w' =
        (if bool_decide (is_Some (dir dk !! u32 (filenum (item_at t (curidx t)) + 1)))
            && ((errno =? ENFILE) || (errno =? EMFILE))
         then rd else true)).
  { intros tk'. cbn zeta. unfold auditfile_close, auditfile_open. world_fields.
    unfold ftell. world_fields.
    set (size := u32 (Z.of_nat (length (inode_content dk fh)))).
    set (item := set_filesize size (item_at t (curidx t))).
    change (filenum item) with (filenum (item_at t (curidx t))).
    set (fnum := u32 (filenum (item_at t (curidx t)) + 1)) in *.
    set (t1 := set_item (curidx t) item t).
    change (curidx t1) with (curidx t).
    change (next_index t1 (curidx t)) with (next_index t (curidx t)).
    set (slot := next_index t (curidx t)) in *.
    change (curidx (set_curidx slot t1)) with slot.
    set (t2 := set_item slot _ (set_curidx slot t1)).
    change (curidx t2) with slot.
    assert (Hl1 : length (data t1) = length (data t))
      by (unfold t1; cbn [data set_item]; by rewrite length_insert).
    assert (Hf : filenum (item_at t2 slot) = fnum).
    { unfold t2. rewrite item_at_set_item_eq; [done|]. cbn [data set_curidx].
      rewrite Hl1. lia. }
    rewrite Hf, Hopen.
    assert (Hsize : filesize (item_at t2 (curidx t)) = size).
    { unfold t2. destruct (decide (Z.to_nat slot = Z.to_nat (curidx t))) as [E|E].
      - assert (Hs : slot = curidx t) by lia.
        rewrite <- Hs. rewrite item_at_set_item_eq by (cbn [data set_curidx]; lia).
        cbn [filesize set_filenum].
        change (item_at (set_curidx slot t1) slot) with (item_at t1 slot).
        rewrite Hs. unfold t1. rewrite item_at_set_item_eq by lia. done.
      - rewrite item_at_set_item_ne by done.
        change (item_at (set_curidx slot t1) (curidx t)) with (item_at t1 (curidx t)).
        unfold t1. rewrite item_at_set_item_eq by lia. done. }
    destruct (bool_decide _); world_fields; cbn [andb];
      [ destruct (Z.eqb_spec errno ENFILE), (Z.eqb_spec errno EMFILE)
      | change (negb (ENOENT =? ENFILE) && negb (ENOENT =? EMFILE)) with true ];
      cbn [negb andb orb]; world_fields; eexists _, t2; repeat split; try done. }
  destruct time_based_rotation; cbn [time_NULL]; world_fields.
  - destruct (Hgen tk) as (w' & t' & Hrun & H1 & H2 & H3 & H4 & H5 & H6).
    exists w', t'. repeat split; try done.
    intros fuel' buffer count. destruct fuel'; cbn [pgaudit_write_file]; rewrite H1; done.
  - destruct (Hgen (S tk)) as (w' & t' & Hrun & H1 & H2 & H3 & H4 & H5 & H6).
    exists w', t'. repeat split; try done.
    intros fuel' buffer count. destruct fuel'; cbn [pgaudit_write_file]; rewrite H1; done.
Qed.

End RotationFailure.


(** * Retention: one file too many, and a file that cannot be removed *)

Section RetentionMore.
Variable PIPE_BUF : option Z.
Local Arguments stamp : simpl never.
Local Arguments audit_record : simpl never.
Local Arguments encode_indextbl : simpl never.
Local Arguments next_index : simpl never.
Local Arguments u32 : simpl never.
Local Arguments u64 : simpl never.

(** The size of the open file, as [pgaudit_cleanup] takes it. *)
Definition open_file_size (w : World) : Z :=
  match sysauditFile w with
  | Some fh => ftell w fh
  | None => 0
  end.

Lemma report_plain_totalspace env result o dt w :
  pgaudit_totalspace (report_plain env result o dt w) = pgaudit_totalspace w /\
  sysauditFile (report_plain env result o dt w) = sysauditFile w.
Proof.
  unfold report_plain.
  destruct (negb (Audit_enabled (cfg env)) || ha_pending env); [done|].
  destruct (sysauditFile w) eqn:E; [|done]. cbn. done.
Qed.

(** X9. A file the collector cannot unlink stops the retention pass: under
    space priority, when the oldest file is there and [unlink] fails, the
    pass ends with a warning and leaves the table, the index file and the
    directory as they were. *)
Theorem cleanup_unlink_failure (fuel : nat) (env : Env) (w : World)
    (t : AuditIndexTable) :
  audit_indextbl w = Some t ->
  cleanup_cond env (open_file_size w) w t = true ->
  Audit_CleanupPolicy (cfg env) <> 0 ->
  is_Some (dir (disk w) !! filenum (item_at t (begidx t))) ->
  unlink_fails env (filenum (item_at t (begidx t))) = true ->
  pgaudit_cleanup PIPE_BUF (S fuel) env w =
  Some (ereport WARNING "could not remove audit file" [] w).
Proof.
  intros Ht Hcond Hpol Hthere Hfail.
  unfold pgaudit_cleanup. rewrite Ht. fold (open_file_size w).
  cbn [cleanup_loop]. rewrite Ht, Hcond. unfold cleanup_body.
  assert (Htp : cleanup_time_priority env (open_file_size w) w t = false).
  { unfold cleanup_time_priority. destruct (Z.eqb_spec (Audit_CleanupPolicy (cfg env)) 0); [done|].
    rewrite andb_false_r. done. }
  rewrite Htp. cbn [andb]. rewrite Hfail, bool_decide_eq_true_2 by done. done.
Qed.

(** X10. One file too many.  When the space is within the limit and the
    count is one above [Audit_RemainThreshold], the retention pass removes
    the oldest file, the one at [begidx], and nothing else: the name is
    unlinked, the slot zeroed, [begidx] moved on, the count and the total
    space brought down, and the pass ends. *)
Theorem cleanup_one_too_many (fuel : nat) (env : Env) (w : World)
    (t : AuditIndexTable) :
  audit_indextbl w = Some t ->
  0 <= Audit_RemainThreshold (cfg env) < 2 ^ 32 ->
  count t = Audit_RemainThreshold (cfg env) + 1 ->
  0 <= filesize (item_at t (begidx t)) <= pgaudit_totalspace w ->
  0 <= open_file_size w ->
  pgaudit_totalspace w + open_file_size w < space_limit env ->
  unlink_fails env (filenum (item_at t (begidx t))) = false ->
  am_auditor env = true ->
  last_audit_time t <= now env (tick w) ->
  let victim := item_at t (begidx t) in
  exists w' t',
    pgaudit_cleanup PIPE_BUF (S (S fuel)) env w = Some w' /\
    dir (disk w') = delete (filenum victim) (dir (disk w)) /\
    audit_indextbl w' = Some t' /\
    data t' = <[Z.to_nat (begidx t) := zero_item]> (data t) /\
    begidx t' = next_index t (begidx t) /\
    curidx t' = curidx t /\
    count t' = Audit_RemainThreshold (cfg env) /\
    pgaudit_totalspace w' = pgaudit_totalspace w - filesize victim.
Proof.
  intros Ht Hrt Hcount Hsize Hopen Hspace Hunlink Ham Hclock victim.
  assert (Hlim : space_limit env < 2 ^ 64).
  { unfold space_limit, u64, wrap. apply Z.mod_pos_bound. lia. }
  assert (Hu32 : u32 (Audit_RemainThreshold (cfg env)) = Audit_RemainThreshold (cfg env))
    by (unfold u32, wrap; apply Z.mod_small; lia).
  assert (Hu64 : forall x, 0 <= x < space_limit env -> u64 x = x)
    by (intros x Hx; unfold u64, wrap; apply Z.mod_small; lia).
  unfold pgaudit_cleanup. rewrite Ht. fold (open_file_size w).
  set (fsz := open_file_size w) in *.
  cbn [cleanup_loop]. rewrite Ht.
  assert (Hcond : cleanup_cond env fsz w t = true).
  { unfold cleanup_cond. apply orb_true_intro. right. rewrite Hu32. apply Z.ltb_lt. lia. }
  rewrite Hcond. unfold cleanup_body.
  assert (Htp : cleanup_time_priority env fsz w t = false).
  { unfold cleanup_time_priority. rewrite Hu32.
    destruct (Z.leb_spec (count t) (Audit_RemainThreshold (cfg env))); [lia|done]. }
  rewrite Htp. cbn [andb]. fold victim in Hunlink, Hsize |- *.
  rewrite Hunlink, andb_false_r.
  set (w2 := with_disk (disk_unlink (filenum victim) (disk w)) w).
  pose proof (cleanup_warn_removed_same env fsz victim t w2) as (Hr1 & Hr2 & Hr3).
  assert (Hr4 : pgaudit_totalspace (cleanup_warn_removed env fsz victim t w2)
                = pgaudit_totalspace w).
  { unfold cleanup_warn_removed.
    repeat match goal with |- context [if ?b then _ else _] => destruct b end; done. }
  set (w3 := cleanup_warn_removed env fsz victim t w2) in *.
  unfold cleanup_forget. rewrite Hr4.
  destruct (Z.ltb_spec 0 (count t)) as [_|]; [|lia].
  set (t1 := set_item (begidx t) zero_item
               (set_begidx (next_index (set_count (u32 (count t - 1)) t) (begidx t))
                  (set_count (u32 (count t - 1)) t))).
  match goal with
  | |- context [pgaudit_update_indexfile env PG_BINARY_W true ?x] =>
      pose proof (pgaudit_update_indexfile_same env PG_BINARY_W true x) as (Hu1 & Hu2 & Hu3);
      assert (Hu4 : pgaudit_totalspace (pgaudit_update_indexfile env PG_BINARY_W true x)
                    = pgaudit_totalspace x)
        by (unfold pgaudit_update_indexfile; destruct (indexfile_open_fails env); done);
      set (w4 := pgaudit_update_indexfile env PG_BINARY_W true x) in *
  end.
  cbn [disk audit_indextbl tick with_indextbl with_totalspace pgaudit_totalspace]
    in Hu1, Hu2, Hu3, Hu4.
  rewrite (audit_report_plain PIPE_BUF _ env _ _ _ w4 Ham).
  2:{ unfold steady. rewrite Hu2, Hu3, Hr3. intros t' [= <-].
      unfold w2. cbn [tick with_disk]. exact Hclock. }
  cbn [mbind option_bind].
  match goal with
  | |- context [report_plain ?e ?r ?o ?dt ?x] =>
      pose proof (report_plain_indextbl e r o dt x) as Htbl;
      pose proof (report_plain_dir e r o dt x) as Hdir;
      pose proof (report_plain_totalspace e r o dt x) as [Hts _];
      set (w5 := report_plain e r o dt x) in *
  end.
  rewrite Hu2 in Htbl. rewrite Hu1, Hr1 in Hdir. rewrite Hu4 in Hts.
  unfold w2 in Hdir. cbn [disk with_disk disk_unlink dir] in Hdir.
  assert (Hc1 : u32 (count t - 1) = Audit_RemainThreshold (cfg env)).
  { rewrite Hcount. replace (_ + 1 - 1) with (Audit_RemainThreshold (cfg env)) by lia. done. }
  assert (Hts' : pgaudit_totalspace w5 = pgaudit_totalspace w - filesize victim).
  { rewrite Hts. apply Hu64. lia. }
  assert (Hdone : forall t5, count t5 = count t1 -> cleanup_cond env fsz w5 t5 = false).
  { intros t5 Hc5.
    unfold cleanup_cond. rewrite Hts', Hc5. unfold t1. cbn [count set_item set_begidx set_count].
    rewrite Hc1, Hu32, Hu64 by lia.
    destruct (Z.leb_spec (space_limit env) (pgaudit_totalspace w - filesize victim + fsz)); [lia|].
    destruct (Z.ltb_spec (Audit_RemainThreshold (cfg env)) (Audit_RemainThreshold (cfg env)));
      [lia|done]. }
  assert (Hfields : forall t5,
            t5 = t1 \/ t5 = set_last_audit_time (now env (tick w4)) t1 ->
            data t5 = <[Z.to_nat (begidx t) := zero_item]> (data t) /\
            begidx t5 = next_index t (begidx t) /\ curidx t5 = curidx t /\
            count t5 = Audit_RemainThreshold (cfg env) /\ count t5 = count t1).
  { intros t5 [->| ->]; unfold t1; cbn [data begidx curidx count set_item set_begidx
      set_count set_last_audit_time]; rewrite Hc1; done. }
  destruct Htbl as [Htbl|Htbl]; cbn [fmap option_fmap option_map] in Htbl; rewrite Htbl.
  - destruct (Hfields t1 (or_introl eq_refl)) as (F1 & F2 & F3 & F4 & F5).
    exists w5, t1. rewrite F3.
    destruct (begidx t =? curidx t).
    + repeat split; done.
    + cbn [mbind option_bind]. rewrite Htbl, (Hdone t1 eq_refl). repeat split; done.
  - destruct (Hfields _ (or_intror eq_refl)) as (F1 & F2 & F3 & F4 & F5).
    exists w5, (set_last_audit_time (now env (tick w4)) t1). rewrite F3.
    destruct (begidx t =? curidx t).
    + repeat split; done.
    + cbn [mbind option_bind]. rewrite Htbl, (Hdone _ F5). repeat split; done.
Qed.

End RetentionMore.


(** * From the writer of chunks to the reader *)

(** The bytes [write (sysauditPipe[1], &p, PIPE_HEADER_SIZE + len)] puts on
    the pipe for a chunk: the header as the struct lies in memory, with
    [pad] the four bytes between [len] and [pid] that nothing sets, then the
    payload. *)
Definition chunk_image (pad : bytes) (c : PipeProtoChunk) : bytes :=
  [p_nuls0 c; p_nuls1 c] ++ le_bytes 2 (p_len c) ++ pad ++ le_bytes 8 (p_pid c) ++
  [p_is_last c] ++ p_data c.

(** What the reader does with the payload of a chunk that is not the last
    of its message: it goes to the buffer of its [pid], to the first unused
    buffer, or to a new one. *)
Definition save_chunk (pid : Z) (payload : bytes) (l : list save_buffer)
    : list save_buffer :=
  match find_slot pid l O None with
  | (Some i, _) => alter (fun b => mkSave (sb_pid b) (sb_data b ++ payload)) i l
  | (None, Some j) => <[j := mkSave pid payload]> l
  | (None, None) => l ++ [mkSave pid payload]
  end.

(** The data saved for [pid], when a buffer holds some. *)
Definition saved (pid : Z) (l : list save_buffer) : option bytes :=
  match find_slot pid l O None with
  | (Some i, _) => sb_data <$> l !! i
  | (None, _) => None
  end.

Definition release (pid : Z) (l : list save_buffer) : list save_buffer :=
  match find_slot pid l O None with
  | (Some i, _) => <[i := mkSave 0 []]> l
  | (None, _) => l
  end.

Lemma find_slot_found pid l : forall i fs j fs',
  find_slot pid l i fs = (Some j, fs') ->
  (i <= j)%nat /\ exists b, l !! (j - i)%nat = Some b /\ sb_pid b = pid /\
  Forall (fun b => sb_pid b <> pid) (take (j - i) l).
Proof.
  induction l as [|b l IH]; intros i fs j fs'; cbn [find_slot]; [done|].
  destruct (Z.eqb_spec (sb_pid b) pid) as [E|E].
  - intros [= <- <-]. split; [lia|]. rewrite Nat.sub_diag. exists b. cbn. done.
  - intros H. apply IH in H as (Hle & b' & Hb' & Hp & Hall).
    split; [lia|]. exists b'.
    replace (j - i)%nat with (S (j - S i)) by lia. cbn. split; [done|]. split; [done|].
    constructor; done.
Qed.

Lemma find_slot_none pid l : forall i fs fs',
  find_slot pid l i fs = (None, fs') ->
  Forall (fun b => sb_pid b <> pid) l /\
  match fs' with
  | Some j => fs = Some j \/ (fs = None /\ (i <= j)%nat /\ (j - i < length l)%nat)
  | None => fs = None
  end.
Proof.
  induction l as [|b l IH]; intros i fs fs'; cbn [find_slot].
  - intros [= <-]. split; [done|]. destruct fs; auto.
  - destruct (Z.eqb_spec (sb_pid b) pid) as [E|E]; [done|].
    intros H. apply IH in H as [Hall Hfs]. split; [constructor; done|].
    destruct fs' as [j|].
    + destruct Hfs as [Hfs|(Hfs & Hle & Hlt)].
      * destruct fs as [k|]; [left; done|].
        destruct (sb_pid b =? 0); [|done]. injection Hfs as <-.
        right. cbn. split; [done|]. split; lia.
      * destruct fs as [k|]; [done|]. destruct (sb_pid b =? 0); [done|].
        right. cbn. split; [done|]. split; lia.
    + destruct fs as [k|]; [done|]. destruct (sb_pid b =? 0); done.
Qed.

Lemma find_slot_at pid l j b : forall i fs,
  l !! j = Some b -> sb_pid b = pid ->
  Forall (fun b => sb_pid b <> pid) (take j l) ->
  exists fs', find_slot pid l i fs = (Some (i + j)%nat, fs').
Proof.
  revert j. induction l as [|b0 l IH]; intros j i fs Hj Hp Hall; [done|].
  cbn [find_slot]. destruct j as [|j].
  - cbn in Hj. injection Hj as ->. rewrite Hp, Z.eqb_refl. rewrite Nat.add_0_r. by eexists.
  - cbn in Hj, Hall. apply Forall_cons in Hall as [Hb0 Hall].
    destruct (Z.eqb_spec (sb_pid b0) pid); [done|].
    destruct (IH j (S i) (match fs with
                          | Some _ => fs
                          | None => if sb_pid b0 =? 0 then Some i else None
                          end) Hj Hp Hall) as [fs' Hfs'].
    exists fs'. rewrite Hfs'. f_equal. f_equal. lia.
Qed.

(** Saving a chunk when no buffer holds the [pid] yet, and when one does. *)
Lemma saved_save_chunk_new pid payload l :
  pid <> 0 -> saved pid l = None -> Forall (fun b => sb_pid b <> pid) l ->
  saved pid (save_chunk pid payload l) = Some payload.
Proof.
  intros Hpid _ Hall. unfold save_chunk.
  destruct (find_slot pid l O None) as [[i|] fs] eqn:E.
  { apply find_slot_found in E as (_ & b & Hb & Hp & _).
    rewrite Nat.sub_0_r in Hb. eapply Forall_lookup_1 in Hall; [|exact Hb]. done. }
  apply find_slot_none in E as [_ Hfs].
  destruct fs as [j|].
  - destruct Hfs as [|(_ & _ & Hlt)]; [done|]. rewrite Nat.sub_0_r in Hlt.
    unfold saved.
    destruct (find_slot_at pid (<[j := mkSave pid payload]> l) j (mkSave pid payload) O None)
      as [fs' Hfs'].
    + apply list_lookup_insert_eq. done.
    + done.
    + rewrite take_insert_ge by lia. apply Forall_take. done.
    + rewrite Hfs'. cbn [Nat.add]. rewrite list_lookup_insert_eq by done. done.
  - unfold saved.
    destruct (find_slot_at pid (l ++ [mkSave pid payload]) (length l) (mkSave pid payload) O None)
      as [fs' Hfs'].
    + rewrite lookup_app_r by lia. rewrite Nat.sub_diag. done.
    + done.
    + rewrite take_app_length. done.
    + rewrite Hfs'. cbn [Nat.add]. rewrite lookup_app_r by lia. rewrite Nat.sub_diag. done.
Qed.

Lemma saved_save_chunk_more pid payload l d :
  saved pid l = Some d ->
  saved pid (save_chunk pid payload l) = Some (d ++ payload).
Proof.
  unfold saved, save_chunk.
  destruct (find_slot pid l O None) as [[i|] fs] eqn:E; [|done].
  intros Hd. apply find_slot_found in E as (_ & b & Hb & Hp & Hall).
  rewrite Nat.sub_0_r in Hb, Hall.
  rewrite Hb in Hd. injection Hd as <-.
  destruct (find_slot_at pid (alter (fun b => mkSave (sb_pid b) (sb_data b ++ payload)) i l) i
              (mkSave (sb_pid b) (sb_data b ++ payload)) O None) as [fs' Hfs'].
  - rewrite list_lookup_alter, Hb. cbn. rewrite decide_True by done. done.
  - done.
  - rewrite take_alter_ge by lia. done.
  - rewrite Hfs'. cbn [Nat.add]. rewrite list_lookup_alter, Hb. cbn.
    rewrite decide_True by done. done.
Qed.

(** The buffer of [pid] once a first chunk has been saved, and once a
    further one has. *)
Definition free_buffer : save_buffer := mkSave 0 [].

Definition pending (pid : Z) (l : list save_buffer) (d : bytes) : Prop :=
  exists (j : nat) (fs : option nat),
    find_slot pid l O None = (Some j, fs) /\
    l !! j = Some (mkSave pid d) /\
    Forall (fun b => sb_pid b <> pid) (<[j := free_buffer]> l).

Lemma pending_new pid payload l :
  pid <> 0 -> Forall (fun b => sb_pid b <> pid) l ->
  pending pid (save_chunk pid payload l) payload.
Proof.
  intros Hpid Hall. unfold save_chunk, pending.
  destruct (find_slot pid l O None) as [[i|] fs] eqn:E.
  { apply find_slot_found in E as (_ & b & Hb & Hp & _).
    rewrite Nat.sub_0_r in Hb. eapply Forall_lookup_1 in Hall; [|exact Hb]. done. }
  apply find_slot_none in E as [_ Hfs].
  destruct fs as [j|].
  - destruct Hfs as [|(_ & _ & Hlt)]; [done|]. rewrite Nat.sub_0_r in Hlt.
    destruct (find_slot_at pid (<[j := mkSave pid payload]> l) j (mkSave pid payload) O None)
      as [fs' Hfs'].
    + apply list_lookup_insert_eq. done.
    + done.
    + rewrite take_insert_ge by lia. apply Forall_take. done.
    + exists j, fs'. split; [done|]. split; [apply list_lookup_insert_eq; done|].
      rewrite list_insert_insert_eq. apply Forall_insert; done.
  - destruct (find_slot_at pid (l ++ [mkSave pid payload]) (length l) (mkSave pid payload) O None)
      as [fs' Hfs'].
    + rewrite lookup_app_r by lia. rewrite Nat.sub_diag. done.
    + done.
    + rewrite take_app_length. done.
    + exists (length l), fs'. split; [done|].
      split; [rewrite lookup_app_r by lia; rewrite Nat.sub_diag; done|].
      rewrite insert_app_r_alt by lia. rewrite Nat.sub_diag. cbn.
      apply Forall_app. split; [done|]. constructor; [done|constructor].
Qed.

Lemma pending_more pid payload l d :
  pending pid l d -> pending pid (save_chunk pid payload l) (d ++ payload).
Proof.
  intros (j & fs & Hfind & Hj & Hall). unfold save_chunk, pending. rewrite Hfind.
  pose proof Hfind as Hfound. apply find_slot_found in Hfound as (_ & b & Hb & Hp & Hbefore).
  rewrite Nat.sub_0_r in Hb, Hbefore.
  destruct (find_slot_at pid (alter (fun b => mkSave (sb_pid b) (sb_data b ++ payload)) j l) j
              (mkSave pid (d ++ payload)) O None) as [fs' Hfs'].
  - rewrite list_lookup_alter, Hj. cbn. rewrite decide_True by done. done.
  - done.
  - rewrite take_alter_ge by lia. done.
  - exists j, fs'. split; [done|]. split.
    + rewrite list_lookup_alter, Hj. cbn. rewrite decide_True by done. done.
    + rewrite list_insert_alter, list_alter_alter_eq. rewrite list_insert_alter in Hall. exact Hall.
Qed.

Lemma byte_at_skip (pre rest : bytes) b off :
  length pre = off -> byte_at (pre ++ b :: rest) off = b.
Proof.
  intros <-. unfold byte_at. rewrite lookup_app_r by lia. rewrite Nat.sub_diag. done.
Qed.

Lemma u16_roundtrip v (rest : bytes) :
  0 <= v < 2 ^ 16 -> le_value (Mem.read 0 2 (le_bytes 2 v ++ rest)) = v.
Proof.
  intros H. rewrite read_le_bytes_head, le_value_le_bytes. apply Z.mod_small.
  change (2 ^ (8 * Z.of_nat 2)) with (2 ^ 16). lia.
Qed.

Lemma u64_roundtrip v (rest : bytes) :
  0 <= v < 2 ^ 64 -> le_value (Mem.read 0 8 (le_bytes 8 v ++ rest)) = v.
Proof.
  intros H. rewrite read_le_bytes_head, le_value_le_bytes. apply Z.mod_small.
  change (2 ^ (8 * Z.of_nat 8)) with (2 ^ 64). lia.
Qed.

Section ChunkHeader.
Variable PIPE_BUF : option Z.
Variable pad : bytes.
Hypothesis pad_len : length pad = 4%nat.

(** A chunk as [write_pipe_chunks] fills it in for the process [pid]. *)
Definition chunk_ok (pid : Z) (c : PipeProtoChunk) : Prop :=
  p_nuls0 c = 0 /\ p_nuls1 c = 0 /\
  0 < p_len c <= PIPE_MAX_PAYLOAD PIPE_BUF /\
  p_len c = Z.of_nat (length (p_data c)) /\
  p_pid c = pid /\
  (p_is_last c = char_t \/ p_is_last c = char_f).

Lemma length_chunk_image c :
  length (chunk_image pad c) = (17 + length (p_data c))%nat.
Proof.
  unfold chunk_image. rewrite !length_app, !length_le_bytes, pad_len. cbn. lia.
Qed.

Lemma chunk_header_parse (pre rest : bytes) (c : PipeProtoChunk) (pid : Z) :
  chunk_ok pid c -> 0 < pid < 2 ^ 64 ->
  let m := pre ++ chunk_image pad c ++ rest in
  valid_chunk_header PIPE_BUF m (length pre) = true /\
  read_u16 (length pre + 2) m = p_len c /\
  read_u64 (length pre + 8) m = pid /\
  byte_at m (length pre + 16) = p_is_last c /\
  drop (length pre + 17) m = p_data c ++ rest.
Proof.
  intros (Hn0 & Hn1 & Hlen & Hdata & Hpid & Hlast) Hp m.
  pose proof (PIPE_CHUNK_SIZE_le PIPE_BUF) as Hcs.
  assert (H16 : 0 <= p_len c < 2 ^ 16).
  { unfold PIPE_MAX_PAYLOAD, PIPE_HEADER_SIZE in Hlen. lia. }
  assert (B0 : byte_at m (length pre) = 0).
  { unfold m, chunk_image. cbn [app]. rewrite byte_at_skip by done. done. }
  assert (B1 : byte_at m (length pre + 1) = 0).
  { unfold m, chunk_image. cbn [app].
    replace (pre ++ p_nuls0 c :: p_nuls1 c :: _) with ((pre ++ [p_nuls0 c]) ++ p_nuls1 c ::
      (le_bytes 2 (p_len c) ++ pad ++ le_bytes 8 (p_pid c) ++ p_is_last c :: p_data c) ++ rest)
      by (rewrite <- !app_assoc; done).
    rewrite byte_at_skip by (rewrite length_app; cbn; lia). done. }
  assert (R16 : read_u16 (length pre + 2) m = p_len c).
  { unfold read_u16, m, chunk_image.
    replace (pre ++ ([p_nuls0 c; p_nuls1 c] ++ le_bytes 2 (p_len c) ++ pad ++
                     le_bytes 8 (p_pid c) ++ [p_is_last c] ++ p_data c) ++ rest)
      with ((pre ++ [p_nuls0 c; p_nuls1 c]) ++ le_bytes 2 (p_len c) ++
            (pad ++ le_bytes 8 (p_pid c) ++ [p_is_last c] ++ p_data c ++ rest))
      by (rewrite <- !app_assoc; done).
    rewrite read_skip by (rewrite length_app; cbn; lia).
    apply u16_roundtrip. done. }
  assert (R64 : read_u64 (length pre + 8) m = pid).
  { unfold read_u64, m, chunk_image.
    replace (pre ++ ([p_nuls0 c; p_nuls1 c] ++ le_bytes 2 (p_len c) ++ pad ++
                     le_bytes 8 (p_pid c) ++ [p_is_last c] ++ p_data c) ++ rest)
      with ((pre ++ [p_nuls0 c; p_nuls1 c] ++ le_bytes 2 (p_len c) ++ pad) ++
            le_bytes 8 (p_pid c) ++ ([p_is_last c] ++ p_data c ++ rest))
      by (rewrite <- !app_assoc; done).
    rewrite read_skip by (rewrite !length_app, length_le_bytes, pad_len; cbn; lia).
    rewrite Hpid. apply u64_roundtrip. lia. }
  assert (BL : byte_at m (length pre + 16) = p_is_last c).
  { unfold m, chunk_image.
    replace (pre ++ ([p_nuls0 c; p_nuls1 c] ++ le_bytes 2 (p_len c) ++ pad ++
                     le_bytes 8 (p_pid c) ++ [p_is_last c] ++ p_data c) ++ rest)
      with ((pre ++ [p_nuls0 c; p_nuls1 c] ++ le_bytes 2 (p_len c) ++ pad ++
             le_bytes 8 (p_pid c)) ++ p_is_last c :: (p_data c ++ rest))
      by (rewrite <- !app_assoc; done).
    rewrite byte_at_skip by (rewrite !length_app, !length_le_bytes, pad_len; cbn; lia).
    done. }
  split.
  - unfold valid_chunk_header. rewrite B0, B1, R16, R64, BL. cbn [Z.eqb andb].
    destruct (Z.ltb_spec 0 (p_len c)); [|lia].
    destruct (Z.leb_spec (p_len c) (PIPE_MAX_PAYLOAD PIPE_BUF)); [|lia].
    destruct (Z.eqb_spec pid 0); [lia|]. cbn [andb negb].
    destruct Hlast as [-> | ->]; done.
  - split; [done|]. split; [done|]. split; [done|].
    unfold m, chunk_image.
    replace (pre ++ ([p_nuls0 c; p_nuls1 c] ++ le_bytes 2 (p_len c) ++ pad ++
                     le_bytes 8 (p_pid c) ++ [p_is_last c] ++ p_data c) ++ rest)
      with ((pre ++ [p_nuls0 c; p_nuls1 c] ++ le_bytes 2 (p_len c) ++ pad ++
             le_bytes 8 (p_pid c) ++ [p_is_last c]) ++ p_data c ++ rest)
      by (rewrite <- !app_assoc; done).
    rewrite drop_app_length'; [done|].
    rewrite !length_app, !length_le_bytes, pad_len. cbn. lia.
Qed.

End ChunkHeader.

Lemma write_lookup off (bs m : bytes) i :
  Mem.write off bs m !! i =
  if decide (i < length m)%nat
  then if decide (off <= i < off + length bs)%nat then bs !! (i - off)%nat else m !! i
  else None.
Proof.
  unfold Mem.write.
  destruct (decide (i < length m)%nat) as [Hi|Hi].
  - destruct (decide (i < off)%nat) as [Ho|Ho].
    + rewrite lookup_app_l by (rewrite length_take; lia).
      rewrite lookup_take_lt by lia.
      destruct (decide (off <= i < off + length bs)%nat); [lia|done].
    + rewrite lookup_app_r by (rewrite length_take; lia).
      rewrite length_take, Nat.min_l by lia.
      destruct (decide (off <= i < off + length bs)%nat) as [Hb|Hb].
      * rewrite lookup_app_l by (rewrite length_take; lia).
        rewrite lookup_take_lt by lia. done.
      * rewrite lookup_app_r by (rewrite length_take; lia).
        rewrite length_take, lookup_drop.
        f_equal. lia.
  - apply lookup_ge_None_2.
    rewrite !length_app, !length_take, length_drop. lia.
Qed.

Lemma take_write_app off (bs a b : bytes) n :
  (n <= length a)%nat ->
  take n (Mem.write off bs (a ++ b)) = take n (Mem.write off bs a).
Proof.
  intros Hn. apply list_eq. intros i.
  destruct (decide (i < n)%nat) as [Hi|Hi].
  - rewrite !lookup_take_lt by done. rewrite !write_lookup, length_app.
    destruct (decide (i < length a + length b)%nat); [|lia].
    destruct (decide (i < length a)%nat); [|lia].
    destruct (decide (off <= i < off + length bs)%nat); [done|].
    rewrite lookup_app_l by lia. done.
  - rewrite !lookup_take_ge by lia. done.
Qed.

Lemma take_stamp_app t c (a b : bytes) n :
  (n <= length a)%nat ->
  take n (stamp t c (a ++ b)) = take n (stamp t c a).
Proof.
  intros Hn. unfold stamp.
  apply list_eq. intros i.
  destruct (decide (i < n)%nat) as [Hi|Hi].
  - rewrite !lookup_take_lt by done. rewrite !write_lookup, !write_length, length_app.
    destruct (decide (i < length a + length b)%nat); [|lia].
    destruct (decide (i < length a)%nat); [|lia].
    destruct (decide (off_size <= i < off_size + length (le_bytes 4 c))%nat); [done|].
    destruct (decide (off_time <= i < off_time + length (le_bytes 8 t))%nat); [done|].
    rewrite lookup_app_l by lia. done.
  - rewrite !lookup_take_ge by lia. done.
Qed.

Lemma process_pipe_loop_done PIPE_BUF steps fuel env m cursor count w :
  Z.of_nat count < sizeof_PipeProtoHeader ->
  process_pipe_loop PIPE_BUF steps fuel env m cursor count w = Some (m, cursor, count, w).
Proof.
  intros H. destruct steps; cbn [process_pipe_loop];
    destruct (Z.ltb_spec (Z.of_nat count) sizeof_PipeProtoHeader); done || lia.
Qed.

Section PipeRoundTrip.
Variable PIPE_BUF : option Z.
Variable pad : bytes.
Hypothesis pad_len : length pad = 4%nat.
Hypothesis chunk_size : sizeof_PipeProtoHeader <= PIPE_CHUNK_SIZE PIPE_BUF.
Variable env : Env.
Variable fuel : nat.
Variable pid : Z.
Hypothesis pid_range : 0 < pid < 2 ^ 64.
Local Arguments stamp : simpl never.

Let key := pid mod NBUFFER_LISTS.

Lemma PIPE_MAX_PAYLOAD_range :
  7 <= PIPE_MAX_PAYLOAD PIPE_BUF < 2 ^ 16.
Proof.
  pose proof (PIPE_CHUNK_SIZE_le PIPE_BUF).
  unfold PIPE_MAX_PAYLOAD, PIPE_HEADER_SIZE, sizeof_PipeProtoHeader in *. lia.
Qed.

Lemma with_buffer_lists_write_plain bl bl0 fh b c w :
  with_buffer_lists bl (write_plain env fh b c (with_buffer_lists bl0 w)).2 =
  with_buffer_lists bl (write_plain env fh b c w).2.
Proof. destruct w. reflexivity. Qed.

Lemma steady_with_buffer_lists bl w : steady env w -> steady env (with_buffer_lists bl w).
Proof. destruct w. done. Qed.

(** A chunk that is not the last of its message. *)
Lemma step_nonfinal steps (pre rest : bytes) c count w :
  chunk_ok PIPE_BUF pid c -> p_is_last c = char_f ->
  sizeof_PipeProtoHeader <= Z.of_nat count ->
  (17 + length (p_data c) <= count)%nat ->
  let m := pre ++ chunk_image pad c ++ rest in
  let l := default [] (buffer_lists w !! key) in
  process_pipe_loop PIPE_BUF (S steps) fuel env m (length pre) count w =
  process_pipe_loop PIPE_BUF steps fuel env m (length (pre ++ chunk_image pad c))
    (count - length (chunk_image pad c))
    (with_buffer_lists (<[key := save_chunk pid (p_data c) l]> (buffer_lists w)) w).
Proof.
  intros Hok Hlast H24 Hcount m l.
  destruct (chunk_header_parse PIPE_BUF pad pad_len pre rest c pid Hok pid_range)
    as (Hvalid & Hlen & Hpid & Hbyte & Hdrop).
  fold m in Hvalid, Hlen, Hpid, Hbyte, Hdrop.
  destruct Hok as (_ & _ & _ & Hdata & _ & _).
  replace (length (pre ++ chunk_image pad c)) with (length pre + 17 + length (p_data c))%nat
    by (rewrite length_app, length_chunk_image by done; lia).
  rewrite (length_chunk_image pad pad_len c).
  cbn [process_pipe_loop].
  destruct (Z.ltb_spec (Z.of_nat count) sizeof_PipeProtoHeader); [lia|].
  rewrite Hvalid, Hlen, Hpid, Hbyte, Hlast, Hdata, Nat2Z.id.
  change (Z.to_nat PIPE_HEADER_SIZE) with 17%nat.
  destruct (Nat.ltb_spec count (17 + length (p_data c))); [lia|].
  change (char_f =? char_f) with true. cbv iota.
  fold key. fold l.
  unfold Mem.read. rewrite Hdrop, take_app_length.
  cbn [mbind option_bind fst snd].
  unfold save_chunk.
  replace (length pre + (17 + length (p_data c)))%nat
    with (length pre + 17 + length (p_data c))%nat by lia.
  destruct (find_slot pid l 0 None) as [[i|] [j|]]; reflexivity.
Qed.

(** The last chunk of a message of which earlier chunks are saved. *)
Lemma step_final_pending steps (pre rest : bytes) c count w fh l d :
  chunk_ok PIPE_BUF pid c -> p_is_last c = char_t ->
  sizeof_PipeProtoHeader <= Z.of_nat count ->
  (17 + length (p_data c) <= count)%nat ->
  buffer_lists w !! key = Some l -> pending pid l d ->
  sysauditFile w = Some fh -> steady env w ->
  let m := pre ++ chunk_image pad c ++ rest in
  exists l',
    Forall (fun b => sb_pid b <> pid) l' /\
    process_pipe_loop PIPE_BUF (S steps) fuel env m (length pre) count w =
    process_pipe_loop PIPE_BUF steps fuel env m (length (pre ++ chunk_image pad c))
      (count - length (chunk_image pad c))
      (with_buffer_lists (<[key := l']> (buffer_lists w))
         (write_plain env fh (d ++ p_data c) (Z.of_nat (length (d ++ p_data c))) w).2).
Proof.
  intros Hok Hlast H24 Hcount Hl (j & fs & Hfind & Hj & Hfree) Hfh Hsteady m.
  destruct (chunk_header_parse PIPE_BUF pad pad_len pre rest c pid Hok pid_range)
    as (Hvalid & Hlen & Hpid & Hbyte & Hdrop).
  fold m in Hvalid, Hlen, Hpid, Hbyte, Hdrop.
  destruct Hok as (_ & _ & _ & Hdata & _ & _).
  exists (<[j := free_buffer]> l). split; [done|].
  replace (length (pre ++ chunk_image pad c)) with (length pre + 17 + length (p_data c))%nat
    by (rewrite length_app, length_chunk_image by done; lia).
  rewrite (length_chunk_image pad pad_len c).
  cbn [process_pipe_loop].
  destruct (Z.ltb_spec (Z.of_nat count) sizeof_PipeProtoHeader); [lia|].
  rewrite Hvalid, Hlen, Hpid, Hbyte, Hlast, Hdata, Nat2Z.id.
  change (Z.to_nat PIPE_HEADER_SIZE) with 17%nat.
  destruct (Nat.ltb_spec count (17 + length (p_data c))); [lia|].
  change (char_t =? char_f) with false. cbv iota.
  fold key. rewrite Hl. cbn [default from_option id]. rewrite Hfind, Hj.
  cbn [fmap option_fmap option_map default from_option id sb_data].
  unfold Mem.read. rewrite Hdrop, take_app_length.
  rewrite (pgaudit_write_file_plain PIPE_BUF fuel env fh) by done.
  cbn [mbind option_bind fst snd].
  replace (length pre + (17 + length (p_data c)))%nat
    with (length pre + 17 + length (p_data c))%nat by lia.
  reflexivity.
Qed.

(** A message that comes in one chunk, with nothing saved for its
    process: it is written from the read buffer itself. *)
Lemma step_final_fresh steps (pre rest : bytes) c count w fh :
  chunk_ok PIPE_BUF pid c -> p_is_last c = char_t ->
  sizeof_PipeProtoHeader <= Z.of_nat count ->
  (17 + length (p_data c) <= count)%nat ->
  Forall (fun b => sb_pid b <> pid) (default [] (buffer_lists w !! key)) ->
  sysauditFile w = Some fh -> steady env w ->
  let m := pre ++ chunk_image pad c ++ rest in
  exists m',
    process_pipe_loop PIPE_BUF (S steps) fuel env m (length pre) count w =
    process_pipe_loop PIPE_BUF steps fuel env m' (length (pre ++ chunk_image pad c))
      (count - length (chunk_image pad c))
      (write_plain env fh (p_data c) (Z.of_nat (length (p_data c))) w).2.
Proof.
  intros Hok Hlast H24 Hcount Hfresh Hfh Hsteady m.
  destruct (chunk_header_parse PIPE_BUF pad pad_len pre rest c pid Hok pid_range)
    as (Hvalid & Hlen & Hpid & Hbyte & Hdrop).
  fold m in Hvalid, Hlen, Hpid, Hbyte, Hdrop.
  destruct Hok as (_ & _ & _ & Hdata & _ & _).
  replace (length (pre ++ chunk_image pad c)) with (length pre + 17 + length (p_data c))%nat
    by (rewrite length_app, length_chunk_image by done; lia).
  rewrite (length_chunk_image pad pad_len c).
  cbn [process_pipe_loop].
  destruct (Z.ltb_spec (Z.of_nat count) sizeof_PipeProtoHeader); [lia|].
  rewrite Hvalid, Hlen, Hpid, Hbyte, Hlast, Hdata, Nat2Z.id.
  change (Z.to_nat PIPE_HEADER_SIZE) with 17%nat.
  destruct (Nat.ltb_spec count (17 + length (p_data c))); [lia|].
  change (char_t =? char_f) with false. cbv iota.
  fold key.
  destruct (find_slot pid (default [] (buffer_lists w !! key)) 0 None) as [[i|] fs] eqn:E.
  { apply find_slot_found in E as (_ & b & Hb & Hp & _).
    rewrite Nat.sub_0_r in Hb. eapply Forall_lookup_1 in Hfresh; [|exact Hb]. done. }
  rewrite Hdrop.
  rewrite (pgaudit_write_file_plain PIPE_BUF fuel env fh) by done.
  cbn [mbind option_bind fst snd].
  replace (length pre + (17 + length (p_data c)))%nat
    with (length pre + 17 + length (p_data c))%nat by lia.
  eexists. f_equal.
  unfold write_plain. cbn [snd]. f_equal. f_equal.
  rewrite Nat2Z.id.
  rewrite !take_stamp_app by done. done.
Qed.

Lemma last_chunk_len_drop (L P : Z) :
  0 < P -> P < L -> (L - P - 1) mod P = (L - 1) mod P.
Proof.
  intros HP HL. replace (L - 1) with (L - P - 1 + 1 * P) by lia.
  rewrite Z.mod_add by lia. done.
Qed.

(** The chunks of the rest of a message, read while the chunks before
    them are saved. *)
Lemma feed_pending (fuelw : nat) : forall (data : bytes) chunks,
  write_pipe_chunks_loop PIPE_BUF fuelw pid data = Some chunks ->
  (0 < length data)%nat ->
  7 <= (Z.of_nat (length data) - 1) mod PIPE_MAX_PAYLOAD PIPE_BUF + 1 ->
  forall (pre slack : bytes) w fh l d steps,
    buffer_lists w !! key = Some l -> pending pid l d ->
    sysauditFile w = Some fh -> steady env w ->
    (length chunks <= steps)%nat ->
    exists l',
      Forall (fun b => sb_pid b <> pid) l' /\
      process_pipe_loop PIPE_BUF steps fuel env
        (pre ++ concat (map (chunk_image pad) chunks) ++ slack) (length pre)
        (length (concat (map (chunk_image pad) chunks))) w =
      Some (pre ++ concat (map (chunk_image pad) chunks) ++ slack,
            (length pre + length (concat (map (chunk_image pad) chunks)))%nat, O,
            with_buffer_lists (<[key := l']> (buffer_lists w))
              (write_plain env fh (d ++ data) (Z.of_nat (length (d ++ data))) w).2).
Proof.
  pose proof PIPE_MAX_PAYLOAD_range as HP.
  induction fuelw as [|fuelw IH]; intros data chunks Hchunks Hpos Hlast pre slack w fh l d
    steps Hl Hpend Hfh Hsteady Hsteps.
  - (* no fuel: one chunk, the last *)
    cbn [write_pipe_chunks_loop] in Hchunks.
    destruct (Z.ltb_spec (PIPE_MAX_PAYLOAD PIPE_BUF) (Z.of_nat (length data))) as [Hbig|Hsmall];
      [done|].
    injection Hchunks as <-.
    assert (Hlen : 7 <= Z.of_nat (length data)).
    { destruct (Z.eq_dec (Z.of_nat (length data)) (PIPE_MAX_PAYLOAD PIPE_BUF)) as [E|E]; [lia|].
      rewrite Z.mod_small in Hlast by lia. lia. }
    set (c := mkChunk 0 0 (u16 (Z.of_nat (length data))) pid char_t data).
    assert (Hok : chunk_ok PIPE_BUF pid c).
    { unfold chunk_ok, c. cbn. rewrite u16_small by lia. repeat split; lia. }
    cbn [map concat]. rewrite app_nil_r.
    destruct steps as [|steps]; [cbn in Hsteps; lia|].
    destruct (step_final_pending steps pre slack c (length (chunk_image pad c)) w fh l d
                Hok eq_refl) as (l' & Hl' & Hstep); try done.
    { rewrite length_chunk_image by done. unfold sizeof_PipeProtoHeader. cbn. lia. }
    { rewrite length_chunk_image by done. done. }
    exists l'. split; [done|]. rewrite Hstep.
    rewrite Nat.sub_diag, process_pipe_loop_done by (unfold sizeof_PipeProtoHeader; lia).
    rewrite length_app. reflexivity.
  - cbn [write_pipe_chunks_loop] in Hchunks.
    destruct (Z.ltb_spec (PIPE_MAX_PAYLOAD PIPE_BUF) (Z.of_nat (length data))) as [Hbig|Hsmall].
    + (* a full chunk, and more to come *)
      destruct (write_pipe_chunks_loop PIPE_BUF fuelw pid
                  (drop (Z.to_nat (PIPE_MAX_PAYLOAD PIPE_BUF)) data)) as [rest|] eqn:Erest;
        [|done].
      cbn [mbind option_bind] in Hchunks. injection Hchunks as <-.
      set (P := Z.to_nat (PIPE_MAX_PAYLOAD PIPE_BUF)) in *.
      set (c := mkChunk 0 0 (u16 (PIPE_MAX_PAYLOAD PIPE_BUF)) pid char_f (take P data)).
      assert (Hlc : length (take P data) = P) by (rewrite length_take; lia).
      assert (Hok : chunk_ok PIPE_BUF pid c).
      { unfold chunk_ok, c. cbn. rewrite u16_small, Hlc by lia. repeat split; lia. }
      cbn [map concat length] in Hsteps |- *.
      destruct steps as [|steps]; [lia|].
      rewrite <- (app_assoc (chunk_image pad c)).
      rewrite (step_nonfinal steps pre _ c _ w Hok eq_refl).
      2:{ rewrite length_app, length_chunk_image by done. cbn [p_data c]. rewrite Hlc.
          unfold sizeof_PipeProtoHeader. lia. }
      2:{ rewrite length_app, length_chunk_image by done. lia. }
      rewrite Hl. cbn [default from_option id].
      set (w1 := with_buffer_lists _ w).
      assert (Hpos' : (0 < length (drop P data))%nat) by (rewrite length_drop; lia).
      assert (Hlast' : 7 <= (Z.of_nat (length (drop P data)) - 1)
                              mod PIPE_MAX_PAYLOAD PIPE_BUF + 1).
      { rewrite length_drop. rewrite Nat2Z.inj_sub by lia.
        replace (Z.of_nat P) with (PIPE_MAX_PAYLOAD PIPE_BUF) by lia.
        rewrite last_chunk_len_drop by lia. done. }
      destruct (IH (drop P data) rest Erest Hpos' Hlast' (pre ++ chunk_image pad c) slack w1 fh
                  (save_chunk pid (p_data c) l) (d ++ take P data) steps)
        as (l' & Hl' & Hrun).
      * unfold w1. cbn [buffer_lists with_buffer_lists]. apply lookup_insert_eq.
      * apply pending_more. exact Hpend.
      * unfold w1. exact Hfh.
      * apply steady_with_buffer_lists. exact Hsteady.
      * lia.
      * exists l'. split; [done|].
        replace (length (chunk_image pad c ++ concat (map (chunk_image pad) rest)) -
                 length (chunk_image pad c))%nat
          with (length (concat (map (chunk_image pad) rest)))
          by (rewrite length_app; lia).
        rewrite <- !app_assoc in Hrun. rewrite Hrun.
        replace (length (pre ++ chunk_image pad c) +
                 length (concat (map (chunk_image pad) rest)))%nat
          with (length pre +
                length (chunk_image pad c ++ concat (map (chunk_image pad) rest)))%nat
          by (rewrite !length_app; lia).
        f_equal. f_equal.
        unfold w1. cbn [buffer_lists with_buffer_lists c p_data].
        rewrite with_buffer_lists_write_plain, insert_insert_eq.
        rewrite take_drop. done.
    + (* the last chunk *)
      injection Hchunks as <-.
      assert (Hlen : 7 <= Z.of_nat (length data)).
      { destruct (Z.eq_dec (Z.of_nat (length data)) (PIPE_MAX_PAYLOAD PIPE_BUF)) as [E|E]; [lia|].
        rewrite Z.mod_small in Hlast by lia. lia. }
      set (c := mkChunk 0 0 (u16 (Z.of_nat (length data))) pid char_t data).
      assert (Hok : chunk_ok PIPE_BUF pid c).
      { unfold chunk_ok, c. cbn. rewrite u16_small by lia. repeat split; lia. }
      cbn [map concat]. rewrite app_nil_r.
      destruct steps as [|steps]; [cbn in Hsteps; lia|].
      destruct (step_final_pending steps pre slack c (length (chunk_image pad c)) w fh l d
                  Hok eq_refl) as (l' & Hl' & Hstep); try done.
      { rewrite length_chunk_image by done. unfold sizeof_PipeProtoHeader. cbn. lia. }
      { rewrite length_chunk_image by done. done. }
      exists l'. split; [done|]. rewrite Hstep.
      rewrite Nat.sub_diag, process_pipe_loop_done by (unfold sizeof_PipeProtoHeader; lia).
      rewrite length_app. reflexivity.
Qed.

Lemma length_stream chunks :
  (length chunks <= length (concat (map (chunk_image pad) chunks)))%nat.
Proof.
  induction chunks as [|c chunks IH]; [done|].
  cbn [map concat length]. rewrite length_app, length_chunk_image by done. lia.
Qed.

Lemma write_plain_file fh (data : bytes) w bl :
  is_Some (inodes (disk w) !! fh) ->
  let w' := with_buffer_lists bl
              (write_plain env fh data (Z.of_nat (length data)) w).2 in
  inode_content (disk w') fh =
    inode_content (disk w) fh ++ stamp (now env (tick w)) (Z.of_nat (length data)) data /\
  dir (disk w') = dir (disk w) /\
  buffer_lists w' = bl.
Proof.
  intros Hino w'. unfold w', write_plain.
  cbn [snd disk with_buffer_lists with_disk with_indextbl with_tick buffer_lists].
  rewrite inode_content_append by done.
  rewrite Nat2Z.id, take_ge by (rewrite stamp_length; done). done.
Qed.

(** The chunks of a whole message in the read buffer. *)
Lemma chunks_reassembled (data slack : bytes) (w : World) (fh : nat) :
  (0 < length data)%nat ->
  7 <= (Z.of_nat (length data) - 1) mod PIPE_MAX_PAYLOAD PIPE_BUF + 1 ->
  Forall (fun b => sb_pid b <> pid) (default [] (buffer_lists w !! key)) ->
  sysauditFile w = Some fh ->
  is_Some (inodes (disk w) !! fh) ->
  steady env w ->
  exists chunks m' w',
    write_pipe_chunks PIPE_BUF pid data = Some chunks /\
    process_pipe_input PIPE_BUF fuel env
      (concat (map (chunk_image pad) chunks) ++ slack)
      (length (concat (map (chunk_image pad) chunks))) w = Some (m', O, w') /\
    inode_content (disk w') fh =
      inode_content (disk w) fh ++ stamp (now env (tick w)) (Z.of_nat (length data)) data /\
    dir (disk w') = dir (disk w) /\
    Forall (fun b => sb_pid b <> pid) (default [] (buffer_lists w' !! key)).
Proof.
  intros Hpos Hlast Hfresh Hfh Hino Hsteady.
  pose proof PIPE_MAX_PAYLOAD_range as HP.
  unfold write_pipe_chunks.
  assert (exists n, length data = S n) as [n En]
    by (destruct (length data) as [|n]; [lia|by exists n]).
  set (F := write_pipe_chunks_loop PIPE_BUF (length data) pid data).
  assert (HF : F = write_pipe_chunks_loop PIPE_BUF (S n) pid data)
    by (unfold F; rewrite En; done).
  rewrite HF. clear F HF.
  cbn [write_pipe_chunks_loop].
  destruct (Z.ltb_spec (PIPE_MAX_PAYLOAD PIPE_BUF) (Z.of_nat (length data))) as [Hbig|Hsmall].
  - set (P := Z.to_nat (PIPE_MAX_PAYLOAD PIPE_BUF)) in *.
    assert (Hspec : PIPE_HEADER_SIZE < PIPE_CHUNK_SIZE PIPE_BUF)
      by (unfold PIPE_HEADER_SIZE, sizeof_PipeProtoHeader in *; lia).
    assert (Hpos' : (0 < length (drop P data) <= n)%nat) by (rewrite length_drop; lia).
    destruct (write_pipe_chunks_loop_spec PIPE_BUF pid Hspec n (drop P data) Hpos')
      as (rest & Erest & _).
    rewrite Erest. cbn [mbind option_bind].
    set (c := mkChunk 0 0 (u16 (PIPE_MAX_PAYLOAD PIPE_BUF)) pid char_f (take P data)).
    assert (Hlc : length (take P data) = P) by (rewrite length_take; lia).
    assert (Hok : chunk_ok PIPE_BUF pid c).
    { unfold chunk_ok, c. cbn. rewrite u16_small, Hlc by lia. repeat split; lia. }
    set (l0 := default [] (buffer_lists w !! key)) in *.
    set (w1 := with_buffer_lists (<[key := save_chunk pid (p_data c) l0]> (buffer_lists w)) w).
    assert (Hlast' : 7 <= (Z.of_nat (length (drop P data)) - 1)
                            mod PIPE_MAX_PAYLOAD PIPE_BUF + 1).
    { rewrite length_drop. rewrite Nat2Z.inj_sub by lia.
      replace (Z.of_nat P) with (PIPE_MAX_PAYLOAD PIPE_BUF) by lia.
      rewrite last_chunk_len_drop by lia. done. }
    pose proof (length_stream rest) as Hsteps.
    destruct (feed_pending n (drop P data) rest Erest ltac:(lia) Hlast'
                (chunk_image pad c) slack w1 fh (save_chunk pid (p_data c) l0) (take P data)
                (length (chunk_image pad c ++ concat (map (chunk_image pad) rest)) - 1)%nat)
      as (l' & Hl' & Hrun).
    + unfold w1. cbn [buffer_lists with_buffer_lists]. apply lookup_insert_eq.
    + apply pending_new; [lia|done].
    + exact Hfh.
    + apply steady_with_buffer_lists. exact Hsteady.
    + rewrite length_app, length_chunk_image by done. lia.
    + pose proof (write_plain_file fh data w (<[key := l']> (buffer_lists w)) Hino)
        as (Hf1 & Hf2 & Hf3).
      eexists (c :: rest), _, _. split; [done|].
      cbn [map concat]. split; [|split; [exact Hf1|split; [exact Hf2|]]].
      * unfold process_pipe_input.
        destruct (length (chunk_image pad c ++ concat (map (chunk_image pad) rest)))
          as [|steps] eqn:Els.
        { rewrite length_app, length_chunk_image in Els by done. lia. }
        rewrite <- Els.
        pose proof (step_nonfinal steps [] (concat (map (chunk_image pad) rest) ++ slack) c
                      (length (chunk_image pad c ++ concat (map (chunk_image pad) rest)))
                      w Hok eq_refl) as Hstep.
        cbn [app length] in Hstep. rewrite <- app_assoc.
        rewrite Els at 1. rewrite Hstep.
        2:{ rewrite length_app, length_chunk_image by done. cbn [p_data c]. rewrite Hlc.
            unfold sizeof_PipeProtoHeader. lia. }
        2:{ rewrite length_app, length_chunk_image by done. lia. }
        fold l0 w1.
        replace (length (chunk_image pad c ++ concat (map (chunk_image pad) rest)) -
                 length (chunk_image pad c))%nat
          with (length (concat (map (chunk_image pad) rest)))
          by (rewrite length_app; lia).
        cbn [Nat.sub] in Hrun. rewrite Nat.sub_0_r in Hrun.
        rewrite Hrun. cbn [mbind option_bind Nat.ltb Nat.leb andb].
        unfold w1. cbn [buffer_lists with_buffer_lists c p_data].
        rewrite with_buffer_lists_write_plain, insert_insert_eq, take_drop. done.
      * rewrite Hf3, lookup_insert_eq. done.
  - set (c := mkChunk 0 0 (u16 (Z.of_nat (length data))) pid char_t data).
    assert (Hlen : 7 <= Z.of_nat (length data)).
    { destruct (Z.eq_dec (Z.of_nat (length data)) (PIPE_MAX_PAYLOAD PIPE_BUF)) as [E|E]; [lia|].
      rewrite Z.mod_small in Hlast by lia. lia. }
    assert (Hok : chunk_ok PIPE_BUF pid c).
    { unfold chunk_ok, c. cbn. rewrite u16_small by lia. repeat split; lia. }
    pose proof (write_plain_file fh data w (buffer_lists w) Hino) as (Hf1 & Hf2 & Hf3).
    assert (Hsame : with_buffer_lists (buffer_lists w)
                      (write_plain env fh data (Z.of_nat (length data)) w).2
                    = (write_plain env fh data (Z.of_nat (length data)) w).2)
      by (destruct w; reflexivity).
    rewrite Hsame in Hf1, Hf2, Hf3.
    assert (Hls : length (chunk_image pad c) = S (16 + length data))
      by (rewrite length_chunk_image by done; done).
    destruct (step_final_fresh (16 + length data) [] slack c (S (16 + length data)) w fh
                Hok eq_refl) as (m' & Hstep); try done.
    { unfold sizeof_PipeProtoHeader. lia. }
    cbn [app length] in Hstep.
    eexists [c], _, _. split; [done|].
    cbn [map concat]. rewrite app_nil_r, Hls.
    split; [|split; [exact Hf1|split; [exact Hf2|]]].
    + unfold process_pipe_input. rewrite Hstep.
      rewrite Hls, Nat.sub_diag, process_pipe_loop_done
        by (unfold sizeof_PipeProtoHeader; lia).
      cbn [mbind option_bind Nat.ltb Nat.leb andb]. unfold c. cbn [p_data]. reflexivity.
    + rewrite Hf3. exact Hfresh.
Qed.

(** X11. What [write_pipe_chunks] sends for a message, [process_pipe_input]
    puts together again: with the chunks of the message in the read buffer,
    nothing saved for the sending process, and a last chunk of at least
    seven bytes, the message is written to the open audit file once, whole,
    with the time at offset 8 and its length at offset 16; no byte is left
    in the buffer and no buffer is left to the process. *)
Theorem pipe_roundtrip (data slack : bytes) (w : World) (fh : nat) :
  (0 < length data)%nat ->
  7 <= (Z.of_nat (length data) - 1) mod PIPE_MAX_PAYLOAD PIPE_BUF + 1 ->
  Forall (fun b => sb_pid b <> pid) (default [] (buffer_lists w !! key)) ->
  sysauditFile w = Some fh ->
  is_Some (inodes (disk w) !! fh) ->
  steady env w ->
  exists chunks m' w',
    write_pipe_chunks PIPE_BUF pid data = Some chunks /\
    process_pipe_input PIPE_BUF fuel env
      (concat (map (chunk_image pad) chunks) ++ slack)
      (length (concat (map (chunk_image pad) chunks))) w = Some (m', O, w') /\
    inode_content (disk w') fh =
      inode_content (disk w) fh ++ stamp (now env (tick w)) (Z.of_nat (length data)) data /\
    dir (disk w') = dir (disk w) /\
    Forall (fun b => sb_pid b <> pid) (default [] (buffer_lists w' !! key)).
Proof.
  intros Hpos Hlast Hfresh Hfh Hino Hsteady.
  exact (chunks_reassembled data slack w fh Hpos Hlast Hfresh Hfh Hino Hsteady).
Qed.

End PipeRoundTrip.


(** * From a backend to the audit file *)


Section BackendReport.
Variable PIPE_BUF : option Z.
Variable pad : bytes.
Hypothesis pad_len : length pad = 4%nat.
Hypothesis chunk_size : sizeof_PipeProtoHeader <= PIPE_CHUNK_SIZE PIPE_BUF.
Local Arguments stamp : simpl never.
Local Arguments audit_record : simpl never.


End BackendReport.


(** * The write path only appends *)

(** [w'] has the audit files of [w], except that the file open under [fh]
    may have grown at its end. *)
Definition only_appends (fh : nat) (w w' : World) : Prop :=
  sysauditFile w' = sysauditFile w /\
  dir (disk w') = dir (disk w) /\
  length (inodes (disk w')) = length (inodes (disk w)) /\
  (forall ino, ino <> fh -> inodes (disk w') !! ino = inodes (disk w) !! ino) /\
  exists extra, inode_content (disk w') fh = inode_content (disk w) fh ++ extra.

Lemma only_appends_same fh w w' :
  sysauditFile w' = sysauditFile w -> dir (disk w') = dir (disk w) ->
  inodes (disk w') = inodes (disk w) -> only_appends fh w w'.
Proof.
  intros H1 H2 H3. unfold only_appends, inode_content. rewrite H1, H2, H3.
  repeat split; try done. exists []. by rewrite app_nil_r.
Qed.

Lemma only_appends_trans fh w1 w2 w3 :
  only_appends fh w1 w2 -> only_appends fh w2 w3 -> only_appends fh w1 w3.
Proof.
  intros (A1 & A2 & A3 & A4 & e1 & A5) (B1 & B2 & B3 & B4 & e2 & B5).
  unfold only_appends. rewrite B1, B2, B3, B5, A5. repeat split; try done.
  - intros ino Hne. rewrite B4, A4 by done. done.
  - exists (e1 ++ e2). by rewrite app_assoc.
Qed.

Lemma only_appends_append fh (b : bytes) w :
  only_appends fh w (with_disk (disk_append fh b (disk w)) w).
Proof.
  unfold only_appends, inode_content. cbn [disk with_disk disk_append dir inodes sysauditFile].
  repeat split; try done.
  - apply length_alter.
  - intros ino Hne. rewrite list_lookup_alter_ne by done. done.
  - exists (match inodes (disk w) !! fh with Some _ => b | None => [] end).
    rewrite list_lookup_alter. rewrite decide_True by done.
    destruct (inodes (disk w) !! fh); cbn; done.
Qed.

Section WritePath.
Variable PIPE_BUF : option Z.
Variable env : Env.
Variable fh : nat.
Local Arguments stamp : simpl never.
Local Arguments audit_record : simpl never.
Local Arguments encode_indextbl : simpl never.

Lemma audit_report_with_appends
    (write_file : bytes -> Z -> World -> option (bytes * World)) :
  (forall b c w r, sysauditFile w = Some fh -> write_file b c w = Some r ->
                   only_appends fh w r.2) ->
  forall type result o d w w',
    sysauditFile w = Some fh ->
    audit_report_with PIPE_BUF write_file env type result o d w = Some w' ->
    only_appends fh w w'.
Proof.
  intros Hwf type result o d w w' Hfh. unfold audit_report_with.
  destruct (negb (Audit_enabled (cfg env)) || ha_pending env).
  { intros [= <-]. by apply only_appends_same. }
  destruct (negb (report_gate env type)).
  { intros [= <-]. destruct (_ || _); by apply only_appends_same. }
  destruct (auditpipe_done env && negb (am_auditor env)).
  { destruct (write_pipe_chunks _ _ _); [|done]. intros [= <-]. by apply only_appends_same. }
  destruct (am_auditor env).
  - destruct (write_file _ _ w) as [r|] eqn:E; [|done]. intros [= <-]. eapply Hwf; done.
  - intros [= <-]. destruct d; by apply only_appends_same.
Qed.

Ltac append_last :=
  match goal with
  | |- only_appends ?h _ (with_disk (disk_append _ ?b _) ?x) =>
      eapply only_appends_trans; [|exact (only_appends_append h b x)]
  end.

Lemma pgaudit_write_file_only_appends (fuel : nat) :
  forall buffer count w r,
    pgaudit_write_file PIPE_BUF fuel env buffer count w = Some r ->
    sysauditFile w = Some fh ->
    only_appends fh w r.2 /\
    r.1 = stamp (now env (tick w)) count buffer /\
    (is_Some (inodes (disk w) !! fh) ->
     exists before, inode_content (disk r.2) fh = before ++ take (Z.to_nat count) r.1).
Proof.
  induction fuel as [|fuel IH]; intros buffer count w r; cbn [pgaudit_write_file].
  - intros Hrun Hfh. rewrite Hfh in Hrun. cbn [time_NULL] in Hrun.
    set (w1 := with_tick (S (tick w)) w) in *.
    destruct (audit_indextbl w1) as [t|] eqn:Et.
    + destruct (now env (tick w) <? last_audit_time t); [done|].
      cbn [mbind option_bind] in Hrun. injection Hrun as <-. cbn [fst snd].
      split; [|split; [done|]].
      * append_last.
        apply only_appends_same; destruct w; done.
      * intros Hino. eexists. apply inode_content_append. destruct w; exact Hino.
    + cbn [mbind option_bind] in Hrun. injection Hrun as <-. cbn [fst snd].
      split; [|split; [done|]].
      * append_last.
        apply only_appends_same; destruct w; done.
      * intros Hino. eexists. apply inode_content_append. destruct w; exact Hino.
  - intros Hrun Hfh. rewrite Hfh in Hrun. cbn [time_NULL] in Hrun.
    set (w1 := with_tick (S (tick w)) w) in *.
    assert (H01 : only_appends fh w w1) by (apply only_appends_same; destruct w; done).
    match type of Hrun with
    | (?m ≫= _) = _ => destruct m as [w2|] eqn:E2; [|done]
    end.
    cbn [mbind option_bind] in Hrun. injection Hrun as <-. cbn [fst snd].
    assert (H12 : only_appends fh w1 w2).
    { destruct (audit_indextbl w1) as [t|] eqn:Et.
      - destruct (now env (tick w) <? last_audit_time t).
        + match type of E2 with
          | (?m ≫= _) = _ => destruct m as [w3|] eqn:E3; [|done]
          end.
          cbn [mbind option_bind] in E2. injection E2 as <-.
          apply audit_report_with_appends in E3.
          2:{ intros b c w0 r0 Hfh0 Hr0. by apply (IH b c w0 r0 Hr0). }
          2:{ unfold pgaudit_update_indexfile.
              destruct (indexfile_open_fails env); destruct w; exact Hfh. }
          eapply only_appends_trans; [|eapply only_appends_trans; [exact E3|]].
          * apply only_appends_same; unfold pgaudit_update_indexfile;
              destruct (indexfile_open_fails env); destruct w1; done.
          * apply only_appends_same; destruct w3; done.
        + injection E2 as <-. apply only_appends_same; destruct w1; done.
      - injection E2 as <-. by apply only_appends_same. }
    split; [|split; [done|]].
    + append_last. eapply only_appends_trans; [exact H01|exact H12].
    + intros Hino. eexists. apply inode_content_append.
      destruct H01 as (_ & _ & L1 & _), H12 as (_ & _ & L2 & _).
      apply lookup_lt_is_Some. apply lookup_lt_is_Some in Hino. lia.
Qed.

End WritePath.

(** X13. The write path only ever appends to the open file.  Whatever the
    clock does, a call of [pgaudit_write_file] that returns has left the
    names of the directory and every other audit file as they were, and the
    open file as it was with bytes added at its end, the last of them the
    [count] bytes of the buffer with time and length stored in them; and
    with a clock that has not gone back the call does return. *)
Theorem write_path_only_appends (PIPE_BUF : option Z) (fuel : nat) (env : Env)
    (buffer : bytes) (count : Z) (w : World) (fh : nat) :
  sysauditFile w = Some fh ->
  is_Some (inodes (disk w) !! fh) ->
  (steady env w ->
   exists r, pgaudit_write_file PIPE_BUF fuel env buffer count w = Some r) /\
  (forall b' w',
     pgaudit_write_file PIPE_BUF fuel env buffer count w = Some (b', w') ->
     b' = stamp (now env (tick w)) count buffer /\
     sysauditFile w' = Some fh /\
     dir (disk w') = dir (disk w) /\
     (forall ino, ino <> fh -> inodes (disk w') !! ino = inodes (disk w) !! ino) /\
     (exists extra, inode_content (disk w') fh = inode_content (disk w) fh ++ extra) /\
     (exists before, inode_content (disk w') fh = before ++ take (Z.to_nat count) b')).
Proof.
  intros Hfh Hino. split.
  - intros Hsteady. eexists. apply pgaudit_write_file_plain; done.
  - intros b' w' Hrun.
    destruct (pgaudit_write_file_only_appends PIPE_BUF env fh fuel buffer count w (b', w')
                Hrun Hfh) as ((A1 & A2 & _ & A4 & A5) & B & C).
    cbn [fst snd] in *. rewrite A1. repeat split; try done. by apply C.
Qed.


(** * The ring of slots *)

(** X14. [AUDIT_COUNT] counts the slots from [begidx] round to [curidx]: at
    least one, at most [maxnum]; moving [curidx] on by one slot, as closing a
    file does, adds one, unless the ring was full, where it falls back to
    one. *)
Theorem AUDIT_COUNT_ring (t : AuditIndexTable) :
  0 <= begidx t < maxnum t ->
  0 <= curidx t < maxnum t ->
  maxnum t < 2 ^ 32 ->
  1 <= AUDIT_COUNT t <= maxnum t /\
  AUDIT_COUNT (set_curidx (next_index t (curidx t)) t) =
    (if AUDIT_COUNT t =? maxnum t then 1 else AUDIT_COUNT t + 1).
Proof.
  intros Hb Hc Hm.
  assert (Hu : forall x, 0 <= x < 2 ^ 32 -> u32 x = x)
    by (intros x Hx; unfold u32, wrap; apply Z.mod_small; lia).
  assert (Hn : next_index t (curidx t) =
               if curidx t + 1 =? maxnum t then 0 else curidx t + 1).
  { unfold next_index. rewrite Hu by lia.
    destruct (Z.eqb_spec (curidx t + 1) (maxnum t)) as [E|E].
    - rewrite E. apply Z_mod_same_full.
    - apply Z.mod_small. lia. }
  unfold AUDIT_COUNT. cbn [begidx curidx maxnum set_curidx]. rewrite Hn.
  destruct (Z.leb_spec (begidx t) (curidx t));
    destruct (Z.eqb_spec (curidx t + 1) (maxnum t));
    rewrite ?Hu by lia;
    repeat match goal with
           | |- context [Z.leb ?a ?b] => destruct (Z.leb_spec a b)
           | |- context [Z.eqb ?a ?b] => destruct (Z.eqb_spec a b)
           end; rewrite ?Hu by lia; lia.
Qed.

(** * A record too short for its string table *)

(** X15. The query engine takes the size of a record from its header and
    does not check that the fixed part and the length word of the first
    string fit in it: for a live record of the range whose size is between
    25 and 35, the scan reads type, result or that length word outside the
    [size] bytes it has allocated and read. *)
Theorem short_record_read_outside (conv : Z -> Z) (MaxAllocSize : Z)
    (c : bytes) (pos steps : nat) (begtime endtime : Z) (rows : list Row) :
  let header := Mem.read pos (Z.to_nat sizeof_AuditMsgHdr) c in
  header_ok header = true ->
  selected conv begtime endtime header = true ->
  sizeof_AuditMsgHdr < hdr_size header < AUDIT_HEADER_SIZE + 4 ->
  hdr_size header <= MaxAllocSize ->
  (pos + Z.to_nat (hdr_size header) <= length c)%nat ->
  query_loop conv MaxAllocSize (S steps) begtime endtime c pos rows = Undefined.
Proof.
  intros header Hok Hsel Hsize Hmax Hlen.
  cbn [query_loop]. fold header.
  assert (Hh : length header = Z.to_nat sizeof_AuditMsgHdr).
  { unfold header, Mem.read. rewrite length_take, length_drop.
    unfold sizeof_AuditMsgHdr in *. lia. }
  rewrite Hh, Nat.ltb_irrefl, Hok. cbn [negb].
  unfold sizeof_AuditMsgHdr, AUDIT_HEADER_SIZE in Hsize |- *.
  destruct (Z.ltb_spec MaxAllocSize (hdr_size header)); [lia|].
  destruct (Z.ltb_spec (hdr_size header) 24); [lia|].
  set (adata := Mem.read pos (Z.to_nat (hdr_size header)) c).
  assert (Ha : length adata = Z.to_nat (hdr_size header)).
  { unfold adata, Mem.read. rewrite length_take, length_drop. lia. }
  rewrite Ha, Nat.ltb_irrefl.
  destruct (Z.eqb_spec (hdr_size header) 24); [lia|]. cbn [orb].
  rewrite Hsel.
  assert (Hrow : make_row conv adata = None).
  { unfold make_row. rewrite Ha.
    destruct (Nat.ltb_spec (Z.to_nat (hdr_size header)) (Z.to_nat AUDIT_HEADER_SIZE)); [done|].
    destruct (AuditTypeDesc _); [|done]. destruct (AuditResultDesc _); [|done].
    cbn [mbind option_bind seq mapM].
    assert (Hf : field_text adata 0 = None).
    { unfold field_text, pgaudit_string_field. cbn [string_field_loop]. rewrite Ha.
      change (Z.to_nat AUDIT_HEADER_SIZE) with 32%nat.
      destruct (Nat.ltb_spec (Z.to_nat (hdr_size header)) (32 + 4)); [done|lia]. }
    rewrite Hf. done. }
  rewrite Hrow. done.
Qed.

(** * A chunk that is not whole yet *)

Section Waiting.
Variable PIPE_BUF : option Z.
Variable pad : bytes.
Hypothesis pad_len : length pad = 4%nat.

(** X16. [process_pipe_input] takes a chunk only when all of it is in the
    buffer, and looks at the buffer only when it holds as many bytes as a
    chunk header in memory, 24: with fewer bytes than that, or fewer than
    the chunk has, nothing is consumed, saved or written.  A complete chunk
    of fewer than 24 bytes waits in the buffer in the same way. *)
Theorem incomplete_chunk_waits (fuel : nat) (env : Env) (pid : Z)
    (c : PipeProtoChunk) (rest : bytes) (count : nat) (w : World) :
  chunk_ok PIPE_BUF pid c ->
  0 < pid < 2 ^ 64 ->
  Z.of_nat count < sizeof_PipeProtoHeader \/
  Z.of_nat count < PIPE_HEADER_SIZE + p_len c ->
  process_pipe_input PIPE_BUF fuel env (chunk_image pad c ++ rest) count w =
  Some (chunk_image pad c ++ rest, count, w).
Proof.
  intros Hok Hpid Hshort. unfold process_pipe_input.
  assert (Hloop : process_pipe_loop PIPE_BUF count fuel env (chunk_image pad c ++ rest)
                    O count w = Some (chunk_image pad c ++ rest, O, count, w)).
  { destruct (Z.lt_ge_cases (Z.of_nat count) sizeof_PipeProtoHeader) as [H24|H24].
    - apply process_pipe_loop_done. exact H24.
    - destruct Hshort as [|Hshort]; [lia|].
      destruct count as [|steps]; [unfold sizeof_PipeProtoHeader in H24; lia|].
      destruct (chunk_header_parse PIPE_BUF pad pad_len [] rest c pid Hok Hpid)
        as (Hvalid & Hlen & _).
      cbn [app length Nat.add] in Hvalid, Hlen.
      cbn [process_pipe_loop].
      destruct (Z.ltb_spec (Z.of_nat (S steps)) sizeof_PipeProtoHeader); [lia|].
      rewrite Hvalid. cbn [Nat.add]. rewrite Hlen.
      destruct (Nat.ltb_spec (S steps) (Z.to_nat PIPE_HEADER_SIZE + Z.to_nat (p_len c)));
        [done|].
      destruct Hok as (_ & _ & Hl & _). unfold PIPE_HEADER_SIZE in *. lia. }
  rewrite Hloop. cbn [mbind option_bind Nat.eqb negb andb].
  rewrite andb_false_r. done.
Qed.

End Waiting.


(** * A rotation that opens a new file *)

Section RotationFile.
Variable PIPE_BUF : option Z.
Local Arguments stamp : simpl never.
Local Arguments audit_record : simpl never.
Local Arguments encode_indextbl : simpl never.
Local Arguments AUDIT_COUNT : simpl never.
Local Arguments next_index : simpl never.
Local Arguments u32 : simpl never.
Local Arguments u64 : simpl never.

Ltac world_fields :=
  cbn [audit_indextbl sysauditFile pgaudit_totalspace space_beyond_size
       next_rotation_time rotation_requested rotation_disabled buffer_lists
       pipe_out disk tick trace with_indextbl with_sysauditFile with_totalspace
       with_space_beyond with_next_rotation_time with_rotation_requested
       with_rotation_disabled with_buffer_lists with_pipe_out with_disk
       with_tick ereport emit].

(** The record a new file starts with. *)
Definition creation_record (env : Env) (curtime : Z) : bytes :=
  reported_record env AUDIT_INTERNAL_EVENT AUDIT_OK
    (Some (of_string "file")) (Some (of_string "create a new audit file")) curtime.

Lemma set_next_rotation_time_same env x :
  audit_indextbl (set_next_rotation_time env x) = audit_indextbl x /\
  disk (set_next_rotation_time env x) = disk x /\
  sysauditFile (set_next_rotation_time env x) = sysauditFile x /\
  pgaudit_totalspace (set_next_rotation_time env x) = pgaudit_totalspace x /\
  rotation_requested (set_next_rotation_time env x) = rotation_requested x.
Proof.
  unfold set_next_rotation_time. destruct (_ <=? 0); [done|]. cbn. done.
Qed.

(** X17. A rotation that opens a new file.  The size of the file closed is
    entered in its slot and added to the total space; the table moves to
    the next slot of the ring, whose file number is one more; the new name
    is created, and the new file holds one record, the internal event that
    reports its creation (nothing when auditing is off); no other file
    changes. *)
Theorem rotation_opens_new_file (fuel : nat) (env : Env) (w : World)
    (t : AuditIndexTable) (fh : nat) (time_based_rotation size_based_rotation : bool) :
  audit_indextbl w = Some t ->
  sysauditFile w = Some fh ->
  0 < maxnum t ->
  Z.of_nat (length (data t)) = maxnum t ->
  0 <= curidx t < maxnum t ->
  time_based_rotation || size_based_rotation = true ->
  fopen_errno env (u32 (filenum (item_at t (curidx t)) + 1)) = None ->
  dir (disk w) !! u32 (filenum (item_at t (curidx t)) + 1) = None ->
  am_auditor env = true ->
  last_audit_time t <= now env (if time_based_rotation then tick w else S (tick w)) ->
  let newnum := u32 (filenum (item_at t (curidx t)) + 1) in
  let slot := next_index t (curidx t) in
  let curtime := now env (if time_based_rotation then tick w else S (tick w)) in
  let newfh := length (inodes (disk w)) in
  exists w' t',
    auditfile_rotate PIPE_BUF fuel env time_based_rotation size_based_rotation w = Some w' /\
    sysauditFile w' = Some newfh /\
    dir (disk w') = <[newnum := newfh]> (dir (disk w)) /\
    inodes (disk w') =
      inodes (disk w) ++
      [if Audit_enabled (cfg env) && negb (ha_pending env)
       then creation_record env curtime else []] /\
    pgaudit_totalspace w' = u64 (pgaudit_totalspace w + u32 (ftell w fh)) /\
    audit_indextbl w' = Some t' /\
    curidx t' = slot /\
    begidx t' = begidx t /\
    filenum (item_at t' slot) = newnum /\
    count t' = AUDIT_COUNT (set_curidx slot t) /\
    rotation_requested w' = false.
Proof.
  intros Ht Hfh Hmax Hlen Hcur Hrot Hopen Hnew Ham Hclock newnum slot curtime newfh.
  pose proof (next_index_bound t (curidx t) Hmax) as Hslot. fold slot in Hslot.
  fold newnum in Hopen, Hnew.
  destruct w as [tbl fh' ts sb nrt rr rd bl po dk tk tr].
  cbn [sysauditFile audit_indextbl tick disk] in *. subst tbl fh'.
  unfold auditfile_rotate. rewrite Hrot.
  assert (Hgen : forall fntime tk',
    last_audit_time t <= now env tk' ->
    let w0 := mkWorld (Some t) (Some fh) ts sb nrt false rd bl po dk tk' tr in
    exists w' t',
      (let w := auditfile_close w0 in
       match auditfile_open env fntime true w with
       | (inl errno, w) =>
           Some (if negb (errno =? ENFILE) && negb (errno =? EMFILE)
                 then with_rotation_disabled true
                        (ereport LOG "disabling automatic rotation (use SIGHUP to re-enable)" [] w)
                 else w)
       | (inr fh, w) =>
           let w := with_sysauditFile (Some fh) w in
           w ← audit_report PIPE_BUF fuel env AUDIT_INTERNAL_EVENT AUDIT_OK
                 (Some (of_string "file"))
                 (Some (of_string "create a new audit file")) w;
           Some (set_next_rotation_time env w)
       end) = Some w' /\
      sysauditFile w' = Some (length (inodes dk)) /\
      dir (disk w') = <[newnum := length (inodes dk)]> (dir dk) /\
      inodes (disk w') =
        inodes dk ++
        [if Audit_enabled (cfg env) && negb (ha_pending env)
         then creation_record env (now env tk') else []] /\
      pgaudit_totalspace w' = u64 (ts + u32 (Z.of_nat (length (inode_content dk fh)))) /\
      audit_indextbl w' = Some t' /\
      curidx t' = slot /\
      begidx t' = begidx t /\
      filenum (item_at t' slot) = newnum /\
      count t' = AUDIT_COUNT (set_curidx slot t) /\
      rotation_requested w' = false).
  { intros fntime tk' Hclk. cbn zeta. unfold auditfile_close, auditfile_open. world_fields.
    unfold ftell. world_fields.
    set (size := u32 (Z.of_nat (length (inode_content dk fh)))).
    set (item := set_filesize size (item_at t (curidx t))).
    change (filenum item) with (filenum (item_at t (curidx t))).
    fold newnum.
    set (t1 := set_item (curidx t) item t).
    change (curidx t1) with (curidx t).
    change (next_index t1 (curidx t)) with (next_index t (curidx t)).
    fold slot.
    change (curidx (set_curidx slot t1)) with slot.
    set (t2 := set_item slot _ (set_curidx slot t1)).
    change (curidx t2) with slot.
    assert (Hl1 : length (data t1) = length (data t))
      by (unfold t1; cbn [data set_item]; by rewrite length_insert).
    assert (Hl2 : length (data t2) = length (data t)).
    { unfold t2. cbn [data set_curidx set_item]. rewrite length_insert. exact Hl1. }
    assert (Hf : filenum (item_at t2 slot) = newnum).
    { unfold t2. rewrite item_at_set_item_eq; [done|]. cbn [data set_curidx]. lia. }
    rewrite Hf, Hopen.
    rewrite bool_decide_eq_false_2 by (rewrite Hnew; apply is_Some_None).
    world_fields. change (curidx t2) with slot.
    set (t3 := set_count _ (set_item slot (set_ctime fntime (item_at t2 slot)) t2)).
    cbn [disk_create dir]. rewrite lookup_insert_eq. cbn [default from_option id].
    match goal with
    | |- context [audit_report PIPE_BUF fuel env ?a ?b ?c ?d ?x] =>
        rewrite (audit_report_plain PIPE_BUF fuel env b c d x Ham)
    end.
    2:{ unfold steady, pgaudit_update_indexfile.
        destruct (indexfile_open_fails env); cbn; intros t' [= <-]; cbn; exact Hclk. }
    cbn [mbind option_bind].
    match goal with
    | |- context [set_next_rotation_time env ?x] =>
        pose proof (set_next_rotation_time_same env x) as (N1 & N2 & N3 & N4 & N5);
        set (wr := x) in *
    end.
    assert (Ht3 : curidx t3 = slot /\ begidx t3 = begidx t /\
                  filenum (item_at t3 slot) = newnum /\
                  count t3 = AUDIT_COUNT (set_curidx slot t)).
    { unfold t3. split; [done|]. split; [done|]. split.
      - change (item_at (set_count ?c ?x) ?i) with (item_at x i).
        rewrite item_at_set_item_eq by lia. cbn [filenum set_ctime]. exact Hf.
      - cbn [count set_count]. unfold AUDIT_COUNT. done. }
    destruct Ht3 as (T1 & T2 & T3 & T4).
    assert (Hwr :
      sysauditFile wr = Some (length (inodes dk)) /\
      dir (disk wr) = <[newnum := length (inodes dk)]> (dir dk) /\
      inodes (disk wr) =
        inodes dk ++
        [if Audit_enabled (cfg env) && negb (ha_pending env)
         then creation_record env (now env tk') else []] /\
      pgaudit_totalspace wr = u64 (ts + size) /\
      (audit_indextbl wr = Some t3 \/
       audit_indextbl wr = Some (set_last_audit_time (now env tk') t3)) /\
      rotation_requested wr = false).
    { unfold wr, report_plain, pgaudit_update_indexfile.
      destruct (Audit_enabled (cfg env)), (ha_pending env), (indexfile_open_fails env);
        cbn [negb orb andb]; world_fields;
        cbn [write_plain snd disk_set_index disk_create disk_append dir inodes fmap
             option_fmap option_map]; world_fields;
        cbn [disk_set_index disk_create disk_append dir inodes];
        repeat split; auto;
        unfold creation_record, reported_record;
        rewrite alter_app_r_alt by lia; rewrite Nat.sub_diag; cbn [alter list_alter app];
        rewrite Nat2Z.id, take_ge by (rewrite stamp_length; lia); reflexivity. }
    destruct Hwr as (W1 & W2 & W3 & W4 & W5 & W6).
    destruct W5 as [W5|W5].
    - exists (set_next_rotation_time env wr), t3.
      rewrite N1, N2, N3, N4, N5. repeat split; done.
    - exists (set_next_rotation_time env wr), (set_last_audit_time (now env tk') t3).
      rewrite N1, N2, N3, N4, N5. repeat split; done. }
  destruct time_based_rotation; cbn [time_NULL]; world_fields.
  - apply (Hgen nrt tk Hclock).
  - apply (Hgen (now env tk) (S tk) Hclock).
Qed.

End RotationFile.


(** * Further instances *)

Lemma sample_steady (content : bytes) : steady sample_env (one_file_world content).
Proof.
  intros t Ht. change (Some one_file_tbl = Some t) in Ht. injection Ht as <-.
  vm_compute. discriminate.
Qed.

Lemma one_file_tbl_in_range : indextbl_in_range one_file_tbl.
Proof.
  unfold indextbl_in_range, one_file_tbl. cbn [maxnum begidx curidx count last_audit_time data].
  repeat split; try lia; try reflexivity.
  repeat constructor; cbn; lia.
Qed.

Lemma indexfile_roundtrip_witness :
  indextbl_in_range one_file_tbl /\
  pgaudit_read_indexfile false
    (disk (pgaudit_update_indexfile sample_env PG_BINARY_W true (one_file_world record_a)))
  = Some one_file_tbl.
Proof.
  split; [exact one_file_tbl_in_range|].
  exact (indexfile_roundtrip sample_env true (one_file_world record_a) one_file_tbl
           eq_refl one_file_tbl_in_range eq_refl).
Defined.

Lemma sample_fields_ok :
  Forall c_field
    (record_fields sample_env (Some (of_string "file")) (Some (of_string "started"))).
Proof. vm_compute. repeat constructor. Qed.

Lemma reported_record_row_witness :
  let r := reported_record sample_env AUDIT_INTERNAL_EVENT AUDIT_OK
             (Some (of_string "file")) (Some (of_string "started")) 1000 in
  record_wf sample_MaxAllocSize r = true /\
  hdr_time r = 1000 /\
  hdr_flags r = AUDIT_TUPLE_NORMAL /\
  exists ty res,
    AuditTypeDesc AUDIT_INTERNAL_EVENT = Some ty /\ AuditResultDesc AUDIT_OK = Some res /\
    make_row sample_conv r =
      Some (mkRow (sample_conv 1000) ty res
              (map (default null_text)
                 (record_fields sample_env (Some (of_string "file"))
                    (Some (of_string "started"))))).
Proof.
  apply (reported_record_row sample_conv sample_MaxAllocSize sample_env AUDIT_INTERNAL_EVENT
           AUDIT_OK (Some (of_string "file")) (Some (of_string "started")) 1000).
  - exact sample_fields_ok.
  - vm_compute. reflexivity.
  - vm_compute. discriminate.
  - lia.
  - unfold AUDIT_INTERNAL_EVENT. lia.
  - unfold AUDIT_OK. lia.
Defined.

Lemma sample_records_wf :
  Forall (fun r => record_wf sample_MaxAllocSize r = true) [record_a; record_b].
Proof. repeat constructor; vm_compute; reflexivity. Qed.

Lemma report_then_query_witness :
  exists w' rows ty res,
    audit_report (Some 512) 1 sample_env AUDIT_INTERNAL_EVENT AUDIT_OK
      (Some (of_string "file")) (Some (of_string "started"))
      (one_file_world (record_a ++ record_b)) = Some w' /\
    file_content (disk w') 5 =
      Some (concat [record_a; record_b] ++
            reported_record sample_env AUDIT_INTERNAL_EVENT AUDIT_OK
              (Some (of_string "file")) (Some (of_string "started")) 1000) /\
    pgaudit_query_file sample_conv sample_MaxAllocSize
      (disk (one_file_world (record_a ++ record_b))) 5
      (sample_conv 1000) (sample_conv 1001) [] = Done rows /\
    AuditTypeDesc AUDIT_INTERNAL_EVENT = Some ty /\ AuditResultDesc AUDIT_OK = Some res /\
    pgaudit_query_file sample_conv sample_MaxAllocSize (disk w') 5
      (sample_conv 1000) (sample_conv 1001) [] =
      Done (rows ++
            if (sample_conv 1000 <=? sample_conv 1000) && (sample_conv 1000 <? sample_conv 1001)
            then [mkRow (sample_conv 1000) ty res
                    (map (default null_text)
                       (record_fields sample_env (Some (of_string "file"))
                          (Some (of_string "started"))))]
            else []).
Proof.
  apply (report_then_query (Some 512) sample_conv sample_MaxAllocSize 1 sample_env
           (one_file_world (record_a ++ record_b)) O 5 [record_a; record_b]
           AUDIT_INTERNAL_EVENT AUDIT_OK (Some (of_string "file"))
           (Some (of_string "started")) (sample_conv 1000) (sample_conv 1001)).
  - reflexivity.
  - reflexivity.
  - reflexivity.
  - reflexivity.
  - reflexivity.
  - reflexivity.
  - vm_compute. reflexivity.
  - exact sample_records_wf.
  - apply sample_steady.
  - exact sample_fields_ok.
  - vm_compute. reflexivity.
  - vm_compute. discriminate.
  - vm_compute. split; [discriminate|reflexivity].
  - unfold AUDIT_INTERNAL_EVENT. lia.
  - unfold AUDIT_OK. lia.
Defined.

Lemma delete_then_query_witness :
  exists d' rows,
    pgaudit_delete_file sample_conv 3 [] sample_disk 5 (sample_conv 1000) (sample_conv 1001)
      = Some d' /\
    pgaudit_query_file sample_conv sample_MaxAllocSize d' 5 (sample_conv 0) (sample_conv 3000) []
      = Done rows /\
    Forall2 (fun r row => make_row sample_conv r = Some row)
      (List.filter
         (fun r => selected sample_conv (sample_conv 0) (sample_conv 3000) r &&
                   negb (selected sample_conv (sample_conv 1000) (sample_conv 1001) r))
         [record_a; record_b]) rows /\
    pgaudit_query_file sample_conv sample_MaxAllocSize d' 5
      (sample_conv 1000) (sample_conv 1001) [] = Done [].
Proof.
  apply (delete_then_query sample_conv sample_MaxAllocSize sample_disk 5 [record_a; record_b]
           (sample_conv 1000) (sample_conv 1001) (sample_conv 0) (sample_conv 3000) 3 []).
  - vm_compute. reflexivity.
  - exact sample_records_wf.
  - cbn. lia.
Defined.

Lemma next_rotation_time_aligned_witness :
  now sample_env (tick (one_file_world [])) <
    next_rotation_time (set_next_rotation_time sample_env (one_file_world [])) /\
  Z.rem (next_rotation_time (set_next_rotation_time sample_env (one_file_world [])) +
         gmtoff sample_env (now sample_env (tick (one_file_world []))))
    (Audit_RotationAge (cfg sample_env) * SECS_PER_MINUTE) = 0 /\
  (0 <= now sample_env (tick (one_file_world [])) +
        gmtoff sample_env (now sample_env (tick (one_file_world []))) ->
   next_rotation_time (set_next_rotation_time sample_env (one_file_world [])) <=
   now sample_env (tick (one_file_world [])) +
   Audit_RotationAge (cfg sample_env) * SECS_PER_MINUTE) /\
  tick (set_next_rotation_time sample_env (one_file_world [])) = S (tick (one_file_world [])).
Proof.
  apply (next_rotation_time_aligned sample_env (one_file_world [])).
  - vm_compute. reflexivity.
  - vm_compute. reflexivity.
Defined.

Lemma sample_conv_mono (a b : Z) : a <= b -> sample_conv a <= sample_conv b.
Proof. unfold sample_conv. lia. Qed.

Lemma check_system_complete_witness :
  sample_conv 100000 <= sample_conv 120000 < sample_conv 130000 /\
  pgaudit_check_system sample_conv (sample_conv 100000) (sample_conv 130000) 0 three_file_tbl
  = true.
Proof.
  assert (H1 : sample_conv 100000 <= sample_conv 120000 < sample_conv 130000)
    by (unfold sample_conv; lia).
  assert (H2 : ctime (item_at three_file_tbl 0) <= 120000) by (vm_compute; discriminate).
  assert (H3 : 0 <> curidx three_file_tbl ->
               0 < ctime (item_at three_file_tbl (next_index three_file_tbl 0)) ->
               120000 <= ctime (item_at three_file_tbl (next_index three_file_tbl 0)))
    by (intros _ _; vm_compute; discriminate).
  exact (conj H1 (check_system_complete sample_conv three_file_tbl 0 (sample_conv 100000)
                    (sample_conv 130000) 120000 sample_conv_mono H1 H2 H3)).
Defined.

(** A collector whose [fopen] fails with ENFILE: the system's table of
    open files is full. *)
Definition closed_dir_env : Env :=
  mkEnv sample_cfg (fun n => 1000 + Z.of_nat n) (fun _ => 0) false true true 77
    None (Some (of_string "dn1")) (fun _ => true) (fun _ => Some ENFILE) (fun _ => false)
    false 0.

Lemma rotate_open_failure_witness :
  exists w' t',
    auditfile_rotate (Some 512) 1 closed_dir_env false true (one_file_world record_a)
      = Some w' /\
    sysauditFile w' = None /\
    audit_indextbl w' = Some t' /\
    curidx t' = next_index one_file_tbl (curidx one_file_tbl) /\
    filesize (item_at t' (curidx one_file_tbl)) = u32 (ftell (one_file_world record_a) O) /\
    next_rotation_time w' = next_rotation_time (one_file_world record_a) /\
    rotation_disabled w' = true /\
    (forall fuel' buffer count,
       pgaudit_write_file (Some 512) fuel' closed_dir_env buffer count w' = Some (buffer, w')).
Proof.
  apply (rotate_open_failure (Some 512) 1 closed_dir_env (one_file_world record_a)
           one_file_tbl O false true ENFILE).
  - reflexivity.
  - reflexivity.
  - vm_compute. reflexivity.
  - reflexivity.
  - vm_compute. split; [discriminate|reflexivity].
  - reflexivity.
  - reflexivity.
Defined.

(** A collector that cannot unlink, with a clock past the last record. *)
Definition stuck_env : Env :=
  mkEnv sample_cfg (fun n => 200000 + Z.of_nat n) (fun _ => 0) false true true 77
    None (Some (of_string "dn1")) (fun _ => true) (fun _ => None) (fun _ => true) false 0.

Lemma cleanup_unlink_failure_witness :
  cleanup_cond stuck_env (open_file_size three_file_world) three_file_world three_file_tbl
    = true /\
  pgaudit_cleanup (Some 512) 1 stuck_env three_file_world =
  Some (ereport WARNING "could not remove audit file" [] three_file_world).
Proof.
  assert (H1 : cleanup_cond stuck_env (open_file_size three_file_world) three_file_world
                 three_file_tbl = true) by (vm_compute; reflexivity).
  assert (H2 : Audit_CleanupPolicy (cfg stuck_env) <> 0) by (vm_compute; discriminate).
  assert (H3 : is_Some (dir (disk three_file_world)
                          !! filenum (item_at three_file_tbl (begidx three_file_tbl))))
    by (vm_compute; eexists; reflexivity).
  exact (conj H1 (cleanup_unlink_failure (Some 512) O stuck_env three_file_world
                    three_file_tbl eq_refl H1 H2 H3 eq_refl)).
Defined.

(** The same collector when [unlink] works. *)
Definition count_env : Env :=
  mkEnv sample_cfg (fun n => 200000 + Z.of_nat n) (fun _ => 0) false true true 77
    None (Some (of_string "dn1")) (fun _ => true) (fun _ => None) (fun _ => false) false 0.

Lemma cleanup_one_too_many_witness :
  count three_file_tbl = Audit_RemainThreshold (cfg count_env) + 1 /\
  exists w' t',
    pgaudit_cleanup (Some 512) 2 count_env three_file_world = Some w' /\
    dir (disk w') =
      delete (filenum (item_at three_file_tbl (begidx three_file_tbl)))
        (dir (disk three_file_world)) /\
    audit_indextbl w' = Some t' /\
    data t' = <[Z.to_nat (begidx three_file_tbl) := zero_item]> (data three_file_tbl) /\
    begidx t' = next_index three_file_tbl (begidx three_file_tbl) /\
    curidx t' = curidx three_file_tbl /\
    count t' = Audit_RemainThreshold (cfg count_env) /\
    pgaudit_totalspace w' =
      pgaudit_totalspace three_file_world -
      filesize (item_at three_file_tbl (begidx three_file_tbl)).
Proof.
  assert (H1 : count three_file_tbl = Audit_RemainThreshold (cfg count_env) + 1) by reflexivity.
  split; [exact H1|].
  apply (cleanup_one_too_many (Some 512) O count_env three_file_world three_file_tbl).
  - reflexivity.
  - vm_compute. split; [discriminate|reflexivity].
  - exact H1.
  - vm_compute. split; discriminate.
  - vm_compute. discriminate.
  - vm_compute. reflexivity.
  - reflexivity.
  - reflexivity.
  - vm_compute. discriminate.
Defined.

(** A message of two chunks: 600 bytes with [PIPE_BUF] at 512. *)
Definition long_message : bytes := replicate 600 65.

Definition zero_pad : bytes := [0; 0; 0; 0].

Lemma pipe_roundtrip_witness :
  sizeof_PipeProtoHeader <= PIPE_CHUNK_SIZE (Some 512) /\
  7 <= (Z.of_nat (length long_message) - 1) mod PIPE_MAX_PAYLOAD (Some 512) + 1 /\
  exists chunks m' w',
    write_pipe_chunks (Some 512) 77 long_message = Some chunks /\
    process_pipe_input (Some 512) 1 sample_env
      (concat (map (chunk_image zero_pad) chunks) ++ [])
      (length (concat (map (chunk_image zero_pad) chunks))) (one_file_world record_a)
      = Some (m', O, w') /\
    inode_content (disk w') O =
      inode_content (disk (one_file_world record_a)) O ++
      stamp (now sample_env (tick (one_file_world record_a)))
        (Z.of_nat (length long_message)) long_message /\
    dir (disk w') = dir (disk (one_file_world record_a)) /\
    Forall (fun b => sb_pid b <> 77)
      (default [] (buffer_lists w' !! (77 mod NBUFFER_LISTS))).
Proof.
  assert (H1 : sizeof_PipeProtoHeader <= PIPE_CHUNK_SIZE (Some 512))
    by (vm_compute; discriminate).
  assert (H2 : 7 <= (Z.of_nat (length long_message) - 1) mod PIPE_MAX_PAYLOAD (Some 512) + 1)
    by (vm_compute; discriminate).
  assert (H3 : 0 < 77 < 2 ^ 64) by lia.
  assert (H4 : (0 < length long_message)%nat) by (vm_compute; lia).
  assert (H5 : Forall (fun b => sb_pid b <> 77)
                 (default [] (buffer_lists (one_file_world record_a) !! (77 mod NBUFFER_LISTS))))
    by (vm_compute; constructor).
  assert (H6 : is_Some (inodes (disk (one_file_world record_a)) !! O))
    by (eexists; reflexivity).
  exact (conj H1 (conj H2
           (pipe_roundtrip (Some 512) zero_pad eq_refl H1 sample_env 1 77 H3 long_message []
              (one_file_world record_a) O H4 H2 H5 eq_refl H6 (sample_steady record_a)))).
Defined.



Lemma write_path_only_appends_witness :
  (steady sample_env (one_file_world record_a) ->
   exists r, pgaudit_write_file (Some 512) 1 sample_env record_b 40 (one_file_world record_a)
             = Some r) /\
  (forall b' w',
     pgaudit_write_file (Some 512) 1 sample_env record_b 40 (one_file_world record_a)
       = Some (b', w') ->
     b' = stamp (now sample_env (tick (one_file_world record_a))) 40 record_b /\
     sysauditFile w' = Some O /\
     dir (disk w') = dir (disk (one_file_world record_a)) /\
     (forall ino, ino <> O ->
        inodes (disk w') !! ino = inodes (disk (one_file_world record_a)) !! ino) /\
     (exists extra,
        inode_content (disk w') O =
        inode_content (disk (one_file_world record_a)) O ++ extra) /\
     (exists before, inode_content (disk w') O = before ++ take (Z.to_nat 40) b')).
Proof.
  apply (write_path_only_appends (Some 512) 1 sample_env record_b 40
           (one_file_world record_a) O).
  - reflexivity.
  - eexists. reflexivity.
Defined.

Lemma AUDIT_COUNT_ring_witness :
  1 <= AUDIT_COUNT three_file_tbl <= maxnum three_file_tbl /\
  AUDIT_COUNT (set_curidx (next_index three_file_tbl (curidx three_file_tbl)) three_file_tbl) =
    (if AUDIT_COUNT three_file_tbl =? maxnum three_file_tbl
     then 1 else AUDIT_COUNT three_file_tbl + 1).
Proof.
  apply (AUDIT_COUNT_ring three_file_tbl).
  - vm_compute. split; [discriminate|reflexivity].
  - vm_compute. split; [discriminate|reflexivity].
  - vm_compute. reflexivity.
Defined.

(** Thirty bytes with the header of a live record of size 30. *)
Definition short_record : bytes :=
  [65; 85; 0; 0; 13; 0; 1; 0] ++ le_bytes 8 1000 ++ le_bytes 4 30 ++
  [0; 0; 0; 0; 0; 0; 0; 0; 0; 0].

Lemma short_record_read_outside_witness :
  header_ok (Mem.read 0 (Z.to_nat sizeof_AuditMsgHdr) short_record) = true /\
  hdr_size (Mem.read 0 (Z.to_nat sizeof_AuditMsgHdr) short_record) = 30 /\
  query_loop sample_conv sample_MaxAllocSize 1 (sample_conv 1000) (sample_conv 1001)
    short_record 0 [] = Undefined.
Proof.
  assert (H1 : header_ok (Mem.read 0 (Z.to_nat sizeof_AuditMsgHdr) short_record) = true)
    by (vm_compute; reflexivity).
  assert (H2 : hdr_size (Mem.read 0 (Z.to_nat sizeof_AuditMsgHdr) short_record) = 30)
    by (vm_compute; reflexivity).
  assert (H3 : selected sample_conv (sample_conv 1000) (sample_conv 1001)
                 (Mem.read 0 (Z.to_nat sizeof_AuditMsgHdr) short_record) = true)
    by (vm_compute; reflexivity).
  assert (H4 : sizeof_AuditMsgHdr <
               hdr_size (Mem.read 0 (Z.to_nat sizeof_AuditMsgHdr) short_record) <
               AUDIT_HEADER_SIZE + 4) by (rewrite H2; vm_compute; split; reflexivity).
  assert (H5 : hdr_size (Mem.read 0 (Z.to_nat sizeof_AuditMsgHdr) short_record)
               <= sample_MaxAllocSize) by (rewrite H2; vm_compute; discriminate).
  assert (H6 : (0 + Z.to_nat (hdr_size (Mem.read 0 (Z.to_nat sizeof_AuditMsgHdr) short_record))
                <= length short_record)%nat) by (rewrite H2; vm_compute; lia).
  exact (conj H1 (conj H2
           (short_record_read_outside sample_conv sample_MaxAllocSize short_record 0 0
              (sample_conv 1000) (sample_conv 1001) [] H1 H3 H4 H5 H6))).
Defined.

(** A chunk of 100 bytes of which 50 have arrived. *)
Definition half_chunk : PipeProtoChunk := mkChunk 0 0 100 77 char_t (replicate 100 65).

Lemma incomplete_chunk_waits_witness :
  chunk_ok (Some 512) 77 half_chunk /\
  process_pipe_input (Some 512) 1 sample_env (chunk_image zero_pad half_chunk ++ []) 50
    (one_file_world record_a) =
  Some (chunk_image zero_pad half_chunk ++ [], 50%nat, one_file_world record_a).
Proof.
  assert (H1 : chunk_ok (Some 512) 77 half_chunk).
  { unfold chunk_ok. vm_compute. repeat split; try discriminate. left. reflexivity. }
  assert (H2 : 0 < 77 < 2 ^ 64) by lia.
  assert (H3 : Z.of_nat 50 < sizeof_PipeProtoHeader \/
               Z.of_nat 50 < PIPE_HEADER_SIZE + p_len half_chunk)
    by (right; vm_compute; reflexivity).
  exact (conj H1 (incomplete_chunk_waits (Some 512) zero_pad eq_refl 1 sample_env 77 half_chunk
                    [] 50 (one_file_world record_a) H1 H2 H3)).
Defined.

Lemma rotation_opens_new_file_witness :
  exists w' t',
    auditfile_rotate (Some 512) 1 late_env true false (one_file_world record_a) = Some w' /\
    sysauditFile w' = Some (length (inodes (disk (one_file_world record_a)))) /\
    dir (disk w') =
      <[u32 (filenum (item_at one_file_tbl (curidx one_file_tbl)) + 1) :=
          length (inodes (disk (one_file_world record_a)))]>
        (dir (disk (one_file_world record_a))) /\
    inodes (disk w') =
      inodes (disk (one_file_world record_a)) ++
      [if Audit_enabled (cfg late_env) && negb (ha_pending late_env)
       then creation_record late_env (now late_env (tick (one_file_world record_a)))
       else []] /\
    pgaudit_totalspace w' =
      u64 (pgaudit_totalspace (one_file_world record_a) +
           u32 (ftell (one_file_world record_a) O)) /\
    audit_indextbl w' = Some t' /\
    curidx t' = next_index one_file_tbl (curidx one_file_tbl) /\
    begidx t' = begidx one_file_tbl /\
    filenum (item_at t' (next_index one_file_tbl (curidx one_file_tbl))) =
      u32 (filenum (item_at one_file_tbl (curidx one_file_tbl)) + 1) /\
    count t' =
      AUDIT_COUNT (set_curidx (next_index one_file_tbl (curidx one_file_tbl)) one_file_tbl) /\
    rotation_requested w' = false.
Proof.
  apply (rotation_opens_new_file (Some 512) 1 late_env (one_file_world record_a)
           one_file_tbl O true false).
  - reflexivity.
  - reflexivity.
  - vm_compute. reflexivity.
  - reflexivity.
  - vm_compute. split; [discriminate|reflexivity].
  - reflexivity.
  - reflexivity.
  - vm_compute. reflexivity.
  - reflexivity.
  - vm_compute. discriminate.
Defined.


(** * The walk over the ring of slots *)

(** The slots a walk from [index] visits: on to the next until [curidx] has
    been visited, [n] slots at most. *)
Fixpoint ring (n : nat) (t : AuditIndexTable) (index : Z) : list Z :=
  match n with
  | O => []
  | S n' => index :: if index =? curidx t then [] else ring n' t (next_index t index)
  end.

(** How many slots lie between [index] and [curidx], going round. *)
Definition ring_distance (t : AuditIndexTable) (index : Z) : Z :=
  (curidx t - index) mod maxnum t.

Lemma ring_distance_next (t : AuditIndexTable) (index : Z) :
  0 <= index < maxnum t -> 0 <= curidx t < maxnum t -> maxnum t < 2 ^ 32 ->
  index <> curidx t ->
  0 <= next_index t index < maxnum t /\
  ring_distance t (next_index t index) = ring_distance t index - 1 /\
  0 < ring_distance t index.
Proof.
  intros Hi Hc Hm Hne. unfold ring_distance, next_index, u32, wrap.
  rewrite (Z.mod_small (index + 1)) by lia.
  assert (Hshift : forall x, - maxnum t <= x < 0 -> x mod maxnum t = x + maxnum t).
  { intros x Hx. symmetry. apply (Z.mod_unique_pos _ _ (-1)); lia. }
  destruct (Z.eq_dec (index + 1) (maxnum t)) as [E|E].
  - rewrite E, Z_mod_same_full, Z.sub_0_r, (Z.mod_small (curidx t)) by lia.
    rewrite Hshift by lia. lia.
  - rewrite (Z.mod_small (index + 1)) by lia.
    destruct (Z.lt_ge_cases index (curidx t)).
    + rewrite !Z.mod_small by lia. lia.
    + rewrite !Hshift by lia. lia.
Qed.

Lemma ring_distance_range (t : AuditIndexTable) (index : Z) :
  0 < maxnum t -> 0 <= ring_distance t index < maxnum t.
Proof. intros H. unfold ring_distance. apply Z.mod_pos_bound. done. Qed.

Lemma ring_shape (t : AuditIndexTable) :
  0 <= curidx t < maxnum t -> maxnum t < 2 ^ 32 ->
  forall (n : nat) (index : Z),
    0 <= index < maxnum t -> ring_distance t index < Z.of_nat n ->
    last (ring n t index) = Some (curidx t) /\
    Z.of_nat (length (ring n t index)) = ring_distance t index + 1.
Proof.
  intros Hc Hm. induction n as [|n IH]; intros index Hi Hd.
  { pose proof (ring_distance_range t index ltac:(lia)). lia. }
  cbn [ring]. destruct (Z.eqb_spec index (curidx t)) as [E|E].
  - subst index. split; [done|]. unfold ring_distance.
    rewrite Z.sub_diag, Z.mod_0_l by lia. done.
  - destruct (ring_distance_next t index Hi Hc Hm E) as (Hn & Hdn & _).
    destruct (IH (next_index t index) Hn ltac:(lia)) as [Hlast Hlen].
    split.
    + rewrite last_cons, Hlast. done.
    + cbn [length]. lia.
Qed.

Lemma ring_distance_AUDIT_COUNT (t : AuditIndexTable) :
  0 <= begidx t < maxnum t -> 0 <= curidx t < maxnum t -> maxnum t < 2 ^ 32 ->
  ring_distance t (begidx t) + 1 = AUDIT_COUNT t.
Proof.
  intros Hb Hc Hm. unfold ring_distance, AUDIT_COUNT, u32, wrap.
  destruct (Z.leb_spec (begidx t) (curidx t)).
  - rewrite !Z.mod_small by lia. lia.
  - rewrite (Z.mod_small (_ + _ + _ - _)) by lia.
    rewrite <- (Z.mod_unique_pos (curidx t - begidx t) (maxnum t) (-1)
                  (curidx t - begidx t + maxnum t)) by lia.
    lia.
Qed.

Section RingWalk.
Variable conv : Z -> Z.
Variable MaxAllocSize : Z.
Variables begtime endtime : Z.

(** A scan adds its rows to those it is given. *)
Lemma query_loop_acc (c : bytes) (steps : nat) : forall pos rows0,
  query_loop conv MaxAllocSize steps begtime endtime c pos rows0 =
  match query_loop conv MaxAllocSize steps begtime endtime c pos [] with
  | Done r => Done (rows0 ++ r)
  | Raised msg => Raised msg
  | Undefined => Undefined
  | OutOfFuel => OutOfFuel
  end.
Proof.
  induction steps as [|steps IH]; intros pos rows0; cbn [query_loop]; [done|].
  destruct (_ <? _)%nat; [by rewrite app_nil_r|].
  destruct (negb _); [by rewrite app_nil_r|].
  destruct (_ <? _); [done|]. destruct (_ <? _); [done|].
  destruct (_ || _); [by rewrite app_nil_r|].
  destruct (selected _ _ _ _).
  - destruct (make_row _ _) as [row|]; [|done].
    rewrite (IH _ (rows0 ++ [row])), (IH _ ([] ++ [row])).
    destruct (query_loop _ _ _ _ _ _ _ []); try done.
    cbn [app]. by rewrite <- app_assoc.
  - apply IH.
Qed.

(** The rows of one file. *)
Definition file_rows (d : Disk) (fnum : Z) : Outcome (list Row) :=
  pgaudit_query_file conv MaxAllocSize d fnum begtime endtime [].

Definition rows_of (o : Outcome (list Row)) : list Row :=
  match o with Done r => r | _ => [] end.

Lemma pgaudit_query_file_acc (d : Disk) (fnum : Z) (rows0 : list Row) :
  pgaudit_query_file conv MaxAllocSize d fnum begtime endtime rows0 =
  match file_rows d fnum with
  | Done r => Done (rows0 ++ r)
  | Raised msg => Raised msg
  | Undefined => Undefined
  | OutOfFuel => OutOfFuel
  end.
Proof.
  unfold file_rows, pgaudit_query_file. destruct (file_content d fnum) as [c|].
  - unfold scan_file. apply query_loop_acc.
  - by rewrite app_nil_r.
Qed.

(** The slots of a walk whose files are opened. *)
Definition visited (n : nat) (t : AuditIndexTable) (index : Z) : list Z :=
  List.filter (fun i => pgaudit_check_system conv begtime endtime i t) (ring n t index).

Lemma query_slots_ring (d : Disk) (t : AuditIndexTable) :
  0 <= curidx t < maxnum t -> maxnum t < 2 ^ 32 ->
  forall (n : nat) (index : Z) rows opened,
    0 <= index < maxnum t ->
    ring_distance t index < Z.of_nat n ->
    Forall (fun i => exists r, file_rows d (filenum (item_at t i)) = Done r)
      (visited n t index) ->
    query_slots conv MaxAllocSize n d t begtime endtime index rows opened =
    Done (rows ++ concat (map (fun i => rows_of (file_rows d (filenum (item_at t i))))
                            (visited n t index)),
          opened ++ map (fun i => filenum (item_at t i)) (visited n t index)).
Proof.
  intros Hc Hm. induction n as [|n IH]; intros index rows opened Hi Hd Hfiles.
  { pose proof (ring_distance_range t index ltac:(lia)). lia. }
  cbn [query_slots]. unfold visited in *. cbn [ring List.filter] in *.
  destruct (pgaudit_check_system conv begtime endtime index t) eqn:Echeck.
  - apply Forall_cons in Hfiles as [[r Hr] Hrest].
    rewrite pgaudit_query_file_acc, Hr.
    destruct (Z.eqb_spec index (curidx t)) as [E|E].
    + cbn [List.filter map concat]. rewrite Hr. cbn [rows_of].
      rewrite !app_nil_r. done.
    + destruct (ring_distance_next t index Hi Hc Hm E) as (Hn & Hdn & _).
      rewrite IH by (done || lia).
      cbn [map concat]. rewrite Hr. cbn [rows_of]. rewrite <- !app_assoc. done.
  - destruct (Z.eqb_spec index (curidx t)) as [E|E].
    + cbn [List.filter map concat]. rewrite !app_nil_r. done.
    + destruct (ring_distance_next t index Hi Hc Hm E) as (Hn & Hdn & _).
      rewrite IH by (done || lia). done.
Qed.

End RingWalk.

Section QueryRing.
Variable conv : Z -> Z.
Variable MaxAllocSize : Z.

(** X18. [pg_query_audit] walks the ring once.  With an index file that
    decodes to a table whose cursors lie below [maxnum], a non-empty
    interval and a table that counts at least one file, the function
    visits the slots from [begidx] round to [curidx] and then ends, within
    [maxnum] turns: the files it opens are those of the visited slots that
    [pgaudit_check_system] lets through, in ring order, and its result is
    the rows of these files, one file after the other, provided each scan
    ends normally. *)
Theorem query_walks_ring (fuel : nat) (ctx : CallCtx) (d : Disk)
    (t : AuditIndexTable) (begtime endtime : Z) :
  has_auditadmin_privilege ctx = true -> rsinfo_is_set ctx = true ->
  materialize_allowed ctx = true -> result_is_composite ctx = true ->
  natts ctx = PGAUDIT_QUERY_COLS ->
  pgaudit_read_indexfile false d = Some t ->
  0 <= begidx t < maxnum t -> 0 <= curidx t < maxnum t -> maxnum t < 2 ^ 32 ->
  begtime < endtime -> 0 < count t ->
  maxnum t <= Z.of_nat fuel ->
  let slots := visited conv begtime endtime fuel t (begidx t) in
  Forall (fun i => exists r,
            file_rows conv MaxAllocSize begtime endtime d (filenum (item_at t i)) = Done r)
         slots ->
  last (ring fuel t (begidx t)) = Some (curidx t) /\
  Z.of_nat (length (ring fuel t (begidx t))) = AUDIT_COUNT t /\
  pg_query_audit conv MaxAllocSize fuel ctx false d begtime endtime =
  Done (concat (map (fun i => rows_of (file_rows conv MaxAllocSize begtime endtime d
                                         (filenum (item_at t i)))) slots),
        map (fun i => filenum (item_at t i)) slots).
Proof.
  intros Hpriv Hrs Hmat Hcomp Hnatts Hread Hb Hc Hm Hlt Hcount Hfuel slots Hfiles.
  pose proof (ring_distance_range t (begidx t) ltac:(lia)) as Hdist.
  destruct (ring_shape t Hc Hm fuel (begidx t) Hb ltac:(lia)) as [Hlast Hlen].
  split; [done|]. split.
  { rewrite Hlen. by apply ring_distance_AUDIT_COUNT. }
  unfold pg_query_audit.
  rewrite Hpriv, Hrs, Hmat, Hcomp, Hnatts, Z.eqb_refl, Hread. cbn [negb].
  rewrite (proj2 (Z.ltb_lt _ _) Hlt), (proj2 (Z.ltb_lt _ _) Hcount). cbn [andb].
  rewrite (query_slots_ring conv MaxAllocSize begtime endtime d t Hc Hm)
    by (done || lia).
  done.
Qed.
End QueryRing.


(** * Flushing the collector's buffers *)

Section Flush.
Variable PIPE_BUF : option Z.
Local Arguments stamp : simpl never.

(** The [foreach] of [flush_pipe_input] over one list: a buffer in use is
    written and marked unused. *)
Fixpoint flush_list (fuel : nat) (env : Env) (l : list save_buffer) (w : World)
    : option (list save_buffer * World) :=
  match l with
  | [] => Some ([], w)
  | buf :: rest =>
      r ← (if negb (sb_pid buf =? 0) then
             r ← pgaudit_write_file PIPE_BUF fuel env (sb_data buf)
                   (Z.of_nat (length (sb_data buf))) w;
             Some (mkSave 0 [], r.2)
           else Some (buf, w));
      r' ← flush_list fuel env rest r.2;
      Some (r.1 :: r'.1, r'.2)
  end.

(** The [for] over the lists [i], [i + 1], ..., [n] of them. *)
Fixpoint flush_lists (fuel : nat) (env : Env) (n : nat) (i : Z) (w : World)
    : option World :=
  match n with
  | O => Some w
  | S n' =>
      w ← match buffer_lists w !! i with
          | None => Some w
          | Some l =>
              r ← flush_list fuel env l w;
              Some (with_buffer_lists (<[i := r.1]> (buffer_lists r.2)) r.2)
          end;
      flush_lists fuel env n' (i + 1) w
  end.

(** [flush_pipe_input (auditbuffer, &bytes_in_auditbuffer)]. *)
Definition flush_pipe_input (fuel : nat) (env : Env) (auditbuffer : bytes)
    (bytes_in_auditbuffer : nat) (w : World) : option (bytes * nat * World) :=
  w ← flush_lists fuel env (Z.to_nat NBUFFER_LISTS) 0 w;
  r ← (if (0 <? bytes_in_auditbuffer)%nat
       then pgaudit_write_file PIPE_BUF fuel env auditbuffer
              (Z.of_nat bytes_in_auditbuffer) w
       else Some (auditbuffer, w));
  Some (r.1, O, r.2).

(** The data of the buffers of a list that are in use. *)
Definition in_use (l : list save_buffer) : list bytes :=
  map sb_data (List.filter (fun b => negb (sb_pid b =? 0)) l).

(** The data held in the lists [i], [i + 1], ..., list by list. *)
Fixpoint held (bl : gmap Z (list save_buffer)) (n : nat) (i : Z) : list bytes :=
  match n with
  | O => []
  | S n' => in_use (default [] (bl !! i)) ++ held bl n' (i + 1)
  end.

(** Pieces of data written one after the other, each with the time of its
    write and its length in its header. *)
Fixpoint stamped (env : Env) (tk : nat) (msgs : list bytes) : bytes :=
  match msgs with
  | [] => []
  | m :: rest =>
      stamp (now env tk) (Z.of_nat (length m)) m ++ stamped env (S tk) rest
  end.

Definition released (b : save_buffer) : save_buffer :=
  if negb (sb_pid b =? 0) then mkSave 0 [] else b.

Lemma stamped_app env tk a b :
  stamped env tk (a ++ b) = stamped env tk a ++ stamped env (tk + length a) b.
Proof.
  revert tk. induction a as [|m a IH]; intros tk; cbn [app stamped length].
  - by rewrite Nat.add_0_r.
  - rewrite IH, <- app_assoc. do 3 f_equal. lia.
Qed.

Lemma held_ext bl bl' n : forall i,
  (forall k, i <= k -> bl !! k = bl' !! k) -> held bl n i = held bl' n i.
Proof.
  induction n as [|n IH]; intros i H; cbn [held]; [done|].
  rewrite (H i) by lia. f_equal. apply IH. intros k Hk. apply H. lia.
Qed.

Variable env : Env.
Variable fuel : nat.
Variable fh : nat.

(** The clock does not go back from the reading [tk] on. *)
Definition clock_monotone (tk : nat) : Prop :=
  forall n, (tk <= n)%nat -> now env n <= now env (S n).

(** What a run of writes keeps and what it adds. *)
Definition wrote (w w' : World) (msgs : list bytes) : Prop :=
  sysauditFile w' = Some fh /\
  is_Some (inodes (disk w') !! fh) /\
  steady env w' /\
  tick w' = (tick w + length msgs)%nat /\
  buffer_lists w' = buffer_lists w /\
  dir (disk w') = dir (disk w) /\
  inode_content (disk w') fh = inode_content (disk w) fh ++ stamped env (tick w) msgs.

Lemma wrote_nil w :
  sysauditFile w = Some fh -> is_Some (inodes (disk w) !! fh) -> steady env w ->
  wrote w w [].
Proof.
  intros. unfold wrote. cbn [stamped length]. rewrite Nat.add_0_r, app_nil_r. done.
Qed.

Lemma wrote_trans w1 w2 w3 a b :
  wrote w1 w2 a -> wrote w2 w3 b -> wrote w1 w3 (a ++ b).
Proof.
  intros (A1 & A2 & A3 & A4 & A5 & A6 & A7) (B1 & B2 & B3 & B4 & B5 & B6 & B7).
  unfold wrote. rewrite length_app, stamped_app, B4, B5, B6, B7, A4, A5, A6, A7, <- app_assoc.
  repeat split; try done. lia.
Qed.

Lemma wrote_one (buffer : bytes) (n : nat) w :
  sysauditFile w = Some fh -> is_Some (inodes (disk w) !! fh) -> steady env w ->
  clock_monotone (tick w) -> (n <= length buffer)%nat ->
  exists m' w',
    pgaudit_write_file PIPE_BUF fuel env buffer (Z.of_nat n) w = Some (m', w') /\
    wrote w w' [take n buffer].
Proof.
  intros Hfh Hino Hst Hmono Hn.
  rewrite (pgaudit_write_file_plain PIPE_BUF fuel env fh) by done.
  eexists _, _. split; [reflexivity|].
  unfold write_plain, wrote.
  cbn [snd sysauditFile disk with_disk with_indextbl with_tick tick buffer_lists
       audit_indextbl dir disk_append inodes stamped length].
  rewrite inode_content_append by done.
  repeat split; try done.
  - destruct Hino as [c Hc]. rewrite list_lookup_alter_eq, Hc. done.
  - intros t Ht. cbn [audit_indextbl with_disk with_indextbl with_tick tick] in *.
    destruct (audit_indextbl w) as [t0|]; [|done].
    cbn in Ht. injection Ht as <-. cbn. apply Hmono. lia.
  - lia.
  - rewrite app_nil_r, Nat2Z.id, length_take, Nat.min_l by done.
    f_equal.
    rewrite <- (take_drop n buffer) at 1.
    rewrite take_stamp_app by (rewrite length_take; lia).
    apply take_ge. rewrite stamp_length, length_take. lia.
Qed.

Lemma clock_monotone_wrote w w' msgs :
  wrote w w' msgs -> clock_monotone (tick w) -> clock_monotone (tick w').
Proof.
  intros (_ & _ & _ & Htk & _) H n Hn. apply H. lia.
Qed.

Lemma flush_list_wrote (l : list save_buffer) : forall w,
  sysauditFile w = Some fh -> is_Some (inodes (disk w) !! fh) -> steady env w ->
  clock_monotone (tick w) ->
  exists w',
    flush_list fuel env l w = Some (map released l, w') /\ wrote w w' (in_use l).
Proof.
  induction l as [|buf rest IH]; intros w Hfh Hino Hst Hmono.
  { exists w. split; [done|]. by apply wrote_nil. }
  cbn [flush_list map]. unfold in_use, released at 1. cbn [List.filter].
  destruct (negb (sb_pid buf =? 0)) eqn:Epid.
  - destruct (wrote_one (sb_data buf) (length (sb_data buf)) w) as (m' & w1 & Hw & H1);
      try done.
    rewrite Hw. cbn [mbind option_bind snd fst].
    rewrite firstn_all in H1.
    pose proof H1 as (F1 & F2 & F3 & _).
    destruct (IH w1 F1 F2 F3 (clock_monotone_wrote _ _ _ H1 Hmono)) as (w2 & Hfl & H2).
    rewrite Hfl. cbn [mbind option_bind snd fst].
    exists w2. split; [done|].
    cbn [map]. exact (wrote_trans _ _ _ [_] _ H1 H2).
  - cbn [mbind option_bind snd fst].
    destruct (IH w Hfh Hino Hst Hmono) as (w2 & Hfl & H2).
    rewrite Hfl. cbn [mbind option_bind snd fst].
    exists w2. done.
Qed.

(** The lists after the flush of [n] of them from [i] on. *)
Definition flushed (bl bl' : gmap Z (list save_buffer)) (n : nat) (i : Z) : Prop :=
  forall k, bl' !! k = if decide (i <= k < i + Z.of_nat n)
                       then map released <$> bl !! k else bl !! k.

Lemma flush_lists_wrote (n : nat) : forall i w,
  sysauditFile w = Some fh -> is_Some (inodes (disk w) !! fh) -> steady env w ->
  clock_monotone (tick w) ->
  exists w',
    flush_lists fuel env n i w = Some w' /\
    sysauditFile w' = Some fh /\
    is_Some (inodes (disk w') !! fh) /\
    steady env w' /\
    tick w' = (tick w + length (held (buffer_lists w) n i))%nat /\
    flushed (buffer_lists w) (buffer_lists w') n i /\
    dir (disk w') = dir (disk w) /\
    inode_content (disk w') fh =
      inode_content (disk w) fh ++ stamped env (tick w) (held (buffer_lists w) n i).
Proof.
  induction n as [|n IH]; intros i w Hfh Hino Hst Hmono.
  { exists w. cbn [flush_lists held stamped length].
    rewrite Nat.add_0_r, app_nil_r. repeat split; try done.
    intros k. destruct (decide _); [lia|done]. }
  cbn [flush_lists held].
  assert (exists w1,
    match buffer_lists w !! i with
    | None => Some w
    | Some l =>
        r ← flush_list fuel env l w;
        Some (with_buffer_lists (<[i := r.1]> (buffer_lists r.2)) r.2)
    end = Some w1 /\
    sysauditFile w1 = Some fh /\ is_Some (inodes (disk w1) !! fh) /\ steady env w1 /\
    tick w1 = (tick w + length (in_use (default [] (buffer_lists w !! i))))%nat /\
    flushed (buffer_lists w) (buffer_lists w1) 1 i /\
    dir (disk w1) = dir (disk w) /\
    inode_content (disk w1) fh =
      inode_content (disk w) fh ++
      stamped env (tick w) (in_use (default [] (buffer_lists w !! i))))
    as (w1 & Hstep & G1 & G2 & G3 & G4 & G5 & G6 & G7).
  { destruct (buffer_lists w !! i) as [l|] eqn:El.
    - destruct (flush_list_wrote l w Hfh Hino Hst Hmono)
        as (w1 & Hfl & F1 & F2 & F3 & F4 & F5 & F6 & F7).
      rewrite Hfl. cbn [mbind option_bind fst snd default from_option id].
      eexists. split; [reflexivity|].
      destruct w1 as [tb f ts sb nrt rr rd bl po dk tk tr].
      cbn [with_buffer_lists sysauditFile disk tick buffer_lists] in *.
      repeat split; try done.
      intros k. destruct (decide _) as [Hk|Hk].
      + assert (k = i) as -> by lia. rewrite lookup_insert_eq, El. done.
      + rewrite lookup_insert_ne by lia. by rewrite F5.
    - exists w. cbn [default from_option id in_use List.filter map stamped length].
      unfold in_use. cbn [List.filter map stamped length].
      rewrite Nat.add_0_r, app_nil_r. repeat split; try done.
      intros k. destruct (decide _) as [Hk|Hk]; [|done].
      assert (k = i) as -> by lia. by rewrite El. }
  rewrite Hstep. cbn [mbind option_bind].
  assert (Hmono1 : clock_monotone (tick w1)) by (intros m Hm; apply Hmono; lia).
  destruct (IH (i + 1) w1 G1 G2 G3 Hmono1) as (w2 & Hfl & K1 & K2 & K3 & K4 & K5 & K6 & K7).
  assert (Hheld : held (buffer_lists w1) n (i + 1) = held (buffer_lists w) n (i + 1)).
  { apply held_ext. intros k Hk. rewrite (G5 k). destruct (decide _); [lia|done]. }
  rewrite Hheld in K4, K7.
  exists w2. split; [done|].
  rewrite length_app, stamped_app, K4, K6, K7, G4, G6, G7, <- app_assoc.
  repeat split; try done; [lia|].
  intros k. rewrite (K5 k).
  destruct (decide (i + 1 <= k < i + 1 + Z.of_nat n)) as [Hk|Hk].
  - rewrite (G5 k). destruct (decide (i <= k < i + Z.of_nat 1)); [lia|].
    destruct (decide (i <= k < i + Z.of_nat (S n))); [done|lia].
  - rewrite (G5 k). destruct (decide (i <= k < i + Z.of_nat 1)) as [Hk1|Hk1].
    + destruct (decide (i <= k < i + Z.of_nat (S n))); [done|lia].
    + destruct (decide (i <= k < i + Z.of_nat (S n))); [lia|done].
Qed.

Lemma released_unused (l : list save_buffer) :
  Forall (fun b => sb_pid b = 0) (map released l).
Proof.
  apply Forall_map, Forall_forall. intros b _. unfold released.
  destruct (Z.eqb_spec (sb_pid b) 0); done.
Qed.

(** X19. The flush at shutdown leaves nothing behind.  With the audit
    file open and a clock that does not go back, [flush_pipe_input] writes
    the data of every buffer in use, list after list, and then the bytes
    left in the read buffer, each piece with the time of its write and its
    length put in its header; afterwards every buffer of the 256 lists is
    unused and the read buffer counts no byte.  Nothing else of the
    directory changes. *)
Theorem flush_writes_everything (auditbuffer : bytes) (bytes_in_auditbuffer : nat)
    (w : World) :
  sysauditFile w = Some fh ->
  is_Some (inodes (disk w) !! fh) ->
  steady env w ->
  clock_monotone (tick w) ->
  (bytes_in_auditbuffer <= length auditbuffer)%nat ->
  exists m' w',
    flush_pipe_input fuel env auditbuffer bytes_in_auditbuffer w = Some (m', O, w') /\
    inode_content (disk w') fh =
      inode_content (disk w) fh ++
      stamped env (tick w)
        (held (buffer_lists w) (Z.to_nat NBUFFER_LISTS) 0 ++
         if (0 <? bytes_in_auditbuffer)%nat
         then [take bytes_in_auditbuffer auditbuffer] else []) /\
    (forall k l, 0 <= k < NBUFFER_LISTS -> buffer_lists w' !! k = Some l ->
                 Forall (fun b => sb_pid b = 0) l) /\
    dir (disk w') = dir (disk w) /\
    sysauditFile w' = Some fh.
Proof.
  intros Hfh Hino Hst Hmono Hn. unfold flush_pipe_input.
  destruct (flush_lists_wrote (Z.to_nat NBUFFER_LISTS) 0 w Hfh Hino Hst Hmono)
    as (w1 & Hfl & G1 & G2 & G3 & G4 & G5 & G6 & G7).
  rewrite Hfl. cbn [mbind option_bind].
  assert (Hmono1 : clock_monotone (tick w1)) by (intros m Hm; apply Hmono; lia).
  assert (Hlists : forall w2, buffer_lists w2 = buffer_lists w1 ->
            forall k l, 0 <= k < NBUFFER_LISTS -> buffer_lists w2 !! k = Some l ->
                        Forall (fun b => sb_pid b = 0) l).
  { intros w2 E k l Hk Hl. rewrite E, (G5 k) in Hl.
    destruct (decide _) as [_|Hno]; [|unfold NBUFFER_LISTS in *; lia].
    destruct (buffer_lists w !! k); [|done]. injection Hl as <-. apply released_unused. }
  destruct (Nat.ltb_spec 0 bytes_in_auditbuffer).
  - destruct (wrote_one auditbuffer bytes_in_auditbuffer w1 G1 G2 G3 Hmono1 Hn)
      as (m' & w2 & Hw & F1 & F2 & F3 & F4 & F5 & F6 & F7).
    rewrite Hw. cbn [mbind option_bind fst snd].
    exists m', w2. split; [done|].
    rewrite stamped_app, F7, G7, G4, F6, G6, <- app_assoc.
    repeat split; try done. by apply Hlists.
  - cbn [mbind option_bind fst snd].
    exists auditbuffer, w1. split; [done|].
    rewrite app_nil_r. repeat split; try done. by apply Hlists.
Qed.

(** X20. Without an open audit file the flush writes nothing: the buffers
    in use are marked unused all the same and the bytes of the read buffer
    are dropped, so what was held is lost. *)
Theorem flush_without_file_discards (auditbuffer : bytes) (bytes_in_auditbuffer : nat)
    (w : World) :
  sysauditFile w = None ->
  exists w',
    flush_pipe_input fuel env auditbuffer bytes_in_auditbuffer w =
      Some (auditbuffer, O, w') /\
    disk w' = disk w /\
    tick w' = tick w /\
    audit_indextbl w' = audit_indextbl w /\
    (forall k l, 0 <= k < NBUFFER_LISTS -> buffer_lists w' !! k = Some l ->
                 Forall (fun b => sb_pid b = 0) l).
Proof.
  intros Hfh.
  assert (Hwrite : forall b c w0, sysauditFile w0 = None ->
            pgaudit_write_file PIPE_BUF fuel env b c w0 = Some (b, w0)).
  { intros b c w0 H0. destruct fuel; cbn [pgaudit_write_file]; rewrite H0; done. }
  assert (Hlist : forall l w0, sysauditFile w0 = None ->
            flush_list fuel env l w0 = Some (map released l, w0)).
  { induction l as [|buf rest IH]; intros w0 H0; [done|].
    cbn [flush_list map]. unfold released at 1.
    destruct (negb (sb_pid buf =? 0)).
    - rewrite Hwrite by done. cbn [mbind option_bind fst snd].
      rewrite IH by done. done.
    - cbn [mbind option_bind fst snd]. rewrite IH by done. done. }
  assert (Hlists : forall n i bl,
            exists bl', flush_lists fuel env n i (with_buffer_lists bl w) =
                          Some (with_buffer_lists bl' w) /\
                        flushed bl bl' n i).
  { induction n as [|n IH]; intros i bl.
    { exists bl. split; [done|]. intros k. destruct (decide _); [lia|done]. }
    cbn [flush_lists].
    replace (buffer_lists (with_buffer_lists bl w)) with bl by (by destruct w).
    set (bl1 := match bl !! i with Some l => <[i := map released l]> bl | None => bl end).
    assert (Hstep :
      match bl !! i with
      | None => Some (with_buffer_lists bl w)
      | Some l =>
          r ← flush_list fuel env l (with_buffer_lists bl w);
          Some (with_buffer_lists (<[i := r.1]> (buffer_lists r.2)) r.2)
      end = Some (with_buffer_lists bl1 w)).
    { unfold bl1. destruct (bl !! i) as [l|]; [|done].
      rewrite Hlist by (by destruct w). cbn [mbind option_bind fst snd].
      by destruct w. }
    rewrite Hstep. cbn [mbind option_bind].
    destruct (IH (i + 1) bl1) as (bl' & Hfl & Hbl').
    exists bl'. split; [done|].
    intros k. rewrite (Hbl' k). unfold bl1.
    destruct (decide (i + 1 <= k < i + 1 + Z.of_nat n)) as [Hk|Hk].
    - destruct (decide (i <= k < i + Z.of_nat (S n))); [|lia].
      destruct (bl !! i); [|done]. rewrite lookup_insert_ne by lia. done.
    - destruct (decide (i <= k < i + Z.of_nat (S n))) as [Hk1|Hk1].
      + assert (k = i) as -> by lia.
        destruct (bl !! i) as [l|] eqn:El; [|by rewrite El].
        by rewrite lookup_insert_eq.
      + destruct (bl !! i); [|done]. rewrite lookup_insert_ne by lia. done. }
  unfold flush_pipe_input.
  destruct (Hlists (Z.to_nat NBUFFER_LISTS) 0 (buffer_lists w)) as (bl' & Hfl & Hbl').
  replace (with_buffer_lists (buffer_lists w) w) with w in Hfl by (by destruct w).
  rewrite Hfl. cbn [mbind option_bind].
  exists (with_buffer_lists bl' w).
  split.
  { destruct (0 <? bytes_in_auditbuffer)%nat; [|done].
    rewrite Hwrite by (by destruct w). done. }
  repeat split; try (by destruct w).
  intros k l Hk Hl.
  replace (buffer_lists (with_buffer_lists bl' w)) with bl' in Hl by (by destruct w).
  rewrite (Hbl' k) in Hl.
  destruct (decide _) as [_|Hno]; [|unfold NBUFFER_LISTS in *; lia].
  destruct (buffer_lists w !! k); [|done]. injection Hl as <-. apply released_unused.
Qed.

End Flush.


(** * Starting the collector *)

(** The largest size the bounds-checked [memcpy_s] accepts for its
    destination. *)
Definition SECUREC_MEM_MAX_LEN : Z := 2147483647.

(** The [do ... while] of [pgaudit_indextbl_init] that adds up the sizes
    entered in the slots from [index] round to [curidx]. *)
Fixpoint ring_space (fuel : nat) (t : AuditIndexTable) (index : Z) (total : Z)
    : option Z :=
  match fuel with
  | O => None
  | S fuel' =>
      let total := u64 (total + filesize (item_at t index)) in
      if index =? curidx t then Some total
      else ring_space fuel' t (next_index t index) total
  end.

(** The [do ... while] that copies the slots in use to a table of another
    size.  [memcpy_s] is given [maxnum * sizeof(AuditIndexItem) - pos] as
    the room at the destination: it refuses a copy that does not fit in it,
    and one that fits in it but lies past the end of the new array is
    outside the model. *)
Fixpoint copy_ring (fuel : nat) (old new : AuditIndexTable) (index pos : Z)
    : Outcome AuditIndexTable :=
  match fuel with
  | O => OutOfFuel
  | S fuel' =>
      let destMax := u64 (maxnum new * sizeof_AuditIndexItem - pos) in
      if (destMax =? 0) || (SECUREC_MEM_MAX_LEN <? destMax) ||
         (destMax <? sizeof_AuditIndexItem)
      then Raised "memcpy_s"
      else if maxnum new <=? pos then Undefined
      else
        let new := set_item pos (item_at old index) new in
        let new := set_count (u32 (count new + 1)) new in
        if index =? curidx old then Done new
        else
          copy_ring fuel' old
            (set_curidx (u32 (curidx new + 1) mod maxnum new) new)
            (next_index old index) (u32 (pos + 1))
  end.

(** [palloc0] of a table with [n] slots, [maxnum] set. *)
Definition empty_indextbl (n : Z) : AuditIndexTable :=
  mkTbl n 0 0 0 0 (replicate (Z.to_nat n) zero_item).

(** The table that replaces [old] when the threshold has changed. *)
Definition resize_indextbl (fuel : nat) (newmax : Z) (old : AuditIndexTable)
    : Outcome AuditIndexTable :=
  let new := empty_indextbl newmax in
  if 0 <? count old then copy_ring fuel old new (begidx old) (begidx new)
  else Done new.

Lemma copy_ring_spec (old : AuditIndexTable) (newmax : Z) :
  0 <= curidx old < maxnum old -> maxnum old < 2 ^ 32 ->
  newmax * sizeof_AuditIndexItem <= SECUREC_MEM_MAX_LEN ->
  forall (fuel : nat) (index pos : Z) (new : AuditIndexTable),
    0 <= index < maxnum old ->
    ring_distance old index < Z.of_nat fuel ->
    0 <= pos -> pos + ring_distance old index + 1 <= newmax ->
    maxnum new = newmax -> length (data new) = Z.to_nat newmax ->
    curidx new = pos -> count new = pos ->
    exists new',
      copy_ring fuel old new index pos = Done new' /\
      maxnum new' = newmax /\ begidx new' = begidx new /\
      last_audit_time new' = last_audit_time new /\
      curidx new' = pos + ring_distance old index /\
      count new' = pos + ring_distance old index + 1 /\
      data new' = take (Z.to_nat pos) (data new) ++
                  map (item_at old) (ring fuel old index) ++
                  drop (Z.to_nat (pos + ring_distance old index + 1)) (data new).
Proof.
  intros Hc Hm Hsec. induction fuel as [|fuel IH];
    intros index pos new Hi Hd Hpos Hroom Hmax Hlen Hcur Hcnt.
  { pose proof (ring_distance_range old index ltac:(lia)). lia. }
  pose proof (ring_distance_range old index ltac:(lia)) as Hdr.
  unfold sizeof_AuditIndexItem, SECUREC_MEM_MAX_LEN in *.
  cbn [copy_ring ring]. rewrite Hmax.
  unfold sizeof_AuditIndexItem, SECUREC_MEM_MAX_LEN, u64, wrap.
  rewrite (Z.mod_small (newmax * 16 - pos)) by lia.
  destruct (Z.eqb_spec (newmax * 16 - pos) 0); [lia|].
  destruct (Z.ltb_spec 2147483647 (newmax * 16 - pos)); [lia|].
  destruct (Z.ltb_spec (newmax * 16 - pos) 16); [lia|].
  destruct (Z.leb_spec newmax pos); [lia|].
  cbn [orb].
  assert (Hins : data (set_item pos (item_at old index) new) =
                 take (Z.to_nat pos) (data new) ++ item_at old index ::
                 drop (S (Z.to_nat pos)) (data new)).
  { unfold set_item. cbn [data]. apply insert_take_drop. lia. }
  destruct (Z.eqb_spec index (curidx old)) as [E|E].
  - eexists. split; [reflexivity|].
    assert (Hz : ring_distance old index = 0).
    { unfold ring_distance. rewrite E, Z.sub_diag. apply Z.mod_0_l. lia. }
    cbn [maxnum begidx last_audit_time curidx count data set_count set_item map app].
    rewrite Hz, !Z.add_0_r, Hcnt, Hcur.
    unfold u32, wrap. rewrite Z.mod_small by lia.
    repeat split; try done.
    fold (set_item pos (item_at old index) new). 
    change (<[Z.to_nat pos := item_at old index]> (data new))
      with (data (set_item pos (item_at old index) new)).
    rewrite Hins. do 2 f_equal. f_equal. lia.
  - destruct (ring_distance_next old index Hi Hc Hm E) as (Hn & Hdn & Hd0).
    set (new1 := set_curidx _ _).
    assert (Hpos1 : u32 (pos + 1) = pos + 1) by (unfold u32, wrap; apply Z.mod_small; lia).
    rewrite Hpos1.
    assert (Hcur1 : curidx new1 = pos + 1).
    { unfold new1. cbn [curidx set_curidx set_count set_item maxnum].
      rewrite Hcur, Hmax. unfold u32, wrap.
      rewrite (Z.mod_small (pos + 1) (2 ^ 32)) by lia. apply Z.mod_small. lia. }
    assert (Hcnt1 : count new1 = pos + 1).
    { unfold new1. cbn [count set_curidx set_count set_item]. rewrite Hcnt.
      unfold u32, wrap. apply Z.mod_small. lia. }
    assert (Hdata1 : data new1 = data (set_item pos (item_at old index) new)) by done.
    destruct (IH (next_index old index) (pos + 1) new1) as
      (new' & Hrun & R1 & R2 & R3 & R4 & R5 & R6); try done; try lia.
    { rewrite Hdata1. unfold set_item. cbn [data]. rewrite length_insert. done. }
    exists new'. split; [exact Hrun|].
    rewrite R1, R2, R3, R4, R5, R6, Hdn, Hdata1.
    repeat split; try done; try lia.
    unfold set_item. cbn [data map].
    replace (Z.to_nat (pos + 1)) with (S (Z.to_nat pos)) by lia.
    rewrite (take_S_r _ _ (item_at old index))
      by (apply list_lookup_insert_eq; lia).
    rewrite take_insert_ge by lia.
    rewrite drop_insert_lt by lia.
    rewrite <- app_assoc. cbn [app]. replace (pos + 1 + (ring_distance old index - 1) + 1) with (pos + ring_distance old index + 1) by lia. done.
Qed.

Lemma ring_from_zero (t : AuditIndexTable) :
  0 <= curidx t < maxnum t -> maxnum t < 2 ^ 32 ->
  forall (fuel : nat) (index : Z),
    0 <= index <= curidx t -> curidx t - index < Z.of_nat fuel ->
    ring fuel t index = seqZ index (curidx t - index + 1).
Proof.
  intros Hc Hm. induction fuel as [|fuel IH]; intros index Hi Hf; [lia|].
  cbn [ring]. rewrite seqZ_cons by lia. f_equal.
  destruct (Z.eqb_spec index (curidx t)) as [E|E].
  - rewrite E. replace (Z.pred (curidx t - curidx t + 1)) with 0 by lia. done.
  - assert (Hn : next_index t index = Z.succ index).
    { unfold next_index, u32, wrap.
      rewrite (Z.mod_small (index + 1) (2 ^ 32)) by lia.
      rewrite Z.mod_small by lia. lia. }
    rewrite Hn, IH by lia. f_equal. lia.
Qed.

(** X21. A change of the threshold keeps the files in their order.  The
    table that replaces the old one holds the slots from [begidx] round to
    [curidx] at the positions 0, 1, ..., in that order, with [begidx] 0,
    [curidx] on the last of them and [count] their number, as long as the
    new table has room for them; a walk over the new table meets the same
    files in the same order.  The time of the last audit is not carried
    over. *)
Theorem threshold_change_keeps_order (fuel : nat) (newmax : Z)
    (old : AuditIndexTable) :
  0 < count old ->
  0 <= begidx old < maxnum old -> 0 <= curidx old < maxnum old ->
  maxnum old < 2 ^ 32 ->
  AUDIT_COUNT old <= newmax ->
  newmax * sizeof_AuditIndexItem <= SECUREC_MEM_MAX_LEN ->
  maxnum old <= Z.of_nat fuel ->
  exists new,
    resize_indextbl fuel newmax old = Done new /\
    maxnum new = newmax /\ begidx new = 0 /\
    curidx new = AUDIT_COUNT old - 1 /\ count new = AUDIT_COUNT old /\
    last_audit_time new = 0 /\
    data new = map (item_at old) (ring fuel old (begidx old)) ++
               replicate (Z.to_nat (newmax - AUDIT_COUNT old)) zero_item /\
    map (item_at new) (ring fuel new 0) =
      map (item_at old) (ring fuel old (begidx old)).
Proof.
  intros Hcount Hb Hc Hm Hroom Hsec Hfuel.
  pose proof (ring_distance_range old (begidx old) ltac:(lia)) as Hdr.
  pose proof (ring_distance_AUDIT_COUNT old Hb Hc Hm) as Hn.
  destruct (ring_shape old Hc Hm fuel (begidx old) Hb ltac:(lia)) as [_ Hlen].
  unfold resize_indextbl. rewrite (proj2 (Z.ltb_lt _ _) Hcount).
  destruct (copy_ring_spec old newmax Hc Hm Hsec fuel (begidx old) 0
              (empty_indextbl newmax)) as (new & Hrun & R1 & R2 & R3 & R4 & R5 & R6);
    try done; try lia.
  { cbn. rewrite length_replicate. done. }
  exists new. split; [exact Hrun|].
  assert (Hdata : data new = map (item_at old) (ring fuel old (begidx old)) ++
               replicate (Z.to_nat (newmax - AUDIT_COUNT old)) zero_item).
  { rewrite R6. cbn [take app empty_indextbl data Z.to_nat].
    rewrite drop_replicate. change (Z.to_nat 0) with O. rewrite take_0.
    cbn [app]. do 2 f_equal. lia. }
  rewrite R1, R2, R3, R4, R5.
  repeat split; try done; try lia.
  assert (newmax < 2 ^ 32)
    by (unfold sizeof_AuditIndexItem, SECUREC_MEM_MAX_LEN in Hsec; lia).
  rewrite (ring_from_zero new) by lia.
  rewrite R4, Z.add_0_l, Z.sub_0_r.
  set (l := map (item_at old) (ring fuel old (begidx old))) in *.
  replace (ring_distance old (begidx old) + 1) with (Z.of_nat (length l))
    by (unfold l; rewrite length_map; lia).
  clearbody l. unfold item_at. rewrite Hdata.
  generalize (replicate (Z.to_nat (newmax - AUDIT_COUNT old)) zero_item) as r.
  intros r. apply list_eq. intros i.
  rewrite list_lookup_fmap.
  destruct (decide (i < length l)%nat) as [Hi|Hi].
  - destruct (lookup_lt_is_Some_2 l i Hi) as [x Hx].
    rewrite Hx, lookup_seqZ_lt by lia. cbn [fmap option_fmap option_map].
    rewrite Z.add_0_l, Nat2Z.id, lookup_app_l, Hx by done. done.
  - rewrite (lookup_ge_None_2 l) by lia.
    rewrite lookup_seqZ_ge by lia. done.
Qed.

Lemma ring_space_spec (t : AuditIndexTable) :
  0 <= curidx t < maxnum t -> maxnum t < 2 ^ 32 ->
  forall (fuel : nat) (index total : Z),
    0 <= index < maxnum t -> ring_distance t index < Z.of_nat fuel ->
    ring_space fuel t index total =
    Some (foldl (fun acc i => u64 (acc + filesize (item_at t i))) total
            (ring fuel t index)).
Proof.
  intros Hc Hm. induction fuel as [|fuel IH]; intros index total Hi Hd.
  { pose proof (ring_distance_range t index ltac:(lia)). lia. }
  cbn [ring_space ring]. destruct (Z.eqb_spec index (curidx t)) as [E|E]; [done|].
  destruct (ring_distance_next t index Hi Hc Hm E) as (Hn & Hdn & _).
  rewrite IH by (done || lia). done.
Qed.

Section Init.
Variable PIPE_BUF : option Z.

(** [auditfile_init]: opening the file of the current slot must succeed,
    the process ends otherwise. *)
Definition auditfile_init (fuel : nat) (env : Env) (w : World) : Outcome World :=
  match sysauditFile w with
  | Some _ => Done w
  | None =>
      let '(timestamp, w) := time_NULL env w in
      match auditfile_open env timestamp false w with
      | (inl _, _) => Raised "could not open audit file"
      | (inr fh, w) =>
          let w := with_sysauditFile (Some fh) w in
          if ftell w fh =? 0 then
            match audit_report PIPE_BUF fuel env AUDIT_INTERNAL_EVENT AUDIT_OK
                    (Some (of_string "file"))
                    (Some (of_string "create a new audit file")) w with
            | Some w => Done w
            | None => OutOfFuel
            end
          else Done w
      end
  end.

(** What [pgaudit_read_indexfile] reports while it reads. *)
Definition read_indexfile_events (open_fails : bool) (w : World) : World :=
  match index_file (disk w) with
  | None => w
  | Some c =>
      if open_fails then ereport LOG "could not open audit index table file" [] w
      else if Z.of_nat (length c) <? indextbl_header_size then w
      else if Z.of_nat (length c) - indextbl_header_size
                <? read_u32 0 c * sizeof_AuditIndexItem
      then ereport WARNING "could not read audit index file" [] w
      else w
  end.

(** [pgaudit_indextbl_init].  [open_fails] says whether the index file
    cannot be opened for reading, [unlink_index_fails] whether it cannot be
    removed. *)
Definition pgaudit_indextbl_init (fuel : nat) (env : Env)
    (open_fails unlink_index_fails : bool) (w : World) : Outcome World :=
  let newmax := u32 (Audit_RemainThreshold (cfg env) + 1) in
  let w := with_indextbl (pgaudit_read_indexfile open_fails (disk w))
             (read_indexfile_events open_fails w) in
  match audit_indextbl w with
  | None => auditfile_init fuel env (with_indextbl (Some (empty_indextbl newmax)) w)
  | Some _ =>
      match auditfile_init fuel env w with
      | Done w =>
          match audit_indextbl w with
          | None => Undefined
          | Some t =>
              match ring_space fuel t (begidx t) 0 with
              | None => OutOfFuel
              | Some total =>
                  let w := with_totalspace total w in
                  let w := with_space_beyond
                             (u64 (total / SPACE_INTERVAL_SIZE * SPACE_INTERVAL_SIZE
                                   + SPACE_INTERVAL_SIZE)) w in
                  let old_maxnum := maxnum t in
                  let cleaned :=
                    if newmax <? old_maxnum then
                      let w := if unlink_index_fails
                               then ereport WARNING
                                      "could not remove audit index table file" [] w
                               else with_disk (disk_set_index None (disk w)) w in
                      pgaudit_cleanup PIPE_BUF fuel env w
                    else Some w in
                  match cleaned with
                  | None => OutOfFuel
                  | Some w =>
                      if negb (old_maxnum =? newmax) then
                        match audit_indextbl w with
                        | None => Undefined
                        | Some t =>
                            match resize_indextbl fuel newmax t with
                            | Done new =>
                                Done (pgaudit_update_indexfile env PG_BINARY_W true
                                        (with_indextbl (Some new) w))
                            | Raised msg => Raised msg
                            | Undefined => Undefined
                            | OutOfFuel => OutOfFuel
                            end
                        end
                      else Done w
                  end
              end
          end
      | Raised msg => Raised msg
      | Undefined => Undefined
      | OutOfFuel => OutOfFuel
      end
  end.

Local Arguments stamp : simpl never.
Local Arguments audit_record : simpl never.
Local Arguments encode_indextbl : simpl never.
Local Arguments AUDIT_COUNT : simpl never.
Local Arguments next_index : simpl never.
Local Arguments u32 : simpl never.
Local Arguments u64 : simpl never.

Ltac world_fields :=
  cbn [audit_indextbl sysauditFile pgaudit_totalspace space_beyond_size
       next_rotation_time rotation_requested rotation_disabled buffer_lists
       pipe_out disk tick trace with_indextbl with_sysauditFile with_totalspace
       with_space_beyond with_next_rotation_time with_rotation_requested
       with_rotation_disabled with_buffer_lists with_pipe_out with_disk
       with_tick ereport emit].

Lemma ring_set_count (c : Z) (t : AuditIndexTable) (fuel : nat) : forall index,
  ring fuel (set_count c t) index = ring fuel t index.
Proof.
  induction fuel as [|fuel IH]; intros index; [done|].
  cbn [ring]. change (curidx (set_count c t)) with (curidx t).
  change (next_index (set_count c t) index) with (next_index t index).
  by rewrite IH.
Qed.

Lemma length_encode_indextbl (t : AuditIndexTable) :
  0 <= maxnum t ->
  Z.of_nat (length (encode_indextbl t)) =
  indextbl_header_size + maxnum t * sizeof_AuditIndexItem.
Proof.
  intros Hm. unfold encode_indextbl.
  rewrite !length_app, !length_le_bytes, length_concat_encode, length_resize.
  unfold indextbl_header_size, sizeof_AuditIndexItem. lia.
Qed.

(** The start on a directory whose index file holds the table and whose
    current file is present and not empty. *)
Lemma indextbl_init_resumes (fuel : nat) (env : Env) (unlink_index_fails : bool)
    (w : World) (t : AuditIndexTable) (fh : nat) :
  index_file (disk w) = Some (encode_indextbl t) ->
  indextbl_in_range t ->
  0 <= begidx t < maxnum t -> 0 <= curidx t < maxnum t ->
  maxnum t = u32 (Audit_RemainThreshold (cfg env) + 1) ->
  sysauditFile w = None ->
  dir (disk w) !! filenum (item_at t (curidx t)) = Some fh ->
  inode_content (disk w) fh <> [] ->
  fopen_errno env (filenum (item_at t (curidx t))) = None ->
  indexfile_open_fails env = false ->
  maxnum t <= Z.of_nat fuel ->
  let t' := set_count (AUDIT_COUNT t) t in
  let total := foldl (fun acc i => u64 (acc + filesize (item_at t i))) 0
                 (ring fuel t (begidx t)) in
  exists w',
    pgaudit_indextbl_init fuel env false unlink_index_fails w = Done w' /\
    audit_indextbl w' = Some t' /\
    sysauditFile w' = Some fh /\
    dir (disk w') = dir (disk w) /\
    inodes (disk w') = inodes (disk w) /\
    index_file (disk w') = Some (encode_indextbl t') /\
    pgaudit_totalspace w' = total /\
    space_beyond_size w' =
      u64 (total / SPACE_INTERVAL_SIZE * SPACE_INTERVAL_SIZE + SPACE_INTERVAL_SIZE) /\
    trace w' = trace w.
Proof.
  intros Hfile Hrange Hb Hc Hmax Hclosed Hdir Hsize Hopen Hidx Hfuel t' total.
  pose proof (read_indexfile_encode (disk w) t Hrange Hfile) as Hread.
  destruct Hrange as (Hm & _).
  unfold pgaudit_indextbl_init.
  assert (Hev : read_indexfile_events false w = w).
  { unfold read_indexfile_events. rewrite Hfile.
    pose proof (length_encode_indextbl t ltac:(lia)) as Hlen.
    assert (Hn : read_u32 0 (encode_indextbl t) = maxnum t).
    { pose proof (f_equal (fmap maxnum) Hread) as Hn.
      unfold pgaudit_read_indexfile in Hn. rewrite Hfile in Hn.
      destruct (_ <? _) in Hn; [done|].
      cbn [fmap option_fmap option_map maxnum] in Hn. injection Hn as Hn. exact Hn. }
    rewrite Hn, Hlen.
    destruct (Z.ltb_spec (indextbl_header_size + maxnum t * sizeof_AuditIndexItem)
                indextbl_header_size).
    { unfold sizeof_AuditIndexItem in *. lia. }
    destruct (Z.ltb_spec (indextbl_header_size + maxnum t * sizeof_AuditIndexItem
                          - indextbl_header_size) (maxnum t * sizeof_AuditIndexItem));
      [lia|done]. }
  rewrite Hev, Hread. cbn zeta.
  destruct w as [tbl f ts sb nrt rr rd bl po dk tk tr].
  cbn [sysauditFile disk] in Hclosed, Hdir, Hsize, Hfile. subst f.
  world_fields.
  unfold auditfile_init. world_fields. unfold time_NULL. world_fields.
  unfold auditfile_open. world_fields.
  rewrite Hopen, bool_decide_eq_true_2 by (rewrite Hdir; done).
  world_fields. rewrite Hdir. cbn [default from_option id].
  fold t'.
  unfold pgaudit_update_indexfile. rewrite Hidx. world_fields.
  unfold ftell. world_fields.
  change (inode_content (disk_set_index ?c dk) fh) with (inode_content dk fh).
  destruct (Z.eqb_spec (Z.of_nat (length (inode_content dk fh))) 0) as [E|_].
  { destruct (inode_content dk fh); [done|]. cbn in E. lia. }
  world_fields.
  change (begidx t') with (begidx t).
  assert (Hspace : ring_space fuel t' (begidx t) 0 = Some total).
  { pose proof (ring_distance_range t (begidx t) ltac:(lia)) as Hdr.
    assert (Hm32 : maxnum t < 2 ^ 32) by lia.
    assert (Hd : ring_distance t (begidx t) < Z.of_nat fuel) by lia.
    rewrite (ring_space_spec t' Hc Hm32 fuel (begidx t) 0 Hb Hd).
    unfold total, t'. rewrite ring_set_count. done. }
  rewrite Hspace.
  rewrite <- Hmax. change (maxnum t') with (maxnum t).
  rewrite Z.ltb_irrefl, Z.eqb_refl. cbn [negb].
  eexists. split; [reflexivity|].
  world_fields. cbn [disk_set_index dir inodes index_file]. done.
Qed.

(** X22. A restart resumes the file that was open.  With an index file
    that holds the table, the threshold unchanged and the file of the
    current slot present and not empty, [pgaudit_indextbl_init] reads the
    table back, opens that file again without writing to it, sets [count]
    to the number of slots between the cursors, writes the index file, and
    takes as total space the sum of the sizes entered in the slots from
    [begidx] round to [curidx]; the warning step is the next multiple of
    ten megabytes above it.  Nothing is reported. *)
Theorem restart_resumes_file (fuel : nat) (env : Env) (unlink_index_fails : bool)
    (w : World) (t : AuditIndexTable) (fh : nat) :
  index_file (disk w) = Some (encode_indextbl t) ->
  indextbl_in_range t ->
  0 <= begidx t < maxnum t -> 0 <= curidx t < maxnum t ->
  maxnum t = u32 (Audit_RemainThreshold (cfg env) + 1) ->
  sysauditFile w = None ->
  dir (disk w) !! filenum (item_at t (curidx t)) = Some fh ->
  inode_content (disk w) fh <> [] ->
  fopen_errno env (filenum (item_at t (curidx t))) = None ->
  indexfile_open_fails env = false ->
  maxnum t <= Z.of_nat fuel ->
  let t' := set_count (AUDIT_COUNT t) t in
  let total := foldl (fun acc i => u64 (acc + filesize (item_at t i))) 0
                 (ring fuel t (begidx t)) in
  exists w',
    pgaudit_indextbl_init fuel env false unlink_index_fails w = Done w' /\
    audit_indextbl w' = Some t' /\
    sysauditFile w' = Some fh /\
    dir (disk w') = dir (disk w) /\
    inodes (disk w') = inodes (disk w) /\
    index_file (disk w') = Some (encode_indextbl t') /\
    pgaudit_totalspace w' = total /\
    space_beyond_size w' =
      u64 (total / SPACE_INTERVAL_SIZE * SPACE_INTERVAL_SIZE + SPACE_INTERVAL_SIZE) /\
    trace w' = trace w.
Proof.
  intros Hfile Hrange Hb Hc Hmax Hclosed Hdir Hsize Hopen Hidx Hfuel.
  exact (indextbl_init_resumes fuel env unlink_index_fails w t fh Hfile Hrange Hb Hc
           Hmax Hclosed Hdir Hsize Hopen Hidx Hfuel).
Qed.

(** X23. The first start in an empty directory.  With no index file and
    no file numbered 0, [pgaudit_indextbl_init] makes a table of
    [Audit_RemainThreshold + 1] slots, creates file 0, enters the time of
    the clock in slot 0, counts one file and writes the index file; the new
    file then receives the record that reports its creation, stamped with
    the next reading of the clock (nothing when auditing is off or the node
    is pending). *)
Theorem first_start_creates_file (fuel : nat) (env : Env) (unlink_index_fails : bool)
    (w : World) :
  index_file (disk w) = None ->
  sysauditFile w = None ->
  dir (disk w) !! 0 = None ->
  fopen_errno env 0 = None ->
  indexfile_open_fails env = false ->
  am_auditor env = true ->
  0 <= Audit_RemainThreshold (cfg env) < 2 ^ 32 - 1 ->
  0 <= now env (S (tick w)) ->
  let newmax := Audit_RemainThreshold (cfg env) + 1 in
  let t0 := mkTbl newmax 0 0 1 0
              (<[O := mkItem (now env (tick w)) 0 0]>
                 (replicate (Z.to_nat newmax) zero_item)) in
  let reporting := Audit_enabled (cfg env) && negb (ha_pending env) in
  let curtime := now env (S (tick w)) in
  exists w',
    pgaudit_indextbl_init fuel env false unlink_index_fails w = Done w' /\
    audit_indextbl w' =
      Some (if reporting then set_last_audit_time curtime t0 else t0) /\
    sysauditFile w' = Some (length (inodes (disk w))) /\
    dir (disk w') = <[0 := length (inodes (disk w))]> (dir (disk w)) /\
    inodes (disk w') =
      inodes (disk w) ++ [if reporting then creation_record env curtime else []] /\
    index_file (disk w') = Some (encode_indextbl t0).
Proof.
  intros Hfile Hclosed Hdir Hopen Hidx Ham Hrt Hclock newmax t0 reporting curtime.
  unfold pgaudit_indextbl_init.
  assert (Hnm : u32 (Audit_RemainThreshold (cfg env) + 1) = newmax).
  { unfold u32, wrap. apply Z.mod_small. unfold newmax. lia. }
  rewrite Hnm.
  unfold read_indexfile_events, pgaudit_read_indexfile. rewrite Hfile. cbn zeta.
  destruct w as [tbl f ts sb nrt rr rd bl po dk tk tr].
  cbn [sysauditFile disk tick] in *. subst f.
  world_fields.
  unfold auditfile_init. world_fields. unfold time_NULL. world_fields.
  unfold auditfile_open. world_fields.
  assert (Hitem : item_at (empty_indextbl newmax) 0 = zero_item).
  { unfold item_at, empty_indextbl. cbn [data]. change (Z.to_nat 0) with O.
    rewrite lookup_replicate_2 by (unfold newmax; lia). done. }
  change (curidx (empty_indextbl newmax)) with 0.
  rewrite Hitem. cbn [filenum zero_item].
  rewrite Hopen, bool_decide_eq_false_2 by (rewrite Hdir; apply is_Some_None).
  world_fields. cbn [disk_create dir]. rewrite lookup_insert_eq.
  cbn [default from_option id].
  unfold pgaudit_update_indexfile at 1 2. rewrite Hidx. world_fields.
  unfold ftell. world_fields.
  change (curidx (empty_indextbl newmax)) with 0.
  rewrite !Hitem.
  assert (Ht0 : set_count
                  (AUDIT_COUNT (set_item 0 (set_ctime (now env tk) zero_item)
                                  (empty_indextbl newmax)))
                  (set_item 0 (set_ctime (now env tk) zero_item)
                     (empty_indextbl newmax)) = t0) by reflexivity.
  rewrite !Ht0.
  assert (Hnew : inode_content (disk_set_index (Some ([] ++ encode_indextbl t0))
                                  (disk_create 0 dk)) (length (inodes dk)) = []).
  { unfold inode_content. cbn [disk_set_index disk_create inodes].
    rewrite lookup_app_r, Nat.sub_diag by lia. done. }
  rewrite Hnew. cbn [length Z.of_nat Z.eqb].
  match goal with
  | |- context [audit_report PIPE_BUF fuel env ?a ?b ?c ?d ?x] =>
      rewrite (audit_report_plain PIPE_BUF fuel env b c d x Ham)
  end.
  2:{ unfold steady. world_fields. intros t' [= <-]. cbn. exact Hclock. }
  eexists. split; [reflexivity|].
  unfold report_plain, reporting.
  destruct (Audit_enabled (cfg env)), (ha_pending env);
    cbn [negb orb andb]; world_fields;
    cbn [write_plain snd disk_set_index disk_create disk_append dir inodes fmap
         option_fmap option_map index_file]; world_fields;
    cbn [disk_set_index disk_create disk_append dir inodes index_file];
    repeat split; auto;
    unfold creation_record, reported_record;
    rewrite alter_app_r_alt by lia; rewrite Nat.sub_diag; cbn [alter list_alter app];
    rewrite Nat2Z.id, take_ge by (rewrite stamp_length; lia); reflexivity.
Qed.

End Init.


(** * The main loop of the collector *)

Section MainLoop.
Variable PIPE_BUF : option Z.

(** One pass of the loop of [PgAuditorMain] with no signal pending, from
    the test of the rotation age to [pgaudit_cleanup].  [ftell] on a null
    handle is outside the model. *)
Definition PgAuditorMain_pass (fuel : nat) (env : Env) (w : World) : Outcome World :=
  let '(time_based_rotation, w) :=
    if (0 <? Audit_RotationAge (cfg env)) && negb (rotation_disabled w) then
      let '(now, w) := time_NULL env w in
      if next_rotation_time w <=? now
      then (true, with_rotation_requested true w)
      else (false, w)
    else (false, w) in
  let checked :=
    if negb (rotation_requested w) && (0 <? Audit_RotationSize (cfg env)) &&
       negb (rotation_disabled w)
    then
      match sysauditFile w with
      | None => Undefined
      | Some fh =>
          let filesize := ftell w fh in
          if (Audit_RotationSize (cfg env) * 1024 <=? filesize) ||
             (Audit_SpaceLimit (cfg env) * 1024 <=? filesize)
          then Done (true, with_rotation_requested true w)
          else Done (false, w)
      end
    else Done (false, w) in
  match checked with
  | Done (size_based_rotation, w) =>
      let rotated :=
        if rotation_requested w then
          let size_based_rotation :=
            if negb time_based_rotation && negb size_based_rotation then true
            else size_based_rotation in
          auditfile_rotate PIPE_BUF fuel env time_based_rotation size_based_rotation w
        else Some w in
      match rotated with
      | Some w =>
          match pgaudit_cleanup PIPE_BUF fuel env w with
          | Some w => Done w
          | None => OutOfFuel
          end
      | None => OutOfFuel
      end
  | Raised msg => Raised msg
  | Undefined => Undefined
  | OutOfFuel => OutOfFuel
  end.

(** What [PgAuditorMain] does once it has left the loop. *)
Definition PgAuditorMain_shutdown (fuel : nat) (env : Env) (w : World) : option World :=
  let w := ereport DEBUG1 "auditor shutting down" [] w in
  w ← pgaudit_cleanup PIPE_BUF fuel env w;
  let w := pgaudit_update_indexfile env PG_BINARY_W true w in
  Some (with_sysauditFile None w).

Local Arguments stamp : simpl never.
Local Arguments audit_record : simpl never.
Local Arguments encode_indextbl : simpl never.
Local Arguments AUDIT_COUNT : simpl never.
Local Arguments next_index : simpl never.
Local Arguments u32 : simpl never.
Local Arguments u64 : simpl never.

Ltac world_fields :=
  cbn [audit_indextbl sysauditFile pgaudit_totalspace space_beyond_size
       next_rotation_time rotation_requested rotation_disabled buffer_lists
       pipe_out disk tick trace with_indextbl with_sysauditFile with_totalspace
       with_space_beyond with_next_rotation_time with_rotation_requested
       with_rotation_disabled with_buffer_lists with_pipe_out with_disk
       with_tick ereport emit].

(** X24. A file that has reached a limit is rotated before retention
    looks at it.  In a pass of the main loop with rotation not disabled
    and a rotation size set, an open file that holds at least
    [Audit_RotationSize] or at least [Audit_SpaceLimit] kilobytes is
    rotated, by time when a time-based rotation is due and by size
    otherwise, and [pgaudit_cleanup] runs on the state the rotation
    leaves. *)
Theorem pass_rotates_before_cleanup (fuel : nat) (env : Env) (w : World) (fh : nat) :
  rotation_disabled w = false ->
  0 < Audit_RotationSize (cfg env) ->
  sysauditFile w = Some fh ->
  Audit_RotationSize (cfg env) * 1024 <= ftell w fh \/
  Audit_SpaceLimit (cfg env) * 1024 <= ftell w fh ->
  let timed := 0 <? Audit_RotationAge (cfg env) in
  let due := timed && (next_rotation_time w <=? now env (tick w)) in
  let w0 := with_rotation_requested true
              (if timed then with_tick (S (tick w)) w else w) in
  PgAuditorMain_pass fuel env w =
  match auditfile_rotate PIPE_BUF fuel env due (negb due) w0 with
  | Some w1 =>
      match pgaudit_cleanup PIPE_BUF fuel env w1 with
      | Some w2 => Done w2
      | None => OutOfFuel
      end
  | None => OutOfFuel
  end.
Proof.
  intros Hdis Hsize Hfh Hbig timed due w0.
  assert (Hlimit : (Audit_RotationSize (cfg env) * 1024 <=? ftell w fh) ||
                   (Audit_SpaceLimit (cfg env) * 1024 <=? ftell w fh) = true).
  { apply orb_true_iff. destruct Hbig; [left|right]; by apply Z.leb_le. }
  destruct w as [tbl f ts sb nrt rr rd bl po dk tk tr].
  cbn [sysauditFile rotation_disabled] in Hfh, Hdis. subst f rd.
  unfold ftell in Hlimit. cbn [disk] in Hlimit.
  unfold PgAuditorMain_pass, due, w0, timed. world_fields. cbn [negb].
  rewrite andb_true_r.
  rewrite (proj2 (Z.ltb_lt _ _) Hsize).
  destruct (0 <? Audit_RotationAge (cfg env)); cbn [andb].
  - unfold time_NULL. world_fields.
    destruct (nrt <=? now env tk); world_fields; cbn [negb andb].
    + reflexivity.
    + destruct rr; cbn [negb andb].
      * reflexivity.
      * unfold ftell. world_fields. rewrite Hlimit. world_fields. reflexivity.
  - destruct rr; cbn [negb andb]; world_fields.
    + reflexivity.
    + unfold ftell. world_fields. rewrite Hlimit. world_fields. reflexivity.
Qed.

(** X25. A rotation that cannot open the new file leaves the loop without
    a file.  When the open file has reached the rotation size, the name of
    the next file is already on disk and [fopen] of it fails with ENFILE or
    EMFILE, the pass ends with the old file closed, no file open and
    rotation neither disabled nor requested; unless a time-based rotation
    comes due, the next pass asks [ftell] for the position of the null
    handle.  (For a name that is not on disk the rotation is disabled
    instead, and the size test is not made.) *)
Theorem failed_rotation_then_null_handle (fuel : nat) (env : Env) (w : World)
    (t : AuditIndexTable) (fh : nat) (errno : Z) :
  audit_indextbl w = Some t ->
  sysauditFile w = Some fh ->
  0 < maxnum t ->
  Z.of_nat (length (data t)) = maxnum t ->
  0 <= curidx t < maxnum t ->
  rotation_requested w = false ->
  rotation_disabled w = false ->
  0 < Audit_RotationSize (cfg env) ->
  Audit_RotationSize (cfg env) * 1024 <= ftell w fh ->
  Audit_RotationAge (cfg env) <= 0 \/ (forall n, now env n < next_rotation_time w) ->
  is_Some (dir (disk w) !! u32 (filenum (item_at t (curidx t)) + 1)) ->
  fopen_errno env (u32 (filenum (item_at t (curidx t)) + 1)) = Some errno ->
  errno = ENFILE \/ errno = EMFILE ->
  u64 (pgaudit_totalspace w + u32 (ftell w fh)) < space_limit env ->
  count t <= u32 (Audit_RemainThreshold (cfg env)) ->
  exists w1,
    PgAuditorMain_pass fuel env w = Done w1 /\
    sysauditFile w1 = None /\
    rotation_disabled w1 = false /\
    rotation_requested w1 = false /\
    PgAuditorMain_pass fuel env w1 = Undefined.
Proof.
  intros Ht Hfh Hmax Hlen Hcur Hreq Hdis Hsize Hbig Htime Hthere Hopen Herr Hspace Hcount.
  pose proof (next_index_bound t (curidx t) Hmax) as Hslot.
  destruct w as [tbl f ts sb nrt rr rd bl po dk tk tr].
  cbn [sysauditFile audit_indextbl rotation_requested rotation_disabled
       next_rotation_time pgaudit_totalspace disk] in *.
  subst tbl f rr rd.
  unfold ftell in Hbig, Hspace. cbn [disk] in Hbig, Hspace.
  assert (Hgen : forall tk' : nat,
    exists w1,
      match
        auditfile_rotate PIPE_BUF fuel env false true
          (mkWorld (Some t) (Some fh) ts sb nrt true false bl po dk tk' tr)
      with
      | Some w =>
          match pgaudit_cleanup PIPE_BUF fuel env w with
          | Some w => Done w
          | None => OutOfFuel
          end
      | None => OutOfFuel
      end = Done w1 /\
      sysauditFile w1 = None /\ rotation_disabled w1 = false /\
      rotation_requested w1 = false /\ next_rotation_time w1 = nrt /\
      tick w1 = S tk').
  { intros tk'. unfold auditfile_rotate. world_fields. cbn [orb].
    unfold time_NULL. world_fields.
    unfold auditfile_close, auditfile_open. world_fields.
    unfold ftell. world_fields.
    set (size := u32 (Z.of_nat (length (inode_content dk fh)))) in *.
    set (item := set_filesize size (item_at t (curidx t))).
    change (filenum item) with (filenum (item_at t (curidx t))).
    set (fnum := u32 (filenum (item_at t (curidx t)) + 1)) in *.
    set (t1 := set_item (curidx t) item t).
    change (curidx t1) with (curidx t).
    change (next_index t1 (curidx t)) with (next_index t (curidx t)).
    set (slot := next_index t (curidx t)) in *.
    change (curidx (set_curidx slot t1)) with slot.
    set (t2 := set_item slot _ (set_curidx slot t1)).
    change (curidx t2) with slot.
    assert (Hl1 : length (data t1) = length (data t))
      by (unfold t1; cbn [data set_item]; by rewrite length_insert).
    assert (Hf : filenum (item_at t2 slot) = fnum).
    { unfold t2. rewrite item_at_set_item_eq; [done|]. cbn [data set_curidx].
      rewrite Hl1. lia. }
    rewrite Hf, Hopen, bool_decide_eq_true_2 by exact Hthere.
    assert (Herrno : negb (errno =? ENFILE) && negb (errno =? EMFILE) = false).
    { destruct Herr as [-> | ->]; reflexivity. }
    rewrite Herrno.
    match goal with
    | |- context [pgaudit_cleanup PIPE_BUF fuel env ?x] => set (w1 := x)
    end.
    assert (Hw1 : sysauditFile w1 = None /\ rotation_disabled w1 = false /\
                  rotation_requested w1 = false /\ next_rotation_time w1 = nrt /\
                  tick w1 = S tk' /\ audit_indextbl w1 = Some t2 /\
                  pgaudit_totalspace w1 = u64 (ts + size)).
    { unfold w1. world_fields. done. }
    destruct Hw1 as (W1 & W2 & W3 & W4 & W5 & W6 & W7).
    assert (Hclean : pgaudit_cleanup PIPE_BUF fuel env w1 = Some w1).
    { unfold pgaudit_cleanup. rewrite W6, W1.
      assert (Hcond : cleanup_cond env 0 w1 t2 = false).
      { unfold cleanup_cond. rewrite W7, Z.add_0_r.
        change (count t2) with (count t).
        apply orb_false_iff. split.
        - apply Z.leb_gt. unfold u64, wrap in *. rewrite Z.mod_mod by lia. exact Hspace.
        - apply Z.ltb_ge. exact Hcount. }
      destruct fuel; cbn [cleanup_loop]; rewrite W6, Hcond; done. }
    rewrite Hclean. exists w1. done. }
  assert (Hlimit : (Audit_RotationSize (cfg env) * 1024 <=?
                      Z.of_nat (length (inode_content dk fh))) ||
                   (Audit_SpaceLimit (cfg env) * 1024 <=?
                      Z.of_nat (length (inode_content dk fh))) = true).
  { apply orb_true_iff. left. by apply Z.leb_le. }
  assert (Hsecond : forall w1,
            sysauditFile w1 = None -> rotation_disabled w1 = false ->
            rotation_requested w1 = false -> next_rotation_time w1 = nrt ->
            PgAuditorMain_pass fuel env w1 = Undefined).
  { intros w1 W1 W2 W3 W4. unfold PgAuditorMain_pass. rewrite W2. cbn [negb].
    rewrite andb_true_r.
    destruct (Z.ltb_spec 0 (Audit_RotationAge (cfg env))) as [Hage|Hage].
    - destruct Htime as [Hoff|Hnot]; [lia|].
      unfold time_NULL.
      destruct w1 as [tbl1 f1 ts1 sb1 nrt1 rr1 rd1 bl1 po1 dk1 tk1 tr1].
      cbn [sysauditFile rotation_disabled rotation_requested next_rotation_time] in *.
      subst. world_fields.
      rewrite (proj2 (Z.leb_gt _ _) (Hnot tk1)). world_fields.
      cbn [negb andb]. rewrite (proj2 (Z.ltb_lt _ _) Hsize). done.
    - rewrite W3, W2, W1. cbn [negb andb]. rewrite (proj2 (Z.ltb_lt _ _) Hsize). done. }
  unfold PgAuditorMain_pass at 1. world_fields. cbn [negb]. rewrite andb_true_r.
  destruct (Z.ltb_spec 0 (Audit_RotationAge (cfg env))) as [Hage|Hage].
  - destruct Htime as [Hoff|Hnot]; [lia|].
    unfold time_NULL. world_fields.
    rewrite (proj2 (Z.leb_gt _ _) (Hnot tk)). world_fields. cbn [negb andb].
    rewrite (proj2 (Z.ltb_lt _ _) Hsize).
    unfold ftell. world_fields. rewrite Hlimit. world_fields. cbn [negb andb].
    destruct (Hgen (S tk)) as (w1 & Hrun & W1 & W2 & W3 & W4 & _).
    unfold with_rotation_requested at 1 2, with_tick. world_fields.
    rewrite Hrun. exists w1. repeat split; try done. by apply Hsecond.
  - cbn [negb andb]. rewrite (proj2 (Z.ltb_lt _ _) Hsize).
    unfold ftell. world_fields. rewrite Hlimit. world_fields. cbn [negb andb].
    destruct (Hgen tk) as (w1 & Hrun & W1 & W2 & W3 & W4 & _).
    unfold with_rotation_requested at 1 2. world_fields.
    rewrite Hrun. exists w1. repeat split; try done. by apply Hsecond.
Qed.

(** X26. A shutdown and the start that follows.  When retention has
    nothing to remove, the shutdown writes the table to the index file and
    closes the audit file without a change to any audit file; a collector
    started on that directory afterwards, with the same threshold, has the
    same table again and appends to the same file. *)
Theorem shutdown_then_start (fuel : nat) (env : Env) (unlink_index_fails : bool)
    (w : World) (t : AuditIndexTable) (fh : nat) :
  audit_indextbl w = Some t ->
  indextbl_in_range t ->
  0 <= begidx t < maxnum t -> 0 <= curidx t < maxnum t ->
  maxnum t = u32 (Audit_RemainThreshold (cfg env) + 1) ->
  count t = AUDIT_COUNT t ->
  sysauditFile w = Some fh ->
  dir (disk w) !! filenum (item_at t (curidx t)) = Some fh ->
  inode_content (disk w) fh <> [] ->
  u64 (pgaudit_totalspace w + ftell w fh) < space_limit env ->
  count t <= u32 (Audit_RemainThreshold (cfg env)) ->
  fopen_errno env (filenum (item_at t (curidx t))) = None ->
  indexfile_open_fails env = false ->
  maxnum t <= Z.of_nat fuel ->
  exists w1,
    PgAuditorMain_shutdown fuel env w = Some w1 /\
    sysauditFile w1 = None /\
    dir (disk w1) = dir (disk w) /\
    inodes (disk w1) = inodes (disk w) /\
    forall w0, disk w0 = disk w1 -> sysauditFile w0 = None ->
      exists w2,
        pgaudit_indextbl_init PIPE_BUF fuel env false unlink_index_fails w0 = Done w2 /\
        audit_indextbl w2 = Some t /\
        sysauditFile w2 = Some fh /\
        dir (disk w2) = dir (disk w) /\
        inodes (disk w2) = inodes (disk w).
Proof.
  intros Ht Hrange Hb Hc Hmax Hcnt Hfh Hdir Hsize Hspace Hcount Hopen Hidx Hfuel.
  destruct w as [tbl f ts sb nrt rr rd bl po dk tk tr].
  cbn [sysauditFile audit_indextbl disk pgaudit_totalspace] in *. subst tbl f.
  unfold ftell in Hspace. cbn [disk] in Hspace.
  unfold PgAuditorMain_shutdown. world_fields.
  assert (Hclean : forall x,
            audit_indextbl x = Some t -> sysauditFile x = Some fh ->
            pgaudit_totalspace x = ts -> disk x = dk ->
            pgaudit_cleanup PIPE_BUF fuel env x = Some x).
  { intros x X1 X2 X3 X4. unfold pgaudit_cleanup. rewrite X1, X2.
    assert (Hcond : cleanup_cond env (ftell x fh) x t = false).
    { unfold cleanup_cond, ftell. rewrite X3, X4.
      apply orb_false_iff. split; [by apply Z.leb_gt|by apply Z.ltb_ge]. }
    destruct fuel; cbn [cleanup_loop]; rewrite X1, Hcond; done. }
  rewrite Hclean by done. cbn [mbind option_bind].
  unfold pgaudit_update_indexfile. rewrite Hidx. world_fields.
  eexists. split; [reflexivity|]. world_fields.
  cbn [disk_set_index dir inodes app].
  repeat split; try done.
  intros w0 Hdisk Hclosed.
  assert (Hsame : set_count (AUDIT_COUNT t) t = t).
  { rewrite <- Hcnt. by destruct t. }
  destruct (indextbl_init_resumes PIPE_BUF fuel env unlink_index_fails w0 t fh)
    as (w2 & Hrun & R1 & R2 & R3 & R4 & _); try done.
  - rewrite Hdisk. done.
  - rewrite Hdisk. done.
  - rewrite Hdisk. exact Hsize.
  - exists w2. rewrite Hsame in R1. rewrite Hdisk in R3, R4.
    repeat split; done.
Qed.

(** X27. The shutdown runs retention on the file as it stands, with no
    rotation before it.  Under space priority, when the table holds one
    file, the open one, and the space it takes has reached the limit, the
    shutdown unlinks that file, zeroes its slot, moves [begidx] on, lowers
    the count and writes that table to the index file before it closes the
    handle. *)
Theorem shutdown_removes_only_file (fuel : nat) (env : Env) (w : World)
    (t : AuditIndexTable) (fh : nat) :
  audit_indextbl w = Some t ->
  sysauditFile w = Some fh ->
  begidx t = curidx t ->
  0 < count t ->
  space_limit env <= u64 (pgaudit_totalspace w + ftell w fh) ->
  Audit_CleanupPolicy (cfg env) <> 0 ->
  unlink_fails env (filenum (item_at t (curidx t))) = false ->
  am_auditor env = true ->
  indexfile_open_fails env = false ->
  last_audit_time t <= now env (tick w) ->
  let victim := item_at t (curidx t) in
  exists w1 t1,
    PgAuditorMain_shutdown (S fuel) env w = Some w1 /\
    sysauditFile w1 = None /\
    dir (disk w1) = delete (filenum victim) (dir (disk w)) /\
    audit_indextbl w1 = Some t1 /\
    index_file (disk w1) = Some (encode_indextbl t1) /\
    data t1 = <[Z.to_nat (curidx t) := zero_item]> (data t) /\
    begidx t1 = next_index t (curidx t) /\
    curidx t1 = curidx t /\
    count t1 = u32 (count t - 1).
Proof.
  intros Ht Hfh Hbeg Hcount Hspace Hpol Hunlink Ham Hidx Hclock victim.
  unfold PgAuditorMain_shutdown.
  set (we := ereport DEBUG1 "auditor shutting down" [] w).
  assert (He : audit_indextbl we = Some t /\ sysauditFile we = Some fh /\
               disk we = disk w /\ tick we = tick w /\
               pgaudit_totalspace we = pgaudit_totalspace w)
    by (unfold we; world_fields; done).
  destruct He as (E1 & E2 & E3 & E4 & E5).
  unfold pgaudit_cleanup. rewrite E1, E2, Hbeg.
  assert (Hfsz : ftell we fh = ftell w fh) by (unfold ftell; by rewrite E3).
  rewrite Hfsz. set (fsz := ftell w fh) in *.
  cbn [cleanup_loop]. rewrite E1.
  assert (Hcond : cleanup_cond env fsz we t = true).
  { unfold cleanup_cond. rewrite E5. apply orb_true_intro. left. by apply Z.leb_le. }
  rewrite Hcond. unfold cleanup_body.
  assert (Htp : cleanup_time_priority env fsz we t = false).
  { unfold cleanup_time_priority.
    destruct (Z.eqb_spec (Audit_CleanupPolicy (cfg env)) 0); [done|].
    rewrite andb_false_r. done. }
  rewrite Htp. cbn [andb]. fold victim in Hunlink |- *.
  rewrite Hunlink, andb_false_r.
  set (w2 := with_disk (disk_unlink (filenum victim) (disk we)) we).
  pose proof (cleanup_warn_removed_same env fsz victim t w2) as (Hr1 & Hr2 & Hr3).
  set (w3 := cleanup_warn_removed env fsz victim t w2) in *.
  unfold cleanup_forget.
  destruct (Z.ltb_spec 0 (count t)) as [_|]; [|lia].
  set (t1 := set_item (curidx t) zero_item
               (set_begidx (next_index (set_count (u32 (count t - 1)) t) (curidx t))
                  (set_count (u32 (count t - 1)) t))).
  match goal with
  | |- context [pgaudit_update_indexfile env PG_BINARY_W true ?x] =>
      pose proof (pgaudit_update_indexfile_same env PG_BINARY_W true x) as (Hu1 & Hu2 & Hu3);
      set (w4 := pgaudit_update_indexfile env PG_BINARY_W true x) in *
  end.
  cbn [disk audit_indextbl tick with_indextbl with_totalspace] in Hu1, Hu2, Hu3.
  rewrite (audit_report_plain PIPE_BUF _ env _ _ _ w4 Ham).
  2:{ unfold steady. rewrite Hu2, Hu3, Hr3. intros t' [= <-].
      unfold w2. cbn [tick with_disk]. rewrite E4. exact Hclock. }
  cbn [mbind option_bind].
  match goal with
  | |- context [report_plain ?e ?r ?o ?dt ?x] =>
      pose proof (report_plain_indextbl e r o dt x) as Htbl;
      pose proof (report_plain_dir e r o dt x) as Hdir;
      set (w5 := report_plain e r o dt x) in *
  end.
  rewrite Hu2 in Htbl. rewrite Hu1, Hr1 in Hdir.
  unfold w2 in Hdir. cbn [disk with_disk disk_unlink dir] in Hdir. rewrite E3 in Hdir.
  assert (Hfields : forall t5,
            t5 = t1 \/ t5 = set_last_audit_time (now env (tick w4)) t1 ->
            data t5 = <[Z.to_nat (curidx t) := zero_item]> (data t) /\
            begidx t5 = next_index t (curidx t) /\ curidx t5 = curidx t /\
            count t5 = u32 (count t - 1)).
  { intros t5 [->| ->]; unfold t1; cbn [data begidx curidx count set_item set_begidx
      set_count set_last_audit_time]; done. }
  assert (Hfinal : forall t5, audit_indextbl w5 = Some t5 ->
            index_file (disk (with_sysauditFile None
                                (pgaudit_update_indexfile env PG_BINARY_W true w5))) =
              Some (encode_indextbl t5) /\
            dir (disk (with_sysauditFile None
                         (pgaudit_update_indexfile env PG_BINARY_W true w5))) =
              delete (filenum victim) (dir (disk w)) /\
            audit_indextbl (with_sysauditFile None
                              (pgaudit_update_indexfile env PG_BINARY_W true w5)) = Some t5).
  { intros t5 H5. unfold pgaudit_update_indexfile. rewrite Hidx, H5. world_fields.
    cbn [disk_set_index index_file dir app]. rewrite Hdir. done. }
  destruct Htbl as [Htbl|Htbl]; cbn [fmap option_fmap option_map] in Htbl; rewrite Htbl.
  - destruct (Hfields t1 (or_introl eq_refl)) as (F1 & F2 & F3 & F4).
    destruct (Hfinal t1 Htbl) as (G1 & G2 & G3).
    rewrite F3, Z.eqb_refl. cbn [mbind option_bind].
    eexists _, t1. split; [reflexivity|]. repeat split; done.
  - destruct (Hfields _ (or_intror eq_refl)) as (F1 & F2 & F3 & F4).
    destruct (Hfinal _ Htbl) as (G1 & G2 & G3).
    rewrite F3, Z.eqb_refl. cbn [mbind option_bind].
    eexists _, (set_last_audit_time (now env (tick w4)) t1).
    split; [reflexivity|]. repeat split; done.
Qed.

End MainLoop.


(** * Instances for the walk, the flush, the start and the main loop *)

(** Two files in a ring of three slots that wraps: the older one in slot
    2, the current one in slot 0. *)
Definition ring_tbl : AuditIndexTable :=
  mkTbl 3 2 0 2 900 [mkItem 900 6 0; zero_item; mkItem 800 5 300].

Definition ring_disk : Disk :=
  mkDisk {[ 5 := O; 6 := 1%nat ]} [record_a; record_a]
    (Some (encode_indextbl ring_tbl)).

Lemma query_walks_ring_witness :
  last (ring 3 ring_tbl (begidx ring_tbl)) = Some (curidx ring_tbl) /\
  Z.of_nat (length (ring 3 ring_tbl (begidx ring_tbl))) = AUDIT_COUNT ring_tbl /\
  pg_query_audit sample_conv sample_MaxAllocSize 3 sample_ctx false ring_disk
    (sample_conv 850) (sample_conv 1001) =
  Done (concat (map (fun i => rows_of (file_rows sample_conv sample_MaxAllocSize
                                         (sample_conv 850) (sample_conv 1001) ring_disk
                                         (filenum (item_at ring_tbl i))))
                  (visited sample_conv (sample_conv 850) (sample_conv 1001) 3
                     ring_tbl (begidx ring_tbl))),
        map (fun i => filenum (item_at ring_tbl i))
          (visited sample_conv (sample_conv 850) (sample_conv 1001) 3
             ring_tbl (begidx ring_tbl))).
Proof.
  apply (query_walks_ring sample_conv sample_MaxAllocSize 3 sample_ctx ring_disk
           ring_tbl (sample_conv 850) (sample_conv 1001)).
  - reflexivity.
  - reflexivity.
  - reflexivity.
  - reflexivity.
  - reflexivity.
  - vm_compute. reflexivity.
  - vm_compute. split; [discriminate|reflexivity].
  - vm_compute. split; [discriminate|reflexivity].
  - reflexivity.
  - reflexivity.
  - reflexivity.
  - vm_compute. discriminate.
  - change (visited sample_conv (sample_conv 850) (sample_conv 1001) 3 ring_tbl
              (begidx ring_tbl)) with [2; 0].
    repeat constructor; eexists; vm_compute; reflexivity.
Defined.

(** A collector that holds the first half of a message of process 77 and
    three bytes in its read buffer. *)
Definition holding_world : World :=
  with_buffer_lists {[ 77 := [mkSave 0 []; mkSave 77 record_a] ]}
    (one_file_world record_a).

Lemma sample_clock_monotone (tk : nat) : clock_monotone sample_env tk.
Proof. intros n _. cbn. lia. Qed.

Lemma flush_writes_everything_witness :
  exists m' w',
    flush_pipe_input (Some 512) 1 sample_env [1; 2; 3; 4] 3 holding_world
      = Some (m', O, w') /\
    inode_content (disk w') O =
      inode_content (disk holding_world) O ++
      stamped sample_env (tick holding_world)
        (held (buffer_lists holding_world) (Z.to_nat NBUFFER_LISTS) 0 ++
         if (0 <? 3)%nat then [take 3 [1; 2; 3; 4]] else []) /\
    (forall k l, 0 <= k < NBUFFER_LISTS -> buffer_lists w' !! k = Some l ->
                 Forall (fun b => sb_pid b = 0) l) /\
    dir (disk w') = dir (disk holding_world) /\
    sysauditFile w' = Some O.
Proof.
  apply (flush_writes_everything (Some 512) sample_env 1 O [1; 2; 3; 4] 3 holding_world).
  - reflexivity.
  - vm_compute. eexists. reflexivity.
  - apply (steady_with_buffer_lists sample_env), sample_steady.
  - apply sample_clock_monotone.
  - cbn. lia.
Defined.

(** The same collector after a rotation that could not open a file. *)
Definition holding_world_closed : World :=
  with_sysauditFile None holding_world.

Lemma flush_without_file_discards_witness :
  exists w',
    flush_pipe_input (Some 512) 1 sample_env [1; 2; 3; 4] 3 holding_world_closed =
      Some ([1; 2; 3; 4], O, w') /\
    disk w' = disk holding_world_closed /\
    tick w' = tick holding_world_closed /\
    audit_indextbl w' = audit_indextbl holding_world_closed /\
    (forall k l, 0 <= k < NBUFFER_LISTS -> buffer_lists w' !! k = Some l ->
                 Forall (fun b => sb_pid b = 0) l).
Proof.
  apply (flush_without_file_discards (Some 512) sample_env 1 [1; 2; 3; 4] 3
           holding_world_closed).
  reflexivity.
Defined.

Lemma threshold_change_keeps_order_witness :
  exists new,
    resize_indextbl 3 5 ring_tbl = Done new /\
    maxnum new = 5 /\ begidx new = 0 /\
    curidx new = AUDIT_COUNT ring_tbl - 1 /\ count new = AUDIT_COUNT ring_tbl /\
    last_audit_time new = 0 /\
    data new = map (item_at ring_tbl) (ring 3 ring_tbl (begidx ring_tbl)) ++
               replicate (Z.to_nat (5 - AUDIT_COUNT ring_tbl)) zero_item /\
    map (item_at new) (ring 3 new 0) =
      map (item_at ring_tbl) (ring 3 ring_tbl (begidx ring_tbl)).
Proof.
  apply (threshold_change_keeps_order 3 5 ring_tbl).
  - reflexivity.
  - vm_compute. split; [discriminate|reflexivity].
  - vm_compute. split; [discriminate|reflexivity].
  - reflexivity.
  - vm_compute. discriminate.
  - vm_compute. discriminate.
  - vm_compute. discriminate.
Defined.

(** A directory as a collector left it, and the state of a collector that
    starts. *)
Definition starting_world (d : Disk) : World :=
  mkWorld None None 0 0 0 false false ∅ [] d 0 [].

Lemma restart_resumes_file_witness :
  let t' := set_count (AUDIT_COUNT one_file_tbl) one_file_tbl in
  let total := foldl (fun acc i => u64 (acc + filesize (item_at one_file_tbl i))) 0
                 (ring 3 one_file_tbl (begidx one_file_tbl)) in
  exists w',
    pgaudit_indextbl_init (Some 512) 3 sample_env false false (starting_world sample_disk)
      = Done w' /\
    audit_indextbl w' = Some t' /\
    sysauditFile w' = Some O /\
    dir (disk w') = dir (disk (starting_world sample_disk)) /\
    inodes (disk w') = inodes (disk (starting_world sample_disk)) /\
    index_file (disk w') = Some (encode_indextbl t') /\
    pgaudit_totalspace w' = total /\
    space_beyond_size w' =
      u64 (total / SPACE_INTERVAL_SIZE * SPACE_INTERVAL_SIZE + SPACE_INTERVAL_SIZE) /\
    trace w' = trace (starting_world sample_disk).
Proof.
  apply (restart_resumes_file (Some 512) 3 sample_env false (starting_world sample_disk)
           one_file_tbl O).
  - reflexivity.
  - exact one_file_tbl_in_range.
  - vm_compute. split; [discriminate|reflexivity].
  - vm_compute. split; [discriminate|reflexivity].
  - reflexivity.
  - reflexivity.
  - reflexivity.
  - vm_compute. discriminate.
  - reflexivity.
  - reflexivity.
  - vm_compute. discriminate.
Defined.

Lemma first_start_creates_file_witness :
  let w := starting_world (mkDisk ∅ [] None) in
  let newmax := Audit_RemainThreshold (cfg sample_env) + 1 in
  let t0 := mkTbl newmax 0 0 1 0
              (<[O := mkItem (now sample_env (tick w)) 0 0]>
                 (replicate (Z.to_nat newmax) zero_item)) in
  let reporting := Audit_enabled (cfg sample_env) && negb (ha_pending sample_env) in
  let curtime := now sample_env (S (tick w)) in
  exists w',
    pgaudit_indextbl_init (Some 512) 1 sample_env false false w = Done w' /\
    audit_indextbl w' =
      Some (if reporting then set_last_audit_time curtime t0 else t0) /\
    sysauditFile w' = Some (length (inodes (disk w))) /\
    dir (disk w') = <[0 := length (inodes (disk w))]> (dir (disk w)) /\
    inodes (disk w') =
      inodes (disk w) ++ [if reporting then creation_record sample_env curtime else []] /\
    index_file (disk w') = Some (encode_indextbl t0).
Proof.
  apply (first_start_creates_file (Some 512) 1 sample_env false
           (starting_world (mkDisk ∅ [] None))).
  - reflexivity.
  - reflexivity.
  - reflexivity.
  - reflexivity.
  - reflexivity.
  - reflexivity.
  - vm_compute. split; [discriminate|reflexivity].
  - vm_compute. discriminate.
Defined.

(** A collector that rotates at one kilobyte, with no rotation by time. *)
Definition small_rotation_env : Env :=
  mkEnv (mkConfig true 0 1 1024 2 1 1) (fun n => 1000 + Z.of_nat n) (fun _ => 0)
    false true true 77 None (Some (of_string "dn1")) (fun _ => true) (fun _ => None)
    (fun _ => false) false 0.

(** The same when the table of open files is full. *)
Definition no_handle_env : Env :=
  mkEnv (mkConfig true 0 1 1024 2 1 1) (fun n => 1000 + Z.of_nat n) (fun _ => 0)
    false true true 77 None (Some (of_string "dn1")) (fun _ => true)
    (fun _ => Some ENFILE) (fun _ => false) false 0.

Lemma pass_rotates_before_cleanup_witness :
  let w := one_file_world (replicate 1500 0) in
  let timed := 0 <? Audit_RotationAge (cfg small_rotation_env) in
  let due := timed && (next_rotation_time w <=? now small_rotation_env (tick w)) in
  let w0 := with_rotation_requested true
              (if timed then with_tick (S (tick w)) w else w) in
  PgAuditorMain_pass (Some 512) 2 small_rotation_env w =
  match auditfile_rotate (Some 512) 2 small_rotation_env due (negb due) w0 with
  | Some w1 =>
      match pgaudit_cleanup (Some 512) 2 small_rotation_env w1 with
      | Some w2 => Done w2
      | None => OutOfFuel
      end
  | None => OutOfFuel
  end.
Proof.
  apply (pass_rotates_before_cleanup (Some 512) 2 small_rotation_env
           (one_file_world (replicate 1500 0)) O).
  - reflexivity.
  - reflexivity.
  - reflexivity.
  - left. vm_compute. discriminate.
Defined.

(** A collector whose directory still has a file under the next number,
    left there by an earlier run. *)
Definition leftover_world : World :=
  mkWorld (Some one_file_tbl) (Some O) 0 0 3600 false false ∅ []
    (mkDisk {[ 5 := O; 6 := 1%nat ]} [replicate 1500 0; record_a] None) 0 [].

Lemma failed_rotation_then_null_handle_witness :
  exists w1,
    PgAuditorMain_pass (Some 512) 2 no_handle_env leftover_world = Done w1 /\
    sysauditFile w1 = None /\
    rotation_disabled w1 = false /\
    rotation_requested w1 = false /\
    PgAuditorMain_pass (Some 512) 2 no_handle_env w1 = Undefined.
Proof.
  apply (failed_rotation_then_null_handle (Some 512) 2 no_handle_env
           leftover_world one_file_tbl O ENFILE).
  - reflexivity.
  - reflexivity.
  - reflexivity.
  - reflexivity.
  - vm_compute. split; [discriminate|reflexivity].
  - reflexivity.
  - reflexivity.
  - reflexivity.
  - vm_compute. discriminate.
  - left. vm_compute. discriminate.
  - vm_compute. eexists. reflexivity.
  - reflexivity.
  - left. reflexivity.
  - vm_compute. reflexivity.
  - vm_compute. discriminate.
Defined.

Lemma shutdown_then_start_witness :
  exists w1,
    PgAuditorMain_shutdown (Some 512) 3 sample_env (one_file_world record_a) = Some w1 /\
    sysauditFile w1 = None /\
    dir (disk w1) = dir (disk (one_file_world record_a)) /\
    inodes (disk w1) = inodes (disk (one_file_world record_a)) /\
    forall w0, disk w0 = disk w1 -> sysauditFile w0 = None ->
      exists w2,
        pgaudit_indextbl_init (Some 512) 3 sample_env false false w0 = Done w2 /\
        audit_indextbl w2 = Some one_file_tbl /\
        sysauditFile w2 = Some O /\
        dir (disk w2) = dir (disk (one_file_world record_a)) /\
        inodes (disk w2) = inodes (disk (one_file_world record_a)).
Proof.
  apply (shutdown_then_start (Some 512) 3 sample_env false (one_file_world record_a)
           one_file_tbl O).
  - reflexivity.
  - exact one_file_tbl_in_range.
  - vm_compute. split; [discriminate|reflexivity].
  - vm_compute. split; [discriminate|reflexivity].
  - reflexivity.
  - reflexivity.
  - reflexivity.
  - reflexivity.
  - vm_compute. discriminate.
  - vm_compute. reflexivity.
  - vm_compute. discriminate.
  - reflexivity.
  - reflexivity.
  - vm_compute. discriminate.
Defined.

(** A collector whose space limit is one kilobyte, under space priority. *)
Definition tight_env : Env :=
  mkEnv (mkConfig true 60 10240 1 2 1 1) (fun n => 1000 + Z.of_nat n) (fun _ => 0)
    false true true 77 None (Some (of_string "dn1")) (fun _ => true) (fun _ => None)
    (fun _ => false) false 0.

Lemma shutdown_removes_only_file_witness :
  let w := one_file_world (replicate 1500 0) in
  let victim := item_at one_file_tbl (curidx one_file_tbl) in
  exists w1 t1,
    PgAuditorMain_shutdown (Some 512) 1 tight_env w = Some w1 /\
    sysauditFile w1 = None /\
    dir (disk w1) = delete (filenum victim) (dir (disk w)) /\
    audit_indextbl w1 = Some t1 /\
    index_file (disk w1) = Some (encode_indextbl t1) /\
    data t1 = <[Z.to_nat (curidx one_file_tbl) := zero_item]> (data one_file_tbl) /\
    begidx t1 = next_index one_file_tbl (curidx one_file_tbl) /\
    curidx t1 = curidx one_file_tbl /\
    count t1 = u32 (count one_file_tbl - 1).
Proof.
  apply (shutdown_removes_only_file (Some 512) O tight_env
           (one_file_world (replicate 1500 0)) one_file_tbl O).
  - reflexivity.
  - reflexivity.
  - reflexivity.
  - reflexivity.
  - vm_compute. discriminate.
  - vm_compute. discriminate.
  - reflexivity.
  - reflexivity.
  - reflexivity.
  - vm_compute. discriminate.
Defined.


(** * Deleting and querying over the whole directory *)

Section DeleteDirectory.
Variable conv : Z -> Z.
Variable MaxAllocSize : Z.
Variables begtime endtime : Z.

(** A file that is absent, or a sequence of fewer than [n] well-formed
    records. *)
Definition records_file (n : nat) (d : Disk) (fnum : Z) : Prop :=
  forall c, file_content d fnum = Some c ->
    exists records,
      c = concat records /\
      Forall (fun r => record_wf MaxAllocSize r = true) records /\
      (length records < n)%nat.

(** The same with no record selected by the range. *)
Definition cleared_file (d : Disk) (fnum : Z) : Prop :=
  forall c, file_content d fnum = Some c ->
    exists records,
      c = concat records /\
      Forall (fun r => record_wf MaxAllocSize r = true) records /\
      Forall (fun r => selected conv begtime endtime r = false) records.

Lemma file_content_store_other (d : Disk) (fnum g : Z) (c0 c : bytes) :
  file_content d fnum = Some c0 ->
  file_content (disk_store fnum c d) g = Some c \/
  file_content (disk_store fnum c d) g = file_content d g.
Proof.
  unfold file_content, disk_store. intros H.
  destruct (dir d !! fnum) as [ino|] eqn:E; [|done]. cbn in H. cbn [dir inodes].
  destruct (dir d !! g) as [j|]; [|by right]. cbn.
  destruct (decide (ino = j)) as [<-|Hne].
  - left. apply list_lookup_insert_eq. by eapply lookup_lt_Some.
  - right. by apply list_lookup_insert_ne.
Qed.

(** One file gone over by the delete scan. *)
Lemma delete_file_cleared (n fuel : nat) (header0 : bytes) (d : Disk) (fnum : Z) :
  records_file n d fnum -> (n <= fuel)%nat ->
  exists d',
    pgaudit_delete_file conv fuel header0 d fnum begtime endtime = Some d' /\
    dir d' = dir d /\ index_file d' = index_file d /\
    cleared_file d' fnum /\
    (forall g, records_file n d g -> records_file n d' g) /\
    (forall g, cleared_file d g -> cleared_file d' g).
Proof.
  intros Hfile Hfuel. unfold pgaudit_delete_file.
  destruct (file_content d fnum) as [c|] eqn:Ec.
  2:{ exists d. split; [done|]. repeat split; try done.
      intros c Hc. congruence. }
  destruct (Hfile c Ec) as (records & -> & Hwf & Hlen).
  assert (Hframes : Forall (fun r => frame_wf r = true) records).
  { eapply Forall_impl; [exact Hwf|]. intros r Hr.
    by apply (record_wf_frame_wf MaxAllocSize) in Hr as [? _]. }
  pose proof (delete_loop_frames conv begtime endtime records Hframes fuel []
                (resize (Z.to_nat sizeof_AuditMsgHdr) 0 header0)
                ltac:(by rewrite length_resize) ltac:(lia)) as Hdel.
  cbn [app length] in Hdel. change (Z.of_nat 0) with 0 in Hdel.
  rewrite (tombstone_frames_records conv MaxAllocSize) in Hdel by done.
  rewrite Hdel. cbn [mbind option_bind].
  set (records' := map (tombstone conv begtime endtime) records) in *.
  assert (Hwf' : Forall (fun r => record_wf MaxAllocSize r = true) records').
  { unfold records'. apply Forall_fmap. eapply Forall_impl; [exact Hwf|].
    intros r Hr. cbn. by apply tombstone_record_wf. }
  assert (Hclr : Forall (fun r => selected conv begtime endtime r = false) records').
  { unfold records'. apply Forall_fmap. eapply Forall_impl; [exact Hwf|].
    intros r Hr. cbn.
    apply (record_wf_frame_wf MaxAllocSize) in Hr as (Hf & _ & _).
    apply frame_wf_inv in Hf as [Hl _].
    rewrite selected_tombstone by done.
    destruct (selected conv begtime endtime r); done. }
  assert (Hlen' : (length records' < n)%nat) by (unfold records'; by rewrite length_map).
  eexists. split; [reflexivity|].
  assert (Hdir : dir (disk_store fnum (concat records') d) = dir d).
  { unfold disk_store. destruct (dir d !! fnum); done. }
  assert (Hidx : index_file (disk_store fnum (concat records') d) = index_file d).
  { unfold disk_store. destruct (dir d !! fnum); done. }
  repeat split; try done.
  - intros c Hc. rewrite (file_content_store d fnum _ _ Ec) in Hc. injection Hc as <-.
    exists records'. done.
  - intros g Hg c Hc.
    destruct (file_content_store_other d fnum g _ (concat records') Ec) as [H|H];
      rewrite H in Hc.
    + injection Hc as <-. exists records'. done.
    + by apply Hg.
  - intros g Hg c Hc.
    destruct (file_content_store_other d fnum g _ (concat records') Ec) as [H|H];
      rewrite H in Hc.
    + injection Hc as <-. exists records'. done.
    + by apply Hg.
Qed.

(** The scan of a file in which the range selects nothing. *)
Lemma cleared_file_rows (d : Disk) (fnum : Z) :
  cleared_file d fnum ->
  file_rows conv MaxAllocSize begtime endtime d fnum = Done [].
Proof.
  intros Hclr. unfold file_rows, pgaudit_query_file.
  destruct (file_content d fnum) as [c|] eqn:Ec; [|done].
  destruct (Hclr c Ec) as (records & -> & Hwf & Hnone).
  destruct (scan_file_records conv MaxAllocSize begtime endtime records Hwf)
    as (rows & Hrows & Hscan).
  rewrite Hscan.
  assert (Hfil : List.filter (selected conv begtime endtime) records = []).
  { clear -Hnone. induction Hnone as [|r records Hr _ IH]; [done|].
    cbn [List.filter]. rewrite Hr. exact IH. }
  rewrite Hfil in Hrows. cbn in Hrows. injection Hrows as <-. done.
Qed.

Lemma visited_S (fuel : nat) (t : AuditIndexTable) (index : Z) :
  visited conv begtime endtime (S fuel) t index =
  (if pgaudit_check_system conv begtime endtime index t then [index] else []) ++
  (if index =? curidx t then []
   else visited conv begtime endtime fuel t (next_index t index)).
Proof.
  unfold visited. cbn [ring List.filter].
  destruct (pgaudit_check_system conv begtime endtime index t);
    destruct (index =? curidx t); done.
Qed.

Lemma delete_slots_ring (n : nat) (header0 : bytes) (t : AuditIndexTable)
    (V : list Z) :
  0 <= curidx t < maxnum t -> maxnum t < 2 ^ 32 ->
  forall (fuel : nat) (index : Z) (d : Disk) (opened : list Z),
    0 <= index < maxnum t ->
    ring_distance t index + Z.of_nat n < Z.of_nat fuel ->
    Forall (fun i => records_file n d (filenum (item_at t i))) V ->
    (forall i, i ∈ visited conv begtime endtime fuel t index -> i ∈ V) ->
    exists d',
      delete_slots conv fuel header0 d t begtime endtime index opened =
        Done (d', opened ++ map (fun i => filenum (item_at t i))
                              (visited conv begtime endtime fuel t index)) /\
      dir d' = dir d /\ index_file d' = index_file d /\
      Forall (fun i => records_file n d' (filenum (item_at t i))) V /\
      (forall g, cleared_file d g -> cleared_file d' g) /\
      Forall (fun i => cleared_file d' (filenum (item_at t i)))
        (visited conv begtime endtime fuel t index).
Proof.
  intros Hc Hm. induction fuel as [|fuel IH]; intros index d opened Hi Hd HV Hsub.
  { pose proof (ring_distance_range t index ltac:(lia)). lia. }
  pose proof (ring_distance_range t index ltac:(lia)) as Hdr.
  cbn [delete_slots]. rewrite visited_S in Hsub |- *.
  assert (Hstep : exists d1,
    (if pgaudit_check_system conv begtime endtime index t
     then (pgaudit_delete_file conv fuel header0 d (filenum (item_at t index))
             begtime endtime, opened ++ [filenum (item_at t index)])
     else (Some d, opened)) =
    (Some d1,
     opened ++ map (fun i => filenum (item_at t i))
                 (if pgaudit_check_system conv begtime endtime index t
                  then [index] else [])) /\
    dir d1 = dir d /\ index_file d1 = index_file d /\
    Forall (fun i => records_file n d1 (filenum (item_at t i))) V /\
    (forall g, cleared_file d g -> cleared_file d1 g) /\
    Forall (fun i => cleared_file d1 (filenum (item_at t i)))
      (if pgaudit_check_system conv begtime endtime index t then [index] else [])).
  { destruct (pgaudit_check_system conv begtime endtime index t) eqn:Echeck.
    - assert (Hin : index ∈ V) by (apply Hsub; cbn [app]; apply list_elem_of_here).
      pose proof (proj1 (Forall_forall _ _) HV index Hin) as Hfile.
      destruct (delete_file_cleared n fuel header0 d _ Hfile ltac:(lia))
        as (d1 & Hdel & D1 & D2 & D3 & D4 & D5).
      exists d1. rewrite Hdel. repeat split; try done.
      + eapply Forall_impl; [exact HV|]. intros i Hi'. by apply D4.
      + by constructor.
    - exists d. cbn [map]. rewrite app_nil_r. repeat split; try done. }
  destruct Hstep as (d1 & -> & D1 & D2 & D3 & D4 & D5).
  destruct (Z.eqb_spec index (curidx t)) as [E|E].
  - exists d1. rewrite !app_nil_r. repeat split; done.
  - destruct (ring_distance_next t index Hi Hc Hm E) as (Hn & Hdn & _).
    destruct (IH (next_index t index) d1
                (opened ++ map (fun i => filenum (item_at t i))
                   (if pgaudit_check_system conv begtime endtime index t
                    then [index] else []))
                Hn ltac:(lia) D3) as (d2 & Hrun & R1 & R2 & R3 & R4 & R5).
    { intros i Hi'. apply Hsub. apply elem_of_app. by right. }
    exists d2. rewrite Hrun, map_app, app_assoc.
    repeat split; try done; try congruence.
    + intros g Hg. by apply R4, D4.
    + apply Forall_app. split; [|done].
      eapply Forall_impl; [exact D5|]. intros i Hi'. by apply R4.
Qed.

(** X28. What [pg_delete_audit] has deleted, [pg_query_audit] no longer
    returns.  When the files of the slots the walk visits are sequences of
    well-formed records, a delete over a range of time ends, leaves the
    names and the index file as they were, and a query over the same range
    afterwards opens the same files and returns no row. *)
Theorem delete_then_query_directory (fuel n : nat) (header0 : bytes) (ctx : CallCtx)
    (d : Disk) (t : AuditIndexTable) :
  has_auditadmin_privilege ctx = true -> rsinfo_is_set ctx = true ->
  materialize_allowed ctx = true -> result_is_composite ctx = true ->
  natts ctx = PGAUDIT_QUERY_COLS ->
  pgaudit_read_indexfile false d = Some t ->
  0 <= begidx t < maxnum t -> 0 <= curidx t < maxnum t -> maxnum t < 2 ^ 32 ->
  begtime < endtime -> 0 < count t ->
  maxnum t + Z.of_nat n <= Z.of_nat fuel ->
  let slots := visited conv begtime endtime fuel t (begidx t) in
  Forall (fun i => records_file n d (filenum (item_at t i))) slots ->
  exists d',
    pg_delete_audit conv fuel header0 ctx false d begtime endtime =
      Done (d', map (fun i => filenum (item_at t i)) slots) /\
    dir d' = dir d /\ index_file d' = index_file d /\
    pg_query_audit conv MaxAllocSize fuel ctx false d' begtime endtime =
      Done ([], map (fun i => filenum (item_at t i)) slots).
Proof.
  intros Hpriv Hrs Hmat Hcomp Hnatts Hread Hb Hc Hm Hlt Hcount Hfuel slots Hfiles.
  pose proof (ring_distance_range t (begidx t) ltac:(lia)) as Hdist.
  destruct (delete_slots_ring n header0 t slots Hc Hm fuel (begidx t) d [] Hb
              ltac:(lia) Hfiles ltac:(done))
    as (d' & Hrun & R1 & R2 & _ & _ & Hclr).
  exists d'. unfold pg_delete_audit.
  rewrite Hpriv, Hread. cbn [negb].
  rewrite (proj2 (Z.ltb_lt _ _) Hlt), (proj2 (Z.ltb_lt _ _) Hcount). cbn [andb].
  split; [exact Hrun|]. split; [done|]. split; [done|].
  assert (Hread' : pgaudit_read_indexfile false d' = Some t).
  { unfold pgaudit_read_indexfile in *. rewrite R2. exact Hread. }
  unfold pg_query_audit.
  rewrite Hpriv, Hrs, Hmat, Hcomp, Hnatts, Z.eqb_refl, Hread'. cbn [negb].
  rewrite (proj2 (Z.ltb_lt _ _) Hlt), (proj2 (Z.ltb_lt _ _) Hcount). cbn [andb].
  rewrite (query_slots_ring conv MaxAllocSize begtime endtime d' t Hc Hm) by
    first [ done | lia
          | eapply Forall_impl; [exact Hclr|]; intros i Hi; cbn;
            exists []; by apply cleared_file_rows ].
  cbn [app]. fold slots. do 2 f_equal.
  clear -Hclr. fold slots in Hclr.
  induction Hclr as [|i l Hi _ IH]; [done|].
  cbn [map concat]. rewrite (cleared_file_rows _ _ Hi), IH. done.
Qed.

End DeleteDirectory.


Lemma ring_disk_records (fnum : Z) :
  fnum = 5 \/ fnum = 6 ->
  records_file sample_MaxAllocSize 2 ring_disk fnum.
Proof.
  intros Hf c Hc.
  assert (Hfile : file_content ring_disk fnum = Some record_a)
    by (destruct Hf as [-> | ->]; vm_compute; reflexivity).
  rewrite Hfile in Hc. injection Hc as <-.
  exists [record_a]. split; [|split].
  - cbn [concat]. by rewrite app_nil_r.
  - constructor; [vm_compute; reflexivity|constructor].
  - cbn. lia.
Qed.

Lemma delete_then_query_directory_witness :
  let slots := visited sample_conv (sample_conv 850) (sample_conv 1001) 8 ring_tbl
                 (begidx ring_tbl) in
  exists d',
    pg_delete_audit sample_conv 8 [] sample_ctx false ring_disk
      (sample_conv 850) (sample_conv 1001) =
      Done (d', map (fun i => filenum (item_at ring_tbl i)) slots) /\
    dir d' = dir ring_disk /\ index_file d' = index_file ring_disk /\
    pg_query_audit sample_conv sample_MaxAllocSize 8 sample_ctx false d'
      (sample_conv 850) (sample_conv 1001) =
      Done ([], map (fun i => filenum (item_at ring_tbl i)) slots).
Proof.
  apply (delete_then_query_directory sample_conv sample_MaxAllocSize
           (sample_conv 850) (sample_conv 1001) 8 2 [] sample_ctx ring_disk ring_tbl).
  - reflexivity.
  - reflexivity.
  - reflexivity.
  - reflexivity.
  - reflexivity.
  - vm_compute. reflexivity.
  - vm_compute. split; [discriminate|reflexivity].
  - vm_compute. split; [discriminate|reflexivity].
  - reflexivity.
  - reflexivity.
  - reflexivity.
  - vm_compute. discriminate.
  - change (visited sample_conv (sample_conv 850) (sample_conv 1001) 8 ring_tbl
              (begidx ring_tbl)) with [2; 0].
    repeat constructor.
    + apply ring_disk_records. by left.
    + apply ring_disk_records. by right.
Defined.


(** * Query closure *)

Section QueryClosure.
Variable conv : Z -> Z.
Variable MaxAllocSize : Z.

(** The scan over well-formed records that something else follows: one
    turn of the loop for each record. *)
Lemma query_loop_prefix begtime endtime records (tail : bytes) :
  Forall (fun r => record_wf MaxAllocSize r = true) records ->
  exists rows,
    mapM (make_row conv) (List.filter (selected conv begtime endtime) records) = Some rows /\
    forall steps pre rows0,
      query_loop conv MaxAllocSize (length records + steps) begtime endtime
        (pre ++ concat records ++ tail) (length pre) rows0 =
      query_loop conv MaxAllocSize steps begtime endtime
        (pre ++ concat records ++ tail) (length pre + length (concat records))
        (rows0 ++ rows).
Proof.
  induction 1 as [|r records Hr _ (rows & Hm & IH)].
  - exists []. split; [done|]. intros steps pre rows0.
    cbn [concat length Nat.add]. by rewrite Nat.add_0_r, app_nil_r.
  - pose proof (record_wf_row conv MaxAllocSize r Hr) as [row Hrow].
    apply record_wf_inv in Hr as (Hr & H2 & [H1 H0] & _).
    exists (if selected conv begtime endtime r then row :: rows else rows).
    split.
    { cbn [List.filter]. destruct (selected conv begtime endtime r); [|done].
      apply mapM_Some. constructor; [done|]. by apply mapM_Some. }
    intros steps pre rows0.
    cbn [concat length Nat.add query_loop]. unfold sizeof_AuditMsgHdr.
    change (Z.to_nat 24) with 24%nat.
    rewrite <- (app_assoc r).
    rewrite read_at_frame by lia.
    rewrite length_take_le by lia. rewrite Nat.ltb_irrefl.
    rewrite header_ok_take, Hr. cbn [negb].
    rewrite hdr_size_take, H2.
    destruct (MaxAllocSize <? Z.of_nat (length r)) eqn:E1; [apply Z.ltb_lt in E1; lia|].
    destruct (Z.of_nat (length r) <? 24) eqn:E2; [apply Z.ltb_lt in E2; lia|].
    rewrite Nat2Z.id.
    rewrite read_at_frame by lia. rewrite firstn_all.
    destruct (Z.of_nat (length r) =? 24) eqn:E3; [apply Z.eqb_eq in E3; lia|].
    rewrite Nat.ltb_irrefl. cbn [orb].
    rewrite selected_take.
    replace (pre ++ r ++ concat records ++ tail) with ((pre ++ r) ++ concat records ++ tail)
      by (by rewrite <- app_assoc).
    replace (length pre + length r)%nat with (length (pre ++ r))
      by (by rewrite length_app).
    replace (length pre + length (r ++ concat records))%nat
      with (length (pre ++ r) + length (concat records))%nat
      by (rewrite !length_app; lia).
    destruct (selected conv begtime endtime r) eqn:Esel.
    + rewrite Hrow, IH. by rewrite <- (app_assoc rows0).
    + apply IH.
Qed.

Lemma records_count (records : list bytes) :
  Forall (fun r => record_wf MaxAllocSize r = true) records ->
  (length records <= length (concat records))%nat.
Proof.
  induction 1 as [|r records Hr _ IH]; cbn; [lia|].
  apply record_wf_inv in Hr as (_ & _ & [H _] & _). rewrite length_app. lia.
Qed.

(** The scan of a file that starts with well-formed records. *)
Lemma scan_file_prefix begtime endtime records (tail : bytes) :
  Forall (fun r => record_wf MaxAllocSize r = true) records ->
  exists rows,
    mapM (make_row conv) (List.filter (selected conv begtime endtime) records) = Some rows /\
    scan_file conv MaxAllocSize begtime endtime (concat records ++ tail) [] =
      query_loop conv MaxAllocSize (S (length (concat records ++ tail)) - length records)
        begtime endtime (concat records ++ tail) (length (concat records)) rows /\
    ((length tail < 24)%nat \/ header_ok tail = false ->
     scan_file conv MaxAllocSize begtime endtime (concat records ++ tail) [] = Done rows) /\
    (forall rows',
       scan_file conv MaxAllocSize begtime endtime (concat records ++ tail) [] = Done rows' ->
       exists more, rows' = rows ++ more).
Proof.
  intros Hwf.
  destruct (query_loop_prefix begtime endtime records tail Hwf) as (rows & Hm & Hq).
  pose proof (records_count records Hwf) as Hcount.
  exists rows. split; [done|].
  set (c := concat records ++ tail) in *.
  assert (Hlen : (length (concat records) <= length c)%nat)
    by (unfold c; rewrite length_app; lia).
  assert (Hscan : scan_file conv MaxAllocSize begtime endtime c [] =
                  query_loop conv MaxAllocSize (S (length c) - length records)
                    begtime endtime c (length (concat records)) rows).
  { unfold scan_file.
    replace (S (length c)) with (length records + (S (length c) - length records))%nat
      at 1 by lia.
    exact (Hq _ [] []). }
  split; [exact Hscan|]. split.
  - intros Hstop. rewrite Hscan.
    replace (S (length c) - length records)%nat
      with (S (length c - length records)) by lia.
    cbn [query_loop]. unfold sizeof_AuditMsgHdr. change (Z.to_nat 24) with 24%nat.
    unfold Mem.read at 1 2. unfold c. rewrite drop_app_length.
    destruct (length (take 24 tail) <? 24)%nat eqn:E; [done|].
    apply Nat.ltb_ge in E. rewrite length_take in E.
    destruct Hstop as [Hshort|Hbad]; [lia|].
    by rewrite header_ok_take, Hbad.
  - intros rows'. rewrite Hscan, query_loop_acc.
    destruct (query_loop _ _ _ _ _ _ _ []) as [more| | |]; try done.
    intros [= <-]. by exists more.
Qed.

(** C5, as amended.  Query closure.  In a file that starts with
    well-formed records, whatever follows them, the scan of the query
    engine stores a row for one of these records if and only if the
    record's time lies in the half-open range [begtime, endtime) and its
    flags are the live value 1: the rows it holds when it reaches the end
    of these records are those of the records that pass this test, one
    each and in order, so a tombstoned record never gives a row.  The scan
    ends there, with these rows, when what follows is shorter than a
    header or does not carry the signature, version 0 and thirteen
    fields; whatever follows, the rows it returns start with these.
    [pg_query_audit] returns them among its rows when the file is that of
    a slot of the ring that [pgaudit_check_system] lets pass and the scans
    of the files it opens end normally.  In particular, over the range
    that starts at the time of one of these records and ends one tick
    later, the record is among those that are given a row exactly when it
    is live; and the test of both scans, for the range that starts at a
    record's own time and ends one tick (or one second) later, selects
    the record exactly when it is live. *)
Theorem query_closure (d : Disk) (fnum : Z) (records : list bytes) (tail : bytes)
    (begtime endtime : Z) :
  file_content d fnum = Some (concat records ++ tail) ->
  Forall (fun r => record_wf MaxAllocSize r = true) records ->
  let shown :=
    List.filter
      (fun r => (begtime <=? conv (hdr_time r)) && (conv (hdr_time r) <? endtime) &&
                (hdr_flags r =? AUDIT_TUPLE_NORMAL)) records in
  (exists rows,
     Forall2 (fun r row => make_row conv r = Some row) shown rows /\
     pgaudit_query_file conv MaxAllocSize d fnum begtime endtime [] =
       query_loop conv MaxAllocSize (S (length (concat records ++ tail)) - length records)
         begtime endtime (concat records ++ tail) (length (concat records)) rows /\
     ((length tail < 24)%nat \/ header_ok tail = false ->
      pgaudit_query_file conv MaxAllocSize d fnum begtime endtime [] = Done rows) /\
     (forall rows',
        pgaudit_query_file conv MaxAllocSize d fnum begtime endtime [] = Done rows' ->
        exists more, rows' = rows ++ more) /\
     (forall (fuel : nat) (ctx : CallCtx) (t : AuditIndexTable) (index : Z),
        has_auditadmin_privilege ctx = true -> rsinfo_is_set ctx = true ->
        materialize_allowed ctx = true -> result_is_composite ctx = true ->
        natts ctx = PGAUDIT_QUERY_COLS ->
        pgaudit_read_indexfile false d = Some t ->
        0 <= begidx t < maxnum t -> 0 <= curidx t < maxnum t -> maxnum t < 2 ^ 32 ->
        begtime < endtime -> 0 < count t -> maxnum t <= Z.of_nat fuel ->
        index ∈ ring fuel t (begidx t) ->
        filenum (item_at t index) = fnum ->
        pgaudit_check_system conv begtime endtime index t = true ->
        Forall (fun i => exists r,
                  pgaudit_query_file conv MaxAllocSize d (filenum (item_at t i))
                    begtime endtime [] = Done r)
          (List.filter (fun i => pgaudit_check_system conv begtime endtime i t)
             (ring fuel t (begidx t))) ->
        exists before after opened,
          pg_query_audit conv MaxAllocSize fuel ctx false d begtime endtime =
            Done (before ++ rows ++ after, opened) /\
          fnum ∈ opened)) /\
  (forall r, r ∈ records ->
     (r ∈ shown <->
      begtime <= conv (hdr_time r) < endtime /\ hdr_flags r = AUDIT_TUPLE_NORMAL)) /\
  (forall r, r ∈ records ->
     begtime = conv (hdr_time r) -> endtime = conv (hdr_time r) + 1 ->
     (r ∈ shown <-> hdr_flags r = AUDIT_TUPLE_NORMAL)) /\
  (forall r, hdr_flags r <> AUDIT_TUPLE_NORMAL -> r ∉ shown) /\
  (forall r,
     selected conv (conv (hdr_time r)) (conv (hdr_time r) + 1) r =
       (hdr_flags r =? AUDIT_TUPLE_NORMAL) /\
     (conv (hdr_time r) < conv (hdr_time r + 1) ->
      selected conv (conv (hdr_time r)) (conv (hdr_time r + 1)) r =
        (hdr_flags r =? AUDIT_TUPLE_NORMAL))).
Proof.
  intros Hc Hwf shown.
  assert (Hshown : forall r, r ∈ shown <->
            r ∈ records /\
            (begtime <= conv (hdr_time r) < endtime /\ hdr_flags r = AUDIT_TUPLE_NORMAL)).
  { intros r. unfold shown. rewrite !list_elem_of_In, filter_In.
    rewrite !andb_true_iff, Z.leb_le, Z.ltb_lt, Z.eqb_eq. tauto. }
  split; [|split; [|split; [|split]]].
  2:{ intros r Hr. rewrite Hshown. tauto. }
  2:{ intros r Hr -> ->. rewrite Hshown. split; [tauto|]. intros Hlive.
      split; [done|]. split; [lia|done]. }
  2:{ intros r Hdead Hin. apply Hshown in Hin. tauto. }
  - destruct (scan_file_prefix begtime endtime records tail Hwf)
      as (rows & Hm & Hscan & Hstop & Hmore).
    assert (Hfile : pgaudit_query_file conv MaxAllocSize d fnum begtime endtime [] =
                    scan_file conv MaxAllocSize begtime endtime (concat records ++ tail) [])
      by (unfold pgaudit_query_file; by rewrite Hc).
    exists rows. split; [by apply mapM_Some in Hm|].
    rewrite Hfile. split; [exact Hscan|]. split; [exact Hstop|]. split; [exact Hmore|].
    intros fuel ctx t index Hpriv Hrs Hmat Hcomp Hnatts Hread Hb Hcur Hm32 Hlt Hcount
      Hfuel Hin Hnum Hcheck Hfiles.
    pose proof (ring_distance_range t (begidx t) ltac:(lia)) as Hdist.
    unfold pg_query_audit.
    rewrite Hpriv, Hrs, Hmat, Hcomp, Hnatts, Z.eqb_refl, Hread. cbn [negb].
    rewrite (proj2 (Z.ltb_lt _ _) Hlt), (proj2 (Z.ltb_lt _ _) Hcount). cbn [andb].
    rewrite (query_slots_ring conv MaxAllocSize begtime endtime d t Hcur Hm32)
      by (done || lia).
    cbn [app].
    assert (Hvis : index ∈ visited conv begtime endtime fuel t (begidx t)).
    { unfold visited. apply list_elem_of_In, filter_In.
      split; [by apply list_elem_of_In|done]. }
    apply list_elem_of_split in Hvis as (l1 & l2 & Hsplit).
    assert (Hhere : exists more,
              file_rows conv MaxAllocSize begtime endtime d (filenum (item_at t index)) =
              Done (rows ++ more)).
    { assert (Hv : index ∈ visited conv begtime endtime fuel t (begidx t))
        by (rewrite Hsplit; apply elem_of_app; right; apply list_elem_of_here).
      destruct (proj1 (Forall_forall _ _) Hfiles index Hv) as [r Hr].
      unfold file_rows. rewrite Hr. rewrite Hnum, Hfile in Hr.
      destruct (Hmore r Hr) as [more ->]. by exists more. }
    destruct Hhere as [more Hhere].
    set (f := fun i => rows_of (file_rows conv MaxAllocSize begtime endtime d
                                  (filenum (item_at t i)))).
    exists (concat (map f l1)), (more ++ concat (map f l2)),
      (map (fun i => filenum (item_at t i)) (visited conv begtime endtime fuel t (begidx t))).
    split.
    + do 2 f_equal. rewrite Hsplit, map_app, concat_app. cbn [map concat].
      unfold f at 2. rewrite Hhere. cbn [rows_of]. by rewrite <- app_assoc.
    + rewrite <- Hnum. apply list_elem_of_In.
      apply (in_map (fun i => filenum (item_at t i))). apply list_elem_of_In.
      rewrite Hsplit. apply elem_of_app. right. apply list_elem_of_here.
  - intros r. unfold selected. split.
    + replace (conv (hdr_time r) <=? conv (hdr_time r)) with true
        by (symmetry; apply Z.leb_le; lia).
      replace (conv (hdr_time r) <? conv (hdr_time r) + 1) with true
        by (symmetry; apply Z.ltb_lt; lia).
      reflexivity.
    + intros Hlt.
      replace (conv (hdr_time r) <=? conv (hdr_time r)) with true
        by (symmetry; apply Z.leb_le; lia).
      replace (conv (hdr_time r) <? conv (hdr_time r + 1)) with true
        by (symmetry; apply Z.ltb_lt; lia).
      reflexivity.
Qed.
End QueryClosure.

(** Thirty bytes that came in outside the protocol, as the write path
    stamps them, and a record behind them. *)
Definition segment : bytes := stamp 990 30 (replicate 30 120).

Definition segment_disk : Disk :=
  mkDisk {[ 5 := O ]} [segment ++ record_a] (Some (encode_indextbl one_file_tbl)).

(** A record stamped 1000 in a file that was rotated late: the next file
    carries the planned time 900. *)
Definition late_rotation_disk : Disk :=
  mkDisk {[ 5 := O; 6 := 1%nat ]} [record_a; []] (Some (encode_indextbl ring_tbl)).

(** C5, the claim as it was stated, fails here.  [record_a] is well formed,
    live and stamped 1000.  Behind a segment that is no record the scan of
    its file never reaches it, and the query over a range that holds its
    time returns no row.  In a file whose slot the file filter of
    [pg_query_audit] lets pass only for times before 900, the query over
    the range that starts at the record's own time does not open the file
    and returns no row. *)
Lemma query_misses_live_record :
  record_wf sample_MaxAllocSize record_a = true /\
  hdr_flags record_a = AUDIT_TUPLE_NORMAL /\
  hdr_time record_a = 1000 /\
  (file_content segment_disk 5 = Some (segment ++ record_a) /\
   pgaudit_query_file sample_conv sample_MaxAllocSize segment_disk 5
     (sample_conv 0) (sample_conv 1500) [] = Done [] /\
   pg_query_audit sample_conv sample_MaxAllocSize 3 sample_ctx false segment_disk
     (sample_conv 0) (sample_conv 1500) = Done ([], [5])) /\
  (file_content late_rotation_disk 5 = Some record_a /\
   pg_query_audit sample_conv sample_MaxAllocSize 3 sample_ctx false late_rotation_disk
     (sample_conv 1000) (sample_conv 1000 + 1) = Done ([], [6])).
Proof.
  split; [vm_compute; reflexivity|]. split; [vm_compute; reflexivity|].
  split; [vm_compute; reflexivity|]. split.
  - split; [vm_compute; reflexivity|]. split; vm_compute; reflexivity.
  - split; vm_compute; reflexivity.
Qed.

Lemma query_closure_witness :
  file_content cut_disk 5 = Some (concat [record_a] ++ take 16 record_b) /\
  Forall (fun r => record_wf sample_MaxAllocSize r = true) [record_a] /\
  exists row,
    make_row sample_conv record_a = Some row /\
    pgaudit_query_file sample_conv sample_MaxAllocSize cut_disk 5
      (sample_conv 1000) (sample_conv 1000 + 1) [] = Done [row] /\
    exists before after opened,
      pg_query_audit sample_conv sample_MaxAllocSize 3 sample_ctx false cut_disk
        (sample_conv 1000) (sample_conv 1000 + 1) = Done (before ++ [row] ++ after, opened) /\
      5 ∈ opened.
Proof.
  assert (H1 : file_content cut_disk 5 = Some (concat [record_a] ++ take 16 record_b))
    by (vm_compute; reflexivity).
  assert (H2 : Forall (fun r => record_wf sample_MaxAllocSize r = true) [record_a])
    by (constructor; [vm_compute; reflexivity|constructor]).
  split; [exact H1|]. split; [exact H2|].
  pose proof (query_closure sample_conv sample_MaxAllocSize cut_disk 5 [record_a]
                (take 16 record_b) (sample_conv 1000) (sample_conv 1000 + 1) H1 H2)
    as Hclosure.
  cbv zeta in Hclosure.
  destruct Hclosure as [(rows & Hrows & _ & Hstop & _ & Hquery) _].
  assert (Hsel : List.filter
            (fun r => (sample_conv 1000 <=? sample_conv (hdr_time r)) &&
                      (sample_conv (hdr_time r) <? sample_conv 1000 + 1) &&
                      (hdr_flags r =? AUDIT_TUPLE_NORMAL)) [record_a] = [record_a])
    by (vm_compute; reflexivity).
  rewrite Hsel in Hrows.
  apply Forall2_cons_inv_l in Hrows as (row & rest & Hrow & Hrest & ->).
  apply Forall2_nil_inv_l in Hrest as ->.
  exists row. split; [exact Hrow|]. split.
  - apply Hstop. left. vm_compute. lia.
  - apply (Hquery 3%nat sample_ctx one_file_tbl 0).
    + reflexivity.
    + reflexivity.
    + reflexivity.
    + reflexivity.
    + reflexivity.
    + vm_compute. reflexivity.
    + vm_compute. split; [discriminate|reflexivity].
    + vm_compute. split; [discriminate|reflexivity].
    + vm_compute. reflexivity.
    + vm_compute. reflexivity.
    + vm_compute. reflexivity.
    + vm_compute. discriminate.
    + vm_compute. left.
    + vm_compute. reflexivity.
    + vm_compute. reflexivity.
    + replace (List.filter
                 (fun i => pgaudit_check_system sample_conv (sample_conv 1000)
                             (sample_conv 1000 + 1) i one_file_tbl)
                 (ring 3 one_file_tbl (begidx one_file_tbl))) with [0]
        by (vm_compute; reflexivity).
      constructor; [|constructor]. eexists. apply Hstop. left. vm_compute. lia.
Defined.


(** * A file marked by the write path *)

Section MarkedFile.
Variable PIPE_BUF : option Z.
Variable conv : Z -> Z.
Variable MaxAllocSize : Z.

(** The file filter lets a slot whose [ctime] is not positive pass,
    wherever the slot lies and whatever the range. *)
Lemma check_system_marked (t : AuditIndexTable) (index begtime endtime : Z) :
  ctime (item_at t index) <= 0 ->
  pgaudit_check_system conv begtime endtime index t = true.
Proof.
  intros H. unfold pgaudit_check_system.
  destruct (Z.ltb_spec 0 (ctime (item_at t index))); [lia|done].
Qed.

Lemma records_file_rows (n : nat) (d : Disk) (fnum begtime endtime : Z) :
  records_file MaxAllocSize n d fnum ->
  exists r, file_rows conv MaxAllocSize begtime endtime d fnum = Done r.
Proof.
  intros Hfile. unfold file_rows, pgaudit_query_file.
  destruct (file_content d fnum) as [c|] eqn:Ec; [|by eexists].
  destruct (Hfile c Ec) as (records & -> & Hwf & _).
  destruct (scan_file_records conv MaxAllocSize begtime endtime records Hwf)
    as (rows & _ & Hscan).
  by exists rows.
Qed.

(** X7. A file the write path has marked stays in reach of every query
    and delete.  When the clock is seen to have gone back,
    [pgaudit_write_file] makes the positive [ctime] of the current slot
    negative, in the table and in the index file.  From then on, in any
    directory whose table has this file with this [ctime] in a slot of its
    ring, current or not, [pgaudit_check_system] lets the slot pass for
    every range, and [pg_query_audit] and [pg_delete_audit] over any
    non-empty range open the file, the files they visit being sequences
    of well-formed records. *)
Theorem rewound_file_always_scanned (wfuel : nat) (env : Env) (w : World)
    (t : AuditIndexTable) (fh : nat) (buffer : bytes) (nbytes : Z) :
  audit_indextbl w = Some t ->
  sysauditFile w = Some fh ->
  is_Some (inodes (disk w) !! fh) ->
  (Z.to_nat (curidx t) < length (data t))%nat ->
  am_auditor env = true ->
  indexfile_open_fails env = false ->
  now env (tick w) < last_audit_time t ->
  now env (tick w) <= now env (S (tick w)) ->
  (0 < wfuel)%nat ->
  0 < ctime (item_at t (curidx t)) ->
  let marked :=
    set_last_audit_time (now env (tick w))
      (set_item (curidx t) (mark_rewind (item_at t (curidx t))) t) in
  (exists w',
     pgaudit_write_file PIPE_BUF wfuel env buffer nbytes w =
       Some (stamp (now env (tick w)) nbytes buffer, w') /\
     audit_indextbl w' = Some marked /\
     index_file (disk w') = Some (encode_indextbl marked)) /\
  ctime (item_at marked (curidx t)) = - ctime (item_at t (curidx t)) /\
  filenum (item_at marked (curidx t)) = filenum (item_at t (curidx t)) /\
  forall (d : Disk) (t2 : AuditIndexTable) (index : Z) (fuel n : nat)
         (header0 : bytes) (ctx : CallCtx) (begtime endtime : Z),
    has_auditadmin_privilege ctx = true -> rsinfo_is_set ctx = true ->
    materialize_allowed ctx = true -> result_is_composite ctx = true ->
    natts ctx = PGAUDIT_QUERY_COLS ->
    pgaudit_read_indexfile false d = Some t2 ->
    0 <= begidx t2 < maxnum t2 -> 0 <= curidx t2 < maxnum t2 -> maxnum t2 < 2 ^ 32 ->
    begtime < endtime -> 0 < count t2 ->
    maxnum t2 + Z.of_nat n <= Z.of_nat fuel ->
    index ∈ ring fuel t2 (begidx t2) ->
    ctime (item_at t2 index) = ctime (item_at marked (curidx t)) ->
    filenum (item_at t2 index) = filenum (item_at marked (curidx t)) ->
    Forall (fun i => records_file MaxAllocSize n d (filenum (item_at t2 i)))
      (visited conv begtime endtime fuel t2 (begidx t2)) ->
    pgaudit_check_system conv begtime endtime index t2 = true /\
    exists rows d' opened,
      pg_query_audit conv MaxAllocSize fuel ctx false d begtime endtime = Done (rows, opened) /\
      pg_delete_audit conv fuel header0 ctx false d begtime endtime = Done (d', opened) /\
      filenum (item_at t (curidx t)) ∈ opened.
Proof.
  intros Ht Hfh Hino Hcur Ham Hidx Hback Hfwd Hfuel Hpos marked.
  destruct (write_file_rewind PIPE_BUF wfuel env w t fh buffer nbytes
              Ht Hfh Hino Hcur Ham Hidx Hback Hfwd Hfuel)
    as (w' & Hwrite & Htbl & Hct & Hfile & _).
  fold marked in Htbl, Hct, Hfile.
  rewrite (proj2 (Z.ltb_lt _ _) Hpos) in Hct.
  assert (Hnum : filenum (item_at marked (curidx t)) = filenum (item_at t (curidx t))).
  { unfold marked.
    change (item_at (set_last_audit_time ?v ?x) ?i) with (item_at x i).
    rewrite item_at_set_item_eq by done. unfold mark_rewind.
    by destruct (0 <? ctime (item_at t (curidx t))). }
  split; [by exists w'|]. split; [exact Hct|]. split; [exact Hnum|].
  intros d t2 index fuel n header0 ctx begtime endtime Hpriv Hrs Hmat Hcomp Hnatts
    Hread Hb Hc2 Hm32 Hlt Hcount Hfuel2 Hin Hsame Hsamenum Hfiles.
  assert (Hcheck : pgaudit_check_system conv begtime endtime index t2 = true)
    by (apply check_system_marked; lia).
  split; [exact Hcheck|].
  pose proof (ring_distance_range t2 (begidx t2) ltac:(lia)) as Hdist.
  destruct (delete_slots_ring conv MaxAllocSize begtime endtime n header0 t2
              (visited conv begtime endtime fuel t2 (begidx t2)) Hc2 Hm32 fuel
              (begidx t2) d [] Hb ltac:(lia) Hfiles ltac:(done))
    as (d' & Hrun & _).
  exists (concat (map (fun i => rows_of (file_rows conv MaxAllocSize begtime endtime d
                                          (filenum (item_at t2 i))))
                    (visited conv begtime endtime fuel t2 (begidx t2)))),
    d', (map (fun i => filenum (item_at t2 i)) (visited conv begtime endtime fuel t2 (begidx t2))).
  split; [|split].
  - unfold pg_query_audit.
    rewrite Hpriv, Hrs, Hmat, Hcomp, Hnatts, Z.eqb_refl, Hread. cbn [negb].
    rewrite (proj2 (Z.ltb_lt _ _) Hlt), (proj2 (Z.ltb_lt _ _) Hcount). cbn [andb].
    rewrite (query_slots_ring conv MaxAllocSize begtime endtime d t2 Hc2 Hm32)
      by first [ done | lia
               | eapply Forall_impl; [exact Hfiles|]; intros i Hi; cbn;
                 by apply (records_file_rows n) ].
    done.
  - unfold pg_delete_audit.
    rewrite Hpriv, Hread. cbn [negb].
    rewrite (proj2 (Z.ltb_lt _ _) Hlt), (proj2 (Z.ltb_lt _ _) Hcount). cbn [andb].
    exact Hrun.
  - rewrite <- Hnum, <- Hsamenum. apply list_elem_of_In.
    apply (in_map (fun i => filenum (item_at t2 i))).
    unfold visited. apply filter_In. split; [by apply list_elem_of_In|done].
Qed.
End MarkedFile.

(** A later state of the directory: the marked file is no longer the
    current one. *)
Definition marked_ring_tbl : AuditIndexTable :=
  mkTbl 3 2 0 2 3700 [mkItem 3600 6 0; zero_item; mkItem (-800) 5 87].

Definition marked_ring_disk : Disk :=
  mkDisk {[ 5 := O; 6 := 1%nat ]} [record_a; record_a]
    (Some (encode_indextbl marked_ring_tbl)).

Lemma marked_ring_disk_records (fnum : Z) :
  records_file sample_MaxAllocSize 2 marked_ring_disk fnum.
Proof.
  intros c Hc. unfold file_content, marked_ring_disk in Hc. cbn [dir inodes] in Hc.
  destruct (decide (fnum = 5)) as [->|H5]; [|destruct (decide (fnum = 6)) as [->|H6]].
  3:{ rewrite lookup_insert_ne, lookup_singleton_ne in Hc by done. done. }
  all: vm_compute in Hc; injection Hc as <-.
  all: exists [record_a]; split; [|split];
    [ reflexivity
    | constructor; [vm_compute; reflexivity|constructor]
    | cbn; lia ].
Qed.

Lemma rewound_file_always_scanned_witness :
  (exists w',
     pgaudit_write_file (Some 512) 1 rewound_env record_b 192 (one_file_world record_a) =
       Some (stamp 500 192 record_b, w') /\
     index_file (disk w') =
       Some (encode_indextbl
               (set_last_audit_time 500
                  (set_item 0 (mkItem (-800) 5 0) one_file_tbl)))) /\
  pgaudit_check_system sample_conv (sample_conv 5000) (sample_conv 6000) 2
    marked_ring_tbl = true /\
  exists rows d' opened,
    pg_query_audit sample_conv sample_MaxAllocSize 5 sample_ctx false marked_ring_disk
      (sample_conv 5000) (sample_conv 6000) = Done (rows, opened) /\
    pg_delete_audit sample_conv 5 [] sample_ctx false marked_ring_disk
      (sample_conv 5000) (sample_conv 6000) = Done (d', opened) /\
    5 ∈ opened.
Proof.
  destruct (rewound_file_always_scanned (Some 512) sample_conv sample_MaxAllocSize 1
              rewound_env (one_file_world record_a) one_file_tbl O record_b 192)
    as (Hwrite & _ & _ & Hopen).
  - reflexivity.
  - reflexivity.
  - eexists. reflexivity.
  - vm_compute. lia.
  - reflexivity.
  - reflexivity.
  - vm_compute. reflexivity.
  - vm_compute. discriminate.
  - lia.
  - vm_compute. reflexivity.
  - split.
    + destruct Hwrite as (w' & Hw & _ & Hidx). exists w'. split; [exact Hw|exact Hidx].
    + apply (Hopen marked_ring_disk marked_ring_tbl 2 5%nat 2%nat [] sample_ctx
               (sample_conv 5000) (sample_conv 6000)).
      * reflexivity.
      * reflexivity.
      * reflexivity.
      * reflexivity.
      * reflexivity.
      * vm_compute. reflexivity.
      * vm_compute. split; [discriminate|reflexivity].
      * vm_compute. split; [discriminate|reflexivity].
      * vm_compute. reflexivity.
      * vm_compute. reflexivity.
      * vm_compute. reflexivity.
      * vm_compute. discriminate.
      * vm_compute. left.
      * vm_compute. reflexivity.
      * vm_compute. reflexivity.
      * apply Forall_forall. intros i _. apply marked_ring_disk_records.
Defined.
